(** * A shallow embedding of the JavaScript parser of package [js]

    The development follows the Go sources: [js/util.go] (literal
    predicates on byte slices) and the recursive-descent parser
    ([Parse], [parseStmt], [parseExpression], ...).  Go byte slices are
    [string]s, Go [int]s are [Z] or [nat] indices, the parser state is a
    record threaded through a small state monad, and the mutually
    recursive parse functions are tied together by a fuel-indexed knot. *)

From Stdlib Require Import String Ascii List ZArith Bool Arith Lia.
Import ListNotations.

Set Implicit Arguments.
Local Open Scope string_scope.
Local Open Scope bool_scope.
Local Open Scope nat_scope.

(* ================================================================== *)
(** ** js/util.go *)
(* ================================================================== *)

Module Util.

(** [b[i]] for an index in range. *)
Definition byteAt (b : string) (i : nat) : option ascii := String.get i b.

(** ['0' <= c && c <= '9'] *)
Definition isDigit (c : ascii) : bool :=
  (nat_of_ascii "0"%char <=? nat_of_ascii c)%nat &&
  (nat_of_ascii c <=? nat_of_ascii "9"%char)%nat.

(** [for i < len(b) && '0' <= b[i] && b[i] <= '9' { i++ }]; the loop runs
    at most [len(b) - i] times, which is the fuel it is given. *)
Fixpoint digitsLoop (fuel : nat) (b : string) (i : nat) : nat :=
  match fuel with
  | O => i
  | S fuel' =>
      if i <? String.length b then
        match byteAt b i with
        | Some c => if isDigit c then digitsLoop fuel' b (S i) else i
        | None => i
        end
      else i
  end.

Definition isDot (c : ascii) : bool := Ascii.eqb c "."%char.

(** [func AsDecimalLiteral(b []byte) bool] *)
Definition AsDecimalLiteral (b : string) : bool :=
  match byteAt b 0 with
  | None => false                                   (* len(b) == 0 *)
  | Some b0 =>
      if negb (isDigit b0) && negb (isDot b0) then false
      else
        let i := 1 in
        let i := if negb (isDot b0)
                 then digitsLoop (String.length b - i) b i else i in
        let i := if (i <? String.length b) &&
                    match byteAt b i with Some c => isDot c | None => false end
                 then digitsLoop (String.length b - S i) b (S i)
                 else i in
        i =? String.length b
  end.

(** The loop of [AsIdentifierName],
    [for i < len(b) { if identifierTable[b[i]] { i++ } else { return false } }],
    with the fuel [len(b) - i]; it answers what the function returns. *)
Fixpoint identifierLoop (identifierTable : ascii -> bool) (fuel : nat)
    (b : string) (i : nat) : bool :=
  match fuel with
  | O => true
  | S fuel' =>
      if i <? String.length b then
        match byteAt b i with
        | Some c =>
            if identifierTable c then identifierLoop identifierTable fuel' b (S i)
            else false
        | None => true
        end
      else true
  end.

(** [func AsIdentifierName(b []byte) bool].  The lookup tables
    [identifierStartTable] and [identifierTable], indexed by a byte, belong
    to the lexer; they are arguments here. *)
Definition AsIdentifierName (identifierStartTable identifierTable : ascii -> bool)
    (b : string) : bool :=
  match byteAt b 0 with
  | None => false                                   (* len(b) == 0 *)
  | Some b0 =>
      if negb (identifierStartTable b0) then false
      else identifierLoop identifierTable (String.length b - 1) b 1
  end.

(** Every byte of [s] is a decimal digit. *)
Definition allDigits (s : string) : bool :=
  forallb isDigit (list_ascii_of_string s).

End Util.

(* ================================================================== *)
(** ** Token types, precedences and declaration kinds *)
(* ================================================================== *)

(** The token types the parser names.  The lexer's own file is not part of
    the sources at hand; [OtherToken] stands for every token type the
    parser never mentions by name. *)
Inductive TokenType : Set :=
  | ErrorToken | WhitespaceToken | LineTerminatorToken | CommentToken
  | CommentLineTerminatorToken | StringToken | TemplateToken
  | TemplateStartToken | TemplateMiddleToken | TemplateEndToken | RegExpToken
  | NumericToken | OpenBraceToken | CloseBraceToken | OpenParenToken
  | CloseParenToken | OpenBracketToken | CloseBracketToken | DotToken
  | SemicolonToken | CommaToken | QuestionToken | ColonToken | ArrowToken
  | EllipsisToken | EqToken | EqEqToken | EqEqEqToken | NotToken | NotEqToken
  | NotEqEqToken | LtToken | LtEqToken | LtLtToken | LtLtEqToken | GtToken
  | GtEqToken | GtGtToken | GtGtEqToken | GtGtGtToken | GtGtGtEqToken
  | AddToken | AddEqToken | IncrToken | SubToken | SubEqToken | DecrToken
  | MulToken | MulEqToken | ExpToken | ExpEqToken | DivToken | DivEqToken
  | ModToken | ModEqToken | BitAndToken | BitOrToken | BitXorToken
  | BitNotToken | BitAndEqToken | BitOrEqToken | BitXorEqToken | AndToken
  | OrToken | NullishToken | OptChainToken | PosToken | NegToken
  | PreIncrToken | PreDecrToken | PostIncrToken | PostDecrToken | AwaitToken
  | BreakToken | CaseToken | CatchToken | ClassToken | ConstToken
  | ContinueToken | DebuggerToken | DefaultToken | DeleteToken | DoToken
  | ElseToken | ExportToken | ExtendsToken | FalseToken | FinallyToken
  | ForToken | FunctionToken | IfToken | ImportToken | InToken
  | InstanceofToken | NewToken | NullToken | ReturnToken | SuperToken
  | SwitchToken | ThisToken | ThrowToken | TrueToken | TryToken | TypeofToken
  | YieldToken | VarToken | VoidToken | WhileToken | WithToken
  | IdentifierToken | AsToken | AsyncToken | FromToken | GetToken | LetToken
  | MetaToken | OfToken | SetToken | StaticToken | TargetToken
  | OtherToken (code : nat).

Module TokenCode.
(** A numbering of the token types, used only to decide equality. *)
Definition code (t : TokenType) : nat :=
  match t with
  | ErrorToken => 0
  | WhitespaceToken => 1
  | LineTerminatorToken => 2
  | CommentToken => 3
  | CommentLineTerminatorToken => 4
  | StringToken => 5
  | TemplateToken => 6
  | TemplateStartToken => 7
  | TemplateMiddleToken => 8
  | TemplateEndToken => 9
  | RegExpToken => 10
  | NumericToken => 11
  | OpenBraceToken => 12
  | CloseBraceToken => 13
  | OpenParenToken => 14
  | CloseParenToken => 15
  | OpenBracketToken => 16
  | CloseBracketToken => 17
  | DotToken => 18
  | SemicolonToken => 19
  | CommaToken => 20
  | QuestionToken => 21
  | ColonToken => 22
  | ArrowToken => 23
  | EllipsisToken => 24
  | EqToken => 25
  | EqEqToken => 26
  | EqEqEqToken => 27
  | NotToken => 28
  | NotEqToken => 29
  | NotEqEqToken => 30
  | LtToken => 31
  | LtEqToken => 32
  | LtLtToken => 33
  | LtLtEqToken => 34
  | GtToken => 35
  | GtEqToken => 36
  | GtGtToken => 37
  | GtGtEqToken => 38
  | GtGtGtToken => 39
  | GtGtGtEqToken => 40
  | AddToken => 41
  | AddEqToken => 42
  | IncrToken => 43
  | SubToken => 44
  | SubEqToken => 45
  | DecrToken => 46
  | MulToken => 47
  | MulEqToken => 48
  | ExpToken => 49
  | ExpEqToken => 50
  | DivToken => 51
  | DivEqToken => 52
  | ModToken => 53
  | ModEqToken => 54
  | BitAndToken => 55
  | BitOrToken => 56
  | BitXorToken => 57
  | BitNotToken => 58
  | BitAndEqToken => 59
  | BitOrEqToken => 60
  | BitXorEqToken => 61
  | AndToken => 62
  | OrToken => 63
  | NullishToken => 64
  | OptChainToken => 65
  | PosToken => 66
  | NegToken => 67
  | PreIncrToken => 68
  | PreDecrToken => 69
  | PostIncrToken => 70
  | PostDecrToken => 71
  | AwaitToken => 72
  | BreakToken => 73
  | CaseToken => 74
  | CatchToken => 75
  | ClassToken => 76
  | ConstToken => 77
  | ContinueToken => 78
  | DebuggerToken => 79
  | DefaultToken => 80
  | DeleteToken => 81
  | DoToken => 82
  | ElseToken => 83
  | ExportToken => 84
  | ExtendsToken => 85
  | FalseToken => 86
  | FinallyToken => 87
  | ForToken => 88
  | FunctionToken => 89
  | IfToken => 90
  | ImportToken => 91
  | InToken => 92
  | InstanceofToken => 93
  | NewToken => 94
  | NullToken => 95
  | ReturnToken => 96
  | SuperToken => 97
  | SwitchToken => 98
  | ThisToken => 99
  | ThrowToken => 100
  | TrueToken => 101
  | TryToken => 102
  | TypeofToken => 103
  | YieldToken => 104
  | VarToken => 105
  | VoidToken => 106
  | WhileToken => 107
  | WithToken => 108
  | IdentifierToken => 109
  | AsToken => 110
  | AsyncToken => 111
  | FromToken => 112
  | GetToken => 113
  | LetToken => 114
  | MetaToken => 115
  | OfToken => 116
  | SetToken => 117
  | StaticToken => 118
  | TargetToken => 119
  | OtherToken n => 120 + n
  end.

Definition decode (n : nat) : TokenType :=
  match n with
  | 0 => ErrorToken
  | 1 => WhitespaceToken
  | 2 => LineTerminatorToken
  | 3 => CommentToken
  | 4 => CommentLineTerminatorToken
  | 5 => StringToken
  | 6 => TemplateToken
  | 7 => TemplateStartToken
  | 8 => TemplateMiddleToken
  | 9 => TemplateEndToken
  | 10 => RegExpToken
  | 11 => NumericToken
  | 12 => OpenBraceToken
  | 13 => CloseBraceToken
  | 14 => OpenParenToken
  | 15 => CloseParenToken
  | 16 => OpenBracketToken
  | 17 => CloseBracketToken
  | 18 => DotToken
  | 19 => SemicolonToken
  | 20 => CommaToken
  | 21 => QuestionToken
  | 22 => ColonToken
  | 23 => ArrowToken
  | 24 => EllipsisToken
  | 25 => EqToken
  | 26 => EqEqToken
  | 27 => EqEqEqToken
  | 28 => NotToken
  | 29 => NotEqToken
  | 30 => NotEqEqToken
  | 31 => LtToken
  | 32 => LtEqToken
  | 33 => LtLtToken
  | 34 => LtLtEqToken
  | 35 => GtToken
  | 36 => GtEqToken
  | 37 => GtGtToken
  | 38 => GtGtEqToken
  | 39 => GtGtGtToken
  | 40 => GtGtGtEqToken
  | 41 => AddToken
  | 42 => AddEqToken
  | 43 => IncrToken
  | 44 => SubToken
  | 45 => SubEqToken
  | 46 => DecrToken
  | 47 => MulToken
  | 48 => MulEqToken
  | 49 => ExpToken
  | 50 => ExpEqToken
  | 51 => DivToken
  | 52 => DivEqToken
  | 53 => ModToken
  | 54 => ModEqToken
  | 55 => BitAndToken
  | 56 => BitOrToken
  | 57 => BitXorToken
  | 58 => BitNotToken
  | 59 => BitAndEqToken
  | 60 => BitOrEqToken
  | 61 => BitXorEqToken
  | 62 => AndToken
  | 63 => OrToken
  | 64 => NullishToken
  | 65 => OptChainToken
  | 66 => PosToken
  | 67 => NegToken
  | 68 => PreIncrToken
  | 69 => PreDecrToken
  | 70 => PostIncrToken
  | 71 => PostDecrToken
  | 72 => AwaitToken
  | 73 => BreakToken
  | 74 => CaseToken
  | 75 => CatchToken
  | 76 => ClassToken
  | 77 => ConstToken
  | 78 => ContinueToken
  | 79 => DebuggerToken
  | 80 => DefaultToken
  | 81 => DeleteToken
  | 82 => DoToken
  | 83 => ElseToken
  | 84 => ExportToken
  | 85 => ExtendsToken
  | 86 => FalseToken
  | 87 => FinallyToken
  | 88 => ForToken
  | 89 => FunctionToken
  | 90 => IfToken
  | 91 => ImportToken
  | 92 => InToken
  | 93 => InstanceofToken
  | 94 => NewToken
  | 95 => NullToken
  | 96 => ReturnToken
  | 97 => SuperToken
  | 98 => SwitchToken
  | 99 => ThisToken
  | 100 => ThrowToken
  | 101 => TrueToken
  | 102 => TryToken
  | 103 => TypeofToken
  | 104 => YieldToken
  | 105 => VarToken
  | 106 => VoidToken
  | 107 => WhileToken
  | 108 => WithToken
  | 109 => IdentifierToken
  | 110 => AsToken
  | 111 => AsyncToken
  | 112 => FromToken
  | 113 => GetToken
  | 114 => LetToken
  | 115 => MetaToken
  | 116 => OfToken
  | 117 => SetToken
  | 118 => StaticToken
  | 119 => TargetToken
  | _ => OtherToken (n - 120)
  end.
End TokenCode.

Definition tt_eqb (a b : TokenType) : bool :=
  Nat.eqb (TokenCode.code a) (TokenCode.code b).

(** Modelled from the spec: the precedence ladder of section 4.2, loosest to
    tightest (the constants [OpExpr] ... [OpPrimary] are declared outside
    the parser's file). *)
Inductive OpPrec : Set :=
  | OpExpr | OpAssign | OpCoalesce | OpOr | OpAnd | OpBitOr | OpBitXor
  | OpBitAnd | OpEquals | OpCompare | OpShift | OpAdd | OpMul | OpExp
  | OpUnary | OpUpdate | OpLHS | OpMember | OpPrimary.

Definition precRank (o : OpPrec) : nat :=
  match o with
  | OpExpr => 0 | OpAssign => 1 | OpCoalesce => 2 | OpOr => 3 | OpAnd => 4
  | OpBitOr => 5 | OpBitXor => 6 | OpBitAnd => 7 | OpEquals => 8
  | OpCompare => 9 | OpShift => 10 | OpAdd => 11 | OpMul => 12 | OpExp => 13
  | OpUnary => 14 | OpUpdate => 15 | OpLHS => 16 | OpMember => 17
  | OpPrimary => 18
  end.

(** [a < b] and [a <= b] on precedences. *)
Definition prec_lt (a b : OpPrec) : bool := precRank a <? precRank b.
Definition prec_le (a b : OpPrec) : bool := precRank a <=? precRank b.
Definition prec_eqb (a b : OpPrec) : bool := precRank a =? precRank b.

(** Modelled from the spec: the declaration kinds of a Variable (section 3),
    with [NoDecl] for the placeholder of a use that has no declaration. *)
Inductive DeclType : Set :=
  | NoDecl | VariableDecl | FunctionDecl | ArgumentDecl | LexicalDecl | ExprDecl.

Definition decl_eqb (a b : DeclType) : bool :=
  match a, b with
  | NoDecl, NoDecl | VariableDecl, VariableDecl | FunctionDecl, FunctionDecl
  | ArgumentDecl, ArgumentDecl | LexicalDecl, LexicalDecl | ExprDecl, ExprDecl => true
  | _, _ => false
  end.

(** Go [error] values the parser handles: [io.EOF], a [*parse.Error]
    (position and message), the result of [fmt.Errorf], and any other. *)
Inductive error : Set :=
  | io_EOF
  | parse_Error (Offset : Z) (Message : string)
  | fmt_Error (msg : string)
  | other_Error (msg : string).

(** [err.Error()] *)
Definition Error (e : error) : string :=
  match e with
  | io_EOF => "EOF"
  | parse_Error _ m => m
  | fmt_Error m => m
  | other_Error m => m
  end.

(** [fmt.Sprintf] restricted to the verb the parser uses: every [%s] is
    replaced by the next argument; a verb without argument is kept as
    written. *)
Fixpoint Sprintf (format : string) (args : list string) : string :=
  match format with
  | EmptyString => EmptyString
  | String "%"%char (String "s"%char rest) =>
      match args with
      | a :: args' => a ++ Sprintf rest args'
      | [] => String "%"%char (String "s"%char (Sprintf rest []))
      end
  | String c rest => String c (Sprintf rest args)
  end.

Definition Errorf (format : string) (args : list string) : error :=
  fmt_Error (Sprintf format args).

(* ================================================================== *)
(** ** The syntax tree *)
(* ================================================================== *)

(** [VarRef] indexes [AST.Vars]; a [*Scope] is an index into the store of
    scopes, [None] being the nil pointer. *)
Definition VarRef := nat.
Definition ScopeRef := option nat.

Record LiteralExpr : Set := mkLiteralExpr { litTokenType : TokenType; litData : string }.

Inductive IExpr : Set :=
  | NilExpr                                  (* the nil interface value *)
  | VarRefExpr (ref : VarRef)
  | Literal (lit : LiteralExpr)              (* &LiteralExpr{...} *)
  | ArrayExpr (List : list Element)
  | ObjectExpr (List : list Property)
  | TemplateExpr (Tag : IExpr) (List : list TemplatePart) (Tail : string)
  | GroupExpr (X : IExpr)
  | IndexExpr (X Index : IExpr)
  | DotExpr (X : IExpr) (Y : LiteralExpr)
  | NewTargetExpr
  | ImportMetaExpr
  | NewExpr (X : IExpr) (Args : option Arguments)
  | CallExpr (X : IExpr) (Args : Arguments)
  | OptChainExpr (X Y : IExpr)
  | UnaryExpr (Op : TokenType) (X : IExpr)
  | BinaryExpr (Op : TokenType) (X Y : IExpr)
  | CondExpr (Cond X Y : IExpr)
  | YieldExpr (Generator : bool) (X : IExpr)
  | ArrowFuncExpr (f : ArrowFunc)
  | FuncDeclExpr (f : FuncDecl)
  | ClassDeclExpr (c : ClassDecl)
  | MethodDeclExpr (m : MethodDecl)
  | VarDeclExpr (v : VarDecl)
with Element : Set :=
  | mkElement (Value : IExpr) (Spread : bool)
with PropertyName : Set :=
  | mkPropertyName (Literal : LiteralExpr) (Computed : IExpr)
with Property : Set :=
  | mkProperty (Name : PropertyName) (Spread : bool) (Value Init : IExpr)
with TemplatePart : Set :=
  | mkTemplatePart (Value : string) (Expr : IExpr)
with Arguments : Set :=
  | mkArguments (List : list IExpr) (Rest : IExpr)
with IBinding : Set :=
  | NilBinding
  | VarRefBinding (ref : VarRef)
  | BindingArray (List : list BindingElement) (Rest : IBinding)
  | BindingObject (List : list BindingObjectItem) (Rest : option VarRef)
with BindingElement : Set :=
  | mkBindingElement (Binding : IBinding) (Default : IExpr)
with BindingObjectItem : Set :=
  | mkBindingObjectItem (Key : PropertyName) (Value : BindingElement)
with Params : Set :=
  | mkParams (List : list BindingElement) (Rest : IBinding)
with BlockStmt : Set :=
  | mkBlockStmt (List : list IStmt) (Scope : ScopeRef)
with ArrowFunc : Set :=
  | mkArrowFunc (Async : bool) (params : Params) (Body : BlockStmt) (Scope : ScopeRef)
with FuncDecl : Set :=
  | mkFuncDecl (Async Generator : bool) (Name : option VarRef)
               (params : Params) (Body : BlockStmt) (Scope : ScopeRef)
with MethodDecl : Set :=
  | mkMethodDecl (Static Async Generator Get Set_ : bool) (Name : PropertyName)
                 (params : Params) (Body : BlockStmt) (Scope : ScopeRef)
with ClassDecl : Set :=
  | mkClassDecl (Name : option VarRef) (Extends : IExpr) (Methods : list MethodDecl)
with VarDecl : Set :=
  | mkVarDecl (tokenType : TokenType) (List : list BindingElement)
with IStmt : Set :=
  | NilStmt                                  (* the nil interface value *)
  | BlockStmtS (b : BlockStmt)
  | VarDeclS (v : VarDecl)
  | ExprStmt (Value : IExpr)
  | IfStmt (Cond : IExpr) (Body Else : IStmt)
  | BranchStmt (Type_ : TokenType) (Label : option string)
  | ReturnStmt (Value : IExpr)
  | WithStmt (Cond : IExpr) (Body : IStmt)
  | DoWhileStmt (Cond : IExpr) (Body : IStmt)
  | WhileStmt (Cond : IExpr) (Body : IStmt)
  | ForStmt (Init Cond Post : IExpr) (Body : IStmt)
  | ForInStmt (Init Value : IExpr) (Body : IStmt)
  | ForOfStmt (Await : bool) (Init Value : IExpr) (Body : IStmt)
  | SwitchStmt (Init : IExpr) (List : list CaseClause)
  | FuncDeclS (f : FuncDecl)
  | ClassDeclS (c : ClassDecl)
  | ThrowStmt (Value : IExpr)
  | TryStmt (Body : BlockStmt) (Binding : IBinding) (Catch Finally : BlockStmt)
  | DebuggerStmt
  | EmptyStmt
  | LabelledStmt (Label : string) (Value : IStmt)
  | ImportStmtS (i : ImportStmt)
  | ExportStmtS (e : ExportStmt)
with CaseClause : Set :=
  | mkCaseClause (tokenType : TokenType) (Cond : IExpr) (List : list IStmt)
with ImportStmt : Set :=
  | mkImportStmt (List : list Alias) (Default : option string) (Module_ : option string)
with ExportStmt : Set :=
  | mkExportStmt (List : list Alias) (Module_ : option string) (Default : bool) (Decl : IExpr)
with Alias : Set :=
  | mkAlias (Name Binding : option string).

(** [Module{List, Scope}]: the root node. *)
Record ModuleNode : Set := mkModule { modList : list IStmt; modScope : ScopeRef }.

(** Modelled from the spec: a Variable [{name, declarationKind, useCount}]
    (section 3); [Link] records the entry an occurrence was rebound to when
    hoisting resolved it to another declaration. *)
Record Var : Set := mkVar { Decl : DeclType; Name : string; Uses : Z; Link : option VarRef }.

(** [Scope{Parent, Func, Declared, Undeclared, _}] as [enterScope] builds it.
    The fifth field is only ever written as [0] by the parser; the model
    calls it [NumArguments]. *)
Record Scope : Set := mkScope {
  Parent : ScopeRef;
  Func : ScopeRef;
  Declared : list VarRef;
  Undeclared : list VarRef;
  NumArguments : nat
}.

(** [AST]: the first comment, the module, the variable table and, in the
    model, the store holding every [Scope] struct that a node embeds
    (nodes and [Parser.scope] point into it). *)
Record AST : Set := mkAST {
  Comment : option string;
  astModule : ModuleNode;
  Vars : list Var;
  Scopes : list Scope
}.

(** [newAST()] *)
Definition newAST : AST := mkAST None (mkModule [] None) [] [].

Definition setModule (a : AST) (m : ModuleNode) : AST :=
  mkAST (Comment a) m (Vars a) (Scopes a).
Definition setComment (a : AST) (c : option string) : AST :=
  mkAST c (astModule a) (Vars a) (Scopes a).
Definition setVars (a : AST) (vs : list Var) : AST :=
  mkAST (Comment a) (astModule a) vs (Scopes a).
Definition setScopes (a : AST) (ss : list Scope) : AST :=
  mkAST (Comment a) (astModule a) (Vars a) ss.

(** [append(xs, x)] *)
Definition append {A : Type} (xs : list A) (x : A) : list A := (xs ++ [x])%list.

(** [xs[i] = x] for [i] in range (out of range the list is returned as is;
    every caller checks the index first). *)
Fixpoint update {A : Type} (xs : list A) (i : nat) (x : A) : list A :=
  match xs, i with
  | [], _ => []
  | _ :: xs', O => x :: xs'
  | y :: xs', S i' => y :: update xs' i' x
  end.

Definition setDecl (v : Var) (d : DeclType) : Var := mkVar d (Name v) (Uses v) (Link v).
Definition setUses (v : Var) (n : Z) : Var := mkVar (Decl v) (Name v) n (Link v).
Definition setLink (v : Var) (k : option VarRef) : Var := mkVar (Decl v) (Name v) (Uses v) k.
Definition setDeclared (s : Scope) (vs : list VarRef) : Scope :=
  mkScope (Parent s) (Func s) vs (Undeclared s) (NumArguments s).
Definition setUndeclared (s : Scope) (vs : list VarRef) : Scope :=
  mkScope (Parent s) (Func s) (Declared s) vs (NumArguments s).
Definition setNumArguments (s : Scope) (n : nat) : Scope :=
  mkScope (Parent s) (Func s) (Declared s) (Undeclared s) n.

(** [ast.Vars[ref] = v] and the assignment through a [*Scope]. *)
Definition setVarAt (a : AST) (ref : VarRef) (v : Var) : AST :=
  setVars a (update (Vars a) ref v).
Definition setScopeAt (a : AST) (i : nat) (s : Scope) : AST :=
  setScopes a (update (Scopes a) i s).

(* ================================================================== *)
(** ** Converting a parenthesized list into formal parameters *)
(* ================================================================== *)

(** [func (p *Parser) exprToBinding(expr IExpr) (binding IBinding)].  The
    method does not touch [p].  [None] is the panic of the type assertion
    [item.Value.(VarRef)] on a value that is not a [VarRef].  The elements
    of an array are converted as [exprToBindingElement] does
    (see [exprToBinding_array]). *)
Fixpoint exprToBinding (expr : IExpr) : option IBinding :=
  match expr with
  | VarRefExpr ref => Some (VarRefBinding ref)
  | ArrayExpr items =>
      (fix arrayItems (items : list Element) (list_ : list BindingElement)
         : option IBinding :=
         match items with
         | [] => Some (BindingArray list_ NilBinding)
         | mkElement value spread :: items' =>
             if spread then
               match exprToBinding value with
               | Some rest => Some (BindingArray list_ rest)
               | None => None
               end
             else
               match
                 match value with
                 | BinaryExpr op x y =>
                     if tt_eqb op EqToken then
                       match exprToBinding x with
                       | Some b => Some (mkBindingElement b y)
                       | None => None
                       end
                     else
                       match exprToBinding value with
                       | Some b => Some (mkBindingElement b NilExpr)
                       | None => None
                       end
                 | _ =>
                     match exprToBinding value with
                     | Some b => Some (mkBindingElement b NilExpr)
                     | None => None
                     end
                 end
               with
               | Some bindingElement => arrayItems items' (append list_ bindingElement)
               | None => None
               end
         end) items []
  | ObjectExpr items =>
      (fix objectItems (items : list Property) (list_ : list BindingObjectItem)
         : option IBinding :=
         match items with
         | [] => Some (BindingObject list_ None)
         | mkProperty name spread value init :: items' =>
             if spread then
               match value with
               | VarRefExpr ref => Some (BindingObject list_ (Some ref))
               | _ => None
               end
             else
               match exprToBinding value with
               | Some b =>
                   objectItems items'
                     (append list_ (mkBindingObjectItem name (mkBindingElement b init)))
               | None => None
               end
         end) items []
  | _ => Some NilBinding
  end.

(** [func (p *Parser) exprToBindingElement(expr IExpr) (bindingElement BindingElement)] *)
Definition exprToBindingElement (expr : IExpr) : option BindingElement :=
  match expr with
  | BinaryExpr op x y =>
      if tt_eqb op EqToken then
        match exprToBinding x with
        | Some b => Some (mkBindingElement b y)
        | None => None
        end
      else
        match exprToBinding expr with
        | Some b => Some (mkBindingElement b NilExpr)
        | None => None
        end
  | _ =>
      match exprToBinding expr with
      | Some b => Some (mkBindingElement b NilExpr)
      | None => None
      end
  end.

(** The loop of [exprToBinding] over the items of an array. *)
Fixpoint arrayItemsToBinding (items : list Element) (list_ : list BindingElement)
  : option IBinding :=
  match items with
  | [] => Some (BindingArray list_ NilBinding)
  | mkElement value spread :: items' =>
      if spread then
        match exprToBinding value with
        | Some rest => Some (BindingArray list_ rest)
        | None => None
        end
      else
        match exprToBindingElement value with
        | Some bindingElement => arrayItemsToBinding items' (append list_ bindingElement)
        | None => None
        end
  end.

(** [arrowFunc.Params.List[i] = p.exprToBindingElement(item)] for every item
    of the list, lines 1957-1960. *)
Fixpoint exprsToBindingElements (list_ : list IExpr) : option (list BindingElement) :=
  match list_ with
  | [] => Some []
  | item :: rest =>
      match exprToBindingElement item with
      | Some be =>
          match exprsToBindingElements rest with
          | Some bes => Some (be :: bes)
          | None => None
          end
      | None => None
      end
  end.

(** [left = list[0]; for _, item := range list[1:] { left = &BinaryExpr{CommaToken, left, item} }] *)
Definition foldComma (first : IExpr) (rest : list IExpr) : IExpr :=
  fold_left (fun left item => BinaryExpr CommaToken left item) rest first.

(* ================================================================== *)
(** ** The parser's collaborators *)
(* ================================================================== *)

(** The token source: [l.Next()], [l.RegExp()], [l.Err()] and
    [l.r.Offset()].  The lexer is an external collaborator; the parser is
    modelled over any implementation of this interface. *)
Class TokenSource (Lexer : Type) : Type := {
  Next : Lexer -> TokenType * string * Lexer;
  RegExp : Lexer -> TokenType * string * Lexer;
  Err : Lexer -> option error;
  Offset : Lexer -> Z
}.

(** Tables and helpers of the token file that the parser calls:
    [IsIdentifier], [IsIdentifierName], [IsNumeric], [tt.String()],
    [ParseIdentifierName] (only its [ok] result is used) and
    [ParseNumericLiteral]. *)
Class TokenTable : Type := {
  IsIdentifier : TokenType -> bool;
  IsIdentifierName : TokenType -> bool;
  IsNumeric : TokenType -> bool;
  TokenString : TokenType -> string;
  ParseIdentifierName : string -> bool;
  ParseNumericLiteral : string -> TokenType * bool
}.

(** The methods of [Scope], [AST] and [PropertyName] that the parser calls;
    the first six act on the variable table and on the scope store.
    [Declare_] is [Scope.Declare] and returns [(VarRef, ok)]. *)
Class AstOps : Type := {
  Declare_ : AST -> nat -> DeclType -> string -> AST * (VarRef * bool);
  Use : AST -> nat -> string -> AST * VarRef;
  HoistUndeclared : AST -> nat -> AST;
  UndeclareScope : AST -> nat -> AST;
  MarkArguments : AST -> nat -> AST;
  AddVar : AST -> DeclType -> string -> AST * VarRef;
  IsSet : PropertyName -> bool;
  IsComputed : PropertyName -> bool
}.

(* ================================================================== *)
(** ** The recursive calls of the parser *)
(* ================================================================== *)

(** One constructor per parse function of the parser and per loop inside
    one, indexed by the type of what it returns.  A loop constructor
    carries the loop's local state. *)
Inductive Call : Type -> Type :=
  | NextLoop : Call unit
  | ParseModuleLoop (list_ : list IStmt) : Call (list IStmt)
  | ParseStmt (allowDeclaration : bool) : Call IStmt
  | SwitchClausesLoop (clauses : list CaseClause) : Call (option (list CaseClause))
  | SwitchStmtsLoop (stmts : list IStmt) : Call (list IStmt)
  | ParseBlockStmt (in_ : string) (enterContext : bool) : Call BlockStmt
  | BlockStmtLoop (list_ : list IStmt) : Call (list IStmt * bool)
  | ParseImportStmt : Call ImportStmt
  | ImportListLoop (list_ : list Alias) : Call (list Alias * bool)
  | ParseExportStmt : Call ExportStmt
  | ExportListLoop (list_ : list Alias) : Call (list Alias * bool)
  | ParseVarDecl (tt_ : TokenType) : Call VarDecl
  | VarDeclLoop (declType : DeclType) (list_ : list BindingElement) : Call (list BindingElement)
  | ParseFuncParams (in_ : string) : Call Params
  | FuncParamsLoop (in_ : string) (list_ : list BindingElement) : Call (Params + list BindingElement)
  | ParseAnyFunc (async_ inExpr : bool) : Call FuncDecl
  | ParseAnyClass (inExpr : bool) : Call ClassDecl
  | ClassMethodsLoop (methods : list MethodDecl) : Call (list MethodDecl)
  | ParseMethod : Call MethodDecl
  | ParsePropertyName (in_ : string) : Call PropertyName
  | ParseBindingElement (decl : DeclType) : Call BindingElement
  | ParseBinding (decl : DeclType) : Call IBinding
  | BindingArrayLoop (decl : DeclType) (list_ : list BindingElement)
      : Call (option (list BindingElement * IBinding))
  | BindingElisionLoop (list_ : list BindingElement) : Call (list BindingElement)
  | BindingObjectLoop (decl : DeclType) (list_ : list BindingObjectItem)
      : Call (option (list BindingObjectItem * option VarRef))
  | ParseArrayLiteral : Call (list Element)
  | ArrayLiteralLoop (prevComma : bool) (list_ : list Element) : Call (list Element)
  | ParseObjectLiteral : Call (list Property)
  | ObjectLiteralLoop (list_ : list Property) : Call (list Property)
  | ParseTemplateLiteral : Call (list TemplatePart * string)
  | ParseArgs : Call Arguments
  | ArgsLoop (list_ : list IExpr) : Call Arguments
  | ParseAsyncArrowFunc : Call ArrowFunc
  | ParseIdentifierArrowFunc (ref : VarRef) : Call ArrowFunc
  | ParseArrowFuncBody : Call BlockStmt
  | ParseIdentifierExpression (prec : OpPrec) (ident : string) : Call IExpr
  | ParseAsyncExpression (prec : OpPrec) (async_ : string) : Call IExpr
  | ParseExpression (prec : OpPrec) : Call IExpr
  | ParseExpressionSuffix (left : IExpr) (prec precLeft : OpPrec) : Call IExpr
  | ParseAssignmentExpression : Call IExpr
  | ParseParenthesizedExpressionOrArrowFunc (prec : OpPrec) : Call IExpr
  | ParenListLoop (list_ : list IExpr) : Call (list IExpr * IBinding).

Section Parser.

Context {Lexer : Type} {TS : TokenSource Lexer} {TT : TokenTable} {AO : AstOps}.

(** [type Parser struct] *)
Record Parser : Type := mkParser {
  l : Lexer;
  err : option error;
  tt : TokenType;
  data : string;
  prevLT : bool;
  inFor : bool;
  async : bool;
  generator : bool;
  assumeArrowFunc : bool;
  ast : AST;
  scope : ScopeRef
}.

(** *** The parser monad

    A parser method is a function of the parser state.  It returns a value
    and the new state, or panics (a Go run-time panic), or runs out of the
    fuel that bounds the model's recursion. *)
Inductive result (A : Type) : Type :=
  | Ret (a : A) (p : Parser)
  | Panic (msg : string)
  | OutOfFuel.
Arguments Panic {A} msg.
Arguments OutOfFuel {A}.

Definition M (A : Type) : Type := Parser -> result A.

Definition ret {A : Type} (a : A) : M A := fun p => Ret a p.

Definition bind {A B : Type} (m : M A) (k : A -> M B) : M B :=
  fun p => match m p with
           | Ret a p' => k a p'
           | Panic msg => Panic msg
           | OutOfFuel => OutOfFuel
           end.

Definition gets {A : Type} (f : Parser -> A) : M A := fun p => Ret (f p) p.
Definition panic {A : Type} (msg : string) : M A := fun _ => Panic msg.
Definition skip : M unit := ret Datatypes.tt.

Notation "x <- m ;; k" := (bind m (fun x => k))
  (at level 61, m at next level, right associativity).
Notation "' pat <- m ;; k" := (bind m (fun x => match x with pat => k end))
  (at level 61, pat pattern, m at next level, right associativity).
Notation "m ;; k" := (bind m (fun _ => k))
  (at level 61, right associativity).

(** Assignments to the fields of [p]. *)
Definition setToken (t : TokenType) (d : string) (l' : Lexer) : M unit :=
  fun p => Ret Datatypes.tt
    (mkParser l' (err p) t d (prevLT p) (inFor p) (async p) (generator p)
              (assumeArrowFunc p) (ast p) (scope p)).
Definition setErrorToken (e : error) : M unit :=
  fun p => Ret Datatypes.tt
    (mkParser (l p) (Some e) ErrorToken (data p) (prevLT p) (inFor p) (async p)
              (generator p) (assumeArrowFunc p) (ast p) (scope p)).
Definition setErr (e : option error) : M unit :=
  fun p => Ret Datatypes.tt
    (mkParser (l p) e (tt p) (data p) (prevLT p) (inFor p) (async p)
              (generator p) (assumeArrowFunc p) (ast p) (scope p)).
Definition setPrevLT (b : bool) : M unit :=
  fun p => Ret Datatypes.tt
    (mkParser (l p) (err p) (tt p) (data p) b (inFor p) (async p) (generator p)
              (assumeArrowFunc p) (ast p) (scope p)).
Definition setInFor (b : bool) : M unit :=
  fun p => Ret Datatypes.tt
    (mkParser (l p) (err p) (tt p) (data p) (prevLT p) b (async p) (generator p)
              (assumeArrowFunc p) (ast p) (scope p)).
Definition setFlags (a g : bool) : M unit :=
  fun p => Ret Datatypes.tt
    (mkParser (l p) (err p) (tt p) (data p) (prevLT p) (inFor p) a g
              (assumeArrowFunc p) (ast p) (scope p)).
Definition setAssumeArrowFunc (b : bool) : M unit :=
  fun p => Ret Datatypes.tt
    (mkParser (l p) (err p) (tt p) (data p) (prevLT p) (inFor p) (async p)
              (generator p) b (ast p) (scope p)).
Definition setAst (a : AST) : M unit :=
  fun p => Ret Datatypes.tt
    (mkParser (l p) (err p) (tt p) (data p) (prevLT p) (inFor p) (async p)
              (generator p) (assumeArrowFunc p) a (scope p)).
Definition setScope (s : ScopeRef) : M unit :=
  fun p => Ret Datatypes.tt
    (mkParser (l p) (err p) (tt p) (data p) (prevLT p) (inFor p) (async p)
              (generator p) (assumeArrowFunc p) (ast p) s).

(** The recursive calls are resolved by a table [r]; [call r c] is the call
    [c]. *)
Definition Rec : Type := forall A : Type, Call A -> M A.
Definition call {A : Type} (r : Rec) (c : Call A) : M A := r A c.

(** [p.tt, p.data = p.l.Next()] and [p.tt, p.data = p.l.RegExp()] *)
Definition lexNext : M unit :=
  lx <- gets l ;;
  let '(t, d, l') := Next lx in setToken t d l'.
Definition lexRegExp : M unit :=
  lx <- gets l ;;
  let '(t, d, l') := RegExp lx in setToken t d l'.

(** The loop of [next], lines 146-151. *)
Definition nextLoop (r : Rec) : M unit :=
  t <- gets tt ;;
  if tt_eqb t WhitespaceToken || tt_eqb t LineTerminatorToken ||
     tt_eqb t CommentToken || tt_eqb t CommentLineTerminatorToken then
    (if tt_eqb t LineTerminatorToken || tt_eqb t CommentLineTerminatorToken
     then setPrevLT true else skip) ;;
    lexNext ;;
    call r NextLoop
  else skip.

(** [func (p *Parser) next()] *)
Definition next (r : Rec) : M unit :=
  setPrevLT false ;;
  lexNext ;;
  nextLoop r.

(** [func (p *Parser) failMessage(msg string, args ...interface{})] *)
Definition failMessage (msg : string) (args : list string) : M unit :=
  e <- gets err ;;
  match e with
  | None => setErrorToken (Errorf msg args)
  | Some _ => skip
  end.

(** The loop over [expected[:len(expected)-1]] in [fail]; [i] is the index. *)
Fixpoint expectedList (i : nat) (expected : list TokenType) : string :=
  match expected with
  | [] => ""
  | [_] => ""
  | t :: rest =>
      ((if 0 <? i then "," else "") ++ " '" ++ TokenString t ++ "'")
        ++ expectedList (S i) rest
  end.

Definition failMsg (in_ : string) (expected : list TokenType) (p : Parser) : string :=
  let msg := "unexpected" in
  let msg :=
    if 0 <? length expected then
      "expected" ++ expectedList 0 expected
        ++ (if 2 <? length expected then ", or"
            else if 1 <? length expected then " or" else "")
        ++ " '" ++ TokenString (last expected ErrorToken) ++ "' instead of"
    else msg in
  let msg :=
    if tt_eqb (tt p) ErrorToken then
      match Err (l p) with
      | Some io_EOF => msg ++ " EOF"
      | Some (parse_Error _ m) => m
      | _ => msg
      end
    else msg ++ " '" ++ data p ++ "'" in
  if negb (String.eqb in_ "") then msg ++ " in " ++ in_ else msg.

(** [func (p *Parser) fail(in string, expected ...TokenType)] *)
Definition fail (in_ : string) (expected : list TokenType) : M unit :=
  e <- gets err ;;
  match e with
  | None =>
      msg <- gets (failMsg in_ expected) ;;
      setErrorToken (Errorf msg [])
  | Some _ => skip
  end.

(** [func (p *Parser) consume(in string, tt TokenType) bool] *)
Definition consume (r : Rec) (in_ : string) (t : TokenType) : M bool :=
  cur <- gets tt ;;
  if negb (tt_eqb cur t) then
    fail in_ [t] ;; ret false
  else
    next r ;; ret true.

(** Dereferencing [p.scope]: a nil pointer dereference panics. *)
Definition curScope : M nat :=
  s <- gets scope ;;
  match s with
  | Some i => ret i
  | None => panic "nil pointer dereference"
  end.

Definition getScope (i : nat) : M Scope :=
  a <- gets ast ;;
  match nth_error (Scopes a) i with
  | Some s => ret s
  | None => panic "invalid scope pointer"
  end.

(** [func (p *Parser) enterScope(scope *Scope, isFunc bool) *Scope].  The
    [Scope] struct written through the pointer is the fresh entry of the
    store; its index is [p.scope] afterwards. *)
Definition enterScope (isFunc : bool) : M ScopeRef :=
  parent <- gets scope ;;
  a <- gets ast ;;
  let self := length (Scopes a) in
  let func :=
    if isFunc then Some self
    else match parent with
         | Some i => match nth_error (Scopes a) i with
                     | Some ps => Func ps
                     | None => None
                     end
         | None => None
         end in
  setAst (setScopes a (append (Scopes a) (mkScope parent func [] [] 0))) ;;
  setScope (Some self) ;;
  ret parent.

(** [func (p *Parser) exitScope(parent *Scope)] *)
Definition exitScope (parent : ScopeRef) : M unit :=
  s <- curScope ;;
  a <- gets ast ;;
  setAst (HoistUndeclared a s) ;;
  setScope parent.

(** [p.scope.Declare(p.ast, decl, name)], [p.scope.Use(p.ast, name)],
    [p.scope.MarkArguments()] and [p.ast.AddVar(decl, name)] *)
Definition scopeDeclare (decl : DeclType) (name : string) : M (VarRef * bool) :=
  s <- curScope ;;
  a <- gets ast ;;
  let '(a', res) := Declare_ a s decl name in
  setAst a' ;; ret res.
Definition scopeUse (name : string) : M VarRef :=
  s <- curScope ;;
  a <- gets ast ;;
  let '(a', ref) := Use a s name in
  setAst a' ;; ret ref.
Definition scopeMarkArguments : M unit :=
  s <- curScope ;;
  a <- gets ast ;;
  setAst (MarkArguments a s).
Definition astAddVar (decl : DeclType) (name : string) : M VarRef :=
  a <- gets ast ;;
  let '(a', ref) := AddVar a decl name in
  setAst a' ;; ret ref.

(** [func (p *Parser) isIdentifierReference(tt TokenType) bool] *)
Definition isIdentifierReference (t : TokenType) : M bool :=
  a <- gets async ;;
  g <- gets generator ;;
  ret (IsIdentifier t || tt_eqb t YieldToken && negb g
       || tt_eqb t AwaitToken && negb a).

(** The statement terminator test
    [!p.prevLT && p.tt != SemicolonToken && p.tt != CloseBraceToken && p.tt != ErrorToken]. *)
Definition noTerminator (p : Parser) : bool :=
  negb (prevLT p) && negb (tt_eqb (tt p) SemicolonToken)
  && negb (tt_eqb (tt p) CloseBraceToken) && negb (tt_eqb (tt p) ErrorToken).

(* ------------------------------------------------------------------ *)
(** *** Statements *)

(** The loop of [parseModule]. *)
Definition parseModuleLoop (r : Rec) (list_ : list IStmt) : M (list IStmt) :=
  t <- gets tt ;;
  match t with
  | ErrorToken => ret list_
  | ImportToken =>
      importStmt <- call r ParseImportStmt ;;
      call r (ParseModuleLoop (append list_ (ImportStmtS importStmt)))
  | ExportToken =>
      exportStmt <- call r ParseExportStmt ;;
      call r (ParseModuleLoop (append list_ (ExportStmtS exportStmt)))
  | _ =>
      stmt <- call r (ParseStmt true) ;;
      call r (ParseModuleLoop (append list_ stmt))
  end.

(** [func (p *Parser) parseModule() (module Module)] *)
Definition parseModule (r : Rec) : M ModuleNode :=
  enterScope true ;;
  self <- gets scope ;;
  list_ <- parseModuleLoop r [] ;;
  ret (mkModule list_ self).

(** A case of the [switch] in [parseStmt] either returns from the function
    ([returned]) or leaves the switch ([falls]) with the statement built so
    far; after the switch a semicolon is consumed when present. *)
Definition returned (stmt : IStmt) : M (IStmt * bool) := ret (stmt, false).
Definition falls (stmt : IStmt) : M (IStmt * bool) := ret (stmt, true).

(** [if !p.prevLT && p.tt != SemicolonToken && p.tt != CloseBraceToken &&
    p.tt != ErrorToken { p.fail(in); return }] *)
Definition terminated (in_ : string) (stmt : IStmt) : M (IStmt * bool) :=
  nt <- gets noTerminator ;;
  if nt then fail in_ [] ;; returned stmt else falls stmt.

(** [case OpenBraceToken] *)
Definition stmtBlock (r : Rec) : M (IStmt * bool) :=
  blockStmt <- call r (ParseBlockStmt "block statement" true) ;;
  falls (BlockStmtS blockStmt).

(** [case ConstToken, VarToken] *)
Definition stmtVar (r : Rec) (allowDeclaration : bool) (t : TokenType) : M (IStmt * bool) :=
  if negb allowDeclaration && tt_eqb t ConstToken then
    fail "statement" [] ;; returned NilStmt
  else
    next r ;;
    varDecl <- call r (ParseVarDecl t) ;;
    terminated (if tt_eqb t ConstToken then "const declaration" else "var statement")
               (VarDeclS varDecl).

(** [case LetToken] *)
Definition stmtLet (r : Rec) (allowDeclaration : bool) (t : TokenType) : M (IStmt * bool) :=
  let_ <- gets data ;;
  next r ;;
  cur <- gets tt ;;
  if allowDeclaration && (IsIdentifier cur || tt_eqb cur YieldToken || tt_eqb cur AwaitToken
                          || tt_eqb cur OpenBracketToken || tt_eqb cur OpenBraceToken) then
    varDecl <- call r (ParseVarDecl t) ;;
    terminated "let declaration" (VarDeclS varDecl)
  else
    e <- call r (ParseIdentifierExpression OpExpr let_) ;;
    terminated "expression" (ExprStmt e).

(** [case IfToken] *)
Definition stmtIf (r : Rec) : M (IStmt * bool) :=
  next r ;;
  ok <- consume r "if statement" OpenParenToken ;;
  if negb ok then returned NilStmt else
  cond <- call r (ParseExpression OpExpr) ;;
  ok <- consume r "if statement" CloseParenToken ;;
  if negb ok then returned NilStmt else
  body <- call r (ParseStmt false) ;;
  cur <- gets tt ;;
  elseBody <- (if tt_eqb cur ElseToken
               then next r ;; call r (ParseStmt false)
               else ret NilStmt) ;;
  falls (IfStmt cond body elseBody).

(** [case ContinueToken, BreakToken] *)
Definition stmtBranch (r : Rec) : M (IStmt * bool) :=
  t <- gets tt ;;
  next r ;;
  lt <- gets prevLT ;;
  cur <- gets tt ;;
  isRef <- isIdentifierReference cur ;;
  label <- (if negb lt && isRef
            then d <- gets data ;; next r ;; ret (Some d)
            else ret None) ;;
  falls (BranchStmt t label).

(** [case ReturnToken] *)
Definition stmtReturn (r : Rec) : M (IStmt * bool) :=
  next r ;;
  nt <- gets noTerminator ;;
  value <- (if nt then call r (ParseExpression OpExpr) else ret NilExpr) ;;
  falls (ReturnStmt value).

(** [case WithToken] *)
Definition stmtWith (r : Rec) : M (IStmt * bool) :=
  next r ;;
  ok <- consume r "with statement" OpenParenToken ;;
  if negb ok then returned NilStmt else
  cond <- call r (ParseExpression OpExpr) ;;
  ok <- consume r "with statement" CloseParenToken ;;
  if negb ok then returned NilStmt else
  body <- call r (ParseStmt false) ;;
  falls (WithStmt cond body).

(** [case DoToken] *)
Definition stmtDo (r : Rec) : M (IStmt * bool) :=
  next r ;;
  body <- call r (ParseStmt false) ;;
  ok <- consume r "do-while statement" WhileToken ;;
  if negb ok then returned (DoWhileStmt NilExpr NilStmt) else
  ok <- consume r "do-while statement" OpenParenToken ;;
  if negb ok then returned (DoWhileStmt NilExpr NilStmt) else
  cond <- call r (ParseExpression OpExpr) ;;
  ok <- consume r "do-while statement" CloseParenToken ;;
  if negb ok then returned (DoWhileStmt cond body) else
  falls (DoWhileStmt cond body).

(** [case WhileToken] *)
Definition stmtWhile (r : Rec) : M (IStmt * bool) :=
  next r ;;
  ok <- consume r "while statement" OpenParenToken ;;
  if negb ok then returned NilStmt else
  cond <- call r (ParseExpression OpExpr) ;;
  ok <- consume r "while statement" CloseParenToken ;;
  if negb ok then returned NilStmt else
  body <- call r (ParseStmt false) ;;
  falls (WhileStmt cond body).

(** [case ForToken], lines 363-370: the initializer of the head. *)
Definition forInitExpr (r : Rec) : M IExpr :=
  cur <- gets tt ;;
  if tt_eqb cur VarToken || tt_eqb cur LetToken || tt_eqb cur ConstToken then
    next r ;;
    varDecl <- call r (ParseVarDecl cur) ;;
    ret (VarDeclExpr varDecl)
  else if negb (tt_eqb cur SemicolonToken) then
    call r (ParseExpression OpExpr)
  else ret NilExpr.

(** [case ForToken], lines 361-371: [p.inFor = true], the initializer,
    [p.inFor = false]. *)
Definition forInit (r : Rec) : M IExpr :=
  setInFor true ;;
  init <- forInitExpr r ;;
  setInFor false ;;
  ret init.

(** [case ForToken], lines 373-414: the rest of the head and the body. *)
Definition forRest (r : Rec) (await : bool) (init : IExpr) : M (IStmt * bool) :=
  cur <- gets tt ;;
  if tt_eqb cur SemicolonToken then
    if await then fail "for statement" [OfToken] ;; returned NilStmt else
    next r ;;
    cur <- gets tt ;;
    cond <- (if negb (tt_eqb cur SemicolonToken)
             then call r (ParseExpression OpExpr) else ret NilExpr) ;;
    ok <- consume r "for statement" SemicolonToken ;;
    if negb ok then returned NilStmt else
    cur <- gets tt ;;
    post <- (if negb (tt_eqb cur CloseParenToken)
             then call r (ParseExpression OpExpr) else ret NilExpr) ;;
    ok <- consume r "for statement" CloseParenToken ;;
    if negb ok then returned NilStmt else
    body <- call r (ParseStmt false) ;;
    falls (ForStmt init cond post body)
  else if tt_eqb cur InToken then
    if await then fail "for statement" [OfToken] ;; returned NilStmt else
    next r ;;
    value <- call r (ParseExpression OpExpr) ;;
    ok <- consume r "for statement" CloseParenToken ;;
    if negb ok then returned NilStmt else
    body <- call r (ParseStmt false) ;;
    falls (ForInStmt init value body)
  else if tt_eqb cur OfToken then
    next r ;;
    value <- call r (ParseExpression OpAssign) ;;
    ok <- consume r "for statement" CloseParenToken ;;
    if negb ok then returned NilStmt else
    body <- call r (ParseStmt false) ;;
    falls (ForOfStmt await init value body)
  else
    fail "for statement" [InToken; OfToken; SemicolonToken] ;; returned NilStmt.

(** [case ForToken] *)
Definition stmtFor (r : Rec) : M (IStmt * bool) :=
  next r ;;
  a <- gets async ;;
  cur <- gets tt ;;
  let await := a && tt_eqb cur AwaitToken in
  (if await then next r else skip) ;;
  ok <- consume r "for statement" OpenParenToken ;;
  if negb ok then returned NilStmt else
  init <- forInit r ;;
  forRest r await init.

(** The inner loop of [case SwitchToken], lines 456-458. *)
Definition switchStmtsLoop (r : Rec) (stmts : list IStmt) : M (list IStmt) :=
  cur <- gets tt ;;
  if negb (tt_eqb cur CaseToken) && negb (tt_eqb cur DefaultToken)
     && negb (tt_eqb cur CloseBraceToken) && negb (tt_eqb cur ErrorToken) then
    stmt <- call r (ParseStmt true) ;;
    call r (SwitchStmtsLoop (append stmts stmt))
  else ret stmts.

(** The loop over the clauses of [case SwitchToken], lines 431-460; [None]
    when the function returns from inside the loop. *)
Definition switchClausesLoop (r : Rec) (clauses : list CaseClause)
  : M (option (list CaseClause)) :=
  cur <- gets tt ;;
  if tt_eqb cur ErrorToken then
    fail "switch statement" [] ;; ret None
  else if tt_eqb cur CloseBraceToken then
    next r ;; ret (Some clauses)
  else
    let clause := cur in
    head <- (if tt_eqb cur CaseToken then
               next r ;; e <- call r (ParseExpression OpExpr) ;; ret (Some e)
             else if tt_eqb cur DefaultToken then
               next r ;; ret (Some NilExpr)
             else
               fail "switch statement" [CaseToken; DefaultToken] ;; ret None) ;;
    match head with
    | None => ret None
    | Some list_ =>
        ok <- consume r "switch statement" ColonToken ;;
        if negb ok then ret None else
        stmts <- switchStmtsLoop r [] ;;
        call r (SwitchClausesLoop (append clauses (mkCaseClause clause list_ stmts)))
    end.

(** [case SwitchToken] *)
Definition stmtSwitch (r : Rec) : M (IStmt * bool) :=
  next r ;;
  ok <- consume r "switch statement" OpenParenToken ;;
  if negb ok then returned NilStmt else
  init <- call r (ParseExpression OpExpr) ;;
  ok <- consume r "switch statement" CloseParenToken ;;
  if negb ok then returned NilStmt else
  ok <- consume r "switch statement" OpenBraceToken ;;
  if negb ok then returned NilStmt else
  res <- switchClausesLoop r [] ;;
  match res with
  | None => returned NilStmt
  | Some clauses => falls (SwitchStmt init clauses)
  end.

(** [case FunctionToken] *)
Definition stmtFunction (r : Rec) (allowDeclaration : bool) : M (IStmt * bool) :=
  if negb allowDeclaration then fail "statement" [] ;; returned NilStmt else
  funcDecl <- call r (ParseAnyFunc false false) ;;
  falls (FuncDeclS funcDecl).

(** [case AsyncToken] *)
Definition stmtAsync (r : Rec) (allowDeclaration : bool) : M (IStmt * bool) :=
  if negb allowDeclaration then fail "statement" [] ;; returned NilStmt else
  async_ <- gets data ;;
  next r ;;
  cur <- gets tt ;;
  lt <- gets prevLT ;;
  if tt_eqb cur FunctionToken && negb lt then
    funcDecl <- call r (ParseAnyFunc true false) ;;
    falls (FuncDeclS funcDecl)
  else
    e <- call r (ParseAsyncExpression OpExpr async_) ;;
    terminated "expression" (ExprStmt e).

(** [case ClassToken] *)
Definition stmtClass (r : Rec) (allowDeclaration : bool) : M (IStmt * bool) :=
  if negb allowDeclaration then fail "statement" [] ;; returned NilStmt else
  classDecl <- call r (ParseAnyClass false) ;;
  falls (ClassDeclS classDecl).

(** [case ThrowToken] *)
Definition stmtThrow (r : Rec) : M (IStmt * bool) :=
  next r ;;
  lt <- gets prevLT ;;
  value <- (if negb lt then call r (ParseExpression OpExpr) else ret NilExpr) ;;
  falls (ThrowStmt value).

(** [case TryToken] *)
Definition stmtTry (r : Rec) : M (IStmt * bool) :=
  next r ;;
  body <- call r (ParseBlockStmt "try statement" true) ;;
  cur <- gets tt ;;
  res <- (if tt_eqb cur CatchToken then
            next r ;;
            parent <- enterScope false ;;
            self <- gets scope ;;
            cur <- gets tt ;;
            bnd <- (if tt_eqb cur OpenParenToken then
                      next r ;;
                      b <- call r (ParseBinding LexicalDecl) ;;
                      ok <- consume r "try-catch statement" CloseParenToken ;;
                      ret (b, ok)
                    else ret (NilBinding, true)) ;;
            let '(binding, ok) := bnd in
            if negb ok then ret None else
            block <- call r (ParseBlockStmt "try-catch statement" false) ;;
            exitScope parent ;;
            ret (Some (binding,
                       match block with mkBlockStmt list_ _ => mkBlockStmt list_ self end))
          else ret (Some (NilBinding, mkBlockStmt [] None))) ;;
  match res with
  | None => returned NilStmt
  | Some (binding, catch) =>
      cur <- gets tt ;;
      finally <- (if tt_eqb cur FinallyToken then
                    next r ;; call r (ParseBlockStmt "try-finally statement" true)
                  else ret (mkBlockStmt [] None)) ;;
      falls (TryStmt body binding catch finally)
  end.

(** [default] *)
Definition stmtDefault (r : Rec) : M (IStmt * bool) :=
  cur <- gets tt ;;
  isRef <- isIdentifierReference cur ;;
  if isRef then
    label <- gets data ;;
    next r ;;
    cur <- gets tt ;;
    if tt_eqb cur ColonToken then
      next r ;;
      s <- call r (ParseStmt true) ;;
      falls (LabelledStmt label s)
    else
      e <- call r (ParseIdentifierExpression OpExpr label) ;;
      terminated "expression" (ExprStmt e)
  else
    e <- call r (ParseExpression OpExpr) ;;
    terminated "expression" (ExprStmt e).

(** The [switch] of [parseStmt]. *)
Definition stmtSwitchCases (r : Rec) (allowDeclaration : bool) (t : TokenType)
  : M (IStmt * bool) :=
  match t with
  | OpenBraceToken => stmtBlock r
  | ConstToken | VarToken => stmtVar r allowDeclaration t
  | LetToken => stmtLet r allowDeclaration t
  | IfToken => stmtIf r
  | ContinueToken | BreakToken => stmtBranch r
  | ReturnToken => stmtReturn r
  | WithToken => stmtWith r
  | DoToken => stmtDo r
  | WhileToken => stmtWhile r
  | ForToken => stmtFor r
  | SwitchToken => stmtSwitch r
  | FunctionToken => stmtFunction r allowDeclaration
  | AsyncToken => stmtAsync r allowDeclaration
  | ClassToken => stmtClass r allowDeclaration
  | ThrowToken => stmtThrow r
  | TryToken => stmtTry r
  | DebuggerToken => next r ;; falls DebuggerStmt
  | SemicolonToken | ErrorToken => falls EmptyStmt
  | _ => stmtDefault r
  end.

(** [func (p *Parser) parseStmt(allowDeclaration bool) (stmt IStmt)] *)
Definition parseStmt (r : Rec) (allowDeclaration : bool) : M IStmt :=
  t <- gets tt ;;
  '(stmt, fell) <- stmtSwitchCases r allowDeclaration t ;;
  if fell then
    cur <- gets tt ;;
    (if tt_eqb cur SemicolonToken then next r else skip) ;;
    ret stmt
  else ret stmt.

(** The loop of [parseBlockStmt]; the flag tells whether the loop was left
    by [break] (true) or the function returned (false). *)
Definition blockStmtLoop (r : Rec) (list_ : list IStmt) : M (list IStmt * bool) :=
  cur <- gets tt ;;
  if tt_eqb cur ErrorToken then
    fail "" [] ;; ret (list_, false)
  else if tt_eqb cur CloseBraceToken then
    next r ;; ret (list_, true)
  else
    stmt <- call r (ParseStmt true) ;;
    call r (BlockStmtLoop (append list_ stmt)).

(** [func (p *Parser) parseBlockStmt(in string, enterContext bool) (blockStmt BlockStmt)] *)
Definition parseBlockStmt (r : Rec) (in_ : string) (enterContext : bool) : M BlockStmt :=
  entered <- (if enterContext then
                parent <- enterScope false ;;
                self <- gets scope ;;
                ret (parent, self)
              else ret (None, None)) ;;
  let '(parent, self) := entered in
  ok <- consume r in_ OpenBraceToken ;;
  if negb ok then ret (mkBlockStmt [] self) else
  '(list_, closed) <- blockStmtLoop r [] ;;
  if negb closed then ret (mkBlockStmt list_ self) else
  (if enterContext then exitScope parent else skip) ;;
  ret (mkBlockStmt list_ self).

(* ------------------------------------------------------------------ *)
(** *** Import, export and declarations *)

Definition isBindingIdentifierToken (t : TokenType) : bool :=
  IsIdentifier t || tt_eqb t YieldToken || tt_eqb t AwaitToken.

(** The loop of [parseImportStmt], lines 614-635; the flag is false when
    the function returns from inside the loop. *)
Definition importListLoop (r : Rec) (list_ : list Alias) : M (list Alias * bool) :=
  cur <- gets tt ;;
  if IsIdentifierName cur then
    binding <- gets data ;;
    next r ;;
    cur <- gets tt ;;
    res <- (if tt_eqb cur AsToken then
              next r ;;
              cur <- gets tt ;;
              if negb (isBindingIdentifierToken cur) then
                fail "import statement" [IdentifierToken] ;; ret None
              else
                d <- gets data ;;
                next r ;;
                ret (Some (mkAlias (Some binding) (Some d)))
            else ret (Some (mkAlias None (Some binding)))) ;;
    match res with
    | None => ret (list_, false)
    | Some alias =>
        let list_ := append list_ alias in
        cur <- gets tt ;;
        if tt_eqb cur CommaToken then
          next r ;;
          cur <- gets tt ;;
          if tt_eqb cur CloseBraceToken
          then ret (append list_ (mkAlias None None), true)
          else call r (ImportListLoop list_)
        else call r (ImportListLoop list_)
    end
  else ret (list_, true).

(** [parseImportStmt], lines 593-653: the [else] branch; the flag is false
    when the function returns early. *)
Definition importClause (r : Rec) : M (ImportStmt * bool) :=
  cur <- gets tt ;;
  default <- (if isBindingIdentifierToken cur then
                d <- gets data ;;
                next r ;;
                cur <- gets tt ;;
                (if tt_eqb cur CommaToken then next r else skip) ;;
                ret (Some d)
              else ret None) ;;
  cur <- gets tt ;;
  res <- (if tt_eqb cur MulToken then
            star <- gets data ;;
            next r ;;
            ok <- consume r "import statement" AsToken ;;
            if negb ok then ret ([], false) else
            cur <- gets tt ;;
            if negb (isBindingIdentifierToken cur) then
              fail "import statement" [IdentifierToken] ;; ret ([], false)
            else
              d <- gets data ;;
              next r ;;
              ret ([mkAlias (Some star) (Some d)], true)
          else if tt_eqb cur OpenBraceToken then
            next r ;;
            '(list_, ok) <- importListLoop r [] ;;
            if negb ok then ret (list_, false) else
            ok <- consume r "import statement" CloseBraceToken ;;
            ret (list_, ok)
          else ret ([], true)) ;;
  let '(list_, ok) := res in
  if negb ok then ret (mkImportStmt list_ default None, false) else
  if match default with None => true | Some _ => false end && (length list_ =? 0) then
    fail "import statement" [StringToken; IdentifierToken; MulToken; OpenBraceToken] ;;
    ret (mkImportStmt list_ default None, false)
  else
    ok <- consume r "import statement" FromToken ;;
    if negb ok then ret (mkImportStmt list_ default None, false) else
    cur <- gets tt ;;
    if negb (tt_eqb cur StringToken) then
      fail "import statement" [StringToken] ;;
      ret (mkImportStmt list_ default None, false)
    else
      d <- gets data ;;
      next r ;;
      ret (mkImportStmt list_ default (Some d), true).

(** [func (p *Parser) parseImportStmt() (importStmt ImportStmt)] *)
Definition parseImportStmt (r : Rec) : M ImportStmt :=
  next r ;;
  cur <- gets tt ;;
  '(importStmt, ok) <- (if tt_eqb cur StringToken then
                          d <- gets data ;;
                          next r ;;
                          ret (mkImportStmt [] None (Some d), true)
                        else importClause r) ;;
  if negb ok then ret importStmt else
  cur <- gets tt ;;
  (if tt_eqb cur SemicolonToken then next r else skip) ;;
  ret importStmt.

(** The loop of [parseExportStmt], lines 685-706. *)
Definition exportListLoop (r : Rec) (list_ : list Alias) : M (list Alias * bool) :=
  cur <- gets tt ;;
  if IsIdentifierName cur then
    binding <- gets data ;;
    next r ;;
    cur <- gets tt ;;
    res <- (if tt_eqb cur AsToken then
              next r ;;
              cur <- gets tt ;;
              if negb (IsIdentifierName cur) then
                fail "export statement" [IdentifierToken] ;; ret None
              else
                d <- gets data ;;
                next r ;;
                ret (Some (mkAlias (Some binding) (Some d)))
            else ret (Some (mkAlias None (Some binding)))) ;;
    match res with
    | None => ret (list_, false)
    | Some alias =>
        let list_ := append list_ alias in
        cur <- gets tt ;;
        if tt_eqb cur CommaToken then
          next r ;;
          cur <- gets tt ;;
          if tt_eqb cur CloseBraceToken
          then ret (append list_ (mkAlias None None), true)
          else call r (ExportListLoop list_)
        else call r (ExportListLoop list_)
    end
  else ret (list_, true).

(** [parseExportStmt], lines 664-719: [export * ...] and [export { ... }]. *)
Definition exportList (r : Rec) : M (ExportStmt * bool) :=
  cur <- gets tt ;;
  res <- (if tt_eqb cur MulToken then
            star <- gets data ;;
            next r ;;
            cur <- gets tt ;;
            res <- (if tt_eqb cur AsToken then
                      next r ;;
                      cur <- gets tt ;;
                      if negb (IsIdentifierName cur) then
                        fail "export statement" [IdentifierToken] ;; ret ([], false)
                      else
                        d <- gets data ;;
                        next r ;;
                        ret ([mkAlias (Some star) (Some d)], true)
                    else ret ([mkAlias None (Some star)], true)) ;;
            let '(list_, ok) := res in
            if negb ok then ret (list_, false) else
            cur <- gets tt ;;
            if negb (tt_eqb cur FromToken) then
              fail "export statement" [FromToken] ;; ret (list_, false)
            else ret (list_, true)
          else
            next r ;;
            '(list_, ok) <- exportListLoop r [] ;;
            if negb ok then ret (list_, false) else
            ok <- consume r "export statement" CloseBraceToken ;;
            ret (list_, ok)) ;;
  let '(list_, ok) := res in
  if negb ok then ret (mkExportStmt list_ None false NilExpr, false) else
  cur <- gets tt ;;
  if tt_eqb cur FromToken then
    next r ;;
    cur <- gets tt ;;
    if negb (tt_eqb cur StringToken) then
      fail "export statement" [StringToken] ;;
      ret (mkExportStmt list_ None false NilExpr, false)
    else
      d <- gets data ;;
      next r ;;
      ret (mkExportStmt list_ (Some d) false NilExpr, true)
  else ret (mkExportStmt list_ None false NilExpr, true).

(** [parseExportStmt], lines 739-760: [export default ...]. *)
Definition exportDefault (r : Rec) : M IExpr :=
  next r ;;
  cur <- gets tt ;;
  if tt_eqb cur FunctionToken then
    funcDecl <- call r (ParseAnyFunc false true) ;;
    ret (FuncDeclExpr funcDecl)
  else if tt_eqb cur AsyncToken then
    async_ <- gets data ;;
    next r ;;
    cur <- gets tt ;;
    lt <- gets prevLT ;;
    if tt_eqb cur FunctionToken && negb lt then
      funcDecl <- call r (ParseAnyFunc true false) ;;
      ret (FuncDeclExpr funcDecl)
    else call r (ParseAsyncExpression OpExpr async_)
  else if tt_eqb cur ClassToken then
    classDecl <- call r (ParseAnyClass false) ;;
    ret (ClassDeclExpr classDecl)
  else call r (ParseExpression OpAssign).

(** [func (p *Parser) parseExportStmt() (exportStmt ExportStmt)] *)
Definition parseExportStmt (r : Rec) : M ExportStmt :=
  next r ;;
  cur <- gets tt ;;
  '(exportStmt, ok) <-
    (if tt_eqb cur MulToken || tt_eqb cur OpenBraceToken then exportList r
     else if tt_eqb cur VarToken || tt_eqb cur ConstToken || tt_eqb cur LetToken then
       next r ;;
       varDecl <- call r (ParseVarDecl cur) ;;
       ret (mkExportStmt [] None false (VarDeclExpr varDecl), true)
     else if tt_eqb cur FunctionToken then
       funcDecl <- call r (ParseAnyFunc false false) ;;
       ret (mkExportStmt [] None false (FuncDeclExpr funcDecl), true)
     else if tt_eqb cur AsyncToken then
       next r ;;
       cur <- gets tt ;;
       lt <- gets prevLT ;;
       if negb (tt_eqb cur FunctionToken) || lt then
         fail "export statement" [FunctionToken] ;;
         ret (mkExportStmt [] None false NilExpr, false)
       else
         funcDecl <- call r (ParseAnyFunc true false) ;;
         ret (mkExportStmt [] None false (FuncDeclExpr funcDecl), true)
     else if tt_eqb cur ClassToken then
       classDecl <- call r (ParseAnyClass false) ;;
       ret (mkExportStmt [] None false (ClassDeclExpr classDecl), true)
     else if tt_eqb cur DefaultToken then
       decl <- exportDefault r ;;
       ret (mkExportStmt [] None true decl, true)
     else
       fail "export statement"
            [MulToken; OpenBraceToken; VarToken; LetToken; ConstToken;
             FunctionToken; AsyncToken; ClassToken; DefaultToken] ;;
       ret (mkExportStmt [] None false NilExpr, false)) ;;
  if negb ok then ret exportStmt else
  cur <- gets tt ;;
  (if tt_eqb cur SemicolonToken then next r else skip) ;;
  ret exportStmt.

(** The loop of [parseVarDecl]. *)
Definition varDeclLoop (r : Rec) (declType : DeclType) (list_ : list BindingElement)
  : M (list BindingElement) :=
  be <- call r (ParseBindingElement declType) ;;
  let list_ := append list_ be in
  cur <- gets tt ;;
  if tt_eqb cur CommaToken then
    next r ;; call r (VarDeclLoop declType list_)
  else ret list_.

(** [func (p *Parser) parseVarDecl(tt TokenType) (varDecl VarDecl)] *)
Definition parseVarDecl (r : Rec) (t : TokenType) : M VarDecl :=
  let declType := if tt_eqb t VarToken then VariableDecl else LexicalDecl in
  list_ <- varDeclLoop r declType [] ;;
  ret (mkVarDecl t list_).

(** The loop of [parseFuncParams], lines 794-807: [inl] when the function
    returns from inside the loop (after a rest element), [inr] when the
    loop is left. *)
Definition funcParamsLoop (r : Rec) (in_ : string) (list_ : list BindingElement)
  : M (Params + list BindingElement) :=
  cur <- gets tt ;;
  if negb (tt_eqb cur CloseParenToken) && negb (tt_eqb cur ErrorToken) then
    if tt_eqb cur EllipsisToken then
      next r ;;
      rest <- call r (ParseBinding ArgumentDecl) ;;
      consume r in_ CloseParenToken ;;
      ret (inl (mkParams list_ rest))
    else
      be <- call r (ParseBindingElement ArgumentDecl) ;;
      let list_ := append list_ be in
      cur <- gets tt ;;
      if negb (tt_eqb cur CommaToken) then ret (inr list_)
      else next r ;; call r (FuncParamsLoop in_ list_)
  else ret (inr list_).

(** [func (p *Parser) parseFuncParams(in string) (params Params)] *)
Definition parseFuncParams (r : Rec) (in_ : string) : M Params :=
  ok <- consume r in_ OpenParenToken ;;
  if negb ok then ret (mkParams [] NilBinding) else
  res <- funcParamsLoop r in_ [] ;;
  match res with
  | inl params => ret params
  | inr list_ =>
      cur <- gets tt ;;
      if negb (tt_eqb cur CloseParenToken) then
        fail in_ [] ;; ret (mkParams list_ NilBinding)
      else
        next r ;;
        scopeMarkArguments ;;
        ret (mkParams list_ NilBinding)
  end.

Definition zeroParams : Params := mkParams [] NilBinding.
Definition zeroBlockStmt : BlockStmt := mkBlockStmt [] None.
Definition zeroLiteral : LiteralExpr := mkLiteralExpr ErrorToken "".
Definition zeroPropertyName : PropertyName := mkPropertyName zeroLiteral NilExpr.
Definition zeroBindingElement : BindingElement := mkBindingElement NilBinding NilExpr.

(** [func (p *Parser) parseAnyFunc(async, inExpr bool) (funcDecl FuncDecl)] *)
Definition parseAnyFunc (r : Rec) (async_ inExpr : bool) : M FuncDecl :=
  next r ;;
  cur <- gets tt ;;
  let isGenerator := tt_eqb cur MulToken in
  (if isGenerator then next r else skip) ;;
  cur <- gets tt ;;
  isRef <- isIdentifierReference cur ;;
  res <- (if inExpr && isBindingIdentifierToken cur || negb inExpr && isRef then
            d <- gets data ;;
            if negb inExpr then
              '(ref, ok) <- scopeDeclare FunctionDecl d ;;
              if negb ok then
                failMessage "identifier '%s' has already been declared" [d] ;;
                ret (Some d, Some ref, false)
              else next r ;; ret (Some d, Some ref, true)
            else next r ;; ret (Some d, None, true)
          else if negb (tt_eqb cur OpenParenToken) then
            fail "function declaration" [IdentifierToken; OpenParenToken] ;;
            ret (None, None, false)
          else ret (None, None, true)) ;;
  let '(name, declared, ok) := res in
  if negb ok then
    ret (mkFuncDecl async_ isGenerator declared zeroParams zeroBlockStmt None)
  else
    parent <- enterScope true ;;
    self <- gets scope ;;
    parentAsync <- gets async ;;
    parentGenerator <- gets generator ;;
    setFlags async_ isGenerator ;;
    declared <- (match name with
                 | Some n =>
                     if inExpr then
                       '(ref, _) <- scopeDeclare ExprDecl n ;; ret (Some ref)
                     else ret declared
                 | None => ret declared
                 end) ;;
    params <- call r (ParseFuncParams "function declaration") ;;
    body <- call r (ParseBlockStmt "function declaration" false) ;;
    setFlags parentAsync parentGenerator ;;
    exitScope parent ;;
    ret (mkFuncDecl async_ isGenerator declared params body self).

(** The loop of [parseAnyClass], lines 908-920. *)
Definition classMethodsLoop (r : Rec) (methods : list MethodDecl) : M (list MethodDecl) :=
  cur <- gets tt ;;
  if tt_eqb cur ErrorToken then
    fail "class declaration" [] ;; ret methods
  else if tt_eqb cur SemicolonToken then
    next r ;; call r (ClassMethodsLoop methods)
  else if tt_eqb cur CloseBraceToken then
    next r ;; ret methods
  else
    method <- call r ParseMethod ;;
    call r (ClassMethodsLoop (append methods method)).

(** [func (p *Parser) parseAnyClass(inExpr bool) (classDecl ClassDecl)] *)
Definition parseAnyClass (r : Rec) (inExpr : bool) : M ClassDecl :=
  next r ;;
  cur <- gets tt ;;
  res <- (if isBindingIdentifierToken cur then
            d <- gets data ;;
            if negb inExpr then
              '(ref, ok) <- scopeDeclare LexicalDecl d ;;
              if negb ok then
                failMessage "identifier '%s' has already been declared" [d] ;;
                ret (Some ref, false)
              else next r ;; ret (Some ref, true)
            else
              ref <- astAddVar ExprDecl d ;;
              next r ;; ret (Some ref, true)
          else ret (None, true)) ;;
  let '(name, ok) := res in
  if negb ok then ret (mkClassDecl name NilExpr []) else
  cur <- gets tt ;;
  extends <- (if tt_eqb cur ExtendsToken
              then next r ;; call r (ParseExpression OpLHS)
              else ret NilExpr) ;;
  ok <- consume r "class declaration" OpenBraceToken ;;
  if negb ok then ret (mkClassDecl name extends []) else
  methods <- classMethodsLoop r [] ;;
  ret (mkClassDecl name extends methods).

(** The method modifiers parsed in front of a method name:
    [Static, Async, Generator, Get, Set] and the local [data] ([None] is
    nil). *)
Record Modifiers : Set := mkModifiers {
  mStatic : bool; mAsync : bool; mGenerator : bool; mGet : bool; mSet : bool;
  mData : option string
}.

(** [parseMethod], lines 925-953. *)
Definition methodModifiers (r : Rec) : M Modifiers :=
  cur <- gets tt ;;
  '(static, data0) <- (if tt_eqb cur StaticToken then
                         d <- gets data ;; next r ;; ret (true, Some d)
                       else ret (false, None)) ;;
  cur <- gets tt ;;
  if tt_eqb cur MulToken then
    next r ;; ret (mkModifiers static false true false false data0)
  else if tt_eqb cur AsyncToken then
    d <- gets data ;;
    next r ;;
    lt <- gets prevLT ;;
    if negb lt then
      cur <- gets tt ;;
      if tt_eqb cur MulToken then
        next r ;; ret (mkModifiers static true true false false None)
      else ret (mkModifiers static true false false false (Some d))
    else ret (mkModifiers static false false false false (Some d))
  else if tt_eqb cur GetToken then
    d <- gets data ;; next r ;; ret (mkModifiers static false false true false (Some d))
  else if tt_eqb cur SetToken then
    d <- gets data ;; next r ;; ret (mkModifiers static false false false true (Some d))
  else ret (mkModifiers static false false false false data0).

(** [func (p *Parser) parseMethod() (method MethodDecl)] *)
Definition parseMethod (r : Rec) : M MethodDecl :=
  m <- methodModifiers r ;;
  cur <- gets tt ;;
  '(m, name) <-
    (match mData m with
     | Some d =>
         if tt_eqb cur OpenParenToken then
           let name := mkPropertyName (mkLiteralExpr IdentifierToken d) NilExpr in
           if mAsync m || mGet m || mSet m
           then ret (mkModifiers (mStatic m) false (mGenerator m) false false (mData m), name)
           else ret (mkModifiers false (mAsync m) (mGenerator m) (mGet m) (mSet m) (mData m), name)
         else
           name <- call r (ParsePropertyName "method definition") ;; ret (m, name)
     | None =>
         name <- call r (ParsePropertyName "method definition") ;; ret (m, name)
     end) ;;
  parent <- enterScope true ;;
  self <- gets scope ;;
  parentAsync <- gets async ;;
  parentGenerator <- gets generator ;;
  setFlags (mAsync m) (mGenerator m) ;;
  params <- call r (ParseFuncParams "method definition") ;;
  body <- call r (ParseBlockStmt "method definition" false) ;;
  setFlags parentAsync parentGenerator ;;
  exitScope parent ;;
  ret (mkMethodDecl (mStatic m) (mAsync m) (mGenerator m) (mGet m) (mSet m)
                    name params body self).

(** [p.data[1 : len(p.data)-1]]; the slice expression panics when the
    bounds are out of order. *)
Definition unquote (d : string) : option string :=
  if String.length d <? 2 then None
  else Some (String.substring 1 (String.length d - 2) d).

(** [func (p *Parser) parsePropertyName(in string) (propertyName PropertyName)] *)
Definition parsePropertyName (r : Rec) (in_ : string) : M PropertyName :=
  cur <- gets tt ;;
  d <- gets data ;;
  if IsIdentifierName cur then
    next r ;; ret (mkPropertyName (mkLiteralExpr IdentifierToken d) NilExpr)
  else if tt_eqb cur StringToken then
    match unquote d with
    | None => panic "slice bounds out of range"
    | Some inner =>
        let lit :=
          if ParseIdentifierName inner then mkLiteralExpr IdentifierToken inner
          else let '(t, ok) := ParseNumericLiteral inner in
               if ok then mkLiteralExpr t inner
               else mkLiteralExpr cur d in
        next r ;; ret (mkPropertyName lit NilExpr)
    end
  else if IsNumeric cur then
    next r ;; ret (mkPropertyName (mkLiteralExpr cur d) NilExpr)
  else if tt_eqb cur OpenBracketToken then
    next r ;;
    computed <- call r (ParseExpression OpAssign) ;;
    consume r in_ CloseBracketToken ;;
    ret (mkPropertyName zeroLiteral computed)
  else
    fail in_ [IdentifierToken; StringToken; NumericToken; OpenBracketToken] ;;
    ret zeroPropertyName.

(** [func (p *Parser) parseBindingElement(decl DeclType) (bindingElement BindingElement)] *)
Definition parseBindingElement (r : Rec) (decl : DeclType) : M BindingElement :=
  binding <- call r (ParseBinding decl) ;;
  cur <- gets tt ;;
  if tt_eqb cur EqToken then
    next r ;;
    default <- call r (ParseExpression OpAssign) ;;
    ret (mkBindingElement binding default)
  else ret (mkBindingElement binding NilExpr).

(** The elision loop of [parseBinding], lines 1037-1042. *)
Definition bindingElisionLoop (r : Rec) (list_ : list BindingElement)
  : M (list BindingElement) :=
  cur <- gets tt ;;
  if tt_eqb cur CommaToken then
    next r ;;
    cur <- gets tt ;;
    call r (BindingElisionLoop
              (if tt_eqb cur CommaToken then append list_ zeroBindingElement else list_))
  else ret list_.

(** The loop over an array binding pattern, lines 1035-1062: [None] when
    the function returns from inside the loop, otherwise the elements and
    the rest element. *)
Definition bindingArrayLoop (r : Rec) (decl : DeclType) (list_ : list BindingElement)
  : M (option (list BindingElement * IBinding)) :=
  cur <- gets tt ;;
  if negb (tt_eqb cur CloseBracketToken) then
    list_ <- bindingElisionLoop r list_ ;;
    cur <- gets tt ;;
    if tt_eqb cur EllipsisToken then
      next r ;;
      rest <- call r (ParseBinding decl) ;;
      cur <- gets tt ;;
      if negb (tt_eqb cur CloseBracketToken) then
        fail "array binding pattern" [CloseBracketToken] ;; ret None
      else ret (Some (list_, rest))
    else if tt_eqb cur CloseBracketToken then
      ret (Some (list_, NilBinding))
    else
      be <- call r (ParseBindingElement decl) ;;
      let list_ := append list_ be in
      cur <- gets tt ;;
      if negb (tt_eqb cur CommaToken) && negb (tt_eqb cur CloseBracketToken) then
        fail "array binding pattern" [CommaToken; CloseBracketToken] ;; ret None
      else call r (BindingArrayLoop decl list_)
  else ret (Some (list_, NilBinding)).

(** One item of an object binding pattern, lines 1090-1120; [None] when the
    function returns. *)
Definition bindingObjectItem (r : Rec) (decl : DeclType) : M (option BindingObjectItem) :=
  cur <- gets tt ;;
  isRef <- isIdentifierReference cur ;;
  if isRef then
    name <- gets data ;;
    let key := mkPropertyName (mkLiteralExpr IdentifierToken name) NilExpr in
    next r ;;
    cur <- gets tt ;;
    if tt_eqb cur ColonToken then
      next r ;;
      value <- call r (ParseBindingElement decl) ;;
      ret (Some (mkBindingObjectItem key value))
    else
      '(ref, ok) <- scopeDeclare decl name ;;
      if negb ok then
        failMessage "identifier '%s' has already been declared" [name] ;; ret None
      else
        cur <- gets tt ;;
        default <- (if tt_eqb cur EqToken
                    then next r ;; call r (ParseExpression OpAssign)
                    else ret NilExpr) ;;
        ret (Some (mkBindingObjectItem key (mkBindingElement (VarRefBinding ref) default)))
  else
    propertyName <- call r (ParsePropertyName "object binding pattern") ;;
    ok <- consume r "object binding pattern" ColonToken ;;
    if negb ok then ret None else
    value <- call r (ParseBindingElement decl) ;;
    ret (Some (mkBindingObjectItem propertyName value)).

(** The loop over an object binding pattern, lines 1068-1129. *)
Definition bindingObjectLoop (r : Rec) (decl : DeclType) (list_ : list BindingObjectItem)
  : M (option (list BindingObjectItem * option VarRef)) :=
  cur <- gets tt ;;
  if negb (tt_eqb cur CloseBraceToken) then
    if tt_eqb cur EllipsisToken then
      next r ;;
      cur <- gets tt ;;
      isRef <- isIdentifierReference cur ;;
      if negb isRef then
        fail "object binding pattern" [IdentifierToken] ;; ret None
      else
        d <- gets data ;;
        '(ref, ok) <- scopeDeclare decl d ;;
        if negb ok then
          failMessage "identifier '%s' has already been declared" [d] ;; ret None
        else
          next r ;;
          cur <- gets tt ;;
          if negb (tt_eqb cur CloseBraceToken) then
            fail "object binding pattern" [CloseBraceToken] ;; ret None
          else ret (Some (list_, Some ref))
    else
      item <- bindingObjectItem r decl ;;
      match item with
      | None => ret None
      | Some item =>
          let list_ := append list_ item in
          cur <- gets tt ;;
          if tt_eqb cur CommaToken then
            next r ;; call r (BindingObjectLoop decl list_)
          else if negb (tt_eqb cur CloseBraceToken) then
            fail "object binding pattern" [CommaToken; CloseBraceToken] ;; ret None
          else call r (BindingObjectLoop decl list_)
      end
  else ret (Some (list_, None)).

(** [func (p *Parser) parseBinding(decl DeclType) (binding IBinding)] *)
Definition parseBinding (r : Rec) (decl : DeclType) : M IBinding :=
  cur <- gets tt ;;
  g <- gets generator ;;
  a <- gets async ;;
  if IsIdentifier cur || negb g && tt_eqb cur YieldToken
     || negb a && tt_eqb cur AwaitToken then
    d <- gets data ;;
    '(ref, ok) <- scopeDeclare decl d ;;
    if negb ok then
      failMessage "identifier '%s' has already been declared" [d] ;;
      ret (VarRefBinding ref)
    else next r ;; ret (VarRefBinding ref)
  else if tt_eqb cur OpenBracketToken then
    next r ;;
    cur <- gets tt ;;
    res <- bindingArrayLoop r decl
             (if tt_eqb cur CommaToken then [zeroBindingElement] else []) ;;
    match res with
    | None => ret NilBinding
    | Some (list_, rest) => next r ;; ret (BindingArray list_ rest)
    end
  else if tt_eqb cur OpenBraceToken then
    next r ;;
    res <- bindingObjectLoop r decl [] ;;
    match res with
    | None => ret NilBinding
    | Some (list_, rest) => next r ;; ret (BindingObject list_ rest)
    end
  else
    fail "binding" [] ;; ret NilBinding.

(* ------------------------------------------------------------------ *)
(** *** Literals, arguments and arrow functions *)

(** The loop of [parseArrayLiteral], lines 1143-1167. *)
Definition arrayLiteralLoop (r : Rec) (prevComma : bool) (list_ : list Element)
  : M (list Element) :=
  cur <- gets tt ;;
  if tt_eqb cur ErrorToken then
    fail "expression" [] ;; ret list_
  else if tt_eqb cur CloseBracketToken then
    next r ;; ret list_
  else if tt_eqb cur CommaToken then
    let list_ := if prevComma then append list_ (mkElement NilExpr false) else list_ in
    next r ;;
    call r (ArrayLiteralLoop true list_)
  else
    let spread := tt_eqb cur EllipsisToken in
    (if spread then next r else skip) ;;
    value <- call r ParseAssignmentExpression ;;
    cur <- gets tt ;;
    (if spread && negb (tt_eqb cur CloseBracketToken)
     then setAssumeArrowFunc false else skip) ;;
    call r (ArrayLiteralLoop false (append list_ (mkElement value spread))).

(** [func (p *Parser) parseArrayLiteral() (array ArrayExpr)] *)
Definition parseArrayLiteral (r : Rec) : M (list Element) :=
  next r ;;
  arrayLiteralLoop r true [].

(** [parseObjectLiteral], lines 1193-1233: the modifiers and the name of a
    property; [None] when the function returns. *)
Definition objectPropertyName (r : Rec) : M (option (Modifiers * PropertyName)) :=
  cur <- gets tt ;;
  '(m, name) <-
    (if tt_eqb cur MulToken then
       next r ;; ret (mkModifiers false false true false false None, zeroPropertyName)
     else if tt_eqb cur AsyncToken then
       d <- gets data ;;
       next r ;;
       lt <- gets prevLT ;;
       if negb lt then
         cur <- gets tt ;;
         if tt_eqb cur MulToken then
           next r ;; ret (mkModifiers false true true false false None, zeroPropertyName)
         else ret (mkModifiers false true false false false (Some d), zeroPropertyName)
       else
         ret (mkModifiers false false false false false None,
              mkPropertyName (mkLiteralExpr IdentifierToken d) NilExpr)
     else if tt_eqb cur GetToken then
       d <- gets data ;; next r ;;
       ret (mkModifiers false false false true false (Some d), zeroPropertyName)
     else if tt_eqb cur SetToken then
       d <- gets data ;; next r ;;
       ret (mkModifiers false false false false true (Some d), zeroPropertyName)
     else ret (mkModifiers false false false false false None, zeroPropertyName)) ;;
  cur <- gets tt ;;
  match mData m with
  | Some d =>
      if negb (mGenerator m) &&
         (tt_eqb cur EqToken || tt_eqb cur CommaToken || tt_eqb cur CloseBraceToken
          || tt_eqb cur ColonToken || tt_eqb cur OpenParenToken) then
        ret (Some (mkModifiers (mStatic m) false (mGenerator m) false false (mData m),
                   mkPropertyName (mkLiteralExpr IdentifierToken d) NilExpr))
      else if negb (IsSet name) then
        name <- call r (ParsePropertyName "object literal") ;;
        if negb (IsSet name) then ret None else ret (Some (m, name))
      else ret (Some (m, name))
  | None =>
      if negb (IsSet name) then
        name <- call r (ParsePropertyName "object literal") ;;
        if negb (IsSet name) then ret None else ret (Some (m, name))
      else ret (Some (m, name))
  end.

Definition propertyNameLiteral (n : PropertyName) : LiteralExpr :=
  match n with mkPropertyName lit _ => lit end.

(** [parseObjectLiteral], lines 1183-1271: one property; [None] when the
    function returns. *)
Definition objectProperty (r : Rec) : M (option Property) :=
  cur <- gets tt ;;
  if tt_eqb cur EllipsisToken then
    next r ;;
    value <- call r ParseAssignmentExpression ;;
    cur <- gets tt ;;
    (if negb (tt_eqb cur CloseBraceToken) then setAssumeArrowFunc false else skip) ;;
    ret (Some (mkProperty zeroPropertyName true value NilExpr))
  else
    res <- objectPropertyName r ;;
    match res with
    | None => ret None
    | Some (m, name) =>
        cur <- gets tt ;;
        isRef <- isIdentifierReference (litTokenType (propertyNameLiteral name)) ;;
        if tt_eqb cur OpenParenToken then
          parent <- enterScope true ;;
          self <- gets scope ;;
          parentAsync <- gets async ;;
          parentGenerator <- gets generator ;;
          setFlags (mAsync m) (mGenerator m) ;;
          params <- call r (ParseFuncParams "method definition") ;;
          body <- call r (ParseBlockStmt "method definition" false) ;;
          setFlags parentAsync parentGenerator ;;
          exitScope parent ;;
          setAssumeArrowFunc false ;;
          ret (Some (mkProperty zeroPropertyName false
                       (MethodDeclExpr
                          (mkMethodDecl (mStatic m) (mAsync m) (mGenerator m) (mGet m) (mSet m)
                                        name params body self))
                       NilExpr))
        else if tt_eqb cur ColonToken then
          next r ;;
          value <- call r ParseAssignmentExpression ;;
          ret (Some (mkProperty name false value NilExpr))
        else if IsComputed name || negb isRef then
          fail "object literal" [ColonToken; OpenParenToken] ;; ret None
        else
          let ident := litData (propertyNameLiteral name) in
          assume <- gets assumeArrowFunc ;;
          ref <- (if assume
                  then '(ref, _) <- scopeDeclare ArgumentDecl ident ;; ret ref
                  else scopeUse ident) ;;
          cur <- gets tt ;;
          init <- (if tt_eqb cur EqToken
                   then next r ;; call r (ParseExpression OpAssign)
                   else ret NilExpr) ;;
          ret (Some (mkProperty name false (VarRefExpr ref) init))
    end.

(** The loop of [parseObjectLiteral], lines 1174-1279. *)
Definition objectLiteralLoop (r : Rec) (list_ : list Property) : M (list Property) :=
  cur <- gets tt ;;
  if tt_eqb cur ErrorToken then
    fail "object literal" [CloseBraceToken] ;; ret list_
  else if tt_eqb cur CloseBraceToken then
    next r ;; ret list_
  else
    property <- objectProperty r ;;
    match property with
    | None => ret list_
    | Some property =>
        let list_ := append list_ property in
        cur <- gets tt ;;
        if tt_eqb cur CommaToken then
          next r ;; call r (ObjectLiteralLoop list_)
        else if negb (tt_eqb cur CloseBraceToken) then
          fail "object literal" [] ;; ret list_
        else call r (ObjectLiteralLoop list_)
    end.

(** [func (p *Parser) parseObjectLiteral() (object ObjectExpr)] *)
Definition parseObjectLiteral (r : Rec) : M (list Property) :=
  next r ;;
  objectLiteralLoop r [].

(** [func (p *Parser) parseTemplateLiteral() (template TemplateExpr)]: the
    parts and the tail.  The body of the [for] statement leaves the loop or
    the function in its first round. *)
Definition parseTemplateLiteral (r : Rec) : M (list TemplatePart * string) :=
  cur <- gets tt ;;
  res <- (if tt_eqb cur TemplateStartToken || tt_eqb cur TemplateMiddleToken then
            tpl <- gets data ;;
            next r ;;
            e <- call r (ParseExpression OpExpr) ;;
            cur <- gets tt ;;
            if tt_eqb cur TemplateEndToken then ret ([mkTemplatePart tpl e], true)
            else
              fail "template literal" [TemplateToken] ;;
              ret ([mkTemplatePart tpl e], false)
          else ret ([], true)) ;;
  let '(list_, ok) := res in
  if negb ok then ret (list_, "") else
  tail <- gets data ;;
  next r ;;
  ret (list_, tail).

(** The loop of [parseArgs], lines 1305-1322. *)
Definition argsLoop (r : Rec) (list_ : list IExpr) : M Arguments :=
  cur <- gets tt ;;
  if tt_eqb cur EllipsisToken then
    next r ;;
    rest <- call r (ParseExpression OpAssign) ;;
    cur <- gets tt ;;
    (if tt_eqb cur CommaToken then next r else skip) ;;
    ret (mkArguments list_ rest)
  else if tt_eqb cur CloseParenToken || tt_eqb cur ErrorToken then
    ret (mkArguments list_ NilExpr)
  else
    e <- call r (ParseExpression OpAssign) ;;
    cur <- gets tt ;;
    (if tt_eqb cur CommaToken then next r else skip) ;;
    call r (ArgsLoop (append list_ e)).

(** [func (p *Parser) parseArgs() (args Arguments)] *)
Definition parseArgs (r : Rec) : M Arguments :=
  next r ;;
  args <- argsLoop r [] ;;
  consume r "arguments" CloseParenToken ;;
  ret args.

(** [func (p *Parser) parseArrowFuncBody() (body BlockStmt)] *)
Definition parseArrowFuncBody (r : Rec) : M BlockStmt :=
  cur <- gets tt ;;
  lt <- gets prevLT ;;
  if negb (tt_eqb cur ArrowToken) then
    fail "arrow function" [ArrowToken] ;; ret zeroBlockStmt
  else if lt then
    fail "expression" [] ;; ret zeroBlockStmt
  else
    next r ;;
    scopeMarkArguments ;;
    cur <- gets tt ;;
    if tt_eqb cur OpenBraceToken then
      call r (ParseBlockStmt "arrow function" false)
    else
      e <- call r (ParseExpression OpAssign) ;;
      ret (mkBlockStmt [ReturnStmt e] None).

(** [func (p *Parser) parseAsyncArrowFunc() (arrowFunc ArrowFunc)] *)
Definition parseAsyncArrowFunc (r : Rec) : M ArrowFunc :=
  parent <- enterScope true ;;
  self <- gets scope ;;
  parentAsync <- gets async ;;
  parentGenerator <- gets generator ;;
  setFlags true false ;;
  cur <- gets tt ;;
  g <- gets generator ;;
  params <- (if IsIdentifier cur || negb g && tt_eqb cur YieldToken then
               d <- gets data ;;
               '(ref, _) <- scopeDeclare ArgumentDecl d ;;
               next r ;;
               ret (mkParams [mkBindingElement (VarRefBinding ref) NilExpr] NilBinding)
             else call r (ParseFuncParams "arrow function")) ;;
  body <- call r ParseArrowFuncBody ;;
  setFlags parentAsync parentGenerator ;;
  exitScope parent ;;
  ret (mkArrowFunc true params body self).

(** [parseIdentifierArrowFunc], lines 1355-1364: the identifier that was
    parsed as a use becomes the parameter of the arrow function. *)
Definition detachIdentifier (ref : VarRef) : M VarRef :=
  a <- gets ast ;;
  match nth_error (Vars a) ref with
  | None => panic "index out of range"
  | Some v =>
      if (1 <? Uses v)%Z then
        setAst (setVarAt a ref (setUses v (Uses v - 1)%Z)) ;;
        '(ref', _) <- scopeDeclare ArgumentDecl (Name v) ;;
        ret ref'
      else
        s <- curScope ;;
        sc <- getScope s ;;
        match Parent sc with
        | None => panic "nil pointer dereference"
        | Some ps =>
            psc <- getScope ps ;;
            match Undeclared psc with
            | [] => panic "slice bounds out of range"
            | _ :: _ =>
                setAst (setScopeAt a ps (setUndeclared psc (removelast (Undeclared psc)))) ;;
                a <- gets ast ;;
                setAst (setVarAt a ref (setDecl v ArgumentDecl)) ;;
                sc <- getScope s ;;
                a <- gets ast ;;
                setAst (setScopeAt a s (setDeclared sc (append (Declared sc) ref))) ;;
                ret ref
            end
        end
  end.

(** [func (p *Parser) parseIdentifierArrowFunc(ref VarRef) (arrowFunc ArrowFunc)] *)
Definition parseIdentifierArrowFunc (r : Rec) (ref : VarRef) : M ArrowFunc :=
  parent <- enterScope true ;;
  self <- gets scope ;;
  parentAsync <- gets async ;;
  parentGenerator <- gets generator ;;
  setFlags false false ;;
  ref <- detachIdentifier ref ;;
  body <- call r ParseArrowFuncBody ;;
  setFlags parentAsync parentGenerator ;;
  exitScope parent ;;
  ret (mkArrowFunc false (mkParams [mkBindingElement (VarRefBinding ref) NilExpr] NilBinding)
                   body self).

(* ------------------------------------------------------------------ *)
(** *** Expressions *)

(** [func (p *Parser) parseIdentifierExpression(prec OpPrec, ident []byte) IExpr] *)
Definition parseIdentifierExpression (r : Rec) (prec : OpPrec) (ident : string) : M IExpr :=
  left <- scopeUse ident ;;
  call r (ParseExpressionSuffix (VarRefExpr left) prec OpPrimary).

(** [func (p *Parser) parseAsyncExpression(prec OpPrec, async []byte) IExpr] *)
Definition parseAsyncExpression (r : Rec) (prec : OpPrec) (async_ : string) : M IExpr :=
  lt <- gets prevLT ;;
  cur <- gets tt ;;
  g <- gets generator ;;
  if negb lt && tt_eqb cur FunctionToken then
    funcDecl <- call r (ParseAnyFunc true true) ;;
    call r (ParseExpressionSuffix (FuncDeclExpr funcDecl) prec OpPrimary)
  else if negb lt && prec_le prec OpAssign &&
          (tt_eqb cur OpenParenToken || IsIdentifier cur
           || negb g && tt_eqb cur YieldToken || tt_eqb cur AwaitToken) then
    if tt_eqb cur AwaitToken then
      fail "arrow function" [] ;; ret NilExpr
    else
      arrowFunc <- call r ParseAsyncArrowFunc ;;
      call r (ParseExpressionSuffix (ArrowFuncExpr arrowFunc) prec OpAssign)
  else
    left <- scopeUse async_ ;;
    call r (ParseExpressionSuffix (VarRefExpr left) prec OpPrimary).

(** A case of the [switch] in [parseExpression] either returns from the
    function ([inl], as [return nil] does) or leaves the switch with [left]
    and [precLeft] ([inr]). *)
Definition ExprCase : Set := (IExpr + IExpr * OpPrec)%type.
Definition returnExpr (e : IExpr) : M ExprCase := ret (inl e).
Definition leftExpr (left : IExpr) (precLeft : OpPrec) : M ExprCase :=
  ret (inr (left, precLeft)).

(** The prefix operators: [if limit < prec { p.fail("expression"); return nil };
    p.next(); left = &UnaryExpr{op, p.parseExpression(OpUnary)}; precLeft = OpUnary] *)
Definition exprUnary (r : Rec) (prec limit : OpPrec) (op : TokenType) : M ExprCase :=
  if prec_lt limit prec then
    fail "expression" [] ;; returnExpr NilExpr
  else
    next r ;;
    x <- call r (ParseExpression OpUnary) ;;
    leftExpr (UnaryExpr op x) OpUnary.

(** [case OpenParenToken] *)
Definition exprParen (r : Rec) (prec : OpPrec) : M ExprCase :=
  if prec_lt OpAssign prec then
    next r ;;
    x <- call r (ParseExpression OpExpr) ;;
    ok <- consume r "expression" CloseParenToken ;;
    if negb ok then returnExpr NilExpr else leftExpr (GroupExpr x) OpPrimary
  else
    e <- call r (ParseParenthesizedExpressionOrArrowFunc prec) ;;
    returnExpr e.

(** [case AwaitToken] *)
Definition exprAwait (r : Rec) (prec : OpPrec) (t : TokenType) : M ExprCase :=
  a <- gets async ;;
  if a && prec_le prec OpUnary then
    next r ;;
    x <- call r (ParseExpression OpUnary) ;;
    leftExpr (UnaryExpr t x) OpUnary
  else if a then
    fail "expression" [] ;; returnExpr NilExpr
  else
    d <- gets data ;;
    left <- scopeUse d ;;
    next r ;;
    leftExpr (VarRefExpr left) OpPrimary.

(** [case NewToken] *)
Definition exprNew (r : Rec) : M ExprCase :=
  next r ;;
  cur <- gets tt ;;
  if tt_eqb cur DotToken then
    next r ;;
    ok <- consume r "new.target expression" TargetToken ;;
    if negb ok then returnExpr NilExpr else leftExpr NewTargetExpr OpMember
  else
    x <- call r (ParseExpression OpMember) ;;
    cur <- gets tt ;;
    if tt_eqb cur OpenParenToken then
      args <- call r ParseArgs ;;
      match args with
      | mkArguments list_ rest =>
          if negb (length list_ =? 0)
             || match rest with NilExpr => false | _ => true end
          then leftExpr (NewExpr x (Some args)) OpMember
          else leftExpr (NewExpr x None) OpMember
      end
    else leftExpr (NewExpr x None) OpLHS.

(** [case ImportToken] *)
Definition exprImport (r : Rec) (prec : OpPrec) : M ExprCase :=
  cur <- gets tt ;;
  d <- gets data ;;
  let left := Literal (mkLiteralExpr cur d) in
  next r ;;
  cur <- gets tt ;;
  if tt_eqb cur DotToken then
    next r ;;
    ok <- consume r "import.meta expression" MetaToken ;;
    if negb ok then returnExpr NilExpr else leftExpr ImportMetaExpr OpMember
  else if negb (tt_eqb cur OpenParenToken) then
    fail "import expression" [OpenParenToken] ;; returnExpr NilExpr
  else if prec_lt OpLHS prec then
    fail "expression" [] ;; returnExpr NilExpr
  else leftExpr left OpLHS.

(** [case SuperToken] *)
Definition exprSuper (r : Rec) (prec : OpPrec) : M ExprCase :=
  cur <- gets tt ;;
  d <- gets data ;;
  let left := Literal (mkLiteralExpr cur d) in
  next r ;;
  cur <- gets tt ;;
  if prec_lt OpLHS prec && negb (tt_eqb cur DotToken) && negb (tt_eqb cur OpenBracketToken) then
    fail "super expression" [OpenBracketToken; DotToken] ;; returnExpr NilExpr
  else if negb (tt_eqb cur DotToken) && negb (tt_eqb cur OpenBracketToken)
          && negb (tt_eqb cur OpenParenToken) then
    fail "super expression" [OpenBracketToken; OpenParenToken; DotToken] ;;
    returnExpr NilExpr
  else if prec_lt OpLHS prec then leftExpr left OpMember
  else leftExpr left OpLHS.

(** [case YieldToken] *)
Definition exprYield (r : Rec) (prec : OpPrec) : M ExprCase :=
  g <- gets generator ;;
  if g && prec_le prec OpAssign then
    next r ;;
    lt <- gets prevLT ;;
    if negb lt then
      cur <- gets tt ;;
      let isGenerator := tt_eqb cur MulToken in
      (if isGenerator then next r else skip) ;;
      x <- call r (ParseExpression OpAssign) ;;
      leftExpr (YieldExpr isGenerator x) OpAssign
    else leftExpr (YieldExpr false NilExpr) OpAssign
  else if g then
    fail "expression" [] ;; returnExpr NilExpr
  else
    d <- gets data ;;
    left <- scopeUse d ;;
    next r ;;
    leftExpr (VarRefExpr left) OpPrimary.

(** [case StringToken, ThisToken, NullToken, TrueToken, FalseToken, RegExpToken] *)
Definition exprLiteral (r : Rec) : M ExprCase :=
  cur <- gets tt ;;
  d <- gets data ;;
  next r ;;
  leftExpr (Literal (mkLiteralExpr cur d)) OpPrimary.

(** [case AsyncToken] *)
Definition exprAsync (r : Rec) (prec : OpPrec) : M ExprCase :=
  async_ <- gets data ;;
  next r ;;
  left <- call r (ParseAsyncExpression prec async_) ;;
  leftExpr left OpPrimary.

(** [case TemplateToken, TemplateStartToken] *)
Definition exprTemplate (r : Rec) : M ExprCase :=
  '(list_, tail) <- call r ParseTemplateLiteral ;;
  leftExpr (TemplateExpr NilExpr list_ tail) OpPrimary.

(** The [switch] of [parseExpression], lines 1450-1621. *)
Definition exprSwitchCases (r : Rec) (prec : OpPrec) (t : TokenType) : M ExprCase :=
  match t with
  | StringToken | ThisToken | NullToken | TrueToken | FalseToken | RegExpToken =>
      exprLiteral r
  | OpenBracketToken =>
      array <- call r ParseArrayLiteral ;; leftExpr (ArrayExpr array) OpPrimary
  | OpenBraceToken =>
      object <- call r ParseObjectLiteral ;; leftExpr (ObjectExpr object) OpPrimary
  | OpenParenToken => exprParen r prec
  | NotToken | BitNotToken | TypeofToken | VoidToken | DeleteToken =>
      exprUnary r prec OpUnary t
  | AddToken => exprUnary r prec OpUnary PosToken
  | SubToken => exprUnary r prec OpUnary NegToken
  | IncrToken => exprUnary r prec OpUpdate PreIncrToken
  | DecrToken => exprUnary r prec OpUpdate PreDecrToken
  | AwaitToken => exprAwait r prec t
  | NewToken => exprNew r
  | ImportToken => exprImport r prec
  | SuperToken => exprSuper r prec
  | YieldToken => exprYield r prec
  | AsyncToken => exprAsync r prec
  | ClassToken =>
      classDecl <- call r (ParseAnyClass true) ;;
      leftExpr (ClassDeclExpr classDecl) OpPrimary
  | FunctionToken =>
      funcDecl <- call r (ParseAnyFunc false true) ;;
      leftExpr (FuncDeclExpr funcDecl) OpPrimary
  | TemplateToken | TemplateStartToken => exprTemplate r
  | _ => fail "expression" [] ;; returnExpr NilExpr
  end.

(** [parseExpression], lines 1428-1435: a [/] or [/=] at the start of an
    expression is read again as a regular expression; the result is false
    when the function returns nil. *)
Definition relexRegExp : M bool :=
  cur <- gets tt ;;
  if tt_eqb cur DivToken || tt_eqb cur DivEqToken then
    lexRegExp ;;
    cur <- gets tt ;;
    if tt_eqb cur ErrorToken then
      fail "regular expression" [] ;; ret false
    else ret true
  else ret true.

(** [func (p *Parser) parseExpression(prec OpPrec) IExpr] *)
Definition parseExpression (r : Rec) (prec : OpPrec) : M IExpr :=
  ok <- relexRegExp ;;
  if negb ok then ret NilExpr else
  cur <- gets tt ;;
  d <- gets data ;;
  if IsIdentifier cur && negb (tt_eqb cur AsyncToken) then
    left <- scopeUse d ;;
    next r ;;
    call r (ParseExpressionSuffix (VarRefExpr left) prec OpPrimary)
  else if IsNumeric cur then
    next r ;;
    call r (ParseExpressionSuffix (Literal (mkLiteralExpr cur d)) prec OpPrimary)
  else
    res <- exprSwitchCases r prec cur ;;
    match res with
    | inl e => ret e
    | inr (left', precLeft') => call r (ParseExpressionSuffix left' prec precLeft')
    end.

(** The shape shared by the infix operator cases of [parseExpressionSuffix]:
    [if level < prec { return left } else if precLeft < minLeft
    { p.fail("expression"); return nil }; p.next();
    left = &BinaryExpr{tt, left, p.parseExpression(right)}; precLeft = level] *)
Definition suffixInfix (r : Rec) (t : TokenType) (left : IExpr) (prec precLeft : OpPrec)
    (level minLeft right : OpPrec) : M ExprCase :=
  if prec_lt level prec then returnExpr left
  else if prec_lt precLeft minLeft then
    fail "expression" [] ;; returnExpr NilExpr
  else
    next r ;;
    y <- call r (ParseExpression right) ;;
    leftExpr (BinaryExpr t left y) level.

(** [case LtToken, LtEqToken, GtToken, GtEqToken, InToken, InstanceofToken] *)
Definition suffixCompare (r : Rec) (t : TokenType) (left : IExpr) (prec precLeft : OpPrec)
  : M ExprCase :=
  inFor_ <- gets inFor ;;
  if prec_lt OpCompare prec || inFor_ && tt_eqb t InToken then returnExpr left
  else if prec_lt precLeft OpCompare then
    fail "expression" [] ;; returnExpr NilExpr
  else
    next r ;;
    y <- call r (ParseExpression OpShift) ;;
    leftExpr (BinaryExpr t left y) OpCompare.

(** [case NullishToken] *)
Definition suffixNullish (r : Rec) (t : TokenType) (left : IExpr) (prec precLeft : OpPrec)
  : M ExprCase :=
  if prec_lt OpCoalesce prec then returnExpr left
  else if prec_lt precLeft OpBitOr && negb (prec_eqb precLeft OpCoalesce) then
    fail "expression" [] ;; returnExpr NilExpr
  else
    next r ;;
    y <- call r (ParseExpression OpBitOr) ;;
    leftExpr (BinaryExpr t left y) OpCoalesce.

(** [case DotToken] *)
Definition suffixDot (r : Rec) (left : IExpr) (precLeft : OpPrec) : M ExprCase :=
  if prec_lt precLeft OpLHS then
    fail "expression" [] ;; returnExpr NilExpr
  else
    next r ;;
    cur <- gets tt ;;
    if negb (IsIdentifierName cur) then
      fail "dot expression" [IdentifierToken] ;; returnExpr NilExpr
    else
      d <- gets data ;;
      next r ;;
      leftExpr (DotExpr left (mkLiteralExpr IdentifierToken d)) OpMember.

(** [case OpenBracketToken] *)
Definition suffixIndex (r : Rec) (left : IExpr) (precLeft : OpPrec) : M ExprCase :=
  if prec_lt precLeft OpLHS then
    fail "expression" [] ;; returnExpr NilExpr
  else
    next r ;;
    index <- call r (ParseExpression OpExpr) ;;
    ok <- consume r "index expression" CloseBracketToken ;;
    if negb ok then returnExpr NilExpr
    else leftExpr (IndexExpr left index) OpMember.

(** [case OpenParenToken] *)
Definition suffixCall (r : Rec) (left : IExpr) (prec precLeft : OpPrec) : M ExprCase :=
  if prec_lt OpLHS prec then returnExpr left
  else if prec_lt precLeft OpLHS then
    fail "expression" [] ;; returnExpr NilExpr
  else
    args <- call r ParseArgs ;;
    leftExpr (CallExpr left args) OpLHS.

(** [case TemplateToken, TemplateStartToken] *)
Definition suffixTemplate (r : Rec) (left : IExpr) (precLeft : OpPrec) : M ExprCase :=
  if prec_lt precLeft OpLHS then
    fail "expression" [] ;; returnExpr NilExpr
  else
    '(list_, tail) <- call r ParseTemplateLiteral ;;
    leftExpr (TemplateExpr left list_ tail) OpMember.

(** [case OptChainToken] *)
Definition suffixOptChain (r : Rec) (left : IExpr) (prec : OpPrec) : M ExprCase :=
  if prec_lt OpLHS prec then returnExpr left
  else
    next r ;;
    cur <- gets tt ;;
    if tt_eqb cur OpenParenToken then
      args <- call r ParseArgs ;;
      leftExpr (OptChainExpr left (CallExpr NilExpr args)) OpLHS
    else if tt_eqb cur OpenBracketToken then
      next r ;;
      index <- call r (ParseExpression OpExpr) ;;
      ok <- consume r "optional chaining expression" CloseBracketToken ;;
      if negb ok then returnExpr NilExpr
      else leftExpr (OptChainExpr left (IndexExpr NilExpr index)) OpLHS
    else if tt_eqb cur TemplateToken || tt_eqb cur TemplateStartToken then
      '(list_, tail) <- call r ParseTemplateLiteral ;;
      leftExpr (OptChainExpr left (TemplateExpr NilExpr list_ tail)) OpLHS
    else if IsIdentifierName cur then
      d <- gets data ;;
      next r ;;
      leftExpr (OptChainExpr left (Literal (mkLiteralExpr IdentifierToken d))) OpLHS
    else
      fail "optional chaining expression"
           [IdentifierToken; OpenParenToken; OpenBracketToken; TemplateToken] ;;
      returnExpr NilExpr.

(** [case IncrToken] and [case DecrToken] *)
Definition suffixUpdate (r : Rec) (op : TokenType) (left : IExpr) (prec precLeft : OpPrec)
  : M ExprCase :=
  lt <- gets prevLT ;;
  if lt || prec_lt OpUpdate prec then returnExpr left
  else if prec_lt precLeft OpLHS then
    fail "expression" [] ;; returnExpr NilExpr
  else
    next r ;;
    leftExpr (UnaryExpr op left) OpUpdate.

(** [case QuestionToken] *)
Definition suffixCond (r : Rec) (left : IExpr) (prec precLeft : OpPrec) : M ExprCase :=
  if prec_lt OpAssign prec then returnExpr left
  else if prec_lt precLeft OpCoalesce then
    fail "expression" [] ;; returnExpr NilExpr
  else
    next r ;;
    ifExpr <- call r (ParseExpression OpAssign) ;;
    ok <- consume r "conditional expression" ColonToken ;;
    if negb ok then returnExpr NilExpr else
    elseExpr <- call r (ParseExpression OpAssign) ;;
    leftExpr (CondExpr left ifExpr elseExpr) OpAssign.

(** [case CommaToken] *)
Definition suffixComma (r : Rec) (t : TokenType) (left : IExpr) (prec : OpPrec) : M ExprCase :=
  if prec_lt OpExpr prec then returnExpr left
  else
    next r ;;
    y <- call r (ParseExpression OpAssign) ;;
    leftExpr (BinaryExpr t left y) OpExpr.

(** [case ArrowToken] *)
Definition suffixArrow (r : Rec) (left : IExpr) (prec precLeft : OpPrec) : M ExprCase :=
  if prec_lt OpAssign prec then returnExpr left
  else if prec_lt precLeft OpPrimary then
    fail "expression" [] ;; returnExpr NilExpr
  else
    match left with
    | VarRefExpr ref =>
        arrowFunc <- call r (ParseIdentifierArrowFunc ref) ;;
        leftExpr (ArrowFuncExpr arrowFunc) OpAssign
    | _ => fail "expression" [] ;; returnExpr NilExpr
    end.

(** The [switch] of [parseExpressionSuffix]. *)
Definition suffixSwitchCases (r : Rec) (t : TokenType) (left : IExpr) (prec precLeft : OpPrec)
  : M ExprCase :=
  match t with
  | EqToken | MulEqToken | DivEqToken | ModEqToken | ExpEqToken | AddEqToken
  | SubEqToken | LtLtEqToken | GtGtEqToken | GtGtGtEqToken | BitAndEqToken
  | BitXorEqToken | BitOrEqToken =>
      suffixInfix r t left prec precLeft OpAssign OpLHS OpAssign
  | LtToken | LtEqToken | GtToken | GtEqToken | InToken | InstanceofToken =>
      suffixCompare r t left prec precLeft
  | EqEqToken | NotEqToken | EqEqEqToken | NotEqEqToken =>
      suffixInfix r t left prec precLeft OpEquals OpEquals OpCompare
  | AndToken => suffixInfix r t left prec precLeft OpAnd OpAnd OpBitOr
  | OrToken => suffixInfix r t left prec precLeft OpOr OpOr OpAnd
  | NullishToken => suffixNullish r t left prec precLeft
  | DotToken => suffixDot r left precLeft
  | OpenBracketToken => suffixIndex r left precLeft
  | OpenParenToken => suffixCall r left prec precLeft
  | TemplateToken | TemplateStartToken => suffixTemplate r left precLeft
  | OptChainToken => suffixOptChain r left prec
  | IncrToken => suffixUpdate r PostIncrToken left prec precLeft
  | DecrToken => suffixUpdate r PostDecrToken left prec precLeft
  | ExpToken => suffixInfix r t left prec precLeft OpExp OpUpdate OpExp
  | MulToken | DivToken | ModToken => suffixInfix r t left prec precLeft OpMul OpMul OpExp
  | AddToken | SubToken => suffixInfix r t left prec precLeft OpAdd OpAdd OpMul
  | LtLtToken | GtGtToken | GtGtGtToken =>
      suffixInfix r t left prec precLeft OpShift OpShift OpAdd
  | BitAndToken => suffixInfix r t left prec precLeft OpBitAnd OpBitAnd OpEquals
  | BitXorToken => suffixInfix r t left prec precLeft OpBitXor OpBitXor OpBitAnd
  | BitOrToken => suffixInfix r t left prec precLeft OpBitOr OpBitOr OpBitXor
  | QuestionToken => suffixCond r left prec precLeft
  | CommaToken => suffixComma r t left prec
  | ArrowToken => suffixArrow r left prec precLeft
  | _ => returnExpr left
  end.

(** [func (p *Parser) parseExpressionSuffix(left IExpr, prec, precLeft OpPrec) IExpr]:
    one round of the [for] loop; the next round is the recursive call. *)
Definition parseExpressionSuffix (r : Rec) (left : IExpr) (prec precLeft : OpPrec) : M IExpr :=
  t <- gets tt ;;
  res <- suffixSwitchCases r t left prec precLeft ;;
  match res with
  | inl e => ret e
  | inr (left', precLeft') => call r (ParseExpressionSuffix left' prec precLeft')
  end.

(** [func (p *Parser) parseAssignmentExpression() IExpr] *)
Definition parseAssignmentExpression (r : Rec) : M IExpr :=
  assume <- gets assumeArrowFunc ;;
  cur <- gets tt ;;
  if assume && IsIdentifier cur then
    d <- gets data ;;
    next r ;;
    nxt <- gets tt ;;
    if tt_eqb nxt EqToken || tt_eqb nxt CommaToken || tt_eqb nxt CloseParenToken
       || tt_eqb nxt CloseBraceToken || tt_eqb nxt CloseBracketToken then
      '(ref, _) <- scopeDeclare ArgumentDecl d ;;
      call r (ParseExpressionSuffix (VarRefExpr ref) OpAssign OpPrimary)
    else
      setAssumeArrowFunc false ;;
      if tt_eqb cur AsyncToken then call r (ParseAsyncExpression OpAssign d)
      else call r (ParseIdentifierExpression OpAssign d)
  else
    (if negb (tt_eqb cur OpenBracketToken) && negb (tt_eqb cur OpenBraceToken)
     then setAssumeArrowFunc false else skip) ;;
    call r (ParseExpression OpAssign).

(** The loop of [parseParenthesizedExpressionOrArrowFunc], lines 1933-1945:
    the list of expressions and the rest binding. *)
Definition parenListLoop (r : Rec) (list_ : list IExpr) : M (list IExpr * IBinding) :=
  cur <- gets tt ;;
  assume <- gets assumeArrowFunc ;;
  if negb (tt_eqb cur CloseParenToken) && negb (tt_eqb cur ErrorToken) then
    if tt_eqb cur EllipsisToken && assume then
      next r ;;
      rest <- call r (ParseBinding ArgumentDecl) ;;
      ret (list_, rest)
    else
      e <- call r ParseAssignmentExpression ;;
      let list_ := append list_ e in
      cur <- gets tt ;;
      if negb (tt_eqb cur CommaToken) then ret (list_, NilBinding)
      else next r ;; call r (ParenListLoop list_)
  else ret (list_, NilBinding).

Definition isNilBinding (b : IBinding) : bool :=
  match b with NilBinding => true | _ => false end.

(** [parseParenthesizedExpressionOrArrowFunc], lines 1952-1985: what follows
    the closing parenthesis.  [self] is [&arrowFunc.Scope]. *)
Definition parenFinish (r : Rec) (prec : OpPrec) (parent self : ScopeRef)
    (parentAssumeArrowFunc : bool) (list_ : list IExpr) (rest : IBinding) : M IExpr :=
  cur <- gets tt ;;
  assume <- gets assumeArrowFunc ;;
  if tt_eqb cur ArrowToken && assume then
    parentAsync <- gets async ;;
    parentGenerator <- gets generator ;;
    setFlags false false ;;
    match exprsToBindingElements list_ with
    | None => panic "interface conversion: IExpr is not VarRef"
    | Some params =>
        body <- call r ParseArrowFuncBody ;;
        setFlags parentAsync parentGenerator ;;
        setAssumeArrowFunc parentAssumeArrowFunc ;;
        exitScope parent ;;
        call r (ParseExpressionSuffix
                  (ArrowFuncExpr (mkArrowFunc false (mkParams params rest) body self))
                  prec OpAssign)
    end
  else
    match list_ with
    | [] => fail "arrow function" [ArrowToken] ;; ret NilExpr
    | first :: others =>
        if negb (isNilBinding rest) then
          fail "arrow function" [ArrowToken] ;; ret NilExpr
        else
          setAssumeArrowFunc parentAssumeArrowFunc ;;
          exitScope parent ;;
          a <- gets ast ;;
          match self with
          | None => panic "nil pointer dereference"
          | Some s =>
              setAst (UndeclareScope a s) ;;
              call r (ParseExpressionSuffix (GroupExpr (foldComma first others))
                                            prec OpPrimary)
          end
    end.

(** [func (p *Parser) parseParenthesizedExpressionOrArrowFunc(prec OpPrec) IExpr] *)
Definition parseParenthesizedExpressionOrArrowFunc (r : Rec) (prec : OpPrec) : M IExpr :=
  next r ;;
  parent <- enterScope true ;;
  self <- gets scope ;;
  parentAssumeArrowFunc <- gets assumeArrowFunc ;;
  setAssumeArrowFunc true ;;
  '(list_, rest) <- parenListLoop r [] ;;
  cur <- gets tt ;;
  if negb (tt_eqb cur CloseParenToken) then
    fail "expression" [] ;; ret NilExpr
  else
    next r ;;
    parenFinish r prec parent self parentAssumeArrowFunc list_ rest.

(* ------------------------------------------------------------------ *)
(** *** The entry point *)

(** [&Parser{l: NewLexer(r), tt: WhitespaceToken, ast: newAST()}] *)
Definition newParser (lx : Lexer) : Parser :=
  mkParser lx None WhitespaceToken "" false false false false false newAST None.

(** [Parse], lines 130-138: the error that is returned. *)
Definition parseResult (p : Parser) : option error :=
  let e := match err p with
           | None => Err (l p)
           | Some e0 =>
               let offset := (Offset (l p) - Z.of_nat (String.length (data p)))%Z in
               Some (parse_Error offset (Error e0))
           end in
  match e with
  | Some io_EOF => None
  | _ => e
  end.

(** [Parse], lines 128-139: the module is stored in the tree, the error is
    settled, and [p.ast] and [p.err] are returned. *)
Definition finishParse (module : ModuleNode) : M (AST * option error) :=
  a <- gets ast ;;
  setAst (setModule a module) ;;
  e <- gets parseResult ;;
  setErr e ;;
  a <- gets ast ;;
  ret (a, e).

(** [Parse], lines 122-127: the first token and the leading comment. *)
Definition firstToken (r : Rec) : M unit :=
  lexNext ;;
  cur <- gets tt ;;
  if tt_eqb cur CommentToken || tt_eqb cur CommentLineTerminatorToken then
    d <- gets data ;;
    a <- gets ast ;;
    setAst (setComment a (Some d)) ;;
    next r
  else skip.

(** [func Parse(r *parse.Input)], on the lexer made from the input; it
    returns [p.ast] (a pointer that is never nil) and [p.err]. *)
Definition parseProgram (r : Rec) : M (AST * option error) :=
  firstToken r ;;
  module <- parseModule r ;;
  finishParse module.

(* ------------------------------------------------------------------ *)
(** *** Tying the knot *)

(** Every recursive call, resolved with the table [r] for the calls made
    inside. *)
Definition dispatch (r : Rec) : Rec :=
  fun A c =>
    match c in Call T return M T with
    | NextLoop => nextLoop r
    | ParseModuleLoop list_ => parseModuleLoop r list_
    | ParseStmt allowDeclaration => parseStmt r allowDeclaration
    | SwitchClausesLoop clauses => switchClausesLoop r clauses
    | SwitchStmtsLoop stmts => switchStmtsLoop r stmts
    | ParseBlockStmt in_ enterContext => parseBlockStmt r in_ enterContext
    | BlockStmtLoop list_ => blockStmtLoop r list_
    | ParseImportStmt => parseImportStmt r
    | ImportListLoop list_ => importListLoop r list_
    | ParseExportStmt => parseExportStmt r
    | ExportListLoop list_ => exportListLoop r list_
    | ParseVarDecl t => parseVarDecl r t
    | VarDeclLoop declType list_ => varDeclLoop r declType list_
    | ParseFuncParams in_ => parseFuncParams r in_
    | FuncParamsLoop in_ list_ => funcParamsLoop r in_ list_
    | ParseAnyFunc async_ inExpr => parseAnyFunc r async_ inExpr
    | ParseAnyClass inExpr => parseAnyClass r inExpr
    | ClassMethodsLoop methods => classMethodsLoop r methods
    | ParseMethod => parseMethod r
    | ParsePropertyName in_ => parsePropertyName r in_
    | ParseBindingElement decl => parseBindingElement r decl
    | ParseBinding decl => parseBinding r decl
    | BindingArrayLoop decl list_ => bindingArrayLoop r decl list_
    | BindingElisionLoop list_ => bindingElisionLoop r list_
    | BindingObjectLoop decl list_ => bindingObjectLoop r decl list_
    | ParseArrayLiteral => parseArrayLiteral r
    | ArrayLiteralLoop prevComma list_ => arrayLiteralLoop r prevComma list_
    | ParseObjectLiteral => parseObjectLiteral r
    | ObjectLiteralLoop list_ => objectLiteralLoop r list_
    | ParseTemplateLiteral => parseTemplateLiteral r
    | ParseArgs => parseArgs r
    | ArgsLoop list_ => argsLoop r list_
    | ParseAsyncArrowFunc => parseAsyncArrowFunc r
    | ParseIdentifierArrowFunc ref => parseIdentifierArrowFunc r ref
    | ParseArrowFuncBody => parseArrowFuncBody r
    | ParseIdentifierExpression prec ident => parseIdentifierExpression r prec ident
    | ParseAsyncExpression prec async_ => parseAsyncExpression r prec async_
    | ParseExpression prec => parseExpression r prec
    | ParseExpressionSuffix left_ prec precLeft => parseExpressionSuffix r left_ prec precLeft
    | ParseAssignmentExpression => parseAssignmentExpression r
    | ParseParenthesizedExpressionOrArrowFunc prec =>
        parseParenthesizedExpressionOrArrowFunc r prec
    | ParenListLoop list_ => parenListLoop r list_
    end.

(** The parser with [fuel] levels of nested calls. *)
Fixpoint parser (fuel : nat) : Rec :=
  match fuel with
  | O => fun _ _ _ => OutOfFuel
  | S fuel' => dispatch (parser fuel')
  end.

(** [Parse(r)]: the parser record is built over a fresh lexer and run.  The
    fuel bounds the depth of the calls between parse functions. *)
Definition Parse (fuel : nat) (lx : Lexer) : result (AST * option error) :=
  parseProgram (parser fuel) (newParser lx).

End Parser.

Arguments Parser Lexer : clear implicits.
Arguments result Lexer A : clear implicits.
Arguments M Lexer A : clear implicits.
Arguments Rec Lexer : clear implicits.
Arguments Ret {Lexer A} a p.
Arguments Panic {Lexer A} msg.
Arguments OutOfFuel {Lexer A}.

(** What a run returned, and the state it returned in. *)
Definition value {Lexer A : Type} (x : result Lexer A) : option A :=
  match x with
  | Ret a _ => Some a
  | _ => None
  end.
Definition state {Lexer A : Type} (x : result Lexer A) : option (Parser Lexer) :=
  match x with
  | Ret _ p => Some p
  | _ => None
  end.

(* ================================================================== *)
(** ** Properties stated about parser operations *)
(* ================================================================== *)

Section Predicates.

Context {Lexer : Type} {TS : TokenSource Lexer} {TT : TokenTable} {AO : AstOps}.

(** The state [p] has the flags [a] and [g] and, when an error [e] was
    recorded before, still has that error. *)
Definition keeps (a g : bool) (e : option error) (p : Parser Lexer) : Prop :=
  async p = a /\ generator p = g /\ (e <> None -> err p = e).

(** [m], started with the flags [a], [g], returns with the flags [a'], [g'],
    and never replaces a recorded error. *)
Definition Frame {A : Type} (a g a' g' : bool) (m : M Lexer A) : Prop :=
  forall e p x p', keeps a g e p -> m p = Ret x p' -> keeps a' g' e p'.

(** Every call of the table [r] preserves the flags and a recorded error. *)
Definition FrameRec (r : Rec Lexer) : Prop :=
  forall a g A (c : Call A), Frame a g a g (r A c).

(** [y] is what [x] becomes with more fuel: the same, unless [x] ran out. *)
Definition extends {A : Type} (x y : result Lexer A) : Prop :=
  x = OutOfFuel \/ x = y.

Definition Extends {A : Type} (m m' : M Lexer A) : Prop :=
  forall p, extends (m p) (m' p).

Definition ExtendsRec (r r' : Rec Lexer) : Prop :=
  forall A (c : Call A), Extends (r A c) (r' A c).

(** Assignments to single fields of a state, for stating what an operation
    leaves behind. *)
Definition withToken (p : Parser Lexer) (t : TokenType) (d : string) (l' : Lexer)
  : Parser Lexer :=
  mkParser l' (err p) t d (prevLT p) (inFor p) (async p) (generator p)
           (assumeArrowFunc p) (ast p) (scope p).
Definition withPrevLT (p : Parser Lexer) (b : bool) : Parser Lexer :=
  mkParser (l p) (err p) (tt p) (data p) b (inFor p) (async p) (generator p)
           (assumeArrowFunc p) (ast p) (scope p).
Definition withInFor (p : Parser Lexer) (b : bool) : Parser Lexer :=
  mkParser (l p) (err p) (tt p) (data p) (prevLT p) b (async p) (generator p)
           (assumeArrowFunc p) (ast p) (scope p).
Definition withAssumeArrowFunc (p : Parser Lexer) (b : bool) : Parser Lexer :=
  mkParser (l p) (err p) (tt p) (data p) (prevLT p) (inFor p) (async p)
           (generator p) b (ast p) (scope p).
Definition withAst (p : Parser Lexer) (a : AST) : Parser Lexer :=
  mkParser (l p) (err p) (tt p) (data p) (prevLT p) (inFor p) (async p)
           (generator p) (assumeArrowFunc p) a (scope p).
Definition withScope (p : Parser Lexer) (s : ScopeRef) : Parser Lexer :=
  mkParser (l p) (err p) (tt p) (data p) (prevLT p) (inFor p) (async p)
           (generator p) (assumeArrowFunc p) (ast p) s.
Definition withError (p : Parser Lexer) (e : error) : Parser Lexer :=
  mkParser (l p) (Some e) ErrorToken (data p) (prevLT p) (inFor p) (async p)
           (generator p) (assumeArrowFunc p) (ast p) (scope p).

(** The flags of [p] are the flags of the state in which [x] returned. *)
Definition sameFlags {A : Type} (p : Parser Lexer) (x : result Lexer A) : Prop :=
  forall a p', x = Ret a p' -> async p' = async p /\ generator p' = generator p.

(** The tokens that [next] skips, and those among them that end a line. *)
Definition isSkipped (t : TokenType) : bool :=
  tt_eqb t WhitespaceToken || tt_eqb t LineTerminatorToken ||
  tt_eqb t CommentToken || tt_eqb t CommentLineTerminatorToken.
Definition endsLine (t : TokenType) : bool :=
  tt_eqb t LineTerminatorToken || tt_eqb t CommentLineTerminatorToken.

(** [Skips lx t d b lx' t' d' b']: with the current token [(t, d)], the
    lexer at [lx] and the line-terminator flag [b], skipping white space,
    line terminators and comments stops at the token [(t', d')] with the
    lexer at [lx'], and [b'] tells whether a line terminator was crossed
    (or [b] held before). *)
Inductive Skips : Lexer -> TokenType -> string -> bool ->
                  Lexer -> TokenType -> string -> bool -> Prop :=
  | Skips_stop lx t d b : isSkipped t = false -> Skips lx t d b lx t d b
  | Skips_step lx t d b t1 d1 lx1 lx' t' d' b' :
      isSkipped t = true ->
      Next lx = (t1, d1, lx1) ->
      Skips lx1 t1 d1 (b || endsLine t) lx' t' d' b' ->
      Skips lx t d b lx' t' d' b'.

(** What the scope discipline knows of a state: the scope it is in, or
    that an error is recorded (and then nothing about the scope). *)
Inductive Mode : Type :=
  | Clean (s : ScopeRef)
  | Failed.

Definition holds (md : Mode) (p : Parser Lexer) : Prop :=
  match md with
  | Clean s => scope p = s
  | Failed => err p <> None
  end.

(** [md'] is [md], or an error has been recorded. *)
Definition worse (md md' : Mode) : Prop := md' = md \/ md' = Failed.

(** [md'] is [md] and the flag [b] is set, or an error has been recorded. *)
Definition flagged (b : bool) (md md' : Mode) : Prop :=
  (b = true /\ md' = md) \/ md' = Failed.

(** [m], started in a state of which [md] holds, returns a value [x] in a
    state of which some [md'] holds with [Q x md']. *)
Definition Balanced {A : Type} (md : Mode) (m : M Lexer A)
    (Q : A -> Mode -> Prop) : Prop :=
  forall p x p', holds md p -> m p = Ret x p' -> exists md', holds md' p' /\ Q x md'.

(** What a call leaves behind: the scope it was started in, unless an error
    is recorded; the loop of [parseBlockStmt] moreover has been left at the
    closing brace, unless an error is recorded. *)
Definition promise {A : Type} (c : Call A) (md : Mode) : A -> Mode -> Prop :=
  match c in Call T return T -> Mode -> Prop with
  | BlockStmtLoop _ => fun x md' => flagged (snd x) md md'
  | _ => fun _ md' => worse md md'
  end.

Definition BalancedRec (r : Rec Lexer) : Prop :=
  forall md A (c : Call A), Balanced md (r A c) (promise c md).

(** What the error discipline knows of a state: no error is recorded, or
    one is recorded and the parser is at the error token, with the lexer
    [lx] and the token data [d]. *)
Inductive Progress : Type :=
  | Going
  | Halted (lx : Lexer) (d : string) (e : error).

Definition at_ (md : Progress) (p : Parser Lexer) : Prop :=
  match md with
  | Going => err p = None
  | Halted lx d e => l p = lx /\ data p = d /\ err p = Some e /\ tt p = ErrorToken
  end.

Definition halted (md : Progress) : Prop :=
  match md with
  | Going => False
  | Halted _ _ _ => True
  end.

(** [md'] is [md], or the parser was going and has halted. *)
Definition onward (md md' : Progress) : Prop :=
  md' = md \/ (md = Going /\ halted md').

(** [md'] is [md] and the flag [b] is set, or the parser has halted (and
    the flag is not set if it was going). *)
Definition answered (b : bool) (md md' : Progress) : Prop :=
  (b = true /\ md' = Going /\ md = Going) \/ (b = false /\ halted md' /\ onward md md').

(** [p.fail("expression"); return nil] in a case of [parseExpressionSuffix],
    in a parser that has recorded no error. *)
Definition refused (p : Parser Lexer) : result Lexer IExpr :=
  Ret NilExpr (withError p (Errorf (failMsg "expression" [] p) [])).

(** A result is returned while the parser is going; without a result the
    parser is going or has halted. *)
Definition unlessNone {B : Type} (x : option B) (md' : Progress) : Prop :=
  match x with
  | Some _ => md' = Going
  | None => onward Going md'
  end.

(** [m], started in a state at [md], returns a value [x] in a state at some
    [md'] with [Q x md']. *)
Definition Stops {A : Type} (md : Progress) (m : M Lexer A)
    (Q : A -> Progress -> Prop) : Prop :=
  forall p x p', at_ md p -> m p = Ret x p' -> exists md', at_ md' p' /\ Q x md'.

End Predicates.

Arguments Progress Lexer : clear implicits.
Arguments Going {Lexer}.

(* ================================================================== *)
(** ** The scope and binding resolver, from the specification *)
(* ================================================================== *)

Module Resolver.

(** The first entry of [refs] whose Variable is named [name]. *)
Definition findVar (a : AST) (refs : list VarRef) (name : string) : option VarRef :=
  find (fun ref => match nth_error (Vars a) ref with
                   | Some v => String.eqb (Name v) name
                   | None => false
                   end) refs.

Definition addUses (a : AST) (ref : VarRef) (n : Z) : AST :=
  match nth_error (Vars a) ref with
  | Some v => setVarAt a ref (setUses v (Uses v + n)%Z)
  | None => a
  end.

Definition hasRef (refs : list VarRef) (ref : VarRef) : bool :=
  existsb (Nat.eqb ref) refs.

Fixpoint removeRef (refs : list VarRef) (ref : VarRef) : list VarRef :=
  match refs with
  | [] => []
  | x :: refs' => if Nat.eqb x ref then refs' else x :: removeRef refs' ref
  end.

(** Modelled from the spec: the variable table is a single AST-wide
    append-only array (section 3); [AddVar] appends a Variable with no use
    yet and returns its index.  The file that defines it is not among the
    sources. *)
Definition AddVar (a : AST) (decl : DeclType) (name : string) : AST * VarRef :=
  (setVars a (append (Vars a) (mkVar decl name 0 None)), length (Vars a)).

(** Modelled from the spec: [declare(scope, kind, name)] of section 4.1
    ([Scope.Declare] is not among the sources).  A [var] declaration goes to
    the nearest function scope (hoisting, section 1).  A lexical or function
    declaration fails when a lexical binding of that name exists in the
    scope; any other declaration of an existing name merges into the entry.
    A new name reuses the placeholder of an earlier use in the scope, past
    the entries that [MarkArguments] marked, or creates a Variable; the
    entry is appended to [declared].  The binding node owns a [VarRef] of
    its own, so the declaration adds one occurrence to [Uses]: this keeps
    the invariant of section 3 ([useCount] is the number of [VarRef]
    occurrences in the tree) and is what [parseIdentifierArrowFunc] relies
    on when it takes a variable with a single occurrence for an undeclared
    one. *)
Definition Declare_ (a : AST) (s : nat) (decl : DeclType) (name : string)
  : AST * (VarRef * bool) :=
  match nth_error (Scopes a) s with
  | None => (a, (0, false))
  | Some sc0 =>
      let target := if decl_eqb decl VariableDecl
                    then match Func sc0 with Some f => f | None => s end
                    else s in
      match nth_error (Scopes a) target with
      | None => (a, (0, false))
      | Some sc =>
          match findVar a (Declared sc) name with
          | Some ref =>
              match nth_error (Vars a) ref with
              | Some v =>
                  if (decl_eqb decl LexicalDecl || decl_eqb decl FunctionDecl)
                     && decl_eqb (Decl v) LexicalDecl
                  then (a, (0, false))
                  else (addUses a ref 1, (ref, true))
              | None => (a, (0, false))
              end
          | None =>
              match (if decl_eqb decl ArgumentDecl then None
                     else findVar a (skipn (NumArguments sc) (Undeclared sc)) name) with
              | Some ref =>
                  match nth_error (Vars a) ref with
                  | Some v =>
                      let a := setVarAt a ref (setUses (setDecl v decl) (Uses v + 1)%Z) in
                      let sc := setUndeclared sc (removeRef (Undeclared sc) ref) in
                      (setScopeAt a target (setDeclared sc (append (Declared sc) ref)),
                       (ref, true))
                  | None => (a, (0, false))
                  end
              | None =>
                  let '(a, ref) := AddVar a decl name in
                  let a := addUses a ref 1 in
                  (setScopeAt a target (setDeclared sc (append (Declared sc) ref)),
                   (ref, true))
              end
          end
      end
  end.

(** The scope chain is walked from the innermost scope outward; the fuel
    is the number of scopes in the store. *)
Fixpoint findDeclared (fuel : nat) (a : AST) (s : ScopeRef) (name : string)
  : option VarRef :=
  match fuel, s with
  | S fuel', Some i =>
      match nth_error (Scopes a) i with
      | Some sc =>
          match findVar a (Declared sc) name with
          | Some ref => Some ref
          | None => findDeclared fuel' a (Parent sc) name
          end
      | None => None
      end
  | _, _ => None
  end.

(** The placeholders of the current function: the [undeclared] lists from
    the innermost scope up to its function scope. *)
Fixpoint findUndeclared (fuel : nat) (a : AST) (s : ScopeRef) (name : string)
  : option VarRef :=
  match fuel, s with
  | S fuel', Some i =>
      match nth_error (Scopes a) i with
      | Some sc =>
          match findVar a (Undeclared sc) name with
          | Some ref => Some ref
          | None =>
              match Func sc with
              | Some f => if Nat.eqb f i then None
                          else findUndeclared fuel' a (Parent sc) name
              | None => findUndeclared fuel' a (Parent sc) name
              end
          end
      | None => None
      end
  | _, _ => None
  end.

(** Modelled from the spec: [use(scope, name)] of section 4.1 ([Scope.Use]
    is not among the sources): a declared variable found on the scope chain
    gets one more use; otherwise a placeholder of the current function is
    reused, or one is created and recorded in the innermost scope's
    [undeclared] list. *)
Definition Use (a : AST) (s : nat) (name : string) : AST * VarRef :=
  let fuel := length (Scopes a) in
  match findDeclared fuel a (Some s) name with
  | Some ref => (addUses a ref 1, ref)
  | None =>
      match findUndeclared fuel a (Some s) name with
      | Some ref => (addUses a ref 1, ref)
      | None =>
          let '(a, ref) := AddVar a NoDecl name in
          let a := addUses a ref 1 in
          match nth_error (Scopes a) s with
          | Some sc => (setScopeAt a s (setUndeclared sc (append (Undeclared sc) ref)), ref)
          | None => (a, ref)
          end
      end
  end.

(** An occurrence [ref] is rebound to the entry [target], which takes over
    its uses. *)
Definition rebind (a : AST) (ref target : VarRef) : AST :=
  match nth_error (Vars a) ref with
  | Some v =>
      if Nat.eqb ref target then a
      else addUses (setVarAt a ref (setLink v (Some target))) target (Uses v)
  | None => a
  end.

(** One entry moves into the parent scope [ps]: it is rebound to an entry
    of that name which the parent declares or already records as
    undeclared, or else it is appended to the parent's [undeclared]. *)
Definition mergeIntoParent (a : AST) (ps : nat) (ref : VarRef) : AST :=
  match nth_error (Scopes a) ps, nth_error (Vars a) ref with
  | Some psc, Some v =>
      match findVar a (Declared psc) (Name v) with
      | Some d => rebind a ref d
      | None =>
          match findVar a (Undeclared psc) (Name v) with
          | Some u => rebind a ref u
          | None => setScopeAt a ps (setUndeclared psc (append (Undeclared psc) ref))
          end
      end
  | _, _ => a
  end.

(** Modelled from the spec: [exitScope(scope)] of section 4.1
    ([Scope.HoistUndeclared] is not among the sources): every entry of
    [undeclared] that the scope itself does not declare is recorded again
    in the parent scope, or rebound to the parent's entry of that name. *)
Definition HoistUndeclared (a : AST) (s : nat) : AST :=
  match nth_error (Scopes a) s with
  | Some sc =>
      fold_left
        (fun a ref =>
           match nth_error (Vars a) ref with
           | Some v =>
               match findVar a (Declared sc) (Name v) with
               | Some d => rebind a ref d
               | None =>
                   match Parent sc with
                   | Some ps => mergeIntoParent a ps ref
                   | None => a
                   end
               end
           | None => a
           end)
        (Undeclared sc) a
  | None => a
  end.

(** Modelled from the spec: a speculative scope that turns out not to be an
    arrow function is discarded and every variable it declared is demoted
    to an ordinary free-variable use merged into the parent scope
    (sections 3 and 4.2; [Scope.UndeclareScope] is not among the
    sources). *)
Definition UndeclareScope (a : AST) (s : nat) : AST :=
  match nth_error (Scopes a) s with
  | Some sc =>
      let a :=
        fold_left
          (fun a ref =>
             match nth_error (Vars a) ref with
             | Some v =>
                 let a := setVarAt a ref (setDecl v NoDecl) in
                 match Parent sc with
                 | Some ps => mergeIntoParent a ps ref
                 | None => a
                 end
             | None => a
             end)
          (Declared sc) a in
      match nth_error (Scopes a) s with
      | Some sc => setScopeAt a s (setUndeclared (setDeclared sc []) [])
      | None => a
      end
  | None => a
  end.

(** [Scope.MarkArguments] is not among the sources and the spec does not
    describe it; following the comment at its call sites, the uses seen
    while the parameters were parsed are marked so that a later declaration
    of the body does not take them over. *)
Definition MarkArguments (a : AST) (s : nat) : AST :=
  match nth_error (Scopes a) s with
  | Some sc => setScopeAt a s (setNumArguments sc (length (Undeclared sc)))
  | None => a
  end.

(** [PropertyName.IsComputed] and [PropertyName.IsSet] (not among the
    sources): a name is computed when [Computed] is not nil, and set when it
    is computed or its literal has a token type. *)
Definition IsComputed (n : PropertyName) : bool :=
  match n with
  | mkPropertyName _ NilExpr => false
  | mkPropertyName _ _ => true
  end.
Definition IsSet (n : PropertyName) : bool :=
  IsComputed n ||
  match n with mkPropertyName lit _ => negb (tt_eqb (litTokenType lit) ErrorToken) end.

#[export] Instance ops : AstOps :=
  Build_AstOps Declare_ Use HoistUndeclared UndeclareScope MarkArguments AddVar
               IsSet IsComputed.

End Resolver.

(* ================================================================== *)
(** ** A scripted token source and token tables for the examples *)
(* ================================================================== *)

Module Script.

(** What a lexer answers on one input: the tokens in order, the terminal
    error, and for a [/] or [/=] token what [RegExp] answers in its place
    ([None]: the regular expression does not lex). *)
Inductive Stream : Set :=
  | End (e : error)
  | Tok (t : TokenType) (d : string) (rest : Stream)
  | Slash (t : TokenType) (d : string) (rest : Stream)
          (re : option string) (reRest : Stream).

(** [again] is what [RegExp] answers for the token just read: the length of
    that token, the regular expression and the tokens after it. *)
Record Lexer : Set := mkLexer {
  pending : Stream;
  again : option (nat * option string * Stream);
  lerr : option error;
  pos : Z
}.

Definition start (s : Stream) : Lexer := mkLexer s None None 0.

Definition Next (lx : Lexer) : TokenType * string * Lexer :=
  match pending lx with
  | End e => (ErrorToken, "", mkLexer (End e) None (Some e) (pos lx))
  | Tok t d rest =>
      (t, d, mkLexer rest None (lerr lx) (pos lx + Z.of_nat (String.length d)))
  | Slash t d rest re reRest =>
      (t, d, mkLexer rest (Some (String.length d, re, reRest)) (lerr lx)
                     (pos lx + Z.of_nat (String.length d)))
  end.

Definition badRegExp (lx : Lexer) : error :=
  parse_Error (pos lx) "unexpected EOF or newline".

Definition RegExp (lx : Lexer) : TokenType * string * Lexer :=
  match again lx with
  | Some (n, Some d, rest) =>
      (RegExpToken, d,
       mkLexer rest None (lerr lx) (pos lx - Z.of_nat n + Z.of_nat (String.length d)))
  | _ =>
      (ErrorToken, "",
       mkLexer (End (badRegExp lx)) None (Some (badRegExp lx)) (pos lx))
  end.

#[export] Instance source : TokenSource Lexer :=
  Build_TokenSource Next RegExp lerr pos.

Definition IsIdentifier (t : TokenType) : bool :=
  match t with
  | IdentifierToken | AsToken | AsyncToken | FromToken | GetToken | LetToken
  | MetaToken | OfToken | SetToken | StaticToken | TargetToken => true
  | _ => false
  end.

Definition IsReserved (t : TokenType) : bool :=
  match t with
  | AwaitToken | BreakToken | CaseToken | CatchToken | ClassToken | ConstToken
  | ContinueToken | DebuggerToken | DefaultToken | DeleteToken | DoToken
  | ElseToken | ExportToken | ExtendsToken | FalseToken | FinallyToken
  | ForToken | FunctionToken | IfToken | ImportToken | InToken
  | InstanceofToken | NewToken | NullToken | ReturnToken | SuperToken
  | SwitchToken | ThisToken | ThrowToken | TrueToken | TryToken | TypeofToken
  | YieldToken | VarToken | VoidToken | WhileToken | WithToken => true
  | _ => false
  end.

Definition IsIdentifierName (t : TokenType) : bool := IsIdentifier t || IsReserved t.

Definition IsNumeric (t : TokenType) : bool := tt_eqb t NumericToken.

Definition TokenString (t : TokenType) : string :=
  match t with
  | ErrorToken => "Error"
  | IdentifierToken => "Identifier"
  | StringToken => "String"
  | NumericToken => "Numeric"
  | TemplateToken => "Template"
  | OpenBraceToken => "{" | CloseBraceToken => "}"
  | OpenParenToken => "(" | CloseParenToken => ")"
  | OpenBracketToken => "[" | CloseBracketToken => "]"
  | SemicolonToken => ";" | CommaToken => "," | ColonToken => ":"
  | ArrowToken => "=>" | DotToken => "." | MulToken => "*"
  | InToken => "in" | OfToken => "of" | AsToken => "as" | FromToken => "from"
  | _ => "?"
  end.

#[export] Instance tables : TokenTable :=
  Build_TokenTable IsIdentifier IsIdentifierName IsNumeric TokenString
                   (fun _ => false) (fun _ => (ErrorToken, false)).

(** Shorthands for writing token streams. *)
Definition ident (d : string) : Stream -> Stream := Tok IdentifierToken d.
Definition space : Stream -> Stream := Tok WhitespaceToken " ".
Definition newline : Stream -> Stream := Tok LineTerminatorToken (String "010"%char "").
Definition eof : Stream := End io_EOF.

(** The stream of the given tokens, ending in end-of-input. *)
Definition script (tokens : list (TokenType * string)) : Stream :=
  fold_right (fun td rest => Tok (fst td) (snd td) rest) eof tokens.
Definition sp : TokenType * string := (WhitespaceToken, " ").
Definition nl : TokenType * string := (LineTerminatorToken, String "010"%char "").
Definition id (d : string) : TokenType * string := (IdentifierToken, d).

End Script.

(* ================================================================== *)
(** ** Example inputs *)
(* ================================================================== *)

Module Examples.

Import Script Resolver.




(** [(...a)] *)
Definition parenRest : Stream :=
  script [(OpenParenToken, "("); (EllipsisToken, "..."); id "a";
          (CloseParenToken, ")")].

(** [let f = x => x + y; let g = x;] *)
Definition letArrow : Stream :=
  script [(LetToken, "let"); sp; id "f"; sp; (EqToken, "="); sp; id "x"; sp;
          (ArrowToken, "=>"); sp; id "x"; sp; (AddToken, "+"); sp; id "y";
          (SemicolonToken, ";"); sp; (LetToken, "let"); sp; id "g"; sp;
          (EqToken, "="); sp; id "x"; (SemicolonToken, ";")].

(** [x, x => 1] *)
Definition secondUseArrow : Stream :=
  script [id "x"; (CommaToken, ","); sp; id "x"; sp; (ArrowToken, "=>"); sp;
          (NumericToken, "1")].

(** [return], a line feed, [1] *)
Definition returnNewline : Stream :=
  script [(ReturnToken, "return"); nl; (NumericToken, "1")].

(** [return 1] *)
Definition returnValue : Stream :=
  script [(ReturnToken, "return"); sp; (NumericToken, "1")].

(** [.test(x)] *)
Definition dotTestCall : Stream :=
  script [(DotToken, "."); id "test"; (OpenParenToken, "("); id "x";
          (CloseParenToken, ")")].

(** [/ab+c/.test(x)]: the lexer first answers the punctuator [/] and, asked
    again, the regular expression [/ab+c/]. *)
Definition regexpTest : Stream :=
  Slash DivToken "/"
        (ident "ab" (Tok AddToken "+" (ident "c" (Slash DivToken "/" dotTestCall None eof))))
        (Some "/ab+c/") dotTestCall.

(** [a / b] *)
Definition division : Stream :=
  ident "a" (space (Slash DivToken "/" (space (ident "b" eof)) None eof)).

(** [/], which does not lex as a regular expression *)
Definition badRegexp : Stream := Slash DivToken "/" eof None eof.


(** [for (a in b) ;] *)
Definition forIn : Stream :=
  script [(ForToken, "for"); sp; (OpenParenToken, "("); id "a"; sp;
          (InToken, "in"); sp; id "b"; (CloseParenToken, ")"); sp;
          (SemicolonToken, ";")].

(** [(a in b)] *)
Definition parenIn : Stream :=
  script [(OpenParenToken, "("); id "a"; sp; (InToken, "in"); sp; id "b";
          (CloseParenToken, ")")].

(** [function* g(){ yield 1 }] *)
Definition generatorDecl : Stream :=
  script [(FunctionToken, "function"); (MulToken, "*"); sp; id "g";
          (OpenParenToken, "("); (CloseParenToken, ")"); (OpenBraceToken, "{"); sp;
          (YieldToken, "yield"); sp; (NumericToken, "1"); sp; (CloseBraceToken, "}")].

(** [) ]]: two tokens that start no statement *)
Definition twoErrors : Stream :=
  script [(CloseParenToken, ")"); sp; (CloseBracketToken, "]")].

(** The module's statements and the error that [Parse] returns. *)
Definition parsed (fuel : nat) (s : Stream) : option (list IStmt * option error) :=
  match Parse fuel (start s) with
  | Ret (a, e) _ => Some (modList (astModule a), e)
  | _ => None
  end.

(** The variable table and the scopes that [Parse] returns. *)
Definition resolved (fuel : nat) (s : Stream) : option (list Var * list Scope) :=
  match Parse fuel (start s) with
  | Ret (a, _) _ => Some (Vars a, Scopes a)
  | _ => None
  end.

(** The parser at the first token of a stream, inside a module scope. *)
Definition atFirstToken (s : Stream) : option (Parser Lexer) :=
  state ((bind lexNext (fun _ => enterScope true)) (newParser (start s))).

End Examples.

(* ================================================================== *)
(** ** Example states *)
(* ================================================================== *)

Module States.

Import Script Resolver Examples.

(** The state a run returned in (the start state when it did not return). *)
Definition after {A : Type} (m : M Lexer A) (p : Parser Lexer) : Parser Lexer :=
  match m p with
  | Ret _ p' => p'
  | _ => p
  end.

(** The parser at the first token of a stream, inside the module scope. *)
Definition stateAt (s : Stream) : Parser Lexer :=
  after (enterScope true) (after lexNext (newParser (start s))).

(** At [return] of [return], line feed, [1], and after [p.next()]. *)
Definition atReturn : Parser Lexer := Eval vm_compute in stateAt returnNewline.
Definition afterReturn : Parser Lexer :=
  Eval vm_compute in after (next (parser 10)) atReturn.

(** At [in] with [p.inFor] set. *)
Definition atInInFor : Parser Lexer :=
  Eval vm_compute in
    withInFor (stateAt (script [(InToken, "in"); sp; id "b"])) true.

(** At a [/] that does not lex as a regular expression. *)
Definition atBadSlash : Parser Lexer := Eval vm_compute in stateAt badRegexp.

(** At the end of the input; and the same state after [p.fail("expression")]. *)
Definition atEnd : Parser Lexer := Eval vm_compute in stateAt eof.
Definition failed : Parser Lexer :=
  Eval vm_compute in after (fail "expression" []) (stateAt twoErrors).

(** A state whose variable table holds [x] with two uses, inside a function
    scope entered from the module scope. *)
Definition twoUses : Parser Lexer :=
  Eval vm_compute in
    after (enterScope true)
          (after (bind (scopeUse "x") (fun _ => scopeUse "x")) (stateAt eof)).

(** At [function] of [function* g(){ yield 1 }]. *)
Definition atGenerator : Parser Lexer := Eval vm_compute in stateAt generatorDecl.

End States.

(* ================================================================== *)
(** ** More inputs *)
(* ================================================================== *)

Module Inputs.

Import Script Resolver.

(** [throw], a line feed, [x] *)
Definition throwNewline : Stream := script [(ThrowToken, "throw"); nl; id "x"].

(** [throw;] *)
Definition throwSemicolon : Stream :=
  script [(ThrowToken, "throw"); (SemicolonToken, ";")].

(** [break], a line feed, [foo] *)
Definition breakNewline : Stream := script [(BreakToken, "break"); nl; id "foo"].

(** [continue foo] *)
Definition continueLabel : Stream :=
  script [(ContinueToken, "continue"); sp; id "foo"].

(** [a], a line feed, [++b] *)
Definition incrNewline : Stream := script [id "a"; nl; (IncrToken, "++"); id "b"].

(** [var x y] *)
Definition varTwoNames : Stream :=
  script [(VarToken, "var"); sp; id "x"; sp; id "y"].

(** [if(a) const x=1] *)
Definition ifConst : Stream :=
  script [(IfToken, "if"); (OpenParenToken, "("); id "a"; (CloseParenToken, ")");
          sp; (ConstToken, "const"); sp; id "x"; (EqToken, "=");
          (NumericToken, "1")].

(** An input that starts with a space, with a line feed, and one that
    starts with a comment. *)
Definition leadingSpace (rest : Stream) : Stream := Tok WhitespaceToken " " rest.
Definition leadingNewline (rest : Stream) : Stream :=
  Tok LineTerminatorToken (String "010"%char "") rest.
Definition leadingComment : Stream :=
  script [(CommentToken, "/*c*/"); sp; id "a"].

(** The binary operators of [parseExpressionSuffix] whose right operand is
    parsed at the next tighter precedence. *)
Definition leftOperators : list TokenType :=
  [CommaToken; OrToken; AndToken; BitOrToken; BitXorToken; BitAndToken;
   EqEqToken; NotEqToken; EqEqEqToken; NotEqEqToken;
   LtToken; LtEqToken; GtToken; GtEqToken; InToken; InstanceofToken;
   LtLtToken; GtGtToken; GtGtGtToken; AddToken; SubToken;
   MulToken; DivToken; ModToken].

(** The precedence that the case of an operator in [parseExpressionSuffix]
    compares with [prec] and leaves in [precLeft]. *)
Definition opLevel (t : TokenType) : OpPrec :=
  match t with
  | CommaToken => OpExpr
  | OrToken => OpOr
  | AndToken => OpAnd
  | BitOrToken => OpBitOr
  | BitXorToken => OpBitXor
  | BitAndToken => OpBitAnd
  | EqEqToken | NotEqToken | EqEqEqToken | NotEqEqToken => OpEquals
  | LtToken | LtEqToken | GtToken | GtEqToken | InToken | InstanceofToken => OpCompare
  | LtLtToken | GtGtToken | GtGtGtToken => OpShift
  | AddToken | SubToken => OpAdd
  | MulToken | DivToken | ModToken => OpMul
  | ExpToken => OpExp
  | _ => OpAssign
  end.

(** The text of an operator token. *)
Definition opText (t : TokenType) : string :=
  match t with
  | CommaToken => "," | OrToken => "||" | AndToken => "&&"
  | BitOrToken => "|" | BitXorToken => "^" | BitAndToken => "&"
  | EqEqToken => "==" | NotEqToken => "!=" | EqEqEqToken => "==="
  | NotEqEqToken => "!==" | LtToken => "<" | LtEqToken => "<="
  | GtToken => ">" | GtEqToken => ">=" | InToken => "in"
  | InstanceofToken => "instanceof" | LtLtToken => "<<" | GtGtToken => ">>"
  | GtGtGtToken => ">>>" | AddToken => "+" | SubToken => "-"
  | MulToken => "*" | DivToken => "/" | ModToken => "%"
  | ExpToken => "**" | NullishToken => "??"
  | NotToken => "!" | BitNotToken => "~" | TypeofToken => "typeof"
  | VoidToken => "void" | DeleteToken => "delete"
  | MulEqToken => "*=" | DivEqToken => "/=" | ModEqToken => "%=" | ExpEqToken => "**="
  | AddEqToken => "+=" | SubEqToken => "-=" | LtLtEqToken => "<<="
  | GtGtEqToken => ">>=" | GtGtGtEqToken => ">>>=" | BitAndEqToken => "&="
  | BitXorEqToken => "^=" | BitOrEqToken => "|="
  | _ => "="
  end.

(** [a op1 b op2 c] *)
Definition twoOperators (t1 t2 : TokenType) : Stream :=
  script [id "a"; sp; (t1, opText t1); sp; id "b"; sp; (t2, opText t2); sp; id "c"].

(** [a op1 b op2 c] with the operands of the tighter operator grouped, and
    those of the first one when the two are equally tight. *)
Definition grouped (t1 t2 : TokenType) : IExpr :=
  if prec_le (opLevel t2) (opLevel t1)
  then BinaryExpr t2 (BinaryExpr t1 (VarRefExpr 0) (VarRefExpr 1)) (VarRefExpr 2)
  else BinaryExpr t1 (VarRefExpr 0) (BinaryExpr t2 (VarRefExpr 1) (VarRefExpr 2)).




(** The prefix operators of [parseExpression] that are refused before
    [**]. *)
Definition prefixOperators : list TokenType :=
  [NotToken; BitNotToken; TypeofToken; VoidToken; DeleteToken; AddToken; SubToken].

(** [op a ** b] *)
Definition prefixThenExp (t : TokenType) : Stream :=
  script [(t, opText t); sp; id "a"; sp; (ExpToken, "**"); sp; id "b"].

(** At [throw] of [throw], line feed, [x], and after [p.next()]. *)
Definition atThrow : Parser Lexer := Eval vm_compute in States.stateAt throwNewline.
Definition afterThrow : Parser Lexer :=
  Eval vm_compute in States.after (next (parser 10)) atThrow.

(** At [break] of [break], line feed, [foo], and after [p.next()]. *)
Definition atBreak : Parser Lexer := Eval vm_compute in States.stateAt breakNewline.
Definition afterBreak : Parser Lexer :=
  Eval vm_compute in States.after (next (parser 10)) atBreak.

(** At [++] of [a], line feed, [++b]. *)
Definition atIncr : Parser Lexer :=
  Eval vm_compute in
    States.after (next (parser 10)) (States.stateAt incrNewline).

(** At [var] of [var x y]; after [p.next()]; and after [parseVarDecl]. *)
Definition atVar : Parser Lexer := Eval vm_compute in States.stateAt varTwoNames.
Definition afterVar : Parser Lexer :=
  Eval vm_compute in States.after (next (parser 10)) atVar.

Definition afterVarDecl : Parser Lexer :=
  Eval vm_compute in States.after (call (parser 20) (ParseVarDecl VarToken)) afterVar.

(** At [const]. *)
Definition atConst : Parser Lexer :=
  Eval vm_compute in
    States.stateAt (script [(ConstToken, "const"); sp; id "x"; (EqToken, "=");
                            (NumericToken, "1")]).

(** At a [/] that does not lex as a regular expression, after
    [p.l.RegExp()]. *)
Definition afterBadRegExp : Parser Lexer :=
  Eval vm_compute in States.after lexRegExp States.atBadSlash.

(** After [function* g(){ yield 1 }] has been parsed from its first token. *)
Definition afterGenerator : Parser Lexer :=
  Eval vm_compute in
    States.after (call (parser 50) (ParseAnyFunc false false)) States.atGenerator.

(** After [parseExpression] in a parser that has recorded an error. *)
Definition afterHalted : Parser Lexer :=
  Eval vm_compute in
    States.after (call (parser 10) (ParseExpression OpExpr)) States.failed.

(** After [parseStmt(false)] at [const]. *)
Definition afterConst : Parser Lexer :=
  Eval vm_compute in States.after (call (parser 10) (ParseStmt false)) atConst.

(** The parser after [p.fail] at the end of the input. *)
Definition afterFail : Parser Lexer :=
  Eval vm_compute in States.after (fail "statement" [SemicolonToken]) States.atEnd.

(** A template with one substitution, [`a${x}c`], and with two,
    [`a${x}b${y}c`]. *)
Definition templateOne : Stream :=
  script [(TemplateStartToken, "`a${"); id "x"; (TemplateEndToken, "}c`")].
Definition templateTwo : Stream :=
  script [(TemplateStartToken, "`a${"); id "x"; (TemplateMiddleToken, "}b${");
          id "y"; (TemplateEndToken, "}c`")].

(** At the start of [templateTwo]; after [p.next()]; and after
    [parseExpression]. *)
Definition atTemplate : Parser Lexer := Eval vm_compute in States.stateAt templateTwo.
Definition afterTemplateStart : Parser Lexer :=
  Eval vm_compute in States.after (next (parser 10)) atTemplate.
Definition afterTemplateExpr : Parser Lexer :=
  Eval vm_compute in
    States.after (call (parser 20) (ParseExpression OpExpr)) afterTemplateStart.

(** [f(a b)] *)
Definition argsNoComma : Stream :=
  script [id "f"; (OpenParenToken, "("); id "a"; sp; id "b"; (CloseParenToken, ")")].

(** At [a] of [f(a b)], two tokens after the first one, and after
    [parseExpression]. *)
Definition atFirstArg : Parser Lexer :=
  Eval vm_compute in
    States.after (next (parser 10))
      (States.after (next (parser 10)) (States.stateAt argsNoComma)).
Definition afterFirstArg : Parser Lexer :=
  Eval vm_compute in
    States.after (call (parser 20) (ParseExpression OpAssign)) atFirstArg.

(** [let = 1] and [let x = 1] *)
Definition letAssign : Stream :=
  script [(LetToken, "let"); sp; (EqToken, "="); sp; (NumericToken, "1")].
Definition letDecl : Stream :=
  script [(LetToken, "let"); sp; id "x"; sp; (EqToken, "="); sp; (NumericToken, "1")].

(** At [let] of [let = 1], and after [p.next()]. *)
Definition atLet : Parser Lexer := Eval vm_compute in States.stateAt letAssign.
Definition afterLet : Parser Lexer :=
  Eval vm_compute in States.after (next (parser 10)) atLet.


(** At [??] as the first token of [?? c]. *)
Definition atNullish : Parser Lexer :=
  Eval vm_compute in States.stateAt (script [(NullishToken, "??"); sp; id "c"]).

(** [({...[a]}) => 1] *)
Definition spreadArrayParam : Stream :=
  script [(OpenParenToken, "("); (OpenBraceToken, "{"); (EllipsisToken, "...");
          (OpenBracketToken, "["); id "a"; (CloseBracketToken, "]");
          (CloseBraceToken, "}"); (CloseParenToken, ")"); sp; (ArrowToken, "=>"); sp;
          (NumericToken, "1")].

(** [if(a)], [while(a)] and [a:] with nothing after them. *)
Definition ifNoBody : Stream :=
  script [(IfToken, "if"); (OpenParenToken, "("); id "a"; (CloseParenToken, ")")].
Definition whileNoBody : Stream :=
  script [(WhileToken, "while"); (OpenParenToken, "("); id "a"; (CloseParenToken, ")")].
Definition labelNoBody : Stream := script [id "a"; (ColonToken, ":")].

(** The number of tokens that a stream can still give, whichever way its
    [/] tokens are read; for a lexer, whether or not [RegExp] is called for
    the token just read. *)
Fixpoint streamSize (s : Stream) : nat :=
  match s with
  | End _ => 0
  | Tok _ _ rest => S (streamSize rest)
  | Slash _ _ rest _ reRest => S (Nat.max (streamSize rest) (streamSize reRest))
  end.

Definition lexerSize (lx : Lexer) : nat :=
  Nat.max (streamSize (pending lx))
          (match again lx with
           | Some (_, _, rest) => streamSize rest
           | None => 0
           end).

(** The message of the run-time panic in which [Parse] ends, if it does. *)
Definition panics (fuel : nat) (s : Stream) : option string :=
  match Parse fuel (start s) with
  | Panic msg => Some msg
  | _ => None
  end.

End Inputs.

(* ================================================================== *)
(** ** Calls that are made at any token *)
(* ================================================================== *)

(** The parse functions that are called without a test of the current
    token, and so also at the error token.  The others are called only
    after their first token has been seen. *)
Definition anywhere {A : Type} (c : Call A) : bool :=
  match c with
  | ParseImportStmt => false
  | ParseExportStmt => false
  | ParseAnyFunc _ _ => false
  | ParseAnyClass _ => false
  | ParseArrayLiteral => false
  | ParseObjectLiteral => false
  | ParseTemplateLiteral => false
  | ParseArgs => false
  | ParseParenthesizedExpressionOrArrowFunc _ => false
  | _ => true
  end.

Section HaltingRec.

Context {Lexer : Type} {TS : TokenSource Lexer} {TT : TokenTable} {AO : AstOps}.

(** What a call leaves behind in a parser that was going: it is going or
    has halted; the loop of [next] records no error. *)
Definition outcome {A : Type} (c : Call A) : A -> Progress Lexer -> Prop :=
  match c with
  | NextLoop => fun _ md' => md' = Going
  | BindingArrayLoop _ _ => fun x md' => unlessNone x md'
  | BindingObjectLoop _ _ => fun x md' => unlessNone x md'
  | _ => fun _ md' => onward Going md'
  end.

(** Every call of the table [r] records no error or halts the parser, and
    the calls that are made at any token leave a halted parser as it is. *)
Definition StopsRec (r : Rec Lexer) : Prop :=
  (forall A (c : Call A), Stops Going (r A c) (outcome c))
  /\ (forall lx d e A (c : Call A), anywhere c = true ->
        Stops (Halted lx d e) (r A c) (fun _ md' => md' = Halted lx d e)).

End HaltingRec.

(* ================================================================== *)
(** ** The measure of termination *)
(* ================================================================== *)

(** What the termination argument knows of a state: no error is recorded
    and the input left in the lexer measures at most [n]; or the parser is
    at the error token. *)
Inductive Phase : Set :=
  | Live (n : nat)
  | Stuck.

Definition weight (ph : Phase) : nat :=
  match ph with
  | Live n => S n
  | Stuck => 0
  end.

Definition alive (ph : Phase) : Prop :=
  match ph with
  | Live _ => True
  | Stuck => False
  end.

(** [ph'] comes after [ph]: no more input is left than before, and less if
    [strict], unless the parser is at the error token; there it stays. *)
Definition spent (strict : bool) (ph ph' : Phase) : Prop :=
  match ph with
  | Live n =>
      match ph' with
      | Live k => if strict then k < n else k <= n
      | Stuck => True
      end
  | Stuck => ph' = Stuck
  end.

(** After [p.consume]: a token was read, or the parser is at the error
    token. *)
Definition consumed (ok : bool) (ph ph' : Phase) : Prop :=
  if ok then alive ph /\ spent true ph ph' else ph' = Stuck.

(** After a test that fails only with an error. *)
Definition checked (ok : bool) (ph ph' : Phase) : Prop :=
  if ok then spent false ph ph' else ph' = Stuck.

(** After a result that is there only when a token was read. *)
Definition gained {B : Type} (x : option B) (ph ph' : Phase) : Prop :=
  match x with
  | Some _ => spent true ph ph'
  | None => spent false ph ph'
  end.

(** After a result that is kept only while no error is recorded. *)
Definition holdsSome {B : Type} (x : option B) (ph' : Phase) : Prop :=
  match x with
  | Some _ => alive ph'
  | None => True
  end.

(** The levels of the parse functions: a function is called at the same
    input only by functions of a higher level. *)
Definition lv_nextLoop : nat := 0.
Definition lv_next : nat := 0.
Definition lv_consume : nat := 0.
Definition lv_parseModuleLoop : nat := 3.
Definition lv_terminated : nat := 0.
Definition lv_stmtBlock : nat := 1.
Definition lv_stmtVar : nat := 0.
Definition lv_stmtLet : nat := 0.
Definition lv_stmtIf : nat := 0.
Definition lv_stmtBranch : nat := 0.
Definition lv_stmtReturn : nat := 0.
Definition lv_stmtWith : nat := 0.
Definition lv_stmtDo : nat := 0.
Definition lv_stmtWhile : nat := 0.
Definition lv_forInitExpr : nat := 2.
Definition lv_forInit : nat := 2.
Definition lv_forRest : nat := 0.
Definition lv_stmtFor : nat := 0.
Definition lv_switchStmtsLoop : nat := 3.
Definition lv_switchClausesLoop : nat := 0.
Definition lv_stmtSwitch : nat := 0.
Definition lv_stmtFunction : nat := 1.
Definition lv_stmtAsync : nat := 0.
Definition lv_stmtClass : nat := 1.
Definition lv_stmtThrow : nat := 0.
Definition lv_stmtTry : nat := 0.
Definition lv_stmtDefault : nat := 2.
Definition lv_stmtSwitchCases : nat := 2.
Definition lv_parseStmt : nat := 2.
Definition lv_blockStmtLoop : nat := 3.
Definition lv_parseBlockStmt : nat := 0.
Definition lv_importListLoop : nat := 0.
Definition lv_importClause : nat := 0.
Definition lv_parseImportStmt : nat := 0.
Definition lv_exportListLoop : nat := 0.
Definition lv_exportList : nat := 0.
Definition lv_exportDefault : nat := 0.
Definition lv_parseExportStmt : nat := 0.
Definition lv_varDeclLoop : nat := 2.
Definition lv_parseVarDecl : nat := 2.
Definition lv_funcParamsLoop : nat := 2.
Definition lv_parseFuncParams : nat := 0.
Definition lv_parseAnyFunc : nat := 0.
Definition lv_classMethodsLoop : nat := 2.
Definition lv_parseAnyClass : nat := 0.
Definition lv_methodModifiers : nat := 0.
Definition lv_parseMethod : nat := 1.
Definition lv_parsePropertyName : nat := 0.
Definition lv_parseBindingElement : nat := 1.
Definition lv_bindingElisionLoop : nat := 0.
Definition lv_bindingArrayLoop : nat := 2.
Definition lv_bindingObjectItem : nat := 1.
Definition lv_bindingObjectLoop : nat := 1.
Definition lv_parseBinding : nat := 0.
Definition lv_arrayLiteralLoop : nat := 3.
Definition lv_parseArrayLiteral : nat := 0.
Definition lv_objectProperty : nat := 1.
Definition lv_objectLiteralLoop : nat := 1.
Definition lv_parseObjectLiteral : nat := 0.
Definition lv_parseTemplateLiteral : nat := 0.
Definition lv_argsLoop : nat := 2.
Definition lv_parseArgs : nat := 0.
Definition lv_parseArrowFuncBody : nat := 0.
Definition lv_parseAsyncArrowFunc : nat := 1.
Definition lv_parseIdentifierArrowFunc : nat := 1.
Definition lv_parseIdentifierExpression : nat := 3.
Definition lv_parseAsyncExpression : nat := 3.
Definition lv_exprUnary : nat := 0.
Definition lv_exprParen : nat := 1.
Definition lv_exprAwait : nat := 0.
Definition lv_exprNew : nat := 0.
Definition lv_exprImport : nat := 0.
Definition lv_exprSuper : nat := 0.
Definition lv_exprYield : nat := 0.
Definition lv_exprLiteral : nat := 0.
Definition lv_exprAsync : nat := 0.
Definition lv_exprTemplate : nat := 1.
Definition lv_exprSwitchCases : nat := 1.
Definition lv_relexRegExp : nat := 0.
Definition lv_parseExpression : nat := 1.
Definition lv_suffixInfix : nat := 0.
Definition lv_suffixCompare : nat := 0.
Definition lv_suffixNullish : nat := 0.
Definition lv_suffixDot : nat := 0.
Definition lv_suffixIndex : nat := 0.
Definition lv_suffixCall : nat := 1.
Definition lv_suffixTemplate : nat := 1.
Definition lv_suffixOptChain : nat := 0.
Definition lv_suffixUpdate : nat := 0.
Definition lv_suffixCond : nat := 0.
Definition lv_suffixComma : nat := 0.
Definition lv_suffixArrow : nat := 2.
Definition lv_suffixSwitchCases : nat := 2.
Definition lv_parseExpressionSuffix : nat := 2.
Definition lv_parseAssignmentExpression : nat := 2.
Definition lv_parenListLoop : nat := 3.
Definition lv_parenFinish : nat := 3.
Definition lv_parseParenthesizedExpressionOrArrowFunc : nat := 0.

(** The fuel that one unit of input pays for. *)
Definition fuelStep : nat := 4.

(** The level of a call is that of the function it calls. *)
Definition rank {A : Type} (c : Call A) : nat :=
  match c with
  | NextLoop => lv_nextLoop
  | ParseModuleLoop _ => lv_parseModuleLoop
  | ParseStmt _ => lv_parseStmt
  | SwitchClausesLoop _ => lv_switchClausesLoop
  | SwitchStmtsLoop _ => lv_switchStmtsLoop
  | ParseBlockStmt _ _ => lv_parseBlockStmt
  | BlockStmtLoop _ => lv_blockStmtLoop
  | ParseImportStmt => lv_parseImportStmt
  | ImportListLoop _ => lv_importListLoop
  | ParseExportStmt => lv_parseExportStmt
  | ExportListLoop _ => lv_exportListLoop
  | ParseVarDecl _ => lv_parseVarDecl
  | VarDeclLoop _ _ => lv_varDeclLoop
  | ParseFuncParams _ => lv_parseFuncParams
  | FuncParamsLoop _ _ => lv_funcParamsLoop
  | ParseAnyFunc _ _ => lv_parseAnyFunc
  | ParseAnyClass _ => lv_parseAnyClass
  | ClassMethodsLoop _ => lv_classMethodsLoop
  | ParseMethod => lv_parseMethod
  | ParsePropertyName _ => lv_parsePropertyName
  | ParseBindingElement _ => lv_parseBindingElement
  | ParseBinding _ => lv_parseBinding
  | BindingArrayLoop _ _ => lv_bindingArrayLoop
  | BindingElisionLoop _ => lv_bindingElisionLoop
  | BindingObjectLoop _ _ => lv_bindingObjectLoop
  | ParseArrayLiteral => lv_parseArrayLiteral
  | ArrayLiteralLoop _ _ => lv_arrayLiteralLoop
  | ParseObjectLiteral => lv_parseObjectLiteral
  | ObjectLiteralLoop _ => lv_objectLiteralLoop
  | ParseTemplateLiteral => lv_parseTemplateLiteral
  | ParseArgs => lv_parseArgs
  | ArgsLoop _ => lv_argsLoop
  | ParseAsyncArrowFunc => lv_parseAsyncArrowFunc
  | ParseIdentifierArrowFunc _ => lv_parseIdentifierArrowFunc
  | ParseArrowFuncBody => lv_parseArrowFuncBody
  | ParseIdentifierExpression _ _ => lv_parseIdentifierExpression
  | ParseAsyncExpression _ _ => lv_parseAsyncExpression
  | ParseExpression _ => lv_parseExpression
  | ParseExpressionSuffix _ _ _ => lv_parseExpressionSuffix
  | ParseAssignmentExpression => lv_parseAssignmentExpression
  | ParseParenthesizedExpressionOrArrowFunc _ => lv_parseParenthesizedExpressionOrArrowFunc
  | ParenListLoop _ => lv_parenListLoop
  end.

(** The calls that read a token or leave the parser at the error token. *)
Definition strictCall {A : Type} (c : Call A) : bool :=
  match c with
  | NextLoop => false
  | ParseModuleLoop _ => false
  | SwitchStmtsLoop _ => false
  | ImportListLoop _ => false
  | ExportListLoop _ => false
  | FuncParamsLoop _ _ => false
  | BindingArrayLoop _ _ => false
  | BindingElisionLoop _ => false
  | BindingObjectLoop _ _ => false
  | ObjectLiteralLoop _ => false
  | ArgsLoop _ => false
  | ParseIdentifierExpression _ _ => false
  | ParseAsyncExpression _ _ => false
  | ParseExpressionSuffix _ _ _ => false
  | ParenListLoop _ => false
  | _ => true
  end.

Section TerminationRec.

Context {Lexer : Type} {TS : TokenSource Lexer} {TT : TokenTable} {AO : AstOps}.

Variable size : Lexer -> nat.

Definition in_phase (ph : Phase) (p : Parser Lexer) : Prop :=
  match ph with
  | Live n => err p = None /\ size (l p) <= n
  | Stuck => tt p = ErrorToken
  end.

(** [m], started in a state of phase [ph], panics or returns a value [x] in
    a state of some phase [ph'] with [Q x ph']. *)
Definition Total {A : Type} (ph : Phase) (m : M Lexer A)
    (Q : A -> Phase -> Prop) : Prop :=
  forall p, in_phase ph p ->
    (exists msg, m p = Panic msg)
    \/ (exists x p' ph', m p = Ret x p' /\ in_phase ph' p' /\ Q x ph').

(** After a case of [parseExpression] or [parseExpressionSuffix] that goes
    on with the loop, a token was read. *)
Definition advanced (x : ExprCase) (ph ph' : Phase) : Prop :=
  match x with
  | inl _ => spent false ph ph'
  | inr _ => alive ph /\ spent true ph ph'
  end.

(** What a call leaves behind. *)
Definition result_of {A : Type} (c : Call A) (ph : Phase) : A -> Phase -> Prop :=
  match c in Call T return T -> Phase -> Prop with
  | BindingArrayLoop _ _ => fun x ph' => spent false ph ph' /\ holdsSome x ph'
  | BindingObjectLoop _ _ => fun x ph' => spent false ph ph' /\ holdsSome x ph'
  | c' => fun _ ph' => spent (strictCall c') ph ph'
  end.

(** The calls of the table [r] that need less than [n] levels of nested
    calls are total; at the error token, those that are made at any
    token. *)
Definition TotalRec (r : Rec Lexer) (n : nat) : Prop :=
  forall A (c : Call A) ph,
    rank c + fuelStep * weight ph < n ->
    (ph = Stuck -> anywhere c = true) ->
    Total ph (r A c) (result_of c ph).

End TerminationRec.

(* ================================================================== *)
(** ** Frame and first-error properties of the parser operations *)
(* ================================================================== *)

Section Frame.

Context {Lexer : Type} {TS : TokenSource Lexer} {TT : TokenTable} {AO : AstOps}.

Lemma Frame_ret {A : Type} a g (x : A) : Frame a g a g (ret x : M Lexer A).
Proof. intros e p y p' H E. inversion E; subst; exact H. Qed.

Lemma Frame_bind {A B : Type} a g a1 g1 a2 g2 (m : M Lexer A) (k : A -> M Lexer B) :
  Frame a g a1 g1 m -> (forall x, Frame a1 g1 a2 g2 (k x)) ->
  Frame a g a2 g2 (bind m k).
Proof.
  intros Hm Hk e p y p' H E. unfold bind in E.
  destruct (m p) as [x p1| |] eqn:Em; try discriminate.
  eapply Hk; [eapply Hm; eassumption | exact E].
Qed.

Lemma Frame_gets {A : Type} a g (f : Parser Lexer -> A) : Frame a g a g (gets f).
Proof. intros e p y p' H E. inversion E; subst; exact H. Qed.

Lemma Frame_bind_async {B : Type} a g a2 g2 (k : bool -> M Lexer B) :
  Frame a g a2 g2 (k a) -> Frame a g a2 g2 (bind (gets async) k).
Proof.
  intros Hk e p y p' H E. unfold bind, gets in E.
  destruct H as (Ha & Hg & He). rewrite Ha in E.
  eapply Hk; [split; [|split]; eassumption | exact E].
Qed.

Lemma Frame_bind_generator {B : Type} a g a2 g2 (k : bool -> M Lexer B) :
  Frame a g a2 g2 (k g) -> Frame a g a2 g2 (bind (gets generator) k).
Proof.
  intros Hk e p y p' H E. unfold bind, gets in E.
  destruct H as (Ha & Hg & He). rewrite Hg in E.
  eapply Hk; [split; [|split]; eassumption | exact E].
Qed.

Lemma Frame_panic {A : Type} a g a' g' msg : Frame a g a' g' (@panic Lexer A msg).
Proof. intros e p y p' H E. discriminate. Qed.

Lemma Frame_setFlags a g x y : Frame a g x y (setFlags x y : M Lexer unit).
Proof.
  intros e p u p' (Ha & Hg & He) E. inversion E; subst.
  unfold keeps; simpl. auto.
Qed.

(** An assignment to a field other than [async], [generator] and [err]. *)
Ltac frame_assign :=
  intros ? ? ? ? (? & ? & ?) E; inversion E; subst; unfold keeps; simpl;
  repeat split; assumption.

Lemma Frame_setToken a g t d l' : Frame a g a g (setToken t d l' : M Lexer unit).
Proof. frame_assign. Qed.
Lemma Frame_setPrevLT a g b : Frame a g a g (setPrevLT b : M Lexer unit).
Proof. frame_assign. Qed.
Lemma Frame_setInFor a g b : Frame a g a g (setInFor b : M Lexer unit).
Proof. frame_assign. Qed.
Lemma Frame_setAssumeArrowFunc a g b : Frame a g a g (setAssumeArrowFunc b : M Lexer unit).
Proof. frame_assign. Qed.
Lemma Frame_setAst a g x : Frame a g a g (setAst x : M Lexer unit).
Proof. frame_assign. Qed.
Lemma Frame_setScope a g s : Frame a g a g (setScope s : M Lexer unit).
Proof. frame_assign. Qed.

Lemma Frame_failMessage a g msg args : Frame a g a g (failMessage msg args : M Lexer unit).
Proof.
  intros e p u p' (Ha & Hg & He) E. unfold failMessage, bind, gets in E.
  destruct (err p) eqn:Ee.
  - inversion E; subst. unfold keeps. repeat split; try reflexivity.
    intros Hne. rewrite Ee. auto.
  - inversion E; subst. unfold keeps; simpl. repeat split; try reflexivity.
    intros Hne. pose proof (He Hne). congruence.
Qed.

Lemma Frame_fail a g in_ expected : Frame a g a g (fail in_ expected : M Lexer unit).
Proof.
  intros e p u p' (Ha & Hg & He) E. unfold fail, bind, gets in E.
  destruct (err p) eqn:Ee.
  - inversion E; subst. unfold keeps. repeat split; try reflexivity.
    intros Hne. rewrite Ee. auto.
  - inversion E; subst. unfold keeps; simpl. repeat split; try reflexivity.
    intros Hne. pose proof (He Hne). congruence.
Qed.

Create HintDb frame discriminated.

(** One step of the syntax-directed proof that a parser operation is
    framed: sequencing, branching, the reads of the two flags, and the
    operations already proved. *)
Ltac frame_step :=
  lazymatch goal with
  | |- Frame _ _ _ _ (bind (gets async) _) => apply Frame_bind_async; cbv beta
  | |- Frame _ _ _ _ (bind (gets generator) _) => apply Frame_bind_generator; cbv beta
  | |- Frame _ _ _ _ (bind _ _) => eapply Frame_bind; [ | intros ]
  | |- Frame _ _ _ _ (ret _) => apply Frame_ret
  | |- Frame _ _ _ _ (gets _) => apply Frame_gets
  | |- Frame _ _ _ _ (panic _) => apply Frame_panic
  | |- Frame _ _ _ _ (setFlags _ _) => apply Frame_setFlags
  | H : FrameRec ?r |- Frame _ _ _ _ (call ?r ?c) => apply (H _ _ _ c)
  | |- Frame _ _ _ _ (match ?x with _ => _ end) => destruct x
  | |- Frame _ _ _ _ _ => solve [ eauto with frame ]
  end.

Ltac frame := repeat frame_step.

#[local] Hint Resolve Frame_setToken Frame_setPrevLT Frame_setInFor
  Frame_setAssumeArrowFunc Frame_setAst Frame_setScope Frame_failMessage
  Frame_fail : frame.

Lemma Frame_skip a g : Frame a g a g (@skip Lexer).
Proof. apply Frame_ret. Qed.
#[local] Hint Resolve Frame_skip : frame.

Lemma Frame_lexNext : forall a g, Frame a g a g (lexNext : M Lexer _).
Proof. intros a g. unfold lexNext. frame. Qed.
#[local] Hint Resolve Frame_lexNext : frame.

Lemma Frame_lexRegExp : forall a g, Frame a g a g (lexRegExp : M Lexer _).
Proof. intros a g. unfold lexRegExp. frame. Qed.
#[local] Hint Resolve Frame_lexRegExp : frame.

Lemma Frame_nextLoop (r : Rec Lexer) : FrameRec r -> forall a g, Frame a g a g (nextLoop r : M Lexer _).
Proof. intros Hr a g. unfold nextLoop. frame. Qed.
#[local] Hint Resolve Frame_nextLoop : frame.

Lemma Frame_next (r : Rec Lexer) : FrameRec r -> forall a g, Frame a g a g (next r : M Lexer _).
Proof. intros Hr a g. unfold next. frame. Qed.
#[local] Hint Resolve Frame_next : frame.

Lemma Frame_consume (r : Rec Lexer) in_ t : FrameRec r -> forall a g, Frame a g a g (consume r in_ t : M Lexer _).
Proof. intros Hr a g. unfold consume. frame. Qed.
#[local] Hint Resolve Frame_consume : frame.

Lemma Frame_curScope : forall a g, Frame a g a g (curScope : M Lexer _).
Proof. intros a g. unfold curScope. frame. Qed.
#[local] Hint Resolve Frame_curScope : frame.

Lemma Frame_getScope i : forall a g, Frame a g a g (getScope i : M Lexer _).
Proof. intros a g. unfold getScope. frame. Qed.
#[local] Hint Resolve Frame_getScope : frame.

Lemma Frame_enterScope isFunc : forall a g, Frame a g a g (enterScope isFunc : M Lexer _).
Proof. intros a g. unfold enterScope. frame. Qed.
#[local] Hint Resolve Frame_enterScope : frame.

Lemma Frame_exitScope parent : forall a g, Frame a g a g (exitScope parent : M Lexer _).
Proof. intros a g. unfold exitScope. frame. Qed.
#[local] Hint Resolve Frame_exitScope : frame.

Lemma Frame_scopeDeclare decl name : forall a g, Frame a g a g (scopeDeclare decl name : M Lexer _).
Proof. intros a g. unfold scopeDeclare. frame. Qed.
#[local] Hint Resolve Frame_scopeDeclare : frame.

Lemma Frame_scopeUse name : forall a g, Frame a g a g (scopeUse name : M Lexer _).
Proof. intros a g. unfold scopeUse. frame. Qed.
#[local] Hint Resolve Frame_scopeUse : frame.

Lemma Frame_scopeMarkArguments : forall a g, Frame a g a g (scopeMarkArguments : M Lexer _).
Proof. intros a g. unfold scopeMarkArguments. frame. Qed.
#[local] Hint Resolve Frame_scopeMarkArguments : frame.

Lemma Frame_astAddVar decl name : forall a g, Frame a g a g (astAddVar decl name : M Lexer _).
Proof. intros a g. unfold astAddVar. frame. Qed.
#[local] Hint Resolve Frame_astAddVar : frame.

Lemma Frame_isIdentifierReference t : forall a g, Frame a g a g (isIdentifierReference t : M Lexer _).
Proof. intros a g. unfold isIdentifierReference. frame. Qed.
#[local] Hint Resolve Frame_isIdentifierReference : frame.

Lemma Frame_parseModuleLoop (r : Rec Lexer) list_ : FrameRec r -> forall a g, Frame a g a g (parseModuleLoop r list_ : M Lexer _).
Proof. intros Hr a g. unfold parseModuleLoop. frame. Qed.
#[local] Hint Resolve Frame_parseModuleLoop : frame.

Lemma Frame_parseModule (r : Rec Lexer) : FrameRec r -> forall a g, Frame a g a g (parseModule r : M Lexer _).
Proof. intros Hr a g. unfold parseModule. frame. Qed.
#[local] Hint Resolve Frame_parseModule : frame.

Lemma Frame_returned stmt : forall a g, Frame a g a g (returned stmt : M Lexer _).
Proof. intros a g. unfold returned. frame. Qed.
#[local] Hint Resolve Frame_returned : frame.

Lemma Frame_falls stmt : forall a g, Frame a g a g (falls stmt : M Lexer _).
Proof. intros a g. unfold falls. frame. Qed.
#[local] Hint Resolve Frame_falls : frame.

Lemma Frame_terminated in_ stmt : forall a g, Frame a g a g (terminated in_ stmt : M Lexer _).
Proof. intros a g. unfold terminated. frame. Qed.
#[local] Hint Resolve Frame_terminated : frame.

Lemma Frame_stmtBlock (r : Rec Lexer) : FrameRec r -> forall a g, Frame a g a g (stmtBlock r : M Lexer _).
Proof. intros Hr a g. unfold stmtBlock. frame. Qed.
#[local] Hint Resolve Frame_stmtBlock : frame.

Lemma Frame_stmtVar (r : Rec Lexer) allowDeclaration t : FrameRec r -> forall a g, Frame a g a g (stmtVar r allowDeclaration t : M Lexer _).
Proof. intros Hr a g. unfold stmtVar. frame. Qed.
#[local] Hint Resolve Frame_stmtVar : frame.

Lemma Frame_stmtLet (r : Rec Lexer) allowDeclaration t : FrameRec r -> forall a g, Frame a g a g (stmtLet r allowDeclaration t : M Lexer _).
Proof. intros Hr a g. unfold stmtLet. frame. Qed.
#[local] Hint Resolve Frame_stmtLet : frame.

Lemma Frame_stmtIf (r : Rec Lexer) : FrameRec r -> forall a g, Frame a g a g (stmtIf r : M Lexer _).
Proof. intros Hr a g. unfold stmtIf. frame. Qed.
#[local] Hint Resolve Frame_stmtIf : frame.

Lemma Frame_stmtBranch (r : Rec Lexer) : FrameRec r -> forall a g, Frame a g a g (stmtBranch r : M Lexer _).
Proof. intros Hr a g. unfold stmtBranch. frame. Qed.
#[local] Hint Resolve Frame_stmtBranch : frame.

Lemma Frame_stmtReturn (r : Rec Lexer) : FrameRec r -> forall a g, Frame a g a g (stmtReturn r : M Lexer _).
Proof. intros Hr a g. unfold stmtReturn. frame. Qed.
#[local] Hint Resolve Frame_stmtReturn : frame.

Lemma Frame_stmtWith (r : Rec Lexer) : FrameRec r -> forall a g, Frame a g a g (stmtWith r : M Lexer _).
Proof. intros Hr a g. unfold stmtWith. frame. Qed.
#[local] Hint Resolve Frame_stmtWith : frame.

Lemma Frame_stmtDo (r : Rec Lexer) : FrameRec r -> forall a g, Frame a g a g (stmtDo r : M Lexer _).
Proof. intros Hr a g. unfold stmtDo. frame. Qed.
#[local] Hint Resolve Frame_stmtDo : frame.

Lemma Frame_stmtWhile (r : Rec Lexer) : FrameRec r -> forall a g, Frame a g a g (stmtWhile r : M Lexer _).
Proof. intros Hr a g. unfold stmtWhile. frame. Qed.
#[local] Hint Resolve Frame_stmtWhile : frame.

Lemma Frame_forInitExpr (r : Rec Lexer) : FrameRec r -> forall a g, Frame a g a g (forInitExpr r : M Lexer _).
Proof. intros Hr a g. unfold forInitExpr. frame. Qed.
#[local] Hint Resolve Frame_forInitExpr : frame.

Lemma Frame_forInit (r : Rec Lexer) : FrameRec r -> forall a g, Frame a g a g (forInit r : M Lexer _).
Proof. intros Hr a g. unfold forInit. frame. Qed.
#[local] Hint Resolve Frame_forInit : frame.

Lemma Frame_forRest (r : Rec Lexer) await init : FrameRec r -> forall a g, Frame a g a g (forRest r await init : M Lexer _).
Proof. intros Hr a g. unfold forRest. frame. Qed.
#[local] Hint Resolve Frame_forRest : frame.

Lemma Frame_stmtFor (r : Rec Lexer) : FrameRec r -> forall a g, Frame a g a g (stmtFor r : M Lexer _).
Proof. intros Hr a g. unfold stmtFor. frame. Qed.
#[local] Hint Resolve Frame_stmtFor : frame.

Lemma Frame_switchStmtsLoop (r : Rec Lexer) stmts : FrameRec r -> forall a g, Frame a g a g (switchStmtsLoop r stmts : M Lexer _).
Proof. intros Hr a g. unfold switchStmtsLoop. frame. Qed.
#[local] Hint Resolve Frame_switchStmtsLoop : frame.

Lemma Frame_switchClausesLoop (r : Rec Lexer) clauses : FrameRec r -> forall a g, Frame a g a g (switchClausesLoop r clauses : M Lexer _).
Proof. intros Hr a g. unfold switchClausesLoop. frame. Qed.
#[local] Hint Resolve Frame_switchClausesLoop : frame.

Lemma Frame_stmtSwitch (r : Rec Lexer) : FrameRec r -> forall a g, Frame a g a g (stmtSwitch r : M Lexer _).
Proof. intros Hr a g. unfold stmtSwitch. frame. Qed.
#[local] Hint Resolve Frame_stmtSwitch : frame.

Lemma Frame_stmtFunction (r : Rec Lexer) allowDeclaration : FrameRec r -> forall a g, Frame a g a g (stmtFunction r allowDeclaration : M Lexer _).
Proof. intros Hr a g. unfold stmtFunction. frame. Qed.
#[local] Hint Resolve Frame_stmtFunction : frame.

Lemma Frame_stmtAsync (r : Rec Lexer) allowDeclaration : FrameRec r -> forall a g, Frame a g a g (stmtAsync r allowDeclaration : M Lexer _).
Proof. intros Hr a g. unfold stmtAsync. frame. Qed.
#[local] Hint Resolve Frame_stmtAsync : frame.

Lemma Frame_stmtClass (r : Rec Lexer) allowDeclaration : FrameRec r -> forall a g, Frame a g a g (stmtClass r allowDeclaration : M Lexer _).
Proof. intros Hr a g. unfold stmtClass. frame. Qed.
#[local] Hint Resolve Frame_stmtClass : frame.

Lemma Frame_stmtThrow (r : Rec Lexer) : FrameRec r -> forall a g, Frame a g a g (stmtThrow r : M Lexer _).
Proof. intros Hr a g. unfold stmtThrow. frame. Qed.
#[local] Hint Resolve Frame_stmtThrow : frame.

Lemma Frame_stmtTry (r : Rec Lexer) : FrameRec r -> forall a g, Frame a g a g (stmtTry r : M Lexer _).
Proof. intros Hr a g. unfold stmtTry. frame. Qed.
#[local] Hint Resolve Frame_stmtTry : frame.

Lemma Frame_stmtDefault (r : Rec Lexer) : FrameRec r -> forall a g, Frame a g a g (stmtDefault r : M Lexer _).
Proof. intros Hr a g. unfold stmtDefault. frame. Qed.
#[local] Hint Resolve Frame_stmtDefault : frame.

Lemma Frame_stmtSwitchCases (r : Rec Lexer) allowDeclaration t : FrameRec r -> forall a g, Frame a g a g (stmtSwitchCases r allowDeclaration t : M Lexer _).
Proof. intros Hr a g. unfold stmtSwitchCases. frame. Qed.
#[local] Hint Resolve Frame_stmtSwitchCases : frame.

Lemma Frame_parseStmt (r : Rec Lexer) allowDeclaration : FrameRec r -> forall a g, Frame a g a g (parseStmt r allowDeclaration : M Lexer _).
Proof. intros Hr a g. unfold parseStmt. frame. Qed.
#[local] Hint Resolve Frame_parseStmt : frame.

Lemma Frame_blockStmtLoop (r : Rec Lexer) list_ : FrameRec r -> forall a g, Frame a g a g (blockStmtLoop r list_ : M Lexer _).
Proof. intros Hr a g. unfold blockStmtLoop. frame. Qed.
#[local] Hint Resolve Frame_blockStmtLoop : frame.

Lemma Frame_parseBlockStmt (r : Rec Lexer) in_ enterContext : FrameRec r -> forall a g, Frame a g a g (parseBlockStmt r in_ enterContext : M Lexer _).
Proof. intros Hr a g. unfold parseBlockStmt. frame. Qed.
#[local] Hint Resolve Frame_parseBlockStmt : frame.

Lemma Frame_importListLoop (r : Rec Lexer) list_ : FrameRec r -> forall a g, Frame a g a g (importListLoop r list_ : M Lexer _).
Proof. intros Hr a g. unfold importListLoop. frame. Qed.
#[local] Hint Resolve Frame_importListLoop : frame.

Lemma Frame_importClause (r : Rec Lexer) : FrameRec r -> forall a g, Frame a g a g (importClause r : M Lexer _).
Proof. intros Hr a g. unfold importClause. frame. Qed.
#[local] Hint Resolve Frame_importClause : frame.

Lemma Frame_parseImportStmt (r : Rec Lexer) : FrameRec r -> forall a g, Frame a g a g (parseImportStmt r : M Lexer _).
Proof. intros Hr a g. unfold parseImportStmt. frame. Qed.
#[local] Hint Resolve Frame_parseImportStmt : frame.

Lemma Frame_exportListLoop (r : Rec Lexer) list_ : FrameRec r -> forall a g, Frame a g a g (exportListLoop r list_ : M Lexer _).
Proof. intros Hr a g. unfold exportListLoop. frame. Qed.
#[local] Hint Resolve Frame_exportListLoop : frame.

Lemma Frame_exportList (r : Rec Lexer) : FrameRec r -> forall a g, Frame a g a g (exportList r : M Lexer _).
Proof. intros Hr a g. unfold exportList. frame. Qed.
#[local] Hint Resolve Frame_exportList : frame.

Lemma Frame_exportDefault (r : Rec Lexer) : FrameRec r -> forall a g, Frame a g a g (exportDefault r : M Lexer _).
Proof. intros Hr a g. unfold exportDefault. frame. Qed.
#[local] Hint Resolve Frame_exportDefault : frame.

Lemma Frame_parseExportStmt (r : Rec Lexer) : FrameRec r -> forall a g, Frame a g a g (parseExportStmt r : M Lexer _).
Proof. intros Hr a g. unfold parseExportStmt. frame. Qed.
#[local] Hint Resolve Frame_parseExportStmt : frame.

Lemma Frame_varDeclLoop (r : Rec Lexer) declType list_ : FrameRec r -> forall a g, Frame a g a g (varDeclLoop r declType list_ : M Lexer _).
Proof. intros Hr a g. unfold varDeclLoop. frame. Qed.
#[local] Hint Resolve Frame_varDeclLoop : frame.

Lemma Frame_parseVarDecl (r : Rec Lexer) t : FrameRec r -> forall a g, Frame a g a g (parseVarDecl r t : M Lexer _).
Proof. intros Hr a g. unfold parseVarDecl. frame. Qed.
#[local] Hint Resolve Frame_parseVarDecl : frame.

Lemma Frame_funcParamsLoop (r : Rec Lexer) in_ list_ : FrameRec r -> forall a g, Frame a g a g (funcParamsLoop r in_ list_ : M Lexer _).
Proof. intros Hr a g. unfold funcParamsLoop. frame. Qed.
#[local] Hint Resolve Frame_funcParamsLoop : frame.

Lemma Frame_parseFuncParams (r : Rec Lexer) in_ : FrameRec r -> forall a g, Frame a g a g (parseFuncParams r in_ : M Lexer _).
Proof. intros Hr a g. unfold parseFuncParams. frame. Qed.
#[local] Hint Resolve Frame_parseFuncParams : frame.

Lemma Frame_parseAnyFunc (r : Rec Lexer) async_ inExpr : FrameRec r -> forall a g, Frame a g a g (parseAnyFunc r async_ inExpr : M Lexer _).
Proof. intros Hr a g. unfold parseAnyFunc. frame. Qed.
#[local] Hint Resolve Frame_parseAnyFunc : frame.

Lemma Frame_classMethodsLoop (r : Rec Lexer) methods : FrameRec r -> forall a g, Frame a g a g (classMethodsLoop r methods : M Lexer _).
Proof. intros Hr a g. unfold classMethodsLoop. frame. Qed.
#[local] Hint Resolve Frame_classMethodsLoop : frame.

Lemma Frame_parseAnyClass (r : Rec Lexer) inExpr : FrameRec r -> forall a g, Frame a g a g (parseAnyClass r inExpr : M Lexer _).
Proof. intros Hr a g. unfold parseAnyClass. frame. Qed.
#[local] Hint Resolve Frame_parseAnyClass : frame.

Lemma Frame_methodModifiers (r : Rec Lexer) : FrameRec r -> forall a g, Frame a g a g (methodModifiers r : M Lexer _).
Proof. intros Hr a g. unfold methodModifiers. frame. Qed.
#[local] Hint Resolve Frame_methodModifiers : frame.

Lemma Frame_parseMethod (r : Rec Lexer) : FrameRec r -> forall a g, Frame a g a g (parseMethod r : M Lexer _).
Proof. intros Hr a g. unfold parseMethod. frame. Qed.
#[local] Hint Resolve Frame_parseMethod : frame.

Lemma Frame_parsePropertyName (r : Rec Lexer) in_ : FrameRec r -> forall a g, Frame a g a g (parsePropertyName r in_ : M Lexer _).
Proof. intros Hr a g. unfold parsePropertyName. frame. Qed.
#[local] Hint Resolve Frame_parsePropertyName : frame.

Lemma Frame_parseBindingElement (r : Rec Lexer) decl : FrameRec r -> forall a g, Frame a g a g (parseBindingElement r decl : M Lexer _).
Proof. intros Hr a g. unfold parseBindingElement. frame. Qed.
#[local] Hint Resolve Frame_parseBindingElement : frame.

Lemma Frame_bindingElisionLoop (r : Rec Lexer) list_ : FrameRec r -> forall a g, Frame a g a g (bindingElisionLoop r list_ : M Lexer _).
Proof. intros Hr a g. unfold bindingElisionLoop. frame. Qed.
#[local] Hint Resolve Frame_bindingElisionLoop : frame.

Lemma Frame_bindingArrayLoop (r : Rec Lexer) decl list_ : FrameRec r -> forall a g, Frame a g a g (bindingArrayLoop r decl list_ : M Lexer _).
Proof. intros Hr a g. unfold bindingArrayLoop. frame. Qed.
#[local] Hint Resolve Frame_bindingArrayLoop : frame.

Lemma Frame_bindingObjectItem (r : Rec Lexer) decl : FrameRec r -> forall a g, Frame a g a g (bindingObjectItem r decl : M Lexer _).
Proof. intros Hr a g. unfold bindingObjectItem. frame. Qed.
#[local] Hint Resolve Frame_bindingObjectItem : frame.

Lemma Frame_bindingObjectLoop (r : Rec Lexer) decl list_ : FrameRec r -> forall a g, Frame a g a g (bindingObjectLoop r decl list_ : M Lexer _).
Proof. intros Hr a g. unfold bindingObjectLoop. frame. Qed.
#[local] Hint Resolve Frame_bindingObjectLoop : frame.

Lemma Frame_parseBinding (r : Rec Lexer) decl : FrameRec r -> forall a g, Frame a g a g (parseBinding r decl : M Lexer _).
Proof. intros Hr a g. unfold parseBinding. frame. Qed.
#[local] Hint Resolve Frame_parseBinding : frame.

Lemma Frame_arrayLiteralLoop (r : Rec Lexer) prevComma list_ : FrameRec r -> forall a g, Frame a g a g (arrayLiteralLoop r prevComma list_ : M Lexer _).
Proof. intros Hr a g. unfold arrayLiteralLoop. frame. Qed.
#[local] Hint Resolve Frame_arrayLiteralLoop : frame.

Lemma Frame_parseArrayLiteral (r : Rec Lexer) : FrameRec r -> forall a g, Frame a g a g (parseArrayLiteral r : M Lexer _).
Proof. intros Hr a g. unfold parseArrayLiteral. frame. Qed.
#[local] Hint Resolve Frame_parseArrayLiteral : frame.

Lemma Frame_objectPropertyName (r : Rec Lexer) : FrameRec r -> forall a g, Frame a g a g (objectPropertyName r : M Lexer _).
Proof. intros Hr a g. unfold objectPropertyName. frame. Qed.
#[local] Hint Resolve Frame_objectPropertyName : frame.

Lemma Frame_objectProperty (r : Rec Lexer) : FrameRec r -> forall a g, Frame a g a g (objectProperty r : M Lexer _).
Proof. intros Hr a g. unfold objectProperty. frame. Qed.
#[local] Hint Resolve Frame_objectProperty : frame.

Lemma Frame_objectLiteralLoop (r : Rec Lexer) list_ : FrameRec r -> forall a g, Frame a g a g (objectLiteralLoop r list_ : M Lexer _).
Proof. intros Hr a g. unfold objectLiteralLoop. frame. Qed.
#[local] Hint Resolve Frame_objectLiteralLoop : frame.

Lemma Frame_parseObjectLiteral (r : Rec Lexer) : FrameRec r -> forall a g, Frame a g a g (parseObjectLiteral r : M Lexer _).
Proof. intros Hr a g. unfold parseObjectLiteral. frame. Qed.
#[local] Hint Resolve Frame_parseObjectLiteral : frame.

Lemma Frame_parseTemplateLiteral (r : Rec Lexer) : FrameRec r -> forall a g, Frame a g a g (parseTemplateLiteral r : M Lexer _).
Proof. intros Hr a g. unfold parseTemplateLiteral. frame. Qed.
#[local] Hint Resolve Frame_parseTemplateLiteral : frame.

Lemma Frame_argsLoop (r : Rec Lexer) list_ : FrameRec r -> forall a g, Frame a g a g (argsLoop r list_ : M Lexer _).
Proof. intros Hr a g. unfold argsLoop. frame. Qed.
#[local] Hint Resolve Frame_argsLoop : frame.

Lemma Frame_parseArgs (r : Rec Lexer) : FrameRec r -> forall a g, Frame a g a g (parseArgs r : M Lexer _).
Proof. intros Hr a g. unfold parseArgs. frame. Qed.
#[local] Hint Resolve Frame_parseArgs : frame.

Lemma Frame_parseArrowFuncBody (r : Rec Lexer) : FrameRec r -> forall a g, Frame a g a g (parseArrowFuncBody r : M Lexer _).
Proof. intros Hr a g. unfold parseArrowFuncBody. frame. Qed.
#[local] Hint Resolve Frame_parseArrowFuncBody : frame.

Lemma Frame_parseAsyncArrowFunc (r : Rec Lexer) : FrameRec r -> forall a g, Frame a g a g (parseAsyncArrowFunc r : M Lexer _).
Proof. intros Hr a g. unfold parseAsyncArrowFunc. frame. Qed.
#[local] Hint Resolve Frame_parseAsyncArrowFunc : frame.

Lemma Frame_detachIdentifier ref : forall a g, Frame a g a g (detachIdentifier ref : M Lexer _).
Proof. intros a g. unfold detachIdentifier. frame. Qed.
#[local] Hint Resolve Frame_detachIdentifier : frame.

Lemma Frame_parseIdentifierArrowFunc (r : Rec Lexer) ref : FrameRec r -> forall a g, Frame a g a g (parseIdentifierArrowFunc r ref : M Lexer _).
Proof. intros Hr a g. unfold parseIdentifierArrowFunc. frame. Qed.
#[local] Hint Resolve Frame_parseIdentifierArrowFunc : frame.

Lemma Frame_parseIdentifierExpression (r : Rec Lexer) prec ident : FrameRec r -> forall a g, Frame a g a g (parseIdentifierExpression r prec ident : M Lexer _).
Proof. intros Hr a g. unfold parseIdentifierExpression. frame. Qed.
#[local] Hint Resolve Frame_parseIdentifierExpression : frame.

Lemma Frame_parseAsyncExpression (r : Rec Lexer) prec async_ : FrameRec r -> forall a g, Frame a g a g (parseAsyncExpression r prec async_ : M Lexer _).
Proof. intros Hr a g. unfold parseAsyncExpression. frame. Qed.
#[local] Hint Resolve Frame_parseAsyncExpression : frame.

Lemma Frame_returnExpr e : forall a g, Frame a g a g (returnExpr e : M Lexer _).
Proof. intros a g. unfold returnExpr. frame. Qed.
#[local] Hint Resolve Frame_returnExpr : frame.

Lemma Frame_leftExpr left precLeft : forall a g, Frame a g a g (leftExpr left precLeft : M Lexer _).
Proof. intros a g. unfold leftExpr. frame. Qed.
#[local] Hint Resolve Frame_leftExpr : frame.

Lemma Frame_exprUnary (r : Rec Lexer) prec limit op : FrameRec r -> forall a g, Frame a g a g (exprUnary r prec limit op : M Lexer _).
Proof. intros Hr a g. unfold exprUnary. frame. Qed.
#[local] Hint Resolve Frame_exprUnary : frame.

Lemma Frame_exprParen (r : Rec Lexer) prec : FrameRec r -> forall a g, Frame a g a g (exprParen r prec : M Lexer _).
Proof. intros Hr a g. unfold exprParen. frame. Qed.
#[local] Hint Resolve Frame_exprParen : frame.

Lemma Frame_exprAwait (r : Rec Lexer) prec t : FrameRec r -> forall a g, Frame a g a g (exprAwait r prec t : M Lexer _).
Proof. intros Hr a g. unfold exprAwait. frame. Qed.
#[local] Hint Resolve Frame_exprAwait : frame.

Lemma Frame_exprNew (r : Rec Lexer) : FrameRec r -> forall a g, Frame a g a g (exprNew r : M Lexer _).
Proof. intros Hr a g. unfold exprNew. frame. Qed.
#[local] Hint Resolve Frame_exprNew : frame.

Lemma Frame_exprImport (r : Rec Lexer) prec : FrameRec r -> forall a g, Frame a g a g (exprImport r prec : M Lexer _).
Proof. intros Hr a g. unfold exprImport. frame. Qed.
#[local] Hint Resolve Frame_exprImport : frame.

Lemma Frame_exprSuper (r : Rec Lexer) prec : FrameRec r -> forall a g, Frame a g a g (exprSuper r prec : M Lexer _).
Proof. intros Hr a g. unfold exprSuper. frame. Qed.
#[local] Hint Resolve Frame_exprSuper : frame.

Lemma Frame_exprYield (r : Rec Lexer) prec : FrameRec r -> forall a g, Frame a g a g (exprYield r prec : M Lexer _).
Proof. intros Hr a g. unfold exprYield. frame. Qed.
#[local] Hint Resolve Frame_exprYield : frame.

Lemma Frame_exprLiteral (r : Rec Lexer) : FrameRec r -> forall a g, Frame a g a g (exprLiteral r : M Lexer _).
Proof. intros Hr a g. unfold exprLiteral. frame. Qed.
#[local] Hint Resolve Frame_exprLiteral : frame.

Lemma Frame_exprAsync (r : Rec Lexer) prec : FrameRec r -> forall a g, Frame a g a g (exprAsync r prec : M Lexer _).
Proof. intros Hr a g. unfold exprAsync. frame. Qed.
#[local] Hint Resolve Frame_exprAsync : frame.

Lemma Frame_exprTemplate (r : Rec Lexer) : FrameRec r -> forall a g, Frame a g a g (exprTemplate r : M Lexer _).
Proof. intros Hr a g. unfold exprTemplate. frame. Qed.
#[local] Hint Resolve Frame_exprTemplate : frame.

Lemma Frame_exprSwitchCases (r : Rec Lexer) prec t : FrameRec r -> forall a g, Frame a g a g (exprSwitchCases r prec t : M Lexer _).
Proof. intros Hr a g. unfold exprSwitchCases. frame. Qed.
#[local] Hint Resolve Frame_exprSwitchCases : frame.

Lemma Frame_relexRegExp : forall a g, Frame a g a g (relexRegExp : M Lexer _).
Proof. intros a g. unfold relexRegExp. frame. Qed.
#[local] Hint Resolve Frame_relexRegExp : frame.

Lemma Frame_parseExpression (r : Rec Lexer) prec : FrameRec r -> forall a g, Frame a g a g (parseExpression r prec : M Lexer _).
Proof. intros Hr a g. unfold parseExpression. frame. Qed.
#[local] Hint Resolve Frame_parseExpression : frame.

Lemma Frame_suffixInfix (r : Rec Lexer) t left prec precLeft level minLeft right : FrameRec r -> forall a g, Frame a g a g (suffixInfix r t left prec precLeft level minLeft right : M Lexer _).
Proof. intros Hr a g. unfold suffixInfix. frame. Qed.
#[local] Hint Resolve Frame_suffixInfix : frame.

Lemma Frame_suffixCompare (r : Rec Lexer) t left prec precLeft : FrameRec r -> forall a g, Frame a g a g (suffixCompare r t left prec precLeft : M Lexer _).
Proof. intros Hr a g. unfold suffixCompare. frame. Qed.
#[local] Hint Resolve Frame_suffixCompare : frame.

Lemma Frame_suffixNullish (r : Rec Lexer) t left prec precLeft : FrameRec r -> forall a g, Frame a g a g (suffixNullish r t left prec precLeft : M Lexer _).
Proof. intros Hr a g. unfold suffixNullish. frame. Qed.
#[local] Hint Resolve Frame_suffixNullish : frame.

Lemma Frame_suffixDot (r : Rec Lexer) left precLeft : FrameRec r -> forall a g, Frame a g a g (suffixDot r left precLeft : M Lexer _).
Proof. intros Hr a g. unfold suffixDot. frame. Qed.
#[local] Hint Resolve Frame_suffixDot : frame.

Lemma Frame_suffixIndex (r : Rec Lexer) left precLeft : FrameRec r -> forall a g, Frame a g a g (suffixIndex r left precLeft : M Lexer _).
Proof. intros Hr a g. unfold suffixIndex. frame. Qed.
#[local] Hint Resolve Frame_suffixIndex : frame.

Lemma Frame_suffixCall (r : Rec Lexer) left prec precLeft : FrameRec r -> forall a g, Frame a g a g (suffixCall r left prec precLeft : M Lexer _).
Proof. intros Hr a g. unfold suffixCall. frame. Qed.
#[local] Hint Resolve Frame_suffixCall : frame.

Lemma Frame_suffixTemplate (r : Rec Lexer) left precLeft : FrameRec r -> forall a g, Frame a g a g (suffixTemplate r left precLeft : M Lexer _).
Proof. intros Hr a g. unfold suffixTemplate. frame. Qed.
#[local] Hint Resolve Frame_suffixTemplate : frame.

Lemma Frame_suffixOptChain (r : Rec Lexer) left prec : FrameRec r -> forall a g, Frame a g a g (suffixOptChain r left prec : M Lexer _).
Proof. intros Hr a g. unfold suffixOptChain. frame. Qed.
#[local] Hint Resolve Frame_suffixOptChain : frame.

Lemma Frame_suffixUpdate (r : Rec Lexer) op left prec precLeft : FrameRec r -> forall a g, Frame a g a g (suffixUpdate r op left prec precLeft : M Lexer _).
Proof. intros Hr a g. unfold suffixUpdate. frame. Qed.
#[local] Hint Resolve Frame_suffixUpdate : frame.

Lemma Frame_suffixCond (r : Rec Lexer) left prec precLeft : FrameRec r -> forall a g, Frame a g a g (suffixCond r left prec precLeft : M Lexer _).
Proof. intros Hr a g. unfold suffixCond. frame. Qed.
#[local] Hint Resolve Frame_suffixCond : frame.

Lemma Frame_suffixComma (r : Rec Lexer) t left prec : FrameRec r -> forall a g, Frame a g a g (suffixComma r t left prec : M Lexer _).
Proof. intros Hr a g. unfold suffixComma. frame. Qed.
#[local] Hint Resolve Frame_suffixComma : frame.

Lemma Frame_suffixArrow (r : Rec Lexer) left prec precLeft : FrameRec r -> forall a g, Frame a g a g (suffixArrow r left prec precLeft : M Lexer _).
Proof. intros Hr a g. unfold suffixArrow. frame. Qed.
#[local] Hint Resolve Frame_suffixArrow : frame.

Lemma Frame_suffixSwitchCases (r : Rec Lexer) t left prec precLeft : FrameRec r -> forall a g, Frame a g a g (suffixSwitchCases r t left prec precLeft : M Lexer _).
Proof. intros Hr a g. unfold suffixSwitchCases. frame. Qed.
#[local] Hint Resolve Frame_suffixSwitchCases : frame.

Lemma Frame_parseExpressionSuffix (r : Rec Lexer) left prec precLeft : FrameRec r -> forall a g, Frame a g a g (parseExpressionSuffix r left prec precLeft : M Lexer _).
Proof. intros Hr a g. unfold parseExpressionSuffix. frame. Qed.
#[local] Hint Resolve Frame_parseExpressionSuffix : frame.

Lemma Frame_parseAssignmentExpression (r : Rec Lexer) : FrameRec r -> forall a g, Frame a g a g (parseAssignmentExpression r : M Lexer _).
Proof. intros Hr a g. unfold parseAssignmentExpression. frame. Qed.
#[local] Hint Resolve Frame_parseAssignmentExpression : frame.

Lemma Frame_parenListLoop (r : Rec Lexer) list_ : FrameRec r -> forall a g, Frame a g a g (parenListLoop r list_ : M Lexer _).
Proof. intros Hr a g. unfold parenListLoop. frame. Qed.
#[local] Hint Resolve Frame_parenListLoop : frame.

Lemma Frame_parenFinish (r : Rec Lexer) prec parent self parentAssumeArrowFunc list_ rest : FrameRec r -> forall a g, Frame a g a g (parenFinish r prec parent self parentAssumeArrowFunc list_ rest : M Lexer _).
Proof. intros Hr a g. unfold parenFinish. frame. Qed.
#[local] Hint Resolve Frame_parenFinish : frame.

Lemma Frame_parseParenthesizedExpressionOrArrowFunc (r : Rec Lexer) prec : FrameRec r -> forall a g, Frame a g a g (parseParenthesizedExpressionOrArrowFunc r prec : M Lexer _).
Proof. intros Hr a g. unfold parseParenthesizedExpressionOrArrowFunc. frame. Qed.
#[local] Hint Resolve Frame_parseParenthesizedExpressionOrArrowFunc : frame.

Lemma Frame_firstToken (r : Rec Lexer) : FrameRec r -> forall a g, Frame a g a g (firstToken r : M Lexer _).
Proof. intros Hr a g. unfold firstToken. frame. Qed.
#[local] Hint Resolve Frame_firstToken : frame.
Lemma Frame_dispatch r : FrameRec r -> FrameRec (dispatch r).
Proof.
  intros Hr a g A c. destruct c; simpl; eauto with frame.
Qed.

(** Every parse function, at every fuel, returns with the flags it was
    called with and with the error that was recorded before, if any. *)
Lemma Frame_parser (fuel : nat) : FrameRec (parser fuel).
Proof.
  induction fuel as [|fuel IH].
  - intros a g A c e p x p' _ E. discriminate.
  - simpl. apply Frame_dispatch, IH.
Qed.

End Frame.

(* ================================================================== *)
(** ** The result does not depend on the fuel *)
(* ================================================================== *)

Section Fuel.

Context {Lexer : Type} {TS : TokenSource Lexer} {TT : TokenTable} {AO : AstOps}.

Lemma Extends_refl {A : Type} (m : M Lexer A) : Extends m m.
Proof. intros p. right. reflexivity. Qed.

Lemma Extends_bind {A B : Type} (m m' : M Lexer A) (k k' : A -> M Lexer B) :
  Extends m m' -> (forall x, Extends (k x) (k' x)) ->
  Extends (bind m k) (bind m' k').
Proof.
  intros Hm Hk p. unfold bind.
  destruct (Hm p) as [E|E]; rewrite E.
  - left. reflexivity.
  - destruct (m' p) as [x p1| |]; [apply Hk | right; reflexivity | left; reflexivity].
Qed.

Create HintDb fuel discriminated.

Ltac fuel_step :=
  lazymatch goal with
  | |- Extends ?m ?m => apply Extends_refl
  | |- Extends (bind _ _) (bind _ _) => apply Extends_bind; [ | intros ]
  | H : ExtendsRec ?r ?r' |- Extends (call ?r ?c) (call ?r' ?c) => apply (H _ c)
  | |- Extends (match ?x with _ => _ end) (match ?x with _ => _ end) => destruct x
  | |- Extends _ _ => solve [ eauto with fuel ]
  end.

Ltac fuel := repeat fuel_step.

Lemma Extends_nextLoop (r r' : Rec Lexer) : ExtendsRec r r' -> Extends (nextLoop r) (nextLoop r').
Proof. intros Hr. unfold nextLoop. fuel. Qed.
#[local] Hint Resolve Extends_nextLoop : fuel.

Lemma Extends_next (r r' : Rec Lexer) : ExtendsRec r r' -> Extends (next r) (next r').
Proof. intros Hr. unfold next. fuel. Qed.
#[local] Hint Resolve Extends_next : fuel.

Lemma Extends_consume (r r' : Rec Lexer) in_ t : ExtendsRec r r' -> Extends (consume r in_ t) (consume r' in_ t).
Proof. intros Hr. unfold consume. fuel. Qed.
#[local] Hint Resolve Extends_consume : fuel.

Lemma Extends_parseModuleLoop (r r' : Rec Lexer) list_ : ExtendsRec r r' -> Extends (parseModuleLoop r list_) (parseModuleLoop r' list_).
Proof. intros Hr. unfold parseModuleLoop. fuel. Qed.
#[local] Hint Resolve Extends_parseModuleLoop : fuel.

Lemma Extends_parseModule (r r' : Rec Lexer) : ExtendsRec r r' -> Extends (parseModule r) (parseModule r').
Proof. intros Hr. unfold parseModule. fuel. Qed.
#[local] Hint Resolve Extends_parseModule : fuel.

Lemma Extends_stmtBlock (r r' : Rec Lexer) : ExtendsRec r r' -> Extends (stmtBlock r) (stmtBlock r').
Proof. intros Hr. unfold stmtBlock. fuel. Qed.
#[local] Hint Resolve Extends_stmtBlock : fuel.

Lemma Extends_stmtVar (r r' : Rec Lexer) allowDeclaration t : ExtendsRec r r' -> Extends (stmtVar r allowDeclaration t) (stmtVar r' allowDeclaration t).
Proof. intros Hr. unfold stmtVar. fuel. Qed.
#[local] Hint Resolve Extends_stmtVar : fuel.

Lemma Extends_stmtLet (r r' : Rec Lexer) allowDeclaration t : ExtendsRec r r' -> Extends (stmtLet r allowDeclaration t) (stmtLet r' allowDeclaration t).
Proof. intros Hr. unfold stmtLet. fuel. Qed.
#[local] Hint Resolve Extends_stmtLet : fuel.

Lemma Extends_stmtIf (r r' : Rec Lexer) : ExtendsRec r r' -> Extends (stmtIf r) (stmtIf r').
Proof. intros Hr. unfold stmtIf. fuel. Qed.
#[local] Hint Resolve Extends_stmtIf : fuel.

Lemma Extends_stmtBranch (r r' : Rec Lexer) : ExtendsRec r r' -> Extends (stmtBranch r) (stmtBranch r').
Proof. intros Hr. unfold stmtBranch. fuel. Qed.
#[local] Hint Resolve Extends_stmtBranch : fuel.

Lemma Extends_stmtReturn (r r' : Rec Lexer) : ExtendsRec r r' -> Extends (stmtReturn r) (stmtReturn r').
Proof. intros Hr. unfold stmtReturn. fuel. Qed.
#[local] Hint Resolve Extends_stmtReturn : fuel.

Lemma Extends_stmtWith (r r' : Rec Lexer) : ExtendsRec r r' -> Extends (stmtWith r) (stmtWith r').
Proof. intros Hr. unfold stmtWith. fuel. Qed.
#[local] Hint Resolve Extends_stmtWith : fuel.

Lemma Extends_stmtDo (r r' : Rec Lexer) : ExtendsRec r r' -> Extends (stmtDo r) (stmtDo r').
Proof. intros Hr. unfold stmtDo. fuel. Qed.
#[local] Hint Resolve Extends_stmtDo : fuel.

Lemma Extends_stmtWhile (r r' : Rec Lexer) : ExtendsRec r r' -> Extends (stmtWhile r) (stmtWhile r').
Proof. intros Hr. unfold stmtWhile. fuel. Qed.
#[local] Hint Resolve Extends_stmtWhile : fuel.

Lemma Extends_forInitExpr (r r' : Rec Lexer) : ExtendsRec r r' -> Extends (forInitExpr r) (forInitExpr r').
Proof. intros Hr. unfold forInitExpr. fuel. Qed.
#[local] Hint Resolve Extends_forInitExpr : fuel.

Lemma Extends_forInit (r r' : Rec Lexer) : ExtendsRec r r' -> Extends (forInit r) (forInit r').
Proof. intros Hr. unfold forInit. fuel. Qed.
#[local] Hint Resolve Extends_forInit : fuel.

Lemma Extends_forRest (r r' : Rec Lexer) await init : ExtendsRec r r' -> Extends (forRest r await init) (forRest r' await init).
Proof. intros Hr. unfold forRest. fuel. Qed.
#[local] Hint Resolve Extends_forRest : fuel.

Lemma Extends_stmtFor (r r' : Rec Lexer) : ExtendsRec r r' -> Extends (stmtFor r) (stmtFor r').
Proof. intros Hr. unfold stmtFor. fuel. Qed.
#[local] Hint Resolve Extends_stmtFor : fuel.

Lemma Extends_switchStmtsLoop (r r' : Rec Lexer) stmts : ExtendsRec r r' -> Extends (switchStmtsLoop r stmts) (switchStmtsLoop r' stmts).
Proof. intros Hr. unfold switchStmtsLoop. fuel. Qed.
#[local] Hint Resolve Extends_switchStmtsLoop : fuel.

Lemma Extends_switchClausesLoop (r r' : Rec Lexer) clauses : ExtendsRec r r' -> Extends (switchClausesLoop r clauses) (switchClausesLoop r' clauses).
Proof. intros Hr. unfold switchClausesLoop. fuel. Qed.
#[local] Hint Resolve Extends_switchClausesLoop : fuel.

Lemma Extends_stmtSwitch (r r' : Rec Lexer) : ExtendsRec r r' -> Extends (stmtSwitch r) (stmtSwitch r').
Proof. intros Hr. unfold stmtSwitch. fuel. Qed.
#[local] Hint Resolve Extends_stmtSwitch : fuel.

Lemma Extends_stmtFunction (r r' : Rec Lexer) allowDeclaration : ExtendsRec r r' -> Extends (stmtFunction r allowDeclaration) (stmtFunction r' allowDeclaration).
Proof. intros Hr. unfold stmtFunction. fuel. Qed.
#[local] Hint Resolve Extends_stmtFunction : fuel.

Lemma Extends_stmtAsync (r r' : Rec Lexer) allowDeclaration : ExtendsRec r r' -> Extends (stmtAsync r allowDeclaration) (stmtAsync r' allowDeclaration).
Proof. intros Hr. unfold stmtAsync. fuel. Qed.
#[local] Hint Resolve Extends_stmtAsync : fuel.

Lemma Extends_stmtClass (r r' : Rec Lexer) allowDeclaration : ExtendsRec r r' -> Extends (stmtClass r allowDeclaration) (stmtClass r' allowDeclaration).
Proof. intros Hr. unfold stmtClass. fuel. Qed.
#[local] Hint Resolve Extends_stmtClass : fuel.

Lemma Extends_stmtThrow (r r' : Rec Lexer) : ExtendsRec r r' -> Extends (stmtThrow r) (stmtThrow r').
Proof. intros Hr. unfold stmtThrow. fuel. Qed.
#[local] Hint Resolve Extends_stmtThrow : fuel.

Lemma Extends_stmtTry (r r' : Rec Lexer) : ExtendsRec r r' -> Extends (stmtTry r) (stmtTry r').
Proof. intros Hr. unfold stmtTry. fuel. Qed.
#[local] Hint Resolve Extends_stmtTry : fuel.

Lemma Extends_stmtDefault (r r' : Rec Lexer) : ExtendsRec r r' -> Extends (stmtDefault r) (stmtDefault r').
Proof. intros Hr. unfold stmtDefault. fuel. Qed.
#[local] Hint Resolve Extends_stmtDefault : fuel.

Lemma Extends_stmtSwitchCases (r r' : Rec Lexer) allowDeclaration t : ExtendsRec r r' -> Extends (stmtSwitchCases r allowDeclaration t) (stmtSwitchCases r' allowDeclaration t).
Proof. intros Hr. unfold stmtSwitchCases. fuel. Qed.
#[local] Hint Resolve Extends_stmtSwitchCases : fuel.

Lemma Extends_parseStmt (r r' : Rec Lexer) allowDeclaration : ExtendsRec r r' -> Extends (parseStmt r allowDeclaration) (parseStmt r' allowDeclaration).
Proof. intros Hr. unfold parseStmt. fuel. Qed.
#[local] Hint Resolve Extends_parseStmt : fuel.

Lemma Extends_blockStmtLoop (r r' : Rec Lexer) list_ : ExtendsRec r r' -> Extends (blockStmtLoop r list_) (blockStmtLoop r' list_).
Proof. intros Hr. unfold blockStmtLoop. fuel. Qed.
#[local] Hint Resolve Extends_blockStmtLoop : fuel.

Lemma Extends_parseBlockStmt (r r' : Rec Lexer) in_ enterContext : ExtendsRec r r' -> Extends (parseBlockStmt r in_ enterContext) (parseBlockStmt r' in_ enterContext).
Proof. intros Hr. unfold parseBlockStmt. fuel. Qed.
#[local] Hint Resolve Extends_parseBlockStmt : fuel.

Lemma Extends_importListLoop (r r' : Rec Lexer) list_ : ExtendsRec r r' -> Extends (importListLoop r list_) (importListLoop r' list_).
Proof. intros Hr. unfold importListLoop. fuel. Qed.
#[local] Hint Resolve Extends_importListLoop : fuel.

Lemma Extends_importClause (r r' : Rec Lexer) : ExtendsRec r r' -> Extends (importClause r) (importClause r').
Proof. intros Hr. unfold importClause. fuel. Qed.
#[local] Hint Resolve Extends_importClause : fuel.

Lemma Extends_parseImportStmt (r r' : Rec Lexer) : ExtendsRec r r' -> Extends (parseImportStmt r) (parseImportStmt r').
Proof. intros Hr. unfold parseImportStmt. fuel. Qed.
#[local] Hint Resolve Extends_parseImportStmt : fuel.

Lemma Extends_exportListLoop (r r' : Rec Lexer) list_ : ExtendsRec r r' -> Extends (exportListLoop r list_) (exportListLoop r' list_).
Proof. intros Hr. unfold exportListLoop. fuel. Qed.
#[local] Hint Resolve Extends_exportListLoop : fuel.

Lemma Extends_exportList (r r' : Rec Lexer) : ExtendsRec r r' -> Extends (exportList r) (exportList r').
Proof. intros Hr. unfold exportList. fuel. Qed.
#[local] Hint Resolve Extends_exportList : fuel.

Lemma Extends_exportDefault (r r' : Rec Lexer) : ExtendsRec r r' -> Extends (exportDefault r) (exportDefault r').
Proof. intros Hr. unfold exportDefault. fuel. Qed.
#[local] Hint Resolve Extends_exportDefault : fuel.

Lemma Extends_parseExportStmt (r r' : Rec Lexer) : ExtendsRec r r' -> Extends (parseExportStmt r) (parseExportStmt r').
Proof. intros Hr. unfold parseExportStmt. fuel. Qed.
#[local] Hint Resolve Extends_parseExportStmt : fuel.

Lemma Extends_varDeclLoop (r r' : Rec Lexer) declType list_ : ExtendsRec r r' -> Extends (varDeclLoop r declType list_) (varDeclLoop r' declType list_).
Proof. intros Hr. unfold varDeclLoop. fuel. Qed.
#[local] Hint Resolve Extends_varDeclLoop : fuel.

Lemma Extends_parseVarDecl (r r' : Rec Lexer) t : ExtendsRec r r' -> Extends (parseVarDecl r t) (parseVarDecl r' t).
Proof. intros Hr. unfold parseVarDecl. fuel. Qed.
#[local] Hint Resolve Extends_parseVarDecl : fuel.

Lemma Extends_funcParamsLoop (r r' : Rec Lexer) in_ list_ : ExtendsRec r r' -> Extends (funcParamsLoop r in_ list_) (funcParamsLoop r' in_ list_).
Proof. intros Hr. unfold funcParamsLoop. fuel. Qed.
#[local] Hint Resolve Extends_funcParamsLoop : fuel.

Lemma Extends_parseFuncParams (r r' : Rec Lexer) in_ : ExtendsRec r r' -> Extends (parseFuncParams r in_) (parseFuncParams r' in_).
Proof. intros Hr. unfold parseFuncParams. fuel. Qed.
#[local] Hint Resolve Extends_parseFuncParams : fuel.

Lemma Extends_parseAnyFunc (r r' : Rec Lexer) async_ inExpr : ExtendsRec r r' -> Extends (parseAnyFunc r async_ inExpr) (parseAnyFunc r' async_ inExpr).
Proof. intros Hr. unfold parseAnyFunc. fuel. Qed.
#[local] Hint Resolve Extends_parseAnyFunc : fuel.

Lemma Extends_classMethodsLoop (r r' : Rec Lexer) methods : ExtendsRec r r' -> Extends (classMethodsLoop r methods) (classMethodsLoop r' methods).
Proof. intros Hr. unfold classMethodsLoop. fuel. Qed.
#[local] Hint Resolve Extends_classMethodsLoop : fuel.

Lemma Extends_parseAnyClass (r r' : Rec Lexer) inExpr : ExtendsRec r r' -> Extends (parseAnyClass r inExpr) (parseAnyClass r' inExpr).
Proof. intros Hr. unfold parseAnyClass. fuel. Qed.
#[local] Hint Resolve Extends_parseAnyClass : fuel.

Lemma Extends_methodModifiers (r r' : Rec Lexer) : ExtendsRec r r' -> Extends (methodModifiers r) (methodModifiers r').
Proof. intros Hr. unfold methodModifiers. fuel. Qed.
#[local] Hint Resolve Extends_methodModifiers : fuel.

Lemma Extends_parseMethod (r r' : Rec Lexer) : ExtendsRec r r' -> Extends (parseMethod r) (parseMethod r').
Proof. intros Hr. unfold parseMethod. fuel. Qed.
#[local] Hint Resolve Extends_parseMethod : fuel.

Lemma Extends_parsePropertyName (r r' : Rec Lexer) in_ : ExtendsRec r r' -> Extends (parsePropertyName r in_) (parsePropertyName r' in_).
Proof. intros Hr. unfold parsePropertyName. fuel. Qed.
#[local] Hint Resolve Extends_parsePropertyName : fuel.

Lemma Extends_parseBindingElement (r r' : Rec Lexer) decl : ExtendsRec r r' -> Extends (parseBindingElement r decl) (parseBindingElement r' decl).
Proof. intros Hr. unfold parseBindingElement. fuel. Qed.
#[local] Hint Resolve Extends_parseBindingElement : fuel.

Lemma Extends_bindingElisionLoop (r r' : Rec Lexer) list_ : ExtendsRec r r' -> Extends (bindingElisionLoop r list_) (bindingElisionLoop r' list_).
Proof. intros Hr. unfold bindingElisionLoop. fuel. Qed.
#[local] Hint Resolve Extends_bindingElisionLoop : fuel.

Lemma Extends_bindingArrayLoop (r r' : Rec Lexer) decl list_ : ExtendsRec r r' -> Extends (bindingArrayLoop r decl list_) (bindingArrayLoop r' decl list_).
Proof. intros Hr. unfold bindingArrayLoop. fuel. Qed.
#[local] Hint Resolve Extends_bindingArrayLoop : fuel.

Lemma Extends_bindingObjectItem (r r' : Rec Lexer) decl : ExtendsRec r r' -> Extends (bindingObjectItem r decl) (bindingObjectItem r' decl).
Proof. intros Hr. unfold bindingObjectItem. fuel. Qed.
#[local] Hint Resolve Extends_bindingObjectItem : fuel.

Lemma Extends_bindingObjectLoop (r r' : Rec Lexer) decl list_ : ExtendsRec r r' -> Extends (bindingObjectLoop r decl list_) (bindingObjectLoop r' decl list_).
Proof. intros Hr. unfold bindingObjectLoop. fuel. Qed.
#[local] Hint Resolve Extends_bindingObjectLoop : fuel.

Lemma Extends_parseBinding (r r' : Rec Lexer) decl : ExtendsRec r r' -> Extends (parseBinding r decl) (parseBinding r' decl).
Proof. intros Hr. unfold parseBinding. fuel. Qed.
#[local] Hint Resolve Extends_parseBinding : fuel.

Lemma Extends_arrayLiteralLoop (r r' : Rec Lexer) prevComma list_ : ExtendsRec r r' -> Extends (arrayLiteralLoop r prevComma list_) (arrayLiteralLoop r' prevComma list_).
Proof. intros Hr. unfold arrayLiteralLoop. fuel. Qed.
#[local] Hint Resolve Extends_arrayLiteralLoop : fuel.

Lemma Extends_parseArrayLiteral (r r' : Rec Lexer) : ExtendsRec r r' -> Extends (parseArrayLiteral r) (parseArrayLiteral r').
Proof. intros Hr. unfold parseArrayLiteral. fuel. Qed.
#[local] Hint Resolve Extends_parseArrayLiteral : fuel.

Lemma Extends_objectPropertyName (r r' : Rec Lexer) : ExtendsRec r r' -> Extends (objectPropertyName r) (objectPropertyName r').
Proof. intros Hr. unfold objectPropertyName. fuel. Qed.
#[local] Hint Resolve Extends_objectPropertyName : fuel.

Lemma Extends_objectProperty (r r' : Rec Lexer) : ExtendsRec r r' -> Extends (objectProperty r) (objectProperty r').
Proof. intros Hr. unfold objectProperty. fuel. Qed.
#[local] Hint Resolve Extends_objectProperty : fuel.

Lemma Extends_objectLiteralLoop (r r' : Rec Lexer) list_ : ExtendsRec r r' -> Extends (objectLiteralLoop r list_) (objectLiteralLoop r' list_).
Proof. intros Hr. unfold objectLiteralLoop. fuel. Qed.
#[local] Hint Resolve Extends_objectLiteralLoop : fuel.

Lemma Extends_parseObjectLiteral (r r' : Rec Lexer) : ExtendsRec r r' -> Extends (parseObjectLiteral r) (parseObjectLiteral r').
Proof. intros Hr. unfold parseObjectLiteral. fuel. Qed.
#[local] Hint Resolve Extends_parseObjectLiteral : fuel.

Lemma Extends_parseTemplateLiteral (r r' : Rec Lexer) : ExtendsRec r r' -> Extends (parseTemplateLiteral r) (parseTemplateLiteral r').
Proof. intros Hr. unfold parseTemplateLiteral. fuel. Qed.
#[local] Hint Resolve Extends_parseTemplateLiteral : fuel.

Lemma Extends_argsLoop (r r' : Rec Lexer) list_ : ExtendsRec r r' -> Extends (argsLoop r list_) (argsLoop r' list_).
Proof. intros Hr. unfold argsLoop. fuel. Qed.
#[local] Hint Resolve Extends_argsLoop : fuel.

Lemma Extends_parseArgs (r r' : Rec Lexer) : ExtendsRec r r' -> Extends (parseArgs r) (parseArgs r').
Proof. intros Hr. unfold parseArgs. fuel. Qed.
#[local] Hint Resolve Extends_parseArgs : fuel.

Lemma Extends_parseArrowFuncBody (r r' : Rec Lexer) : ExtendsRec r r' -> Extends (parseArrowFuncBody r) (parseArrowFuncBody r').
Proof. intros Hr. unfold parseArrowFuncBody. fuel. Qed.
#[local] Hint Resolve Extends_parseArrowFuncBody : fuel.

Lemma Extends_parseAsyncArrowFunc (r r' : Rec Lexer) : ExtendsRec r r' -> Extends (parseAsyncArrowFunc r) (parseAsyncArrowFunc r').
Proof. intros Hr. unfold parseAsyncArrowFunc. fuel. Qed.
#[local] Hint Resolve Extends_parseAsyncArrowFunc : fuel.

Lemma Extends_parseIdentifierArrowFunc (r r' : Rec Lexer) ref : ExtendsRec r r' -> Extends (parseIdentifierArrowFunc r ref) (parseIdentifierArrowFunc r' ref).
Proof. intros Hr. unfold parseIdentifierArrowFunc. fuel. Qed.
#[local] Hint Resolve Extends_parseIdentifierArrowFunc : fuel.

Lemma Extends_parseIdentifierExpression (r r' : Rec Lexer) prec ident : ExtendsRec r r' -> Extends (parseIdentifierExpression r prec ident) (parseIdentifierExpression r' prec ident).
Proof. intros Hr. unfold parseIdentifierExpression. fuel. Qed.
#[local] Hint Resolve Extends_parseIdentifierExpression : fuel.

Lemma Extends_parseAsyncExpression (r r' : Rec Lexer) prec async_ : ExtendsRec r r' -> Extends (parseAsyncExpression r prec async_) (parseAsyncExpression r' prec async_).
Proof. intros Hr. unfold parseAsyncExpression. fuel. Qed.
#[local] Hint Resolve Extends_parseAsyncExpression : fuel.

Lemma Extends_exprUnary (r r' : Rec Lexer) prec limit op : ExtendsRec r r' -> Extends (exprUnary r prec limit op) (exprUnary r' prec limit op).
Proof. intros Hr. unfold exprUnary. fuel. Qed.
#[local] Hint Resolve Extends_exprUnary : fuel.

Lemma Extends_exprParen (r r' : Rec Lexer) prec : ExtendsRec r r' -> Extends (exprParen r prec) (exprParen r' prec).
Proof. intros Hr. unfold exprParen. fuel. Qed.
#[local] Hint Resolve Extends_exprParen : fuel.

Lemma Extends_exprAwait (r r' : Rec Lexer) prec t : ExtendsRec r r' -> Extends (exprAwait r prec t) (exprAwait r' prec t).
Proof. intros Hr. unfold exprAwait. fuel. Qed.
#[local] Hint Resolve Extends_exprAwait : fuel.

Lemma Extends_exprNew (r r' : Rec Lexer) : ExtendsRec r r' -> Extends (exprNew r) (exprNew r').
Proof. intros Hr. unfold exprNew. fuel. Qed.
#[local] Hint Resolve Extends_exprNew : fuel.

Lemma Extends_exprImport (r r' : Rec Lexer) prec : ExtendsRec r r' -> Extends (exprImport r prec) (exprImport r' prec).
Proof. intros Hr. unfold exprImport. fuel. Qed.
#[local] Hint Resolve Extends_exprImport : fuel.

Lemma Extends_exprSuper (r r' : Rec Lexer) prec : ExtendsRec r r' -> Extends (exprSuper r prec) (exprSuper r' prec).
Proof. intros Hr. unfold exprSuper. fuel. Qed.
#[local] Hint Resolve Extends_exprSuper : fuel.

Lemma Extends_exprYield (r r' : Rec Lexer) prec : ExtendsRec r r' -> Extends (exprYield r prec) (exprYield r' prec).
Proof. intros Hr. unfold exprYield. fuel. Qed.
#[local] Hint Resolve Extends_exprYield : fuel.

Lemma Extends_exprLiteral (r r' : Rec Lexer) : ExtendsRec r r' -> Extends (exprLiteral r) (exprLiteral r').
Proof. intros Hr. unfold exprLiteral. fuel. Qed.
#[local] Hint Resolve Extends_exprLiteral : fuel.

Lemma Extends_exprAsync (r r' : Rec Lexer) prec : ExtendsRec r r' -> Extends (exprAsync r prec) (exprAsync r' prec).
Proof. intros Hr. unfold exprAsync. fuel. Qed.
#[local] Hint Resolve Extends_exprAsync : fuel.

Lemma Extends_exprTemplate (r r' : Rec Lexer) : ExtendsRec r r' -> Extends (exprTemplate r) (exprTemplate r').
Proof. intros Hr. unfold exprTemplate. fuel. Qed.
#[local] Hint Resolve Extends_exprTemplate : fuel.

Lemma Extends_exprSwitchCases (r r' : Rec Lexer) prec t : ExtendsRec r r' -> Extends (exprSwitchCases r prec t) (exprSwitchCases r' prec t).
Proof. intros Hr. unfold exprSwitchCases. fuel. Qed.
#[local] Hint Resolve Extends_exprSwitchCases : fuel.

Lemma Extends_parseExpression (r r' : Rec Lexer) prec : ExtendsRec r r' -> Extends (parseExpression r prec) (parseExpression r' prec).
Proof. intros Hr. unfold parseExpression. fuel. Qed.
#[local] Hint Resolve Extends_parseExpression : fuel.

Lemma Extends_suffixInfix (r r' : Rec Lexer) t left prec precLeft level minLeft right : ExtendsRec r r' -> Extends (suffixInfix r t left prec precLeft level minLeft right) (suffixInfix r' t left prec precLeft level minLeft right).
Proof. intros Hr. unfold suffixInfix. fuel. Qed.
#[local] Hint Resolve Extends_suffixInfix : fuel.

Lemma Extends_suffixCompare (r r' : Rec Lexer) t left prec precLeft : ExtendsRec r r' -> Extends (suffixCompare r t left prec precLeft) (suffixCompare r' t left prec precLeft).
Proof. intros Hr. unfold suffixCompare. fuel. Qed.
#[local] Hint Resolve Extends_suffixCompare : fuel.

Lemma Extends_suffixNullish (r r' : Rec Lexer) t left prec precLeft : ExtendsRec r r' -> Extends (suffixNullish r t left prec precLeft) (suffixNullish r' t left prec precLeft).
Proof. intros Hr. unfold suffixNullish. fuel. Qed.
#[local] Hint Resolve Extends_suffixNullish : fuel.

Lemma Extends_suffixDot (r r' : Rec Lexer) left precLeft : ExtendsRec r r' -> Extends (suffixDot r left precLeft) (suffixDot r' left precLeft).
Proof. intros Hr. unfold suffixDot. fuel. Qed.
#[local] Hint Resolve Extends_suffixDot : fuel.

Lemma Extends_suffixIndex (r r' : Rec Lexer) left precLeft : ExtendsRec r r' -> Extends (suffixIndex r left precLeft) (suffixIndex r' left precLeft).
Proof. intros Hr. unfold suffixIndex. fuel. Qed.
#[local] Hint Resolve Extends_suffixIndex : fuel.

Lemma Extends_suffixCall (r r' : Rec Lexer) left prec precLeft : ExtendsRec r r' -> Extends (suffixCall r left prec precLeft) (suffixCall r' left prec precLeft).
Proof. intros Hr. unfold suffixCall. fuel. Qed.
#[local] Hint Resolve Extends_suffixCall : fuel.

Lemma Extends_suffixTemplate (r r' : Rec Lexer) left precLeft : ExtendsRec r r' -> Extends (suffixTemplate r left precLeft) (suffixTemplate r' left precLeft).
Proof. intros Hr. unfold suffixTemplate. fuel. Qed.
#[local] Hint Resolve Extends_suffixTemplate : fuel.

Lemma Extends_suffixOptChain (r r' : Rec Lexer) left prec : ExtendsRec r r' -> Extends (suffixOptChain r left prec) (suffixOptChain r' left prec).
Proof. intros Hr. unfold suffixOptChain. fuel. Qed.
#[local] Hint Resolve Extends_suffixOptChain : fuel.

Lemma Extends_suffixUpdate (r r' : Rec Lexer) op left prec precLeft : ExtendsRec r r' -> Extends (suffixUpdate r op left prec precLeft) (suffixUpdate r' op left prec precLeft).
Proof. intros Hr. unfold suffixUpdate. fuel. Qed.
#[local] Hint Resolve Extends_suffixUpdate : fuel.

Lemma Extends_suffixCond (r r' : Rec Lexer) left prec precLeft : ExtendsRec r r' -> Extends (suffixCond r left prec precLeft) (suffixCond r' left prec precLeft).
Proof. intros Hr. unfold suffixCond. fuel. Qed.
#[local] Hint Resolve Extends_suffixCond : fuel.

Lemma Extends_suffixComma (r r' : Rec Lexer) t left prec : ExtendsRec r r' -> Extends (suffixComma r t left prec) (suffixComma r' t left prec).
Proof. intros Hr. unfold suffixComma. fuel. Qed.
#[local] Hint Resolve Extends_suffixComma : fuel.

Lemma Extends_suffixArrow (r r' : Rec Lexer) left prec precLeft : ExtendsRec r r' -> Extends (suffixArrow r left prec precLeft) (suffixArrow r' left prec precLeft).
Proof. intros Hr. unfold suffixArrow. fuel. Qed.
#[local] Hint Resolve Extends_suffixArrow : fuel.

Lemma Extends_suffixSwitchCases (r r' : Rec Lexer) t left prec precLeft : ExtendsRec r r' -> Extends (suffixSwitchCases r t left prec precLeft) (suffixSwitchCases r' t left prec precLeft).
Proof. intros Hr. unfold suffixSwitchCases. fuel. Qed.
#[local] Hint Resolve Extends_suffixSwitchCases : fuel.

Lemma Extends_parseExpressionSuffix (r r' : Rec Lexer) left prec precLeft : ExtendsRec r r' -> Extends (parseExpressionSuffix r left prec precLeft) (parseExpressionSuffix r' left prec precLeft).
Proof. intros Hr. unfold parseExpressionSuffix. fuel. Qed.
#[local] Hint Resolve Extends_parseExpressionSuffix : fuel.

Lemma Extends_parseAssignmentExpression (r r' : Rec Lexer) : ExtendsRec r r' -> Extends (parseAssignmentExpression r) (parseAssignmentExpression r').
Proof. intros Hr. unfold parseAssignmentExpression. fuel. Qed.
#[local] Hint Resolve Extends_parseAssignmentExpression : fuel.

Lemma Extends_parenListLoop (r r' : Rec Lexer) list_ : ExtendsRec r r' -> Extends (parenListLoop r list_) (parenListLoop r' list_).
Proof. intros Hr. unfold parenListLoop. fuel. Qed.
#[local] Hint Resolve Extends_parenListLoop : fuel.

Lemma Extends_parenFinish (r r' : Rec Lexer) prec parent self parentAssumeArrowFunc list_ rest : ExtendsRec r r' -> Extends (parenFinish r prec parent self parentAssumeArrowFunc list_ rest) (parenFinish r' prec parent self parentAssumeArrowFunc list_ rest).
Proof. intros Hr. unfold parenFinish. fuel. Qed.
#[local] Hint Resolve Extends_parenFinish : fuel.

Lemma Extends_parseParenthesizedExpressionOrArrowFunc (r r' : Rec Lexer) prec : ExtendsRec r r' -> Extends (parseParenthesizedExpressionOrArrowFunc r prec) (parseParenthesizedExpressionOrArrowFunc r' prec).
Proof. intros Hr. unfold parseParenthesizedExpressionOrArrowFunc. fuel. Qed.
#[local] Hint Resolve Extends_parseParenthesizedExpressionOrArrowFunc : fuel.

Lemma Extends_firstToken (r r' : Rec Lexer) : ExtendsRec r r' -> Extends (firstToken r) (firstToken r').
Proof. intros Hr. unfold firstToken. fuel. Qed.
#[local] Hint Resolve Extends_firstToken : fuel.

Lemma Extends_parseProgram (r r' : Rec Lexer) : ExtendsRec r r' -> Extends (parseProgram r) (parseProgram r').
Proof. intros Hr. unfold parseProgram. fuel. Qed.
#[local] Hint Resolve Extends_parseProgram : fuel.

Lemma Extends_dispatch r r' : ExtendsRec r r' -> ExtendsRec (dispatch r) (dispatch r').
Proof.
  intros Hr A c. destruct c; simpl; eauto with fuel.
Qed.

Lemma Extends_parser_S (fuel : nat) : ExtendsRec (parser fuel) (parser (S fuel)).
Proof.
  induction fuel as [|fuel IH].
  - intros A c p. left. reflexivity.
  - change (parser (S (S fuel))) with (dispatch (parser (S fuel))).
    change (parser (S fuel)) with (dispatch (parser fuel)) at 1.
    apply Extends_dispatch, IH.
Qed.

Lemma extends_trans {A : Type} (x y z : result Lexer A) :
  extends x y -> extends y z -> extends x z.
Proof.
  intros [H|H] [H'|H']; subst; unfold extends; auto.
Qed.

(** More fuel changes nothing once a call has returned or panicked. *)
Lemma Extends_parser (n m : nat) : n <= m -> ExtendsRec (parser n) (parser m).
Proof.
  induction 1 as [|m Hle IH].
  - intros A c. apply Extends_refl.
  - intros A c p. eapply extends_trans; [apply IH | apply Extends_parser_S].
Qed.

End Fuel.

(* ================================================================== *)
(** ** Token equality *)
(* ================================================================== *)

Lemma decode_code (t : TokenType) : TokenCode.decode (TokenCode.code t) = t.
Proof.
  destruct t; try reflexivity.
  unfold TokenCode.code.
  change (TokenCode.decode (120 + code)) with (OtherToken (120 + code - 120)).
  rewrite Nat.add_comm, Nat.add_sub. reflexivity.
Qed.

Lemma tt_eqb_eq (a b : TokenType) : tt_eqb a b = true <-> a = b.
Proof.
  unfold tt_eqb. rewrite Nat.eqb_eq. split.
  - intros H. rewrite <- (decode_code a), <- (decode_code b), H. reflexivity.
  - intros ->. reflexivity.
Qed.

Lemma tt_eqb_refl (a : TokenType) : tt_eqb a a = true.
Proof. apply tt_eqb_eq. reflexivity. Qed.

Lemma tt_eqb_neq (a b : TokenType) : tt_eqb a b = false <-> a <> b.
Proof.
  rewrite <- tt_eqb_eq. destruct (tt_eqb a b); split; congruence.
Qed.

(* ================================================================== *)
(** ** What the parser operations do *)
(* ================================================================== *)

Section Operations.

Context {Lexer : Type} {TS : TokenSource Lexer} {TT : TokenTable} {AO : AstOps}.

Lemma with_same (p : Parser Lexer) :
  withPrevLT (withToken p (tt p) (data p) (l p)) (prevLT p) = p.
Proof. destruct p; reflexivity. Qed.

(** The loop of [next] stops at the first token that is not skipped, with
    [prevLT] telling whether a line terminator was crossed. *)
Lemma nextLoop_Skips lx t d b lx' t' d' b' :
  Skips lx t d b lx' t' d' b' ->
  exists n, forall fuel (p : Parser Lexer),
      n <= fuel -> l p = lx -> tt p = t -> data p = d -> prevLT p = b ->
      nextLoop (parser fuel) p = Ret Datatypes.tt (withPrevLT (withToken p t' d' lx') b').
Proof.
  induction 1 as [lx t d b Hs | lx t d b t1 d1 lx1 lx' t' d' b' Hs HN _ IH].
  - exists 0. intros fuel p _ <- <- <- <-.
    unfold nextLoop, bind, gets. fold (isSkipped (tt p)). rewrite Hs.
    rewrite with_same. reflexivity.
  - destruct IH as [n IH]. exists (S n).
    intros fuel p Hle <- <- <- <-.
    destruct fuel as [|fuel]; [lia|].
    unfold nextLoop, bind, gets. fold (isSkipped (tt p)). rewrite Hs.
    fold (endsLine (tt p)).
    assert (Hstep : forall q : Parser Lexer,
               l q = l p -> tt q = tt p -> data q = data p ->
               prevLT q = (prevLT p || endsLine (tt p)) ->
               withPrevLT (withToken q t' d' lx') b' = withPrevLT (withToken p t' d' lx') b' ->
               match lexNext q with
               | Ret _ p' => call (parser (S fuel)) NextLoop p'
               | Panic msg => Panic msg
               | OutOfFuel => OutOfFuel
               end = Ret Datatypes.tt (withPrevLT (withToken p t' d' lx') b')).
    { intros q Hl Ht Hd Hb Hq.
      unfold lexNext, bind, gets. rewrite Hl, HN. simpl.
      unfold call. simpl parser. unfold dispatch.
      rewrite IH; [ | lia | reflexivity | reflexivity | reflexivity | exact Hb ].
      f_equal. rewrite <- Hq. destruct q; reflexivity. }
    destruct (endsLine (tt p)) eqn:He.
    + simpl. apply Hstep; try reflexivity;
        simpl; rewrite ?orb_true_r; try reflexivity; destruct p; reflexivity.
    + simpl. apply Hstep; try reflexivity;
        simpl; rewrite ?orb_false_r; try reflexivity; destruct p; reflexivity.
Qed.

(** [next]: [prevLT] is reset, a token is read, and the skipped tokens
    decide [prevLT]. *)
Lemma next_Skips (p : Parser Lexer) t1 d1 lx1 lx' t' d' b' :
  Next (l p) = (t1, d1, lx1) ->
  Skips lx1 t1 d1 false lx' t' d' b' ->
  exists n, forall fuel, n <= fuel ->
      next (parser fuel) p = Ret Datatypes.tt (withPrevLT (withToken p t' d' lx') b').
Proof.
  intros HN HS. destruct (nextLoop_Skips HS) as [n Hn]. exists n.
  intros fuel Hle. unfold next, lexNext. unfold bind, setPrevLT, gets. cbn [l].
  rewrite HN. unfold setToken.
  rewrite Hn; [ | exact Hle | reflexivity | reflexivity | reflexivity | reflexivity ].
  f_equal.
Qed.

End Operations.

(* ================================================================== *)
(** ** Return statements and line terminators *)
(* ================================================================== *)

Section Statements.

Context {Lexer : Type} {TS : TokenSource Lexer} {TT : TokenTable} {AO : AstOps}.

Lemma noTerminator_true (p : Parser Lexer) :
  noTerminator p = true <->
  prevLT p = false /\ tt p <> SemicolonToken /\ tt p <> CloseBraceToken
  /\ tt p <> ErrorToken.
Proof.
  unfold noTerminator.
  rewrite !andb_true_iff, !negb_true_iff, !tt_eqb_neq. tauto.
Qed.

(** [case ReturnToken]: after [p.next()], a value is parsed exactly when
    the terminator test passes; otherwise nothing more is read. *)
Lemma stmtReturn_run (r : Rec Lexer) (p p1 : Parser Lexer) :
  next r p = Ret Datatypes.tt p1 ->
  stmtReturn r p =
    if noTerminator p1
    then bind (call r (ParseExpression OpExpr)) (fun value => falls (ReturnStmt value)) p1
    else Ret (ReturnStmt NilExpr, true) p1.
Proof.
  intros HN. unfold stmtReturn. unfold bind at 1. rewrite HN.
  unfold bind at 1. unfold gets at 1.
  destruct (noTerminator p1); reflexivity.
Qed.

End Statements.

(** C5: the value of a [return] statement is parsed only when no line
    terminator was crossed since the [return] token and the next token is
    none of [;], [}] and the error token.  (1) After [p.next()] has moved
    past [return], [case ReturnToken] parses an expression exactly when the
    terminator test holds, and otherwise builds [ReturnStmt{nil}] without
    reading anything more.  (2) The terminator test is [!p.prevLT] and the
    three token tests.  (3) [p.next()] leaves in [prevLT] whether a line
    terminator or a comment with a line terminator was skipped.  (4) On
    [return], line feed, [1] the module is a [return] without value
    followed by the expression statement [1]; on [return 1] it is a
    [return] of [1]. *)
Theorem return_asi_restriction :
  (forall (Lexer : Type) (TS : TokenSource Lexer) (TT : TokenTable) (AO : AstOps)
          (r : Rec Lexer) (allowDeclaration : bool) (p p1 : Parser Lexer),
      next r p = Ret Datatypes.tt p1 ->
      stmtSwitchCases r allowDeclaration ReturnToken p =
        if noTerminator p1
        then bind (call r (ParseExpression OpExpr))
                  (fun value => falls (ReturnStmt value)) p1
        else Ret (ReturnStmt NilExpr, true) p1)
  /\ (forall (Lexer : Type) (p : Parser Lexer),
         noTerminator p = true <->
         prevLT p = false /\ tt p <> SemicolonToken /\ tt p <> CloseBraceToken
         /\ tt p <> ErrorToken)
  /\ (forall (Lexer : Type) (TS : TokenSource Lexer) (TT : TokenTable) (AO : AstOps)
             (p : Parser Lexer) t1 d1 lx1 lx' t' d' b',
         Next (l p) = (t1, d1, lx1) ->
         Skips lx1 t1 d1 false lx' t' d' b' ->
         exists n, forall fuel, n <= fuel ->
           next (parser fuel) p
           = Ret Datatypes.tt (withPrevLT (withToken p t' d' lx') b'))
  /\ Examples.parsed 100 Examples.returnNewline
     = Some ([ReturnStmt NilExpr;
              ExprStmt (Literal (mkLiteralExpr NumericToken "1"))], None)
  /\ Examples.parsed 100 Examples.returnValue
     = Some ([ReturnStmt (Literal (mkLiteralExpr NumericToken "1"))], None).
Proof.
  split; [| split; [| split; [| split]]].
  - intros. simpl. apply stmtReturn_run. assumption.
  - intros. apply noTerminator_true.
  - intros. eapply next_Skips; eassumption.
  - vm_compute. reflexivity.
  - vm_compute. reflexivity.
Qed.

(* ================================================================== *)
(** ** The [for] head and the operator [in] *)
(* ================================================================== *)

Section ForHead.

Context {Lexer : Type} {TS : TokenSource Lexer} {TT : TokenTable} {AO : AstOps}.

(** The initializer is parsed with [p.inFor] set, and the flag is cleared
    when it returns. *)
Lemma forInit_run (r : Rec Lexer) (p : Parser Lexer) :
  forInit r p =
    match forInitExpr r (withInFor p true) with
    | Ret init p1 => Ret init (withInFor p1 false)
    | Panic msg => Panic msg
    | OutOfFuel => OutOfFuel
    end.
Proof.
  unfold forInit, bind, setInFor. fold (withInFor p true).
  destruct (forInitExpr r (withInFor p true)); reflexivity.
Qed.

(** The rest of the head is parsed in the state the initializer left, with
    [p.inFor] cleared. *)
Lemma stmtFor_head (r : Rec Lexer) (await : bool) (p : Parser Lexer) :
  bind (forInit r) (fun init => forRest r await init) p =
    match forInitExpr r (withInFor p true) with
    | Ret init p1 => forRest r await init (withInFor p1 false)
    | Panic msg => Panic msg
    | OutOfFuel => OutOfFuel
    end.
Proof.
  unfold bind at 1. rewrite forInit_run.
  destruct (forInitExpr r (withInFor p true)); reflexivity.
Qed.

(** With [p.inFor] set, an [in] in infix position ends the expression: the
    left operand is returned and nothing is consumed. *)
Lemma suffix_in_suppressed (r : Rec Lexer) left prec precLeft (p : Parser Lexer) :
  tt p = InToken -> inFor p = true ->
  parseExpressionSuffix r left prec precLeft p = Ret left p.
Proof.
  intros Ht Hf. unfold parseExpressionSuffix, bind, gets. rewrite Ht.
  cbn [suffixSwitchCases]. unfold suffixCompare, bind, gets. rewrite Hf.
  rewrite tt_eqb_refl, orb_true_r. reflexivity.
Qed.

(** Without the flag, [in] is the relational operator. *)
Lemma suffix_in_relational (r : Rec Lexer) left prec precLeft (p : Parser Lexer) :
  tt p = InToken -> inFor p = false ->
  prec_lt OpCompare prec = false -> prec_lt precLeft OpCompare = false ->
  parseExpressionSuffix r left prec precLeft p =
    bind (next r) (fun _ =>
    bind (call r (ParseExpression OpShift)) (fun y =>
    call r (ParseExpressionSuffix (BinaryExpr InToken left y) prec OpCompare))) p.
Proof.
  intros Ht Hf H1 H2. unfold parseExpressionSuffix, bind at 1, gets at 1. rewrite Ht.
  cbn [suffixSwitchCases]. unfold suffixCompare, bind at 1 2, gets at 1. rewrite Hf, H1, H2.
  cbn [orb andb]. unfold bind.
  destruct (next r p) as [u p1| |]; try reflexivity.
  destruct (call r (ParseExpression OpShift) p1) as [y p2| |]; reflexivity.
Qed.

End ForHead.

(** C7: while the initializer of a [for(...)] head is parsed [p.inFor] is
    set, it is cleared before the rest of the head is parsed, and an [in]
    met in infix position while the flag is set ends the expression with
    the left operand.  (1) [forInit] runs the initializer from the state
    with [inFor = true] and returns in a state with [inFor = false];
    (2) the rest of the head runs from that state; (3) with the flag set,
    [parseExpressionSuffix] returns [left] at an [in] without consuming it;
    (4) without the flag it builds the relational [BinaryExpr];
    (5) [for (a in b) ;] is a for-in statement over [a] and [b], while
    [(a in b)] outside a [for] head is the relational expression. *)
Theorem for_head_in_suppression :
  (forall (Lexer : Type) (TS : TokenSource Lexer) (TT : TokenTable) (AO : AstOps)
          (r : Rec Lexer) (p : Parser Lexer),
      forInit r p =
        match forInitExpr r (withInFor p true) with
        | Ret init p1 => Ret init (withInFor p1 false)
        | Panic msg => Panic msg
        | OutOfFuel => OutOfFuel
        end)
  /\ (forall (Lexer : Type) (TS : TokenSource Lexer) (TT : TokenTable) (AO : AstOps)
             (r : Rec Lexer) (await : bool) (p : Parser Lexer),
         bind (forInit r) (fun init => forRest r await init) p =
           match forInitExpr r (withInFor p true) with
           | Ret init p1 => forRest r await init (withInFor p1 false)
           | Panic msg => Panic msg
           | OutOfFuel => OutOfFuel
           end)
  /\ (forall (Lexer : Type) (TS : TokenSource Lexer) (TT : TokenTable) (AO : AstOps)
             (r : Rec Lexer) left prec precLeft (p : Parser Lexer),
         tt p = InToken -> inFor p = true ->
         parseExpressionSuffix r left prec precLeft p = Ret left p)
  /\ (forall (Lexer : Type) (TS : TokenSource Lexer) (TT : TokenTable) (AO : AstOps)
             (r : Rec Lexer) left prec precLeft (p : Parser Lexer),
         tt p = InToken -> inFor p = false ->
         prec_lt OpCompare prec = false -> prec_lt precLeft OpCompare = false ->
         parseExpressionSuffix r left prec precLeft p =
           bind (next r) (fun _ =>
           bind (call r (ParseExpression OpShift)) (fun y =>
           call r (ParseExpressionSuffix (BinaryExpr InToken left y) prec OpCompare))) p)
  /\ Examples.parsed 100 Examples.forIn
     = Some ([ForInStmt (VarRefExpr 0) (VarRefExpr 1) EmptyStmt], None)
  /\ Examples.parsed 100 Examples.parenIn
     = Some ([ExprStmt (GroupExpr (BinaryExpr InToken (VarRefExpr 0) (VarRefExpr 1)))],
             None).
Proof.
  split; [| split; [| split; [| split; [| split]]]].
  - intros. apply forInit_run.
  - intros. apply stmtFor_head.
  - intros. apply suffix_in_suppressed; assumption.
  - intros. apply suffix_in_relational; assumption.
  - vm_compute. reflexivity.
  - vm_compute. reflexivity.
Qed.

(* ================================================================== *)
(** ** Regular expressions and division *)
(* ================================================================== *)

Section RegExp.

Context {Lexer : Type} {TS : TokenSource Lexer} {TT : TokenTable} {AO : AstOps}.

(** At a [/] or [/=] token [parseExpression] asks the lexer for a regular
    expression; when that fails the parse fails and nil is returned. *)
Lemma parseExpression_relex_fails (r : Rec Lexer) prec (p : Parser Lexer) d l' :
  tt p = DivToken \/ tt p = DivEqToken ->
  RegExp (l p) = (ErrorToken, d, l') ->
  parseExpression r prec p =
    bind (fail "regular expression" []) (fun _ => ret NilExpr)
         (withToken p ErrorToken d l').
Proof.
  intros Ht HR.
  unfold parseExpression, relexRegExp, bind at 1 2, gets at 1.
  assert (Hd : tt_eqb (tt p) DivToken || tt_eqb (tt p) DivEqToken = true).
  { destruct Ht as [-> | ->]; reflexivity. }
  rewrite Hd. unfold lexRegExp, bind at 1 2 3, gets at 1. rewrite HR.
  unfold setToken. fold (withToken p ErrorToken d l').
  unfold bind at 1, gets at 1. cbn [tt withToken]. rewrite tt_eqb_refl.
  unfold bind.
  destruct (fail "regular expression" [] (withToken p ErrorToken d l')); reflexivity.
Qed.

(** Otherwise the token read again replaces the punctuator and the
    expression is parsed from it. *)
Lemma parseExpression_relex (r : Rec Lexer) prec (p : Parser Lexer) t d l' :
  tt p = DivToken \/ tt p = DivEqToken ->
  RegExp (l p) = (t, d, l') ->
  t <> ErrorToken -> t <> DivToken -> t <> DivEqToken ->
  parseExpression r prec p = parseExpression r prec (withToken p t d l').
Proof.
  intros Ht HR H1 H2 H3.
  apply tt_eqb_neq in H1, H2, H3.
  assert (Hd : tt_eqb (tt p) DivToken || tt_eqb (tt p) DivEqToken = true).
  { destruct Ht as [-> | ->]; reflexivity. }
  unfold parseExpression, relexRegExp, lexRegExp, bind, gets, ret, setToken.
  cbn [tt withToken l]. rewrite Hd, HR. cbn [tt]. rewrite H1, H2, H3.
  reflexivity.
Qed.

(** A regular expression token is a literal (when the token tables class it
    neither as an identifier nor as a number). *)
Lemma parseExpression_regexp (r : Rec Lexer) prec (p : Parser Lexer) :
  tt p = RegExpToken ->
  IsIdentifier RegExpToken = false -> IsNumeric RegExpToken = false ->
  parseExpression r prec p =
    bind (next r) (fun _ =>
    call r (ParseExpressionSuffix (Literal (mkLiteralExpr RegExpToken (data p)))
                                  prec OpPrimary)) p.
Proof.
  intros Ht Hi Hn.
  unfold parseExpression, relexRegExp, bind at 1 2, gets at 1. rewrite Ht.
  cbn [tt_eqb TokenCode.code Nat.eqb orb]. unfold ret at 1. cbn [negb].
  unfold bind at 1, gets at 1. rewrite Ht.
  unfold bind at 1, gets at 1. rewrite Hi, Hn. cbn [andb].
  unfold bind at 1. cbn [exprSwitchCases]. unfold exprLiteral.
  unfold bind at 1, gets at 1. rewrite Ht. unfold bind at 1, gets at 1.
  unfold bind. destruct (next r p); reflexivity.
Qed.

(** A [/] met in infix position is the division operator. *)
Lemma suffix_division (r : Rec Lexer) left prec precLeft (p : Parser Lexer) :
  tt p = DivToken ->
  prec_lt OpMul prec = false -> prec_lt precLeft OpMul = false ->
  parseExpressionSuffix r left prec precLeft p =
    bind (next r) (fun _ =>
    bind (call r (ParseExpression OpExp)) (fun y =>
    call r (ParseExpressionSuffix (BinaryExpr DivToken left y) prec OpMul))) p.
Proof.
  intros Ht H1 H2. unfold parseExpressionSuffix, bind at 1, gets at 1. rewrite Ht.
  cbn [suffixSwitchCases]. unfold suffixInfix. rewrite H1, H2.
  unfold bind.
  destruct (next r p) as [u p1| |]; try reflexivity.
  destruct (call r (ParseExpression OpExp) p1) as [y p2| |]; reflexivity.
Qed.

End RegExp.

(** C4: whenever [parseExpression] is entered at a [/] or [/=] token the
    token is read again as a regular expression, and the parse fails when
    that fails; a [/] in infix position is the division operator.
    (1) When [RegExp] answers the error token, [parseExpression] records the
    failure and returns nil.  (2) Otherwise it parses from the token that
    [RegExp] answered.  (3) A regular expression token becomes a literal.
    (4) [parseExpressionSuffix] at [/] builds the division [BinaryExpr].
    (5) [/ab+c/.test(x)] is a call on a member of the regular expression
    literal, [a / b] is a division, and a [/] that does not lex as a regular
    expression fails the parse. *)
Theorem regexp_or_division :
  (forall (Lexer : Type) (TS : TokenSource Lexer) (TT : TokenTable) (AO : AstOps)
          (r : Rec Lexer) prec (p : Parser Lexer) d l',
      tt p = DivToken \/ tt p = DivEqToken ->
      RegExp (l p) = (ErrorToken, d, l') ->
      parseExpression r prec p =
        bind (fail "regular expression" []) (fun _ => ret NilExpr)
             (withToken p ErrorToken d l'))
  /\ (forall (Lexer : Type) (TS : TokenSource Lexer) (TT : TokenTable) (AO : AstOps)
             (r : Rec Lexer) prec (p : Parser Lexer) t d l',
         tt p = DivToken \/ tt p = DivEqToken ->
         RegExp (l p) = (t, d, l') ->
         t <> ErrorToken -> t <> DivToken -> t <> DivEqToken ->
         parseExpression r prec p = parseExpression r prec (withToken p t d l'))
  /\ (forall (Lexer : Type) (TS : TokenSource Lexer) (TT : TokenTable) (AO : AstOps)
             (r : Rec Lexer) prec (p : Parser Lexer),
         tt p = RegExpToken ->
         IsIdentifier RegExpToken = false -> IsNumeric RegExpToken = false ->
         parseExpression r prec p =
           bind (next r) (fun _ =>
           call r (ParseExpressionSuffix (Literal (mkLiteralExpr RegExpToken (data p)))
                                         prec OpPrimary)) p)
  /\ (forall (Lexer : Type) (TS : TokenSource Lexer) (TT : TokenTable) (AO : AstOps)
             (r : Rec Lexer) left prec precLeft (p : Parser Lexer),
         tt p = DivToken ->
         prec_lt OpMul prec = false -> prec_lt precLeft OpMul = false ->
         parseExpressionSuffix r left prec precLeft p =
           bind (next r) (fun _ =>
           bind (call r (ParseExpression OpExp)) (fun y =>
           call r (ParseExpressionSuffix (BinaryExpr DivToken left y) prec OpMul))) p)
  /\ Examples.parsed 100 Examples.regexpTest
     = Some ([ExprStmt
                (CallExpr
                   (DotExpr (Literal (mkLiteralExpr RegExpToken "/ab+c/"))
                            (mkLiteralExpr IdentifierToken "test"))
                   (mkArguments [VarRefExpr 0] NilExpr))], None)
  /\ Examples.parsed 100 Examples.division
     = Some ([ExprStmt (BinaryExpr DivToken (VarRefExpr 0) (VarRefExpr 1))], None)
  /\ Examples.parsed 100 Examples.badRegexp
     = Some ([ExprStmt NilExpr],
             Some (parse_Error 1 "unexpected EOF or newline in regular expression")).
Proof.
  split; [| split; [| split; [| split; [| split; [| split]]]]].
  - intros. apply parseExpression_relex_fails; assumption.
  - intros. apply parseExpression_relex; assumption.
  - intros. apply parseExpression_regexp; assumption.
  - intros. apply suffix_division; assumption.
  - vm_compute. reflexivity.
  - vm_compute. reflexivity.
  - vm_compute. reflexivity.
Qed.

(* ================================================================== *)
(** ** The first error and the flags *)
(* ================================================================== *)

Section FirstError.

Context {Lexer : Type} {TS : TokenSource Lexer} {TT : TokenTable} {AO : AstOps}.

Lemma fail_noop (p : Parser Lexer) e in_ expected :
  err p = Some e -> fail in_ expected p = Ret Datatypes.tt p.
Proof. intros H. unfold fail, bind, gets. rewrite H. reflexivity. Qed.

Lemma failMessage_noop (p : Parser Lexer) e msg args :
  err p = Some e -> failMessage msg args p = Ret Datatypes.tt p.
Proof. intros H. unfold failMessage, bind, gets. rewrite H. reflexivity. Qed.

Lemma keeps_here (p : Parser Lexer) : keeps (async p) (generator p) (err p) p.
Proof. unfold keeps. auto. Qed.

Lemma Frame_flags {A : Type} (m : M Lexer A) (p : Parser Lexer) x p' :
  (forall a g, Frame a g a g m) -> m p = Ret x p' ->
  async p' = async p /\ generator p' = generator p.
Proof.
  intros HF E. destruct (HF _ _ _ _ _ _ (keeps_here p) E) as (Ha & Hg & _). auto.
Qed.

Lemma Frame_error {A : Type} (m : M Lexer A) (p : Parser Lexer) x p' e :
  (forall a g, Frame a g a g m) -> err p = Some e -> m p = Ret x p' ->
  err p' = Some e.
Proof.
  intros HF He E. destruct (HF _ _ _ _ _ _ (keeps_here p) E) as (_ & _ & H).
  rewrite He in H. apply H. discriminate.
Qed.

Lemma parseResult_error (p : Parser Lexer) e :
  err p = Some e ->
  parseResult p
  = Some (parse_Error (Offset (l p) - Z.of_nat (String.length (data p)))%Z (Error e)).
Proof. intros H. unfold parseResult. rewrite H. reflexivity. Qed.


(** [finishParse] returns the tree holding the module, and the settled
    error. *)
Lemma finishParse_run (module : ModuleNode) (p : Parser Lexer) :
  exists p', finishParse module p
             = Ret (setModule (ast p) module, parseResult (withAst p (setModule (ast p) module))) p'.
Proof.
  unfold finishParse, bind, gets, setAst, setErr, ret. cbn [ast].
  eexists. reflexivity.
Qed.

Lemma parseResult_withAst (p : Parser Lexer) a : parseResult (withAst p a) = parseResult p.
Proof. reflexivity. Qed.

End FirstError.

(** C3: first error wins.  In a state where an error [e] is recorded,
    [fail] and [failMessage] change nothing; every parse function, at every
    fuel, returns with [e] still recorded; and when the module has been
    parsed, [Parse] returns the message of [e], positioned in the input. *)
Theorem first_error_wins :
  forall (Lexer : Type) (TS : TokenSource Lexer) (TT : TokenTable) (AO : AstOps)
         (p : Parser Lexer) (e : error),
    err p = Some e ->
    (forall in_ expected, fail in_ expected p = Ret Datatypes.tt p)
    /\ (forall msg args, failMessage msg args p = Ret Datatypes.tt p)
    /\ (forall fuel A (c : Call A) x p',
           call (parser fuel) c p = Ret x p' -> err p' = Some e)
    /\ (forall fuel module p',
           parseModule (parser fuel) p = Ret module p' ->
           err p' = Some e
           /\ value (finishParse module p')
              = Some (setModule (ast p') module,
                      Some (parse_Error
                              (Offset (l p') - Z.of_nat (String.length (data p')))%Z
                              (Error e)))).
Proof.
  intros Lexer TS TT AO p e He. split; [| split; [| split]].
  - intros. eapply fail_noop; eassumption.
  - intros. eapply failMessage_noop; eassumption.
  - intros fuel A c x p' E.
    eapply (Frame_error (m := call (parser fuel) c)); [ | exact He | exact E].
    intros a g. apply Frame_parser.
  - intros fuel module p' E.
    assert (He' : err p' = Some e).
    { eapply (Frame_error (m := parseModule (parser fuel))); [ | exact He | exact E].
      intros a g. apply Frame_parseModule, Frame_parser. }
    split; [exact He'|].
    destruct (finishParse_run module p') as [p'' ->]. cbn [value].
    rewrite parseResult_withAst, (parseResult_error _ He'). reflexivity.
Qed.

(** C8: the productions that introduce a function boundary (function
    declarations and expressions, class methods, methods of object literals,
    arrow functions, the parenthesized-or-arrow speculation) return with
    [p.async] and [p.generator] as they were when the production started;
    so does a block statement, and so does every parse function. *)
Theorem function_boundary_flags :
  forall (Lexer : Type) (TS : TokenSource Lexer) (TT : TokenTable) (AO : AstOps)
         (fuel : nat) (p : Parser Lexer),
    (forall async_ inExpr, sameFlags p (parseAnyFunc (parser fuel) async_ inExpr p))
    /\ sameFlags p (parseMethod (parser fuel) p)
    /\ sameFlags p (objectProperty (parser fuel) p)
    /\ sameFlags p (parseAsyncArrowFunc (parser fuel) p)
    /\ (forall ref, sameFlags p (parseIdentifierArrowFunc (parser fuel) ref p))
    /\ (forall prec,
           sameFlags p (parseParenthesizedExpressionOrArrowFunc (parser fuel) prec p))
    /\ (forall in_ enterContext,
           sameFlags p (parseBlockStmt (parser fuel) in_ enterContext p))
    /\ (forall A (c : Call A), sameFlags p (call (parser fuel) c p)).
Proof.
  intros Lexer TS TT AO fuel p.
  pose proof (Frame_parser (Lexer := Lexer) fuel) as Hr.
  assert (Hsame : forall A (m : M Lexer A),
             (forall a g, Frame a g a g m) -> sameFlags p (m p)).
  { intros A m Hm x p' E. eapply Frame_flags; eassumption. }
  split; [| split; [| split; [| split; [| split; [| split; [| split]]]]]];
    intros; apply Hsame; intros a g.
  - apply Frame_parseAnyFunc, Hr.
  - apply Frame_parseMethod, Hr.
  - apply Frame_objectProperty, Hr.
  - apply Frame_parseAsyncArrowFunc, Hr.
  - apply Frame_parseIdentifierArrowFunc, Hr.
  - apply Frame_parseParenthesizedExpressionOrArrowFunc, Hr.
  - apply Frame_parseBlockStmt, Hr.
  - apply Hr.
Qed.


(* ================================================================== *)
(** ** Parenthesized expression or arrow function *)
(* ================================================================== *)



(** The items of an array are converted as [exprToBindingElement] does. *)
Lemma exprToBinding_array (items : list Element) :
  exprToBinding (ArrayExpr items) = arrayItemsToBinding items [].
Proof.
  simpl. generalize (@nil BindingElement) as list_.
  induction items as [|[value spread] items IH]; intros list_; simpl.
  - reflexivity.
  - destruct spread; [reflexivity|].
    unfold exprToBindingElement.
    destruct value; simpl;
      repeat match goal with
             | |- context [tt_eqb ?a ?b] => destruct (tt_eqb a b)
             | |- context [match ?x with Some _ => _ | None => _ end] =>
                 destruct x eqn:?
             end; try reflexivity; try apply IH.
Qed.

Section Paren.

Context {Lexer : Type} {TS : TokenSource Lexer} {TT : TokenTable} {AO : AstOps}.




End Paren.



(* ================================================================== *)
(** ** The arrow function of a single identifier *)
(* ================================================================== *)

Lemma nth_error_update_eq {A : Type} (xs : list A) (i : nat) (x y : A) :
  nth_error xs i = Some y -> nth_error (update xs i x) i = Some x.
Proof.
  revert i. induction xs as [|z xs IH]; intros [|i] H; simpl in *;
    try discriminate; auto.
Qed.

Lemma nth_error_update_neq {A : Type} (xs : list A) (i j : nat) (x : A) :
  i <> j -> nth_error (update xs i x) j = nth_error xs j.
Proof.
  revert i j. induction xs as [|z xs IH]; intros [|i] [|j] H; simpl;
    try reflexivity; try congruence.
  apply IH. congruence.
Qed.

Section IdentifierArrow.

Context {Lexer : Type} {TS : TokenSource Lexer} {TT : TokenTable} {AO : AstOps}.

(** A variable with more than one use: the count is decremented and a
    parameter is declared in the scope of the arrow function. *)
Lemma detachIdentifier_shared (p : Parser Lexer) ref v :
  nth_error (Vars (ast p)) ref = Some v -> (1 < Uses v)%Z ->
  detachIdentifier ref p =
    bind (scopeDeclare ArgumentDecl (Name v)) (fun res => ret (fst res))
         (withAst p (setVarAt (ast p) ref (setUses v (Uses v - 1)%Z))).
Proof.
  intros Hv Hu. apply Z.ltb_lt in Hu.
  unfold detachIdentifier, bind at 1, gets at 1. rewrite Hv, Hu.
  unfold bind at 1, setAst at 1.
  fold (withAst p (setVarAt (ast p) ref (setUses v (Uses v - 1)%Z))).
  unfold bind.
  destruct (scopeDeclare ArgumentDecl (Name v) _) as [[ref' ok] p'| |]; reflexivity.
Qed.

(** A variable with a single use: the last entry of the parent scope's
    undeclared list is removed, the variable becomes an argument, and it is
    appended to the declared list of the scope of the arrow function. *)
Lemma detachIdentifier_single (p : Parser Lexer) ref v s sc ps psc :
  nth_error (Vars (ast p)) ref = Some v -> (Uses v <= 1)%Z ->
  scope p = Some s ->
  nth_error (Scopes (ast p)) s = Some sc ->
  Parent sc = Some ps -> ps <> s ->
  nth_error (Scopes (ast p)) ps = Some psc ->
  Undeclared psc <> [] ->
  exists a',
    detachIdentifier ref p = Ret ref (withAst p a')
    /\ nth_error (Vars a') ref = Some (setDecl v ArgumentDecl)
    /\ nth_error (Scopes a') ps
       = Some (setUndeclared psc (removelast (Undeclared psc)))
    /\ nth_error (Scopes a') s = Some (setDeclared sc (append (Declared sc) ref)).
Proof.
  intros Hv Hu Hs Hsc Hp Hne Hpsc Hun.
  assert (Hu' : (1 <? Uses v)%Z = false) by (apply Z.ltb_ge; exact Hu).
  set (a1 := setScopeAt (ast p) ps (setUndeclared psc (removelast (Undeclared psc)))).
  set (a2 := setVarAt a1 ref (setDecl v ArgumentDecl)).
  set (a3 := setScopeAt a2 s (setDeclared sc (append (Declared sc) ref))).
  assert (Hsc2 : nth_error (Scopes a2) s = Some sc).
  { unfold a2, a1, setVarAt, setScopeAt, setVars, setScopes; simpl.
    rewrite nth_error_update_neq by exact Hne. exact Hsc. }
  exists a3. split; [| split; [| split]].
  - unfold detachIdentifier, bind at 1, gets at 1. rewrite Hv, Hu'.
    unfold bind at 1, curScope, bind at 1, gets at 1. rewrite Hs.
    unfold ret at 1. unfold bind at 1, getScope at 1, bind at 1, gets at 1.
    rewrite Hsc. unfold ret at 1. rewrite Hp.
    unfold bind at 1, getScope at 1, bind at 1, gets at 1.
    rewrite Hpsc. unfold ret at 1.
    destruct (Undeclared psc) as [|u us] eqn:Eu; [congruence|].
    unfold bind at 1, setAst at 1. fold a1.
    unfold bind at 1, gets at 1. cbn [ast].
    unfold bind at 1, setAst at 1. cbn [ast]. fold a2.
    unfold bind at 1, getScope at 1, bind at 1, gets at 1. cbn [ast].
    rewrite Hsc2. unfold ret at 1.
    unfold bind at 1, gets at 1. cbn [ast].
    unfold bind at 1, setAst at 1. cbn [ast]. fold a3.
    unfold ret. destruct p; reflexivity.
  - unfold a3, a2, setScopeAt, setVarAt, setVars, setScopes; simpl.
    eapply nth_error_update_eq. unfold a1, setScopeAt, setScopes; simpl. exact Hv.
  - unfold a3, setScopeAt, setScopes; simpl.
    rewrite nth_error_update_neq by congruence.
    unfold a2, a1, setVarAt, setScopeAt, setVars, setScopes; simpl.
    eapply nth_error_update_eq. exact Hpsc.
  - unfold a3, setScopeAt, setScopes; simpl.
    eapply nth_error_update_eq. exact Hsc2.
Qed.

(** The parameter of the arrow function is what [detachIdentifier] returns,
    in the fresh function scope. *)
Lemma parseIdentifierArrowFunc_run (r : Rec Lexer) ref (p : Parser Lexer) :
  parseIdentifierArrowFunc r ref p =
    bind (enterScope true) (fun parent =>
    bind (gets scope) (fun self =>
    bind (setFlags false false) (fun _ =>
    bind (detachIdentifier ref) (fun ref' =>
    bind (call r ParseArrowFuncBody) (fun body =>
    bind (setFlags (async p) (generator p)) (fun _ =>
    bind (exitScope parent) (fun _ =>
    ret (mkArrowFunc false
           (mkParams [mkBindingElement (VarRefBinding ref') NilExpr] NilBinding)
           body self)))))))) p.
Proof.
  unfold parseIdentifierArrowFunc, bind, gets.
  destruct (enterScope true p) as [parent p1| |] eqn:E; try reflexivity.
  assert (Hf : async p1 = async p /\ generator p1 = generator p).
  { unfold enterScope, bind, gets, setAst, setScope, ret in E.
    inversion E; subst; simpl. auto. }
  destruct Hf as [Ha Hg]. cbv beta iota. rewrite Ha, Hg. reflexivity.
Qed.

End IdentifierArrow.

(** In a scope that declares nothing yet, the resolver's [Declare] of an
    argument creates a new Variable. *)
Lemma Resolver_Declare_fresh (a : AST) (s : nat) (sc : Scope) (name : string) :
  nth_error (Scopes a) s = Some sc -> Declared sc = [] ->
  Resolver.Declare_ a s ArgumentDecl name
  = (setScopeAt (setVars a (append (Vars a) (mkVar ArgumentDecl name 1 None)))
                s (setDeclared sc [length (Vars a)]),
     (length (Vars a), true)).
Proof.
  intros Hs Hd. unfold Resolver.Declare_. rewrite Hs. cbn [decl_eqb]. rewrite Hs, Hd.
  cbn [Resolver.findVar find]. unfold Resolver.AddVar, Resolver.addUses.
  cbn [Vars setVars]. unfold append at 1.
  rewrite nth_error_app2 by lia. rewrite Nat.sub_diag. cbn [nth_error].
  unfold setVarAt, setUses, setVars. cbn.
  assert (Hup : forall (xs : list Var) (x y : Var),
             update (xs ++ [x])%list (length xs) y = (xs ++ [y])%list).
  { induction xs as [|z xs IH]; intros; simpl; [reflexivity | rewrite IH; reflexivity]. }
  unfold append. rewrite Hup. reflexivity.
Qed.

(* ================================================================== *)
(** ** Reading tokens and reporting errors *)
(* ================================================================== *)

Section Tokens.

Context {Lexer : Type} {TS : TokenSource Lexer} {TT : TokenTable} {AO : AstOps}.

Lemma isSkipped_spec (t : TokenType) :
  (tt_eqb t WhitespaceToken || tt_eqb t LineTerminatorToken ||
   tt_eqb t CommentToken || tt_eqb t CommentLineTerminatorToken) = isSkipped t.
Proof. reflexivity. Qed.

(** The loop of [next] returns at a token that is not skipped, and has
    changed nothing but the token, its data, the lexer and [prevLT]. *)
Lemma nextLoop_stops (fuel : nat) :
  forall (p : Parser Lexer) u p',
    nextLoop (parser fuel) p = Ret u p' ->
    isSkipped (tt p') = false
    /\ p' = withPrevLT (withToken p (tt p') (data p') (l p')) (prevLT p').
Proof.
  induction fuel as [|fuel IH]; intros p u p' E.
  - unfold nextLoop, bind, gets in E. rewrite isSkipped_spec in E.
    destruct (isSkipped (tt p)) eqn:Hs.
    + destruct (tt_eqb (tt p) LineTerminatorToken
                || tt_eqb (tt p) CommentLineTerminatorToken) in E;
        unfold setPrevLT, skip, ret, lexNext, bind, gets, setToken in E;
        cbn [l] in E; destruct (Next (l p)) as [[t d] lx]; discriminate.
    + unfold skip, ret in E. inversion E; subst. split; [exact Hs|].
      symmetry. apply with_same.
  - unfold nextLoop, bind, gets in E. rewrite isSkipped_spec in E.
    destruct (isSkipped (tt p)) eqn:Hs.
    + destruct (tt_eqb (tt p) LineTerminatorToken
                || tt_eqb (tt p) CommentLineTerminatorToken) in E;
        unfold setPrevLT, skip, ret, lexNext, bind, gets, setToken in E;
        cbn [l] in E; destruct (Next (l p)) as [[t d] lx];
        change (call (parser (S fuel)) NextLoop) with (nextLoop (parser fuel)) in E;
        destruct (IH _ _ _ E) as [Hskip Hp']; (split; [exact Hskip|]);
        rewrite Hp' at 1; reflexivity.
    + unfold skip, ret in E. inversion E; subst. split; [exact Hs|].
      symmetry. apply with_same.
Qed.

(** [p.next()] returns at a token that is not white space, a line
    terminator or a comment, and changes nothing but the token, its data,
    the lexer and [prevLT]. *)
Lemma next_stops (fuel : nat) (p : Parser Lexer) u p' :
  next (parser fuel) p = Ret u p' ->
  isSkipped (tt p') = false
  /\ p' = withPrevLT (withToken p (tt p') (data p') (l p')) (prevLT p').
Proof.
  intros E. unfold next, lexNext in E. unfold bind, setPrevLT, gets, setToken in E.
  cbn [l] in E. destruct (Next (l p)) as [[t d] lx].
  destruct (nextLoop_stops _ _ E) as [Hskip Hp'].
  split; [exact Hskip|]. rewrite Hp' at 1. reflexivity.
Qed.

(** [p.fail] without a recorded error: the error is recorded and the
    token becomes the error token; nothing else changes. *)
Lemma fail_records (in_ : string) (expected : list TokenType) (p : Parser Lexer) :
  err p = None ->
  fail in_ expected p
  = Ret Datatypes.tt (withError p (Errorf (failMsg in_ expected p) [])).
Proof. intros He. unfold fail, bind, gets. rewrite He. reflexivity. Qed.

(** What [p.consume] answers. *)
Lemma consume_run (fuel : nat) (in_ : string) (t : TokenType) (p : Parser Lexer)
    (b : bool) (p' : Parser Lexer) :
  consume (parser fuel) in_ t p = Ret b p' ->
  (tt p = t /\ b = true /\ next (parser fuel) p = Ret Datatypes.tt p')
  \/ (tt p <> t /\ b = false /\ fail in_ [t] p = Ret Datatypes.tt p').
Proof.
  unfold consume. unfold bind at 1. unfold gets at 1.
  destruct (tt_eqb (tt p) t) eqn:Ht; cbn [negb].
  - apply tt_eqb_eq in Ht. unfold bind, ret.
    destruct (next (parser fuel) p) as [[] q| |]; try discriminate.
    intros E. inversion E; subst. left. auto.
  - apply tt_eqb_neq in Ht. unfold bind, ret.
    destruct (fail in_ [t] p) as [[] q| |]; try discriminate.
    intros E. inversion E; subst. right. auto.
Qed.

End Tokens.

(* ================================================================== *)
(** ** Statements that a line terminator ends *)
(* ================================================================== *)

Section Restricted.

Context {Lexer : Type} {TS : TokenSource Lexer} {TT : TokenTable} {AO : AstOps}.

(** [case ThrowToken]: after [p.next()], an expression is parsed unless a
    line terminator was crossed. *)
Lemma stmtThrow_run (r : Rec Lexer) (p p1 : Parser Lexer) :
  next r p = Ret Datatypes.tt p1 ->
  stmtThrow r p =
    if prevLT p1 then Ret (ThrowStmt NilExpr, true) p1
    else bind (call r (ParseExpression OpExpr)) (fun value => falls (ThrowStmt value)) p1.
Proof.
  intros HN. unfold stmtThrow. unfold bind at 1. rewrite HN.
  unfold bind at 1. unfold gets at 1.
  destruct (prevLT p1); reflexivity.
Qed.

(** [case ContinueToken, BreakToken]: after [p.next()], the next token is
    the label when no line terminator was crossed and it is an identifier
    reference. *)
Lemma stmtBranch_run (r : Rec Lexer) (p p1 : Parser Lexer) :
  next r p = Ret Datatypes.tt p1 ->
  stmtBranch r p =
    if negb (prevLT p1)
       && (IsIdentifier (tt p1) || tt_eqb (tt p1) YieldToken && negb (generator p1)
           || tt_eqb (tt p1) AwaitToken && negb (async p1))
    then bind (next r) (fun _ => falls (BranchStmt (tt p) (Some (data p1)))) p1
    else Ret (BranchStmt (tt p) None, true) p1.
Proof.
  intros HN. unfold stmtBranch. unfold bind at 1. unfold gets at 1.
  unfold bind at 1. rewrite HN.
  unfold bind at 1. unfold gets at 1.
  unfold bind at 1. unfold gets at 1.
  unfold isIdentifierReference.
  unfold bind at 1 2 3. unfold gets at 1 2. unfold ret at 1.
  destruct (negb (prevLT p1)
            && (IsIdentifier (tt p1) || tt_eqb (tt p1) YieldToken && negb (generator p1)
                || tt_eqb (tt p1) AwaitToken && negb (async p1))).
  - unfold bind at 1 2. unfold gets at 1.
    unfold bind. destruct (next r p1) as [[] q| |]; reflexivity.
  - reflexivity.
Qed.

(** [case IncrToken] and [case DecrToken] of [parseExpressionSuffix]: after
    a line terminator the operator is not taken as a postfix operator. *)
Lemma suffix_update_newline (r : Rec Lexer) (left : IExpr) (prec precLeft : OpPrec)
    (p : Parser Lexer) :
  tt p = IncrToken \/ tt p = DecrToken -> prevLT p = true ->
  parseExpressionSuffix r left prec precLeft p = Ret left p.
Proof.
  intros Ht Hlt. unfold parseExpressionSuffix. unfold bind at 1. unfold gets at 1.
  destruct Ht as [Ht|Ht]; rewrite Ht; cbn [suffixSwitchCases];
    unfold suffixUpdate, bind, gets; rewrite Hlt; reflexivity.
Qed.

(** [terminated]: a statement that is not followed by a terminator is
    returned together with the error. *)
Lemma terminated_fails (in_ : string) (stmt : IStmt) (p : Parser Lexer) :
  noTerminator p = true -> err p = None ->
  terminated in_ stmt p
  = Ret (stmt, false) (withError p (Errorf (failMsg in_ [] p) [])).
Proof.
  intros Hn He. unfold terminated, bind, gets. rewrite Hn.
  rewrite (fail_records in_ [] p He). reflexivity.
Qed.

(** [parseStmt(false)]: at [const], [function], [async] and [class] the
    statement is refused. *)
Lemma parseStmt_no_declaration (r : Rec Lexer) (p : Parser Lexer) :
  tt p = ConstToken \/ tt p = FunctionToken \/ tt p = AsyncToken \/ tt p = ClassToken ->
  parseStmt r false p = bind (fail "statement" []) (fun _ => ret NilStmt) p.
Proof.
  intros Ht. unfold parseStmt. unfold bind at 1. unfold gets at 1.
  destruct Ht as [Ht|[Ht|[Ht|Ht]]]; rewrite Ht; cbn [stmtSwitchCases];
    unfold stmtVar, stmtFunction, stmtAsync, stmtClass;
    cbn [negb andb tt_eqb TokenCode.code Nat.eqb];
    unfold returned, bind, ret;
    destruct (fail "statement" [] p) as [[] q| |]; reflexivity.
Qed.

End Restricted.

(** In an array literal that is converted to a binding pattern, what
    follows the first spread element is dropped. *)
Lemma arrayItemsToBinding_spread (xs ys : list Element) (v : IExpr)
    (list_ : list BindingElement) :
  Forall (fun x => match x with mkElement _ spread => spread = false end) xs ->
  arrayItemsToBinding (xs ++ mkElement v true :: ys) list_
  = arrayItemsToBinding (xs ++ [mkElement v true]) list_.
Proof.
  intros Hxs. revert list_. induction Hxs as [|[value spread] xs Hx Hxs IH]; intros list_.
  - reflexivity.
  - simpl in Hx. subst spread. simpl.
    destruct (exprToBindingElement value); [apply IH | reflexivity].
Qed.

Section Entry.

Context {Lexer : Type} {TS : TokenSource Lexer} {TT : TokenTable} {AO : AstOps}.

(** [Parse] on an input whose first token is the error token: nothing is
    parsed; the module is empty and the lexer's error decides the result. *)
Lemma Parse_no_token (fuel : nat) (lx lx' : Lexer) (d : string) :
  Next lx = (ErrorToken, d, lx') ->
  value (Parse fuel lx)
  = Some (setModule (setScopes newAST [mkScope None (Some 0) [] [] 0])
                    (mkModule [] (Some 0)),
          match Err lx' with
          | Some io_EOF => None
          | e => e
          end).
Proof.
  intros HN. unfold Parse, parseProgram, firstToken, lexNext.
  unfold bind at 1 2 3. unfold gets at 1. cbn [l newParser]. rewrite HN.
  unfold setToken, parseModule, enterScope, parseModuleLoop, finishParse.
  unfold bind, gets, skip, ret, setAst, setScope, setErr. simpl.
  unfold parseResult. simpl.
  destruct (Err lx') as [[]|]; reflexivity.
Qed.

End Entry.

(* ================================================================== *)
(** ** Operator precedence *)
(* ================================================================== *)

(** For any two of the binary operators that group to the left,
    [a op1 b op2 c] is parsed without error, with the operands of the
    tighter operator grouped, and those of the first operator when the two
    are equally tight. *)
Theorem binary_operators_group (t1 t2 : TokenType) :
  In t1 Inputs.leftOperators -> In t2 Inputs.leftOperators ->
  Examples.parsed 100 (Inputs.twoOperators t1 t2)
  = Some ([ExprStmt (Inputs.grouped t1 t2)], None).
Proof.
  intros H1 H2. unfold Inputs.leftOperators in H1, H2. simpl in H1, H2.
  repeat (destruct H1 as [H1|H1];
          [ subst t1;
            repeat (destruct H2 as [H2|H2]; [subst t2; vm_compute; reflexivity|]);
            contradiction
          | ]).
  contradiction.
Qed.

(* ================================================================== *)
(** ** Properties of the parser operations and of the statements *)
(* ================================================================== *)

(** [p.next()] returns at a token that is not white space, a line
    terminator or a comment, and it changes nothing of the parser but the
    token, its data, the lexer and [prevLT]. *)
Theorem next_stops_at_token :
  forall (Lexer : Type) (TS : TokenSource Lexer) (TT : TokenTable) (AO : AstOps)
         (fuel : nat) (p : Parser Lexer) (u : unit) (p' : Parser Lexer),
    next (parser fuel) p = Ret u p' ->
    isSkipped (tt p') = false
    /\ p' = withPrevLT (withToken p (tt p') (data p') (l p')) (prevLT p').
Proof. intros. eapply next_stops. eassumption. Qed.

(** [p.consume(in, tt)] answers true exactly when the current token is
    [tt]; then it has moved to the next token and the recorded error is as
    before.  When it answers false it has read nothing: the lexer and the
    token data are as before, an error is recorded, and a parser that had
    recorded an error before is unchanged. *)
Theorem consume_answers :
  forall (Lexer : Type) (TS : TokenSource Lexer) (TT : TokenTable) (AO : AstOps)
         (fuel : nat) (in_ : string) (t : TokenType) (p : Parser Lexer)
         (b : bool) (p' : Parser Lexer),
    consume (parser fuel) in_ t p = Ret b p' ->
    (b = true <-> tt p = t)
    /\ (b = true -> isSkipped (tt p') = false /\ err p' = err p)
    /\ (b = false ->
        l p' = l p /\ data p' = data p /\ err p' <> None
        /\ (err p <> None -> p' = p)).
Proof.
  intros Lexer TS TT AO fuel in_ t p b p' E.
  destruct (consume_run _ _ _ _ E) as [(Ht & Hb & HN) | (Ht & Hb & HF)]; subst b.
  - destruct (next_stops _ _ HN) as [Hs Hp'].
    split; [tauto|]. split; [|discriminate].
    intros _. split; [exact Hs|]. rewrite Hp'. reflexivity.
  - split; [split; [discriminate | congruence]|]. split; [discriminate|].
    intros _. unfold fail, bind, gets in HF. destruct (err p) as [e|] eqn:He.
    + inversion HF; subst. rewrite He. repeat split; congruence.
    + inversion HF; subst. simpl. repeat split; congruence.
Qed.

(** At the error token with a lexer error that is not the end of the
    input, [p.fail] records the message of the lexer, whatever tokens the
    parser expected. *)
Theorem fail_reports_lexer_error :
  forall (Lexer : Type) (TS : TokenSource Lexer) (TT : TokenTable) (AO : AstOps)
         (in_ : string) (expected : list TokenType) (p : Parser Lexer)
         (offset : Z) (message : string),
    err p = None -> tt p = ErrorToken ->
    Err (l p) = Some (parse_Error offset message) ->
    fail in_ expected p
    = Ret Datatypes.tt
          (withError p (Errorf (if String.eqb in_ "" then message
                                else message ++ " in " ++ in_) [])).
Proof.
  intros Lexer TS TT AO in_ expected p offset message He Ht HE.
  rewrite (fail_records in_ expected p He). unfold failMsg.
  rewrite Ht, HE. cbn [tt_eqb TokenCode.code Nat.eqb].
  destruct (String.eqb in_ ""); reflexivity.
Qed.

(** [Parse] on an input without tokens returns the tree with an empty
    module in a scope of its own, and no error when the lexer ended at the
    end of the input. *)
Theorem Parse_empty_input :
  forall (Lexer : Type) (TS : TokenSource Lexer) (TT : TokenTable) (AO : AstOps)
         (fuel : nat) (lx lx' : Lexer) (d : string),
    Next lx = (ErrorToken, d, lx') ->
    Err lx' = Some io_EOF ->
    value (Parse fuel lx)
    = Some (setModule (setScopes newAST [mkScope None (Some 0) [] [] 0])
                      (mkModule [] (Some 0)),
            None).
Proof.
  intros Lexer TS TT AO fuel lx lx' d HN HE.
  rewrite (Parse_no_token fuel _ HN), HE. reflexivity.
Qed.

(** [Parse] does not skip white space or a line terminator before the first
    token: an input that starts with one is refused at offset 0, whatever
    follows.  A leading comment is skipped. *)
Theorem Parse_leading_white_space :
  (forall rest,
      Examples.parsed 100 (Inputs.leadingSpace rest)
      = Some ([ExprStmt NilExpr],
              Some (parse_Error 0 "unexpected ' ' in expression")))
  /\ (forall rest,
         Examples.parsed 100 (Inputs.leadingNewline rest)
         = Some ([ExprStmt NilExpr],
                 Some (parse_Error 0 ("unexpected '" ++ String "010"%char ""
                                        ++ "' in expression"))))
  /\ Examples.parsed 100 Inputs.leadingComment
     = Some ([ExprStmt (VarRefExpr 0)], None).
Proof.
  split; [| split].
  - intros rest. vm_compute. reflexivity.
  - intros rest. vm_compute. reflexivity.
  - vm_compute. reflexivity.
Qed.

(** A [throw] statement: after a line terminator no expression is parsed,
    and none is required; otherwise an expression is parsed, also at a
    semicolon.  [throw], line feed, [x] is a [throw] without value followed
    by the statement [x], without error; [throw;] is an error. *)
Theorem throw_line_terminator :
  (forall (Lexer : Type) (TS : TokenSource Lexer) (TT : TokenTable) (AO : AstOps)
          (r : Rec Lexer) (allowDeclaration : bool) (p p1 : Parser Lexer),
      next r p = Ret Datatypes.tt p1 ->
      stmtSwitchCases r allowDeclaration ThrowToken p =
        if prevLT p1 then Ret (ThrowStmt NilExpr, true) p1
        else bind (call r (ParseExpression OpExpr))
                  (fun value => falls (ThrowStmt value)) p1)
  /\ Examples.parsed 100 Inputs.throwNewline
     = Some ([ThrowStmt NilExpr; ExprStmt (VarRefExpr 0)], None)
  /\ Examples.parsed 100 Inputs.throwSemicolon
     = Some ([ThrowStmt NilExpr],
             Some (parse_Error 5 "unexpected ';' in expression")).
Proof.
  split; [| split].
  - intros. simpl. apply stmtThrow_run. assumption.
  - vm_compute. reflexivity.
  - vm_compute. reflexivity.
Qed.

(** [break] and [continue]: the next token is taken as the label only when
    no line terminator was crossed and the token is an identifier
    reference.  [break], line feed, [foo] is a [break] without label
    followed by the statement [foo]. *)
Theorem branch_label_line_terminator :
  (forall (Lexer : Type) (TS : TokenSource Lexer) (TT : TokenTable) (AO : AstOps)
          (r : Rec Lexer) (allowDeclaration : bool) (p p1 : Parser Lexer),
      tt p = BreakToken \/ tt p = ContinueToken ->
      next r p = Ret Datatypes.tt p1 ->
      stmtSwitchCases r allowDeclaration (tt p) p =
        if negb (prevLT p1)
           && (IsIdentifier (tt p1)
               || tt_eqb (tt p1) YieldToken && negb (generator p1)
               || tt_eqb (tt p1) AwaitToken && negb (async p1))
        then bind (next r) (fun _ => falls (BranchStmt (tt p) (Some (data p1)))) p1
        else Ret (BranchStmt (tt p) None, true) p1)
  /\ Examples.parsed 100 Inputs.breakNewline
     = Some ([BranchStmt BreakToken None; ExprStmt (VarRefExpr 0)], None)
  /\ Examples.parsed 100 Inputs.continueLabel
     = Some ([BranchStmt ContinueToken (Some "foo")], None).
Proof.
  split; [| split].
  - intros Lexer TS TT AO r allow p p1 Ht HN.
    rewrite <- (stmtBranch_run r p HN).
    destruct Ht as [Ht|Ht]; rewrite Ht; reflexivity.
  - vm_compute. reflexivity.
  - vm_compute. reflexivity.
Qed.

(** [++] and [--] after a line terminator are not postfix operators: the
    expression ends before them.  [a], line feed, [++b] is the statement
    [a] followed by the statement [++b]. *)
Theorem postfix_update_line_terminator :
  (forall (Lexer : Type) (TS : TokenSource Lexer) (TT : TokenTable) (AO : AstOps)
          (r : Rec Lexer) (left : IExpr) (prec precLeft : OpPrec) (p : Parser Lexer),
      tt p = IncrToken \/ tt p = DecrToken -> prevLT p = true ->
      parseExpressionSuffix r left prec precLeft p = Ret left p)
  /\ Examples.parsed 100 Inputs.incrNewline
     = Some ([ExprStmt (VarRefExpr 0);
              ExprStmt (UnaryExpr PreIncrToken (VarRefExpr 1))], None).
Proof.
  split.
  - intros. apply suffix_update_newline; assumption.
  - vm_compute. reflexivity.
Qed.

(** A [var] statement that is not followed by a line terminator, [;], [}]
    or the end of the input is an error, and the declaration parsed so far
    is returned with it. *)
Theorem var_statement_needs_terminator :
  (forall (Lexer : Type) (TS : TokenSource Lexer) (TT : TokenTable) (AO : AstOps)
          (r : Rec Lexer) (allowDeclaration : bool) (p p1 p2 : Parser Lexer)
          (varDecl : VarDecl),
      tt p = VarToken ->
      next r p = Ret Datatypes.tt p1 ->
      call r (ParseVarDecl VarToken) p1 = Ret varDecl p2 ->
      noTerminator p2 = true -> err p2 = None ->
      parseStmt r allowDeclaration p
      = Ret (VarDeclS varDecl)
            (withError p2 (Errorf (failMsg "var statement" [] p2) [])))
  /\ Examples.parsed 100 Inputs.varTwoNames
     = Some ([VarDeclS (mkVarDecl VarToken
                          [mkBindingElement (VarRefBinding 0) NilExpr])],
             Some (parse_Error 6 "unexpected 'y' in var statement")).
Proof.
  split.
  - intros Lexer TS TT AO r allow p p1 p2 varDecl Ht HN HV Hn He.
    unfold parseStmt. unfold bind at 1. unfold gets at 1. rewrite Ht.
    cbn [stmtSwitchCases]. unfold stmtVar.
    rewrite andb_false_r.
    unfold bind at 1. unfold bind at 1. rewrite HN.
    unfold bind at 1. rewrite HV.
    cbn [tt_eqb TokenCode.code Nat.eqb].
    rewrite (terminated_fails _ _ _ Hn He). reflexivity.
  - vm_compute. reflexivity.
Qed.

(** Where a declaration is not allowed (the body of [if], [while], [for],
    [do] and [with]), a statement that starts with [const], [function],
    [async] or [class] is refused and no statement is built.
    In [if(a) const x=1] the body of the [if] is nil. *)
Theorem declaration_refused_as_body :
  (forall (Lexer : Type) (TS : TokenSource Lexer) (TT : TokenTable) (AO : AstOps)
          (r : Rec Lexer) (p : Parser Lexer),
      tt p = ConstToken \/ tt p = FunctionToken \/ tt p = AsyncToken
      \/ tt p = ClassToken ->
      err p = None ->
      parseStmt r false p
      = Ret NilStmt (withError p (Errorf (failMsg "statement" [] p) [])))
  /\ Examples.parsed 100 Inputs.ifConst
     = Some ([IfStmt (VarRefExpr 0) NilStmt NilStmt],
             Some (parse_Error 6 "unexpected 'const' in statement")).
Proof.
  split.
  - intros Lexer TS TT AO r p Ht He.
    rewrite (parseStmt_no_declaration r p Ht). unfold bind.
    rewrite (fail_records _ _ p He). reflexivity.
  - vm_compute. reflexivity.
Qed.

(** When an array literal is converted to a binding pattern, the
    conversion ends at the first spread element: the elements behind it
    are dropped. *)
Theorem exprToBinding_drops_after_spread :
  forall (xs ys : list Element) (v : IExpr),
    Forall (fun x => match x with mkElement _ spread => spread = false end) xs ->
    exprToBinding (ArrayExpr (xs ++ mkElement v true :: ys))
    = exprToBinding (ArrayExpr (xs ++ [mkElement v true])).
Proof.
  intros xs ys v Hxs. rewrite !exprToBinding_array.
  apply arrayItemsToBinding_spread. exact Hxs.
Qed.

(** The operator [**] groups to the right, and its left operand may not be
    an expression with a prefix operator. *)
Theorem exponent_operator :
  Examples.parsed 100 (Inputs.twoOperators ExpToken ExpToken)
  = Some ([ExprStmt (BinaryExpr ExpToken (VarRefExpr 0)
                       (BinaryExpr ExpToken (VarRefExpr 1) (VarRefExpr 2)))],
          None)
  /\ (forall t, In t Inputs.prefixOperators ->
        exists offset,
          Examples.parsed 100 (Inputs.prefixThenExp t)
          = Some ([ExprStmt NilExpr],
                  Some (parse_Error offset "unexpected '**' in expression"))).
Proof.
  split; [vm_compute; reflexivity|].
  intros t Ht. unfold Inputs.prefixOperators in Ht. simpl in Ht.
  repeat (destruct Ht as [Ht|Ht]; [subst t; eexists; vm_compute; reflexivity|]).
  contradiction.
Qed.

(* ================================================================== *)
(** ** After an error no token is read *)
(* ================================================================== *)

Section Halting.

Context {Lexer : Type} {TS : TokenSource Lexer} {TT : TokenTable} {AO : AstOps}.

(** The error token is no identifier, identifier name or number. *)
Hypothesis Hid : IsIdentifier ErrorToken = false.
Hypothesis Hname : IsIdentifierName ErrorToken = false.
Hypothesis Hnum : IsNumeric ErrorToken = false.

Lemma onward_Halted (lx : Lexer) d e (md : Progress Lexer) :
  onward (Halted lx d e) md -> md = Halted lx d e.
Proof. intros [H|[H _]]; [exact H | discriminate]. Qed.

Lemma answered_Halted b (lx : Lexer) d e (md : Progress Lexer) :
  answered b (Halted lx d e) md -> b = false /\ md = Halted lx d e.
Proof.
  intros [(_ & _ & H)|(Hb & _ & H)]; [discriminate|].
  split; [exact Hb | apply onward_Halted; exact H].
Qed.

Lemma Stops_ret {A : Type} md (x : A) (Q : A -> Progress Lexer -> Prop) :
  Q x md -> Stops md (ret x : M Lexer A) Q.
Proof. intros HQ p y p' H E. inversion E; subst. exists md. auto. Qed.

Lemma Stops_panic {A : Type} md msg (Q : A -> Progress Lexer -> Prop) :
  Stops md (@panic Lexer A msg) Q.
Proof. intros p y p' H E. discriminate. Qed.

Lemma Stops_bind {A B : Type} md (m : M Lexer A) (k : A -> M Lexer B)
    (Q : A -> Progress Lexer -> Prop) (R : B -> Progress Lexer -> Prop) :
  Stops md m Q ->
  (forall x md1, Q x md1 -> Stops md1 (k x) R) ->
  Stops md (bind m k) R.
Proof.
  intros Hm Hk p y p' H E. unfold bind in E.
  destruct (m p) as [x p1| |] eqn:Em; try discriminate.
  destruct (Hm _ _ _ H Em) as (md1 & H1 & HQ).
  exact (Hk _ _ HQ _ _ _ H1 E).
Qed.

Lemma Stops_weaken {A : Type} md (m : M Lexer A) (Q R : A -> Progress Lexer -> Prop) :
  Stops md m Q -> (forall x md1, Q x md1 -> R x md1) -> Stops md m R.
Proof.
  intros Hm HQR p x p' H E. destruct (Hm _ _ _ H E) as (md1 & H1 & HQ).
  exists md1. auto.
Qed.

Lemma Stops_bind_gets {A B : Type} md (f : Parser Lexer -> A) (k : A -> M Lexer B)
    (R : B -> Progress Lexer -> Prop) :
  (forall v, Stops md (k v) R) -> Stops md (bind (gets f) k) R.
Proof. intros Hk p y p' H E. exact (Hk _ _ _ _ H E). Qed.

(** A halted parser is at the error token. *)
Lemma Stops_bind_tt {B : Type} (lx : Lexer) d e (k : TokenType -> M Lexer B)
    (R : B -> Progress Lexer -> Prop) :
  Stops (Halted lx d e) (k ErrorToken) R ->
  Stops (Halted lx d e) (bind (gets tt) k) R.
Proof.
  intros Hk p y p' H E. unfold bind, gets in E.
  destruct H as (Hl & Hd & He & Ht). rewrite Ht in E.
  apply (Hk _ _ _ (conj Hl (conj Hd (conj He Ht))) E).
Qed.

Lemma Stops_bind_noTerminator {B : Type} (lx : Lexer) d e (k : bool -> M Lexer B)
    (R : B -> Progress Lexer -> Prop) :
  Stops (Halted lx d e) (k false) R ->
  Stops (Halted lx d e) (bind (gets noTerminator) k) R.
Proof.
  intros Hk p y p' H E. unfold bind, gets in E.
  destruct H as (Hl & Hd & He & Ht).
  assert (Hn : noTerminator p = false).
  { unfold noTerminator. rewrite Ht. cbn [tt_eqb TokenCode.code Nat.eqb negb].
    apply andb_false_r. }
  rewrite Hn in E.
  apply (Hk _ _ _ (conj Hl (conj Hd (conj He Ht))) E).
Qed.

Lemma Stops_bind_ret {A B : Type} md (v : A) (k : A -> M Lexer B)
    (R : B -> Progress Lexer -> Prop) :
  Stops md (k v) R -> Stops md (bind (ret v) k) R.
Proof. intros Hk p y p' H E. exact (Hk _ _ _ H E). Qed.

Lemma Stops_bind_panic {A B : Type} md msg (k : A -> M Lexer B)
    (R : B -> Progress Lexer -> Prop) :
  Stops md (bind (panic msg) k) R.
Proof. intros p y p' H E. discriminate. Qed.

Lemma Stops_assoc {A B C : Type} md (m : M Lexer A) (k1 : A -> M Lexer B)
    (k2 : B -> M Lexer C) (R : C -> Progress Lexer -> Prop) :
  Stops md (bind m (fun x => bind (k1 x) k2)) R ->
  Stops md (bind (bind m k1) k2) R.
Proof.
  intros Hb p y p' H E. apply (Hb _ _ _ H).
  unfold bind in *. destruct (m p) as [x p1| |]; exact E.
Qed.

Lemma Stops_gets {A : Type} md (f : Parser Lexer -> A) :
  Stops md (gets f) (fun _ md' => md' = md).
Proof. intros p y p' H E. inversion E; subst. exists md. auto. Qed.

(** An assignment to a field other than the lexer, the token, its data and
    the error. *)
Ltac stop_assign :=
  intros p u p' H E; inversion E; subst;
  eexists; split; [ | reflexivity ];
  lazymatch goal with |- at_ ?md _ => destruct md; exact H end.

Lemma Stops_setPrevLT md b :
  Stops md (setPrevLT b : M Lexer unit) (fun _ md' => md' = md).
Proof. stop_assign. Qed.
Lemma Stops_setInFor md b :
  Stops md (setInFor b : M Lexer unit) (fun _ md' => md' = md).
Proof. stop_assign. Qed.
Lemma Stops_setFlags md a g :
  Stops md (setFlags a g : M Lexer unit) (fun _ md' => md' = md).
Proof. stop_assign. Qed.
Lemma Stops_setAssumeArrowFunc md b :
  Stops md (setAssumeArrowFunc b : M Lexer unit) (fun _ md' => md' = md).
Proof. stop_assign. Qed.
Lemma Stops_setAst md a :
  Stops md (setAst a : M Lexer unit) (fun _ md' => md' = md).
Proof. stop_assign. Qed.
Lemma Stops_setScope md s :
  Stops md (setScope s : M Lexer unit) (fun _ md' => md' = md).
Proof. stop_assign. Qed.
Lemma Stops_skip md : Stops md (@skip Lexer) (fun _ md' => md' = md).
Proof. apply Stops_ret. reflexivity. Qed.

(** While no error is recorded, reading a token records none. *)
Lemma Stops_setToken t d l' :
  Stops Going (setToken t d l' : M Lexer unit) (fun _ md' => md' = Going).
Proof.
  intros p u p' H E. inversion E; subst. exists Going. split; [exact H | reflexivity].
Qed.

(** [p.fail] and [p.failMessage] halt a parser that is going and leave a
    halted one as it is. *)
Lemma Stops_fail_Going in_ expected :
  Stops Going (fail in_ expected : M Lexer unit) (fun _ md' => halted md').
Proof.
  intros p u p' H E. simpl in H. unfold fail, bind, gets in E. rewrite H in E.
  inversion E; subst.
  exists (Halted (l p) (data p) (Errorf (failMsg in_ expected p) [])).
  split; [simpl; auto | exact I].
Qed.

Lemma Stops_fail_Halted (lx : Lexer) d e in_ expected :
  Stops (Halted lx d e) (fail in_ expected : M Lexer unit)
        (fun _ md' => md' = Halted lx d e).
Proof.
  intros p u p' H E. unfold fail, bind, gets in E.
  destruct H as (Hl & Hd & He & Ht). rewrite He in E. inversion E; subst.
  exists (Halted (l p') (data p') e). split; [simpl; auto | reflexivity].
Qed.

Lemma Stops_failMessage_Going msg args :
  Stops Going (failMessage msg args : M Lexer unit) (fun _ md' => halted md').
Proof.
  intros p u p' H E. simpl in H. unfold failMessage, bind, gets in E. rewrite H in E.
  inversion E; subst.
  exists (Halted (l p) (data p) (Errorf msg args)).
  split; [simpl; auto | exact I].
Qed.

Lemma Stops_failMessage_Halted (lx : Lexer) d e msg args :
  Stops (Halted lx d e) (failMessage msg args : M Lexer unit)
        (fun _ md' => md' = Halted lx d e).
Proof.
  intros p u p' H E. unfold failMessage, bind, gets in E.
  destruct H as (Hl & Hd & He & Ht). rewrite He in E. inversion E; subst.
  exists (Halted (l p') (data p') e). split; [simpl; auto | reflexivity].
Qed.

Create HintDb stop discriminated.

#[local] Hint Resolve Stops_gets Stops_setPrevLT Stops_setInFor Stops_setFlags
  Stops_setAssumeArrowFunc Stops_setAst Stops_setScope Stops_skip Stops_setToken
  Stops_fail_Going Stops_fail_Halted Stops_failMessage_Going
  Stops_failMessage_Halted : stop.
#[local] Hint Extern 1 (_ <> _) => discriminate : stop.

Ltac stop_post H :=
  cbv beta in H; cbn [outcome] in H;
  lazymatch type of H with
  | onward (Halted _ _ _) _ => apply onward_Halted in H; subst
  | onward Going ?md =>
      destruct H as [H|[_ H]]; [ subst | destruct md; [contradiction | clear H] ]
  | answered _ (Halted _ _ _) _ =>
      apply answered_Halted in H; destruct H; subst
  | answered _ Going ?md =>
      destruct H as [(? & ? & _)|(? & H & _)];
      [ subst | subst; destruct md; [contradiction | clear H] ]
  | halted ?md => destruct md; [contradiction | clear H]
  | unlessNone ?x _ => destruct x; cbn [unlessNone] in H; stop_post H
  | _ = _ => subst
  | False => contradiction
  end.

Ltac stop_side :=
  cbv beta delta [onward answered halted outcome unlessNone] iota;
  solve [ reflexivity | left; reflexivity
        | right; split; [reflexivity | exact I]
        | simpl; intuition congruence ].

Ltac stop_atom :=
  lazymatch goal with
  | Hr : StopsRec ?r |- Stops Going (call ?r ?c) _ => apply (proj1 Hr _ c)
  | Hr : StopsRec ?r |- Stops (Halted ?lx ?d ?e) (call ?r ?c) _ =>
      apply (proj2 Hr lx d e _ c); reflexivity
  | |- _ => solve [ eauto with stop ]
  end.

(** What is known of the current token in a halted parser decides the
    tests on it. *)
Ltac stop_norm :=
  lazymatch goal with
  | |- Stops (Halted _ _ _) _ _ =>
      progress (cbv beta iota; rewrite ?Hid, ?Hname, ?Hnum;
                cbn [tt_eqb TokenCode.code Nat.eqb negb andb orb fst snd];
                rewrite ?andb_false_r, ?orb_false_r, ?orb_true_r, ?andb_true_r;
                cbn [negb andb orb])
  | |- _ =>
      first [ progress cbv beta iota | progress cbn [negb andb orb fst snd] ]
  end.

Ltac stop_step :=
  lazymatch goal with
  | |- Stops (Halted _ _ _) (bind (gets tt) _) _ => apply Stops_bind_tt; cbv beta
  | |- Stops (Halted _ _ _) (bind (gets noTerminator) _) _ =>
      apply Stops_bind_noTerminator; cbv beta
  | |- Stops _ (bind (gets _) _) _ => apply Stops_bind_gets; intro; cbv beta
  | |- Stops _ (bind (ret _) _) _ => apply Stops_bind_ret; cbv beta
  | |- Stops _ (bind (panic _) _) _ => apply Stops_bind_panic
  | |- Stops _ (bind (isIdentifierReference _) _) _ =>
      unfold isIdentifierReference at 1
  | |- Stops _ (bind (stmtSwitchCases _ _ ErrorToken) _) _ =>
      unfold stmtSwitchCases at 1
  | |- Stops _ (bind (exprSwitchCases _ _ ErrorToken) _) _ =>
      unfold exprSwitchCases at 1
  | |- Stops _ (bind (suffixSwitchCases _ ErrorToken _ _ _) _) _ =>
      unfold suffixSwitchCases at 1
  | |- Stops _ (bind (bind (gets _) _) _) _ => apply Stops_assoc
  | |- Stops Going (bind (bind ?m ?k1) ?k2) _ =>
      first [ eapply (@Stops_bind _ _ _ _ _ _ Going (bind m k1) k2 (fun _ => onward Going));
              [ solve [ repeat stop_step ]
              | let H := fresh "HQ" in intros ? ? H; stop_post H; cbv beta ]
            | apply Stops_assoc ]
  | |- Stops _ (bind (bind _ _) _) _ => apply Stops_assoc
  | |- Stops Going (bind (match ?x with _ => _ end) ?k) _ =>
      first [ stop_norm
            | eapply (@Stops_bind _ _ _ _ _ _ Going _ k (fun _ => onward Going));
              [ solve [ repeat stop_step ]
              | let H := fresh "HQ" in intros ? ? H; stop_post H; cbv beta ]
            | destruct x ]
  | |- Stops _ (bind (match ?x with _ => _ end) _) _ =>
      first [ stop_norm | destruct x ]
  | |- Stops _ (bind _ _) _ =>
      eapply Stops_bind;
      [ stop_atom | let H := fresh "HQ" in intros ? ? H; stop_post H; cbv beta ]
  | |- Stops _ (ret _) _ => apply Stops_ret; stop_side
  | |- Stops _ (panic _) _ => apply Stops_panic
  | |- Stops _ (match ?x with _ => _ end) _ => first [ stop_norm | destruct x ]
  | |- Stops _ _ _ =>
      eapply Stops_weaken;
      [ stop_atom | let H := fresh "HQ" in intros ? ? H; stop_post H; stop_side ]
  end.

Ltac stop := repeat stop_step.
Lemma Going_lexNext : Stops Going (lexNext : M Lexer _) (fun _ md' => md' = Going).
Proof. unfold lexNext. stop. Qed.
#[local] Hint Resolve Going_lexNext : stop.

Lemma Going_lexRegExp : Stops Going (lexRegExp : M Lexer _) (fun _ md' => md' = Going).
Proof. unfold lexRegExp. stop. Qed.
#[local] Hint Resolve Going_lexRegExp : stop.

Lemma Going_nextLoop (r : Rec Lexer) : StopsRec r -> Stops Going (nextLoop r : M Lexer _) (fun _ md' => md' = Going).
Proof. intros Hr. unfold nextLoop. stop. Qed.
#[local] Hint Resolve Going_nextLoop : stop.
Lemma Halted_nextLoop (r : Rec Lexer) (lx : Lexer) d e : StopsRec r -> Stops (Halted lx d e) (nextLoop r : M Lexer _) (fun _ md' => md' = Halted lx d e).
Proof. intros Hr. unfold nextLoop. stop. Qed.
#[local] Hint Resolve Halted_nextLoop : stop.

Lemma Going_next (r : Rec Lexer) : StopsRec r -> Stops Going (next r : M Lexer _) (fun _ md' => md' = Going).
Proof. intros Hr. unfold next. stop. Qed.
#[local] Hint Resolve Going_next : stop.

Lemma Going_consume (r : Rec Lexer) in_ t : StopsRec r -> Stops Going (consume r in_ t : M Lexer _) (fun ok => answered ok Going).
Proof. intros Hr. unfold consume. stop. Qed.
Lemma Halted_consume (r : Rec Lexer) in_ t (lx : Lexer) d e : StopsRec r -> t <> ErrorToken -> Stops (Halted lx d e) (consume r in_ t : M Lexer _) (fun ok => answered ok (Halted lx d e)).
Proof. intros Hr. intros Ht. unfold consume. apply Stops_bind_tt. rewrite (proj2 (tt_eqb_neq ErrorToken t)) by congruence. stop. Qed.
#[local] Hint Resolve Going_consume Halted_consume : stop.

Lemma Exact_curScope (md : Progress Lexer) : Stops md (curScope : M Lexer _) (fun _ md' => md' = md).
Proof. unfold curScope. stop. Qed.
#[local] Hint Resolve Exact_curScope : stop.

Lemma Exact_getScope i (md : Progress Lexer) : Stops md (getScope i : M Lexer _) (fun _ md' => md' = md).
Proof. unfold getScope. stop. Qed.
#[local] Hint Resolve Exact_getScope : stop.

Lemma Exact_enterScope isFunc (md : Progress Lexer) : Stops md (enterScope isFunc : M Lexer _) (fun _ md' => md' = md).
Proof. unfold enterScope. stop. Qed.
#[local] Hint Resolve Exact_enterScope : stop.

Lemma Exact_exitScope parent (md : Progress Lexer) : Stops md (exitScope parent : M Lexer _) (fun _ md' => md' = md).
Proof. unfold exitScope. stop. Qed.
#[local] Hint Resolve Exact_exitScope : stop.

Lemma Exact_scopeDeclare decl name (md : Progress Lexer) : Stops md (scopeDeclare decl name : M Lexer _) (fun _ md' => md' = md).
Proof. unfold scopeDeclare. stop. Qed.
#[local] Hint Resolve Exact_scopeDeclare : stop.

Lemma Exact_scopeUse name (md : Progress Lexer) : Stops md (scopeUse name : M Lexer _) (fun _ md' => md' = md).
Proof. unfold scopeUse. stop. Qed.
#[local] Hint Resolve Exact_scopeUse : stop.

Lemma Exact_scopeMarkArguments (md : Progress Lexer) : Stops md (scopeMarkArguments : M Lexer _) (fun _ md' => md' = md).
Proof. unfold scopeMarkArguments. stop. Qed.
#[local] Hint Resolve Exact_scopeMarkArguments : stop.

Lemma Exact_astAddVar decl name (md : Progress Lexer) : Stops md (astAddVar decl name : M Lexer _) (fun _ md' => md' = md).
Proof. unfold astAddVar. stop. Qed.
#[local] Hint Resolve Exact_astAddVar : stop.

Lemma Going_parseModuleLoop (r : Rec Lexer) list_ : StopsRec r -> Stops Going (parseModuleLoop r list_ : M Lexer _) (fun _ => onward Going).
Proof. intros Hr. unfold parseModuleLoop. stop. Qed.
#[local] Hint Resolve Going_parseModuleLoop : stop.
Lemma Halted_parseModuleLoop (r : Rec Lexer) list_ (lx : Lexer) d e : StopsRec r -> Stops (Halted lx d e) (parseModuleLoop r list_ : M Lexer _) (fun _ md' => md' = Halted lx d e).
Proof. intros Hr. unfold parseModuleLoop. stop. Qed.
#[local] Hint Resolve Halted_parseModuleLoop : stop.

Lemma Exact_returned stmt (md : Progress Lexer) : Stops md (returned stmt : M Lexer _) (fun _ md' => md' = md).
Proof. unfold returned. stop. Qed.
#[local] Hint Resolve Exact_returned : stop.

Lemma Exact_falls stmt (md : Progress Lexer) : Stops md (falls stmt : M Lexer _) (fun _ md' => md' = md).
Proof. unfold falls. stop. Qed.
#[local] Hint Resolve Exact_falls : stop.

Lemma Going_terminated in_ stmt : Stops Going (terminated in_ stmt : M Lexer _) (fun _ => onward Going).
Proof. unfold terminated. stop. Qed.
#[local] Hint Resolve Going_terminated : stop.
Lemma Halted_terminated in_ stmt (lx : Lexer) d e : Stops (Halted lx d e) (terminated in_ stmt : M Lexer _) (fun _ md' => md' = Halted lx d e).
Proof. unfold terminated. stop. Qed.
#[local] Hint Resolve Halted_terminated : stop.

Lemma Going_stmtBlock (r : Rec Lexer) : StopsRec r -> Stops Going (stmtBlock r : M Lexer _) (fun _ => onward Going).
Proof. intros Hr. unfold stmtBlock. stop. Qed.
#[local] Hint Resolve Going_stmtBlock : stop.
Lemma Halted_stmtBlock (r : Rec Lexer) (lx : Lexer) d e : StopsRec r -> Stops (Halted lx d e) (stmtBlock r : M Lexer _) (fun _ md' => md' = Halted lx d e).
Proof. intros Hr. unfold stmtBlock. stop. Qed.
#[local] Hint Resolve Halted_stmtBlock : stop.

Lemma Going_stmtVar (r : Rec Lexer) allowDeclaration t : StopsRec r -> Stops Going (stmtVar r allowDeclaration t : M Lexer _) (fun _ => onward Going).
Proof. intros Hr. unfold stmtVar. stop. Qed.
#[local] Hint Resolve Going_stmtVar : stop.

Lemma Going_stmtLet (r : Rec Lexer) allowDeclaration t : StopsRec r -> Stops Going (stmtLet r allowDeclaration t : M Lexer _) (fun _ => onward Going).
Proof. intros Hr. unfold stmtLet. stop. Qed.
#[local] Hint Resolve Going_stmtLet : stop.

Lemma Going_stmtIf (r : Rec Lexer) : StopsRec r -> Stops Going (stmtIf r : M Lexer _) (fun _ => onward Going).
Proof. intros Hr. unfold stmtIf. stop. Qed.
#[local] Hint Resolve Going_stmtIf : stop.

Lemma Going_stmtBranch (r : Rec Lexer) : StopsRec r -> Stops Going (stmtBranch r : M Lexer _) (fun _ => onward Going).
Proof. intros Hr. unfold stmtBranch. stop. Qed.
#[local] Hint Resolve Going_stmtBranch : stop.

Lemma Going_stmtReturn (r : Rec Lexer) : StopsRec r -> Stops Going (stmtReturn r : M Lexer _) (fun _ => onward Going).
Proof. intros Hr. unfold stmtReturn. stop. Qed.
#[local] Hint Resolve Going_stmtReturn : stop.

Lemma Going_stmtWith (r : Rec Lexer) : StopsRec r -> Stops Going (stmtWith r : M Lexer _) (fun _ => onward Going).
Proof. intros Hr. unfold stmtWith. stop. Qed.
#[local] Hint Resolve Going_stmtWith : stop.

Lemma Going_stmtDo (r : Rec Lexer) : StopsRec r -> Stops Going (stmtDo r : M Lexer _) (fun _ => onward Going).
Proof. intros Hr. unfold stmtDo. stop. Qed.
#[local] Hint Resolve Going_stmtDo : stop.

Lemma Going_stmtWhile (r : Rec Lexer) : StopsRec r -> Stops Going (stmtWhile r : M Lexer _) (fun _ => onward Going).
Proof. intros Hr. unfold stmtWhile. stop. Qed.
#[local] Hint Resolve Going_stmtWhile : stop.

Lemma Going_forInitExpr (r : Rec Lexer) : StopsRec r -> Stops Going (forInitExpr r : M Lexer _) (fun _ => onward Going).
Proof. intros Hr. unfold forInitExpr. stop. Qed.
#[local] Hint Resolve Going_forInitExpr : stop.
Lemma Halted_forInitExpr (r : Rec Lexer) (lx : Lexer) d e : StopsRec r -> Stops (Halted lx d e) (forInitExpr r : M Lexer _) (fun _ md' => md' = Halted lx d e).
Proof. intros Hr. unfold forInitExpr. stop. Qed.
#[local] Hint Resolve Halted_forInitExpr : stop.

Lemma Going_forInit (r : Rec Lexer) : StopsRec r -> Stops Going (forInit r : M Lexer _) (fun _ => onward Going).
Proof. intros Hr. unfold forInit. stop. Qed.
#[local] Hint Resolve Going_forInit : stop.
Lemma Halted_forInit (r : Rec Lexer) (lx : Lexer) d e : StopsRec r -> Stops (Halted lx d e) (forInit r : M Lexer _) (fun _ md' => md' = Halted lx d e).
Proof. intros Hr. unfold forInit. stop. Qed.
#[local] Hint Resolve Halted_forInit : stop.

Lemma Going_forRest (r : Rec Lexer) await init : StopsRec r -> Stops Going (forRest r await init : M Lexer _) (fun _ => onward Going).
Proof. intros Hr. unfold forRest. stop. Qed.
#[local] Hint Resolve Going_forRest : stop.
Lemma Halted_forRest (r : Rec Lexer) await init (lx : Lexer) d e : StopsRec r -> Stops (Halted lx d e) (forRest r await init : M Lexer _) (fun _ md' => md' = Halted lx d e).
Proof. intros Hr. unfold forRest. stop. Qed.
#[local] Hint Resolve Halted_forRest : stop.

Lemma Going_stmtFor (r : Rec Lexer) : StopsRec r -> Stops Going (stmtFor r : M Lexer _) (fun _ => onward Going).
Proof. intros Hr. unfold stmtFor. stop. Qed.
#[local] Hint Resolve Going_stmtFor : stop.

Lemma Going_switchStmtsLoop (r : Rec Lexer) stmts : StopsRec r -> Stops Going (switchStmtsLoop r stmts : M Lexer _) (fun _ => onward Going).
Proof. intros Hr. unfold switchStmtsLoop. stop. Qed.
#[local] Hint Resolve Going_switchStmtsLoop : stop.
Lemma Halted_switchStmtsLoop (r : Rec Lexer) stmts (lx : Lexer) d e : StopsRec r -> Stops (Halted lx d e) (switchStmtsLoop r stmts : M Lexer _) (fun _ md' => md' = Halted lx d e).
Proof. intros Hr. unfold switchStmtsLoop. stop. Qed.
#[local] Hint Resolve Halted_switchStmtsLoop : stop.

Lemma Going_switchClausesLoop (r : Rec Lexer) clauses : StopsRec r -> Stops Going (switchClausesLoop r clauses : M Lexer _) (fun _ => onward Going).
Proof. intros Hr. unfold switchClausesLoop. stop. Qed.
#[local] Hint Resolve Going_switchClausesLoop : stop.
Lemma Halted_switchClausesLoop (r : Rec Lexer) clauses (lx : Lexer) d e : StopsRec r -> Stops (Halted lx d e) (switchClausesLoop r clauses : M Lexer _) (fun _ md' => md' = Halted lx d e).
Proof. intros Hr. unfold switchClausesLoop. stop. Qed.
#[local] Hint Resolve Halted_switchClausesLoop : stop.

Lemma Going_stmtSwitch (r : Rec Lexer) : StopsRec r -> Stops Going (stmtSwitch r : M Lexer _) (fun _ => onward Going).
Proof. intros Hr. unfold stmtSwitch. stop. Qed.
#[local] Hint Resolve Going_stmtSwitch : stop.

Lemma Going_stmtFunction (r : Rec Lexer) allowDeclaration : StopsRec r -> Stops Going (stmtFunction r allowDeclaration : M Lexer _) (fun _ => onward Going).
Proof. intros Hr. unfold stmtFunction. stop. Qed.
#[local] Hint Resolve Going_stmtFunction : stop.

Lemma Going_stmtAsync (r : Rec Lexer) allowDeclaration : StopsRec r -> Stops Going (stmtAsync r allowDeclaration : M Lexer _) (fun _ => onward Going).
Proof. intros Hr. unfold stmtAsync. stop. Qed.
#[local] Hint Resolve Going_stmtAsync : stop.

Lemma Going_stmtClass (r : Rec Lexer) allowDeclaration : StopsRec r -> Stops Going (stmtClass r allowDeclaration : M Lexer _) (fun _ => onward Going).
Proof. intros Hr. unfold stmtClass. stop. Qed.
#[local] Hint Resolve Going_stmtClass : stop.

Lemma Going_stmtThrow (r : Rec Lexer) : StopsRec r -> Stops Going (stmtThrow r : M Lexer _) (fun _ => onward Going).
Proof. intros Hr. unfold stmtThrow. stop. Qed.
#[local] Hint Resolve Going_stmtThrow : stop.

Lemma Going_stmtTry (r : Rec Lexer) : StopsRec r -> Stops Going (stmtTry r : M Lexer _) (fun _ => onward Going).
Proof. intros Hr. unfold stmtTry. stop. Qed.
#[local] Hint Resolve Going_stmtTry : stop.

Lemma Going_stmtDefault (r : Rec Lexer) : StopsRec r -> Stops Going (stmtDefault r : M Lexer _) (fun _ => onward Going).
Proof. intros Hr. unfold stmtDefault. stop. Qed.
#[local] Hint Resolve Going_stmtDefault : stop.
Lemma Halted_stmtDefault (r : Rec Lexer) (lx : Lexer) d e : StopsRec r -> Stops (Halted lx d e) (stmtDefault r : M Lexer _) (fun _ md' => md' = Halted lx d e).
Proof. intros Hr. unfold stmtDefault. stop. Qed.
#[local] Hint Resolve Halted_stmtDefault : stop.

Lemma Going_stmtSwitchCases (r : Rec Lexer) allowDeclaration t : StopsRec r -> Stops Going (stmtSwitchCases r allowDeclaration t : M Lexer _) (fun _ => onward Going).
Proof. intros Hr. unfold stmtSwitchCases. stop. Qed.
#[local] Hint Resolve Going_stmtSwitchCases : stop.

Lemma Going_parseStmt (r : Rec Lexer) allowDeclaration : StopsRec r -> Stops Going (parseStmt r allowDeclaration : M Lexer _) (fun _ => onward Going).
Proof. intros Hr. unfold parseStmt. stop. Qed.
#[local] Hint Resolve Going_parseStmt : stop.
Lemma Halted_parseStmt (r : Rec Lexer) allowDeclaration (lx : Lexer) d e : StopsRec r -> Stops (Halted lx d e) (parseStmt r allowDeclaration : M Lexer _) (fun _ md' => md' = Halted lx d e).
Proof. intros Hr. unfold parseStmt. stop. Qed.
#[local] Hint Resolve Halted_parseStmt : stop.

Lemma Going_blockStmtLoop (r : Rec Lexer) list_ : StopsRec r -> Stops Going (blockStmtLoop r list_ : M Lexer _) (fun _ => onward Going).
Proof. intros Hr. unfold blockStmtLoop. stop. Qed.
#[local] Hint Resolve Going_blockStmtLoop : stop.
Lemma Halted_blockStmtLoop (r : Rec Lexer) list_ (lx : Lexer) d e : StopsRec r -> Stops (Halted lx d e) (blockStmtLoop r list_ : M Lexer _) (fun _ md' => md' = Halted lx d e).
Proof. intros Hr. unfold blockStmtLoop. stop. Qed.
#[local] Hint Resolve Halted_blockStmtLoop : stop.

Lemma Going_parseBlockStmt (r : Rec Lexer) in_ enterContext : StopsRec r -> Stops Going (parseBlockStmt r in_ enterContext : M Lexer _) (fun _ => onward Going).
Proof. intros Hr. unfold parseBlockStmt. stop. Qed.
#[local] Hint Resolve Going_parseBlockStmt : stop.
Lemma Halted_parseBlockStmt (r : Rec Lexer) in_ enterContext (lx : Lexer) d e : StopsRec r -> Stops (Halted lx d e) (parseBlockStmt r in_ enterContext : M Lexer _) (fun _ md' => md' = Halted lx d e).
Proof. intros Hr. unfold parseBlockStmt. stop. Qed.
#[local] Hint Resolve Halted_parseBlockStmt : stop.

Lemma Going_importListLoop (r : Rec Lexer) list_ : StopsRec r -> Stops Going (importListLoop r list_ : M Lexer _) (fun _ => onward Going).
Proof. intros Hr. unfold importListLoop. stop. Qed.
#[local] Hint Resolve Going_importListLoop : stop.
Lemma Halted_importListLoop (r : Rec Lexer) list_ (lx : Lexer) d e : StopsRec r -> Stops (Halted lx d e) (importListLoop r list_ : M Lexer _) (fun _ md' => md' = Halted lx d e).
Proof. intros Hr. unfold importListLoop. stop. Qed.
#[local] Hint Resolve Halted_importListLoop : stop.

Lemma Going_importClause (r : Rec Lexer) : StopsRec r -> Stops Going (importClause r : M Lexer _) (fun _ => onward Going).
Proof. intros Hr. unfold importClause. stop. Qed.
#[local] Hint Resolve Going_importClause : stop.

Lemma Going_parseImportStmt (r : Rec Lexer) : StopsRec r -> Stops Going (parseImportStmt r : M Lexer _) (fun _ => onward Going).
Proof. intros Hr. unfold parseImportStmt. stop. Qed.
#[local] Hint Resolve Going_parseImportStmt : stop.

Lemma Going_exportListLoop (r : Rec Lexer) list_ : StopsRec r -> Stops Going (exportListLoop r list_ : M Lexer _) (fun _ => onward Going).
Proof. intros Hr. unfold exportListLoop. stop. Qed.
#[local] Hint Resolve Going_exportListLoop : stop.
Lemma Halted_exportListLoop (r : Rec Lexer) list_ (lx : Lexer) d e : StopsRec r -> Stops (Halted lx d e) (exportListLoop r list_ : M Lexer _) (fun _ md' => md' = Halted lx d e).
Proof. intros Hr. unfold exportListLoop. stop. Qed.
#[local] Hint Resolve Halted_exportListLoop : stop.

Lemma Going_exportList (r : Rec Lexer) : StopsRec r -> Stops Going (exportList r : M Lexer _) (fun _ => onward Going).
Proof. intros Hr. unfold exportList. stop. Qed.
#[local] Hint Resolve Going_exportList : stop.

Lemma Going_exportDefault (r : Rec Lexer) : StopsRec r -> Stops Going (exportDefault r : M Lexer _) (fun _ => onward Going).
Proof. intros Hr. unfold exportDefault. stop. Qed.
#[local] Hint Resolve Going_exportDefault : stop.

Lemma Going_parseExportStmt (r : Rec Lexer) : StopsRec r -> Stops Going (parseExportStmt r : M Lexer _) (fun _ => onward Going).
Proof. intros Hr. unfold parseExportStmt. stop. Qed.
#[local] Hint Resolve Going_parseExportStmt : stop.

Lemma Going_varDeclLoop (r : Rec Lexer) declType list_ : StopsRec r -> Stops Going (varDeclLoop r declType list_ : M Lexer _) (fun _ => onward Going).
Proof. intros Hr. unfold varDeclLoop. stop. Qed.
#[local] Hint Resolve Going_varDeclLoop : stop.
Lemma Halted_varDeclLoop (r : Rec Lexer) declType list_ (lx : Lexer) d e : StopsRec r -> Stops (Halted lx d e) (varDeclLoop r declType list_ : M Lexer _) (fun _ md' => md' = Halted lx d e).
Proof. intros Hr. unfold varDeclLoop. stop. Qed.
#[local] Hint Resolve Halted_varDeclLoop : stop.

Lemma Going_parseVarDecl (r : Rec Lexer) t : StopsRec r -> Stops Going (parseVarDecl r t : M Lexer _) (fun _ => onward Going).
Proof. intros Hr. unfold parseVarDecl. stop. Qed.
#[local] Hint Resolve Going_parseVarDecl : stop.
Lemma Halted_parseVarDecl (r : Rec Lexer) t (lx : Lexer) d e : StopsRec r -> Stops (Halted lx d e) (parseVarDecl r t : M Lexer _) (fun _ md' => md' = Halted lx d e).
Proof. intros Hr. unfold parseVarDecl. stop. Qed.
#[local] Hint Resolve Halted_parseVarDecl : stop.

Lemma Going_funcParamsLoop (r : Rec Lexer) in_ list_ : StopsRec r -> Stops Going (funcParamsLoop r in_ list_ : M Lexer _) (fun _ => onward Going).
Proof. intros Hr. unfold funcParamsLoop. stop. Qed.
#[local] Hint Resolve Going_funcParamsLoop : stop.
Lemma Halted_funcParamsLoop (r : Rec Lexer) in_ list_ (lx : Lexer) d e : StopsRec r -> Stops (Halted lx d e) (funcParamsLoop r in_ list_ : M Lexer _) (fun _ md' => md' = Halted lx d e).
Proof. intros Hr. unfold funcParamsLoop. stop. Qed.
#[local] Hint Resolve Halted_funcParamsLoop : stop.

Lemma Going_parseFuncParams (r : Rec Lexer) in_ : StopsRec r -> Stops Going (parseFuncParams r in_ : M Lexer _) (fun _ => onward Going).
Proof. intros Hr. unfold parseFuncParams. stop. Qed.
#[local] Hint Resolve Going_parseFuncParams : stop.
Lemma Halted_parseFuncParams (r : Rec Lexer) in_ (lx : Lexer) d e : StopsRec r -> Stops (Halted lx d e) (parseFuncParams r in_ : M Lexer _) (fun _ md' => md' = Halted lx d e).
Proof. intros Hr. unfold parseFuncParams. stop. Qed.
#[local] Hint Resolve Halted_parseFuncParams : stop.

Lemma Going_parseAnyFunc (r : Rec Lexer) async_ inExpr : StopsRec r -> Stops Going (parseAnyFunc r async_ inExpr : M Lexer _) (fun _ => onward Going).
Proof. intros Hr. unfold parseAnyFunc. stop. Qed.
#[local] Hint Resolve Going_parseAnyFunc : stop.

Lemma Going_classMethodsLoop (r : Rec Lexer) methods : StopsRec r -> Stops Going (classMethodsLoop r methods : M Lexer _) (fun _ => onward Going).
Proof. intros Hr. unfold classMethodsLoop. stop. Qed.
#[local] Hint Resolve Going_classMethodsLoop : stop.
Lemma Halted_classMethodsLoop (r : Rec Lexer) methods (lx : Lexer) d e : StopsRec r -> Stops (Halted lx d e) (classMethodsLoop r methods : M Lexer _) (fun _ md' => md' = Halted lx d e).
Proof. intros Hr. unfold classMethodsLoop. stop. Qed.
#[local] Hint Resolve Halted_classMethodsLoop : stop.

Lemma Going_parseAnyClass (r : Rec Lexer) inExpr : StopsRec r -> Stops Going (parseAnyClass r inExpr : M Lexer _) (fun _ => onward Going).
Proof. intros Hr. unfold parseAnyClass. stop. Qed.
#[local] Hint Resolve Going_parseAnyClass : stop.

Lemma Going_methodModifiers (r : Rec Lexer) : StopsRec r -> Stops Going (methodModifiers r : M Lexer _) (fun _ => onward Going).
Proof. intros Hr. unfold methodModifiers. stop. Qed.
#[local] Hint Resolve Going_methodModifiers : stop.
Lemma Halted_methodModifiers (r : Rec Lexer) (lx : Lexer) d e : StopsRec r -> Stops (Halted lx d e) (methodModifiers r : M Lexer _) (fun _ md' => md' = Halted lx d e).
Proof. intros Hr. unfold methodModifiers. stop. Qed.
#[local] Hint Resolve Halted_methodModifiers : stop.

Lemma Going_parseMethod (r : Rec Lexer) : StopsRec r -> Stops Going (parseMethod r : M Lexer _) (fun _ => onward Going).
Proof. intros Hr. unfold parseMethod. stop. Qed.
#[local] Hint Resolve Going_parseMethod : stop.
Lemma Halted_parseMethod (r : Rec Lexer) (lx : Lexer) d e : StopsRec r -> Stops (Halted lx d e) (parseMethod r : M Lexer _) (fun _ md' => md' = Halted lx d e).
Proof. intros Hr. unfold parseMethod. stop. Qed.
#[local] Hint Resolve Halted_parseMethod : stop.

Lemma Going_parsePropertyName (r : Rec Lexer) in_ : StopsRec r -> Stops Going (parsePropertyName r in_ : M Lexer _) (fun _ => onward Going).
Proof. intros Hr. unfold parsePropertyName. stop. Qed.
#[local] Hint Resolve Going_parsePropertyName : stop.
Lemma Halted_parsePropertyName (r : Rec Lexer) in_ (lx : Lexer) d e : StopsRec r -> Stops (Halted lx d e) (parsePropertyName r in_ : M Lexer _) (fun _ md' => md' = Halted lx d e).
Proof. intros Hr. unfold parsePropertyName. stop. Qed.
#[local] Hint Resolve Halted_parsePropertyName : stop.

Lemma Going_parseBindingElement (r : Rec Lexer) decl : StopsRec r -> Stops Going (parseBindingElement r decl : M Lexer _) (fun _ => onward Going).
Proof. intros Hr. unfold parseBindingElement. stop. Qed.
#[local] Hint Resolve Going_parseBindingElement : stop.
Lemma Halted_parseBindingElement (r : Rec Lexer) decl (lx : Lexer) d e : StopsRec r -> Stops (Halted lx d e) (parseBindingElement r decl : M Lexer _) (fun _ md' => md' = Halted lx d e).
Proof. intros Hr. unfold parseBindingElement. stop. Qed.
#[local] Hint Resolve Halted_parseBindingElement : stop.

Lemma Going_bindingElisionLoop (r : Rec Lexer) list_ : StopsRec r -> Stops Going (bindingElisionLoop r list_ : M Lexer _) (fun _ => onward Going).
Proof. intros Hr. unfold bindingElisionLoop. stop. Qed.
#[local] Hint Resolve Going_bindingElisionLoop : stop.
Lemma Halted_bindingElisionLoop (r : Rec Lexer) list_ (lx : Lexer) d e : StopsRec r -> Stops (Halted lx d e) (bindingElisionLoop r list_ : M Lexer _) (fun _ md' => md' = Halted lx d e).
Proof. intros Hr. unfold bindingElisionLoop. stop. Qed.
#[local] Hint Resolve Halted_bindingElisionLoop : stop.

Lemma Going_bindingArrayLoop (r : Rec Lexer) decl list_ : StopsRec r -> Stops Going (bindingArrayLoop r decl list_ : M Lexer _) (fun x md' => unlessNone x md').
Proof. intros Hr. unfold bindingArrayLoop. stop. Qed.
#[local] Hint Resolve Going_bindingArrayLoop : stop.
Lemma Halted_bindingArrayLoop (r : Rec Lexer) decl list_ (lx : Lexer) d e : StopsRec r -> Stops (Halted lx d e) (bindingArrayLoop r decl list_ : M Lexer _) (fun _ md' => md' = Halted lx d e).
Proof. intros Hr. unfold bindingArrayLoop. stop. Qed.
#[local] Hint Resolve Halted_bindingArrayLoop : stop.

Lemma Going_bindingObjectItem (r : Rec Lexer) decl : StopsRec r -> Stops Going (bindingObjectItem r decl : M Lexer _) (fun _ => onward Going).
Proof. intros Hr. unfold bindingObjectItem. stop. Qed.
#[local] Hint Resolve Going_bindingObjectItem : stop.
Lemma Halted_bindingObjectItem (r : Rec Lexer) decl (lx : Lexer) d e : StopsRec r -> Stops (Halted lx d e) (bindingObjectItem r decl : M Lexer _) (fun _ md' => md' = Halted lx d e).
Proof. intros Hr. unfold bindingObjectItem. stop. Qed.
#[local] Hint Resolve Halted_bindingObjectItem : stop.

Lemma Going_bindingObjectLoop (r : Rec Lexer) decl list_ : StopsRec r -> Stops Going (bindingObjectLoop r decl list_ : M Lexer _) (fun x md' => unlessNone x md').
Proof. intros Hr. unfold bindingObjectLoop. stop. Qed.
#[local] Hint Resolve Going_bindingObjectLoop : stop.
Lemma Halted_bindingObjectLoop (r : Rec Lexer) decl list_ (lx : Lexer) d e : StopsRec r -> Stops (Halted lx d e) (bindingObjectLoop r decl list_ : M Lexer _) (fun _ md' => md' = Halted lx d e).
Proof. intros Hr. unfold bindingObjectLoop. stop. Qed.
#[local] Hint Resolve Halted_bindingObjectLoop : stop.

Lemma Going_parseBinding (r : Rec Lexer) decl : StopsRec r -> Stops Going (parseBinding r decl : M Lexer _) (fun _ => onward Going).
Proof. intros Hr. unfold parseBinding. stop. Qed.
#[local] Hint Resolve Going_parseBinding : stop.
Lemma Halted_parseBinding (r : Rec Lexer) decl (lx : Lexer) d e : StopsRec r -> Stops (Halted lx d e) (parseBinding r decl : M Lexer _) (fun _ md' => md' = Halted lx d e).
Proof. intros Hr. unfold parseBinding. stop. Qed.
#[local] Hint Resolve Halted_parseBinding : stop.

Lemma Going_arrayLiteralLoop (r : Rec Lexer) prevComma list_ : StopsRec r -> Stops Going (arrayLiteralLoop r prevComma list_ : M Lexer _) (fun _ => onward Going).
Proof. intros Hr. unfold arrayLiteralLoop. stop. Qed.
#[local] Hint Resolve Going_arrayLiteralLoop : stop.
Lemma Halted_arrayLiteralLoop (r : Rec Lexer) prevComma list_ (lx : Lexer) d e : StopsRec r -> Stops (Halted lx d e) (arrayLiteralLoop r prevComma list_ : M Lexer _) (fun _ md' => md' = Halted lx d e).
Proof. intros Hr. unfold arrayLiteralLoop. stop. Qed.
#[local] Hint Resolve Halted_arrayLiteralLoop : stop.

Lemma Going_parseArrayLiteral (r : Rec Lexer) : StopsRec r -> Stops Going (parseArrayLiteral r : M Lexer _) (fun _ => onward Going).
Proof. intros Hr. unfold parseArrayLiteral. stop. Qed.
#[local] Hint Resolve Going_parseArrayLiteral : stop.

Lemma Going_objectPropertyName (r : Rec Lexer) : StopsRec r -> Stops Going (objectPropertyName r : M Lexer _) (fun _ => onward Going).
Proof. intros Hr. unfold objectPropertyName. stop. Qed.
#[local] Hint Resolve Going_objectPropertyName : stop.
Lemma Halted_objectPropertyName (r : Rec Lexer) (lx : Lexer) d e : StopsRec r -> Stops (Halted lx d e) (objectPropertyName r : M Lexer _) (fun _ md' => md' = Halted lx d e).
Proof. intros Hr. unfold objectPropertyName. stop. Qed.
#[local] Hint Resolve Halted_objectPropertyName : stop.

Lemma Going_objectProperty (r : Rec Lexer) : StopsRec r -> Stops Going (objectProperty r : M Lexer _) (fun _ => onward Going).
Proof. intros Hr. unfold objectProperty. stop. Qed.
#[local] Hint Resolve Going_objectProperty : stop.
Lemma Halted_objectProperty (r : Rec Lexer) (lx : Lexer) d e : StopsRec r -> Stops (Halted lx d e) (objectProperty r : M Lexer _) (fun _ md' => md' = Halted lx d e).
Proof. intros Hr. unfold objectProperty. stop. Qed.
#[local] Hint Resolve Halted_objectProperty : stop.

Lemma Going_objectLiteralLoop (r : Rec Lexer) list_ : StopsRec r -> Stops Going (objectLiteralLoop r list_ : M Lexer _) (fun _ => onward Going).
Proof. intros Hr. unfold objectLiteralLoop. stop. Qed.
#[local] Hint Resolve Going_objectLiteralLoop : stop.
Lemma Halted_objectLiteralLoop (r : Rec Lexer) list_ (lx : Lexer) d e : StopsRec r -> Stops (Halted lx d e) (objectLiteralLoop r list_ : M Lexer _) (fun _ md' => md' = Halted lx d e).
Proof. intros Hr. unfold objectLiteralLoop. stop. Qed.
#[local] Hint Resolve Halted_objectLiteralLoop : stop.

Lemma Going_parseObjectLiteral (r : Rec Lexer) : StopsRec r -> Stops Going (parseObjectLiteral r : M Lexer _) (fun _ => onward Going).
Proof. intros Hr. unfold parseObjectLiteral. stop. Qed.
#[local] Hint Resolve Going_parseObjectLiteral : stop.

Lemma Going_parseTemplateLiteral (r : Rec Lexer) : StopsRec r -> Stops Going (parseTemplateLiteral r : M Lexer _) (fun _ => onward Going).
Proof. intros Hr. unfold parseTemplateLiteral. stop. Qed.
#[local] Hint Resolve Going_parseTemplateLiteral : stop.

Lemma Going_argsLoop (r : Rec Lexer) list_ : StopsRec r -> Stops Going (argsLoop r list_ : M Lexer _) (fun _ => onward Going).
Proof. intros Hr. unfold argsLoop. stop. Qed.
#[local] Hint Resolve Going_argsLoop : stop.
Lemma Halted_argsLoop (r : Rec Lexer) list_ (lx : Lexer) d e : StopsRec r -> Stops (Halted lx d e) (argsLoop r list_ : M Lexer _) (fun _ md' => md' = Halted lx d e).
Proof. intros Hr. unfold argsLoop. stop. Qed.
#[local] Hint Resolve Halted_argsLoop : stop.

Lemma Going_parseArgs (r : Rec Lexer) : StopsRec r -> Stops Going (parseArgs r : M Lexer _) (fun _ => onward Going).
Proof. intros Hr. unfold parseArgs. stop. Qed.
#[local] Hint Resolve Going_parseArgs : stop.

Lemma Going_parseArrowFuncBody (r : Rec Lexer) : StopsRec r -> Stops Going (parseArrowFuncBody r : M Lexer _) (fun _ => onward Going).
Proof. intros Hr. unfold parseArrowFuncBody. stop. Qed.
#[local] Hint Resolve Going_parseArrowFuncBody : stop.
Lemma Halted_parseArrowFuncBody (r : Rec Lexer) (lx : Lexer) d e : StopsRec r -> Stops (Halted lx d e) (parseArrowFuncBody r : M Lexer _) (fun _ md' => md' = Halted lx d e).
Proof. intros Hr. unfold parseArrowFuncBody. stop. Qed.
#[local] Hint Resolve Halted_parseArrowFuncBody : stop.

Lemma Going_parseAsyncArrowFunc (r : Rec Lexer) : StopsRec r -> Stops Going (parseAsyncArrowFunc r : M Lexer _) (fun _ => onward Going).
Proof. intros Hr. unfold parseAsyncArrowFunc. stop. Qed.
#[local] Hint Resolve Going_parseAsyncArrowFunc : stop.
Lemma Halted_parseAsyncArrowFunc (r : Rec Lexer) (lx : Lexer) d e : StopsRec r -> Stops (Halted lx d e) (parseAsyncArrowFunc r : M Lexer _) (fun _ md' => md' = Halted lx d e).
Proof. intros Hr. unfold parseAsyncArrowFunc. stop. Qed.
#[local] Hint Resolve Halted_parseAsyncArrowFunc : stop.

Lemma Exact_detachIdentifier ref (md : Progress Lexer) : Stops md (detachIdentifier ref : M Lexer _) (fun _ md' => md' = md).
Proof. unfold detachIdentifier. stop. Qed.
#[local] Hint Resolve Exact_detachIdentifier : stop.

Lemma Going_parseIdentifierArrowFunc (r : Rec Lexer) ref : StopsRec r -> Stops Going (parseIdentifierArrowFunc r ref : M Lexer _) (fun _ => onward Going).
Proof. intros Hr. unfold parseIdentifierArrowFunc. stop. Qed.
#[local] Hint Resolve Going_parseIdentifierArrowFunc : stop.
Lemma Halted_parseIdentifierArrowFunc (r : Rec Lexer) ref (lx : Lexer) d e : StopsRec r -> Stops (Halted lx d e) (parseIdentifierArrowFunc r ref : M Lexer _) (fun _ md' => md' = Halted lx d e).
Proof. intros Hr. unfold parseIdentifierArrowFunc. stop. Qed.
#[local] Hint Resolve Halted_parseIdentifierArrowFunc : stop.

Lemma Going_parseIdentifierExpression (r : Rec Lexer) prec ident : StopsRec r -> Stops Going (parseIdentifierExpression r prec ident : M Lexer _) (fun _ => onward Going).
Proof. intros Hr. unfold parseIdentifierExpression. stop. Qed.
#[local] Hint Resolve Going_parseIdentifierExpression : stop.
Lemma Halted_parseIdentifierExpression (r : Rec Lexer) prec ident (lx : Lexer) d e : StopsRec r -> Stops (Halted lx d e) (parseIdentifierExpression r prec ident : M Lexer _) (fun _ md' => md' = Halted lx d e).
Proof. intros Hr. unfold parseIdentifierExpression. stop. Qed.
#[local] Hint Resolve Halted_parseIdentifierExpression : stop.

Lemma Going_parseAsyncExpression (r : Rec Lexer) prec async_ : StopsRec r -> Stops Going (parseAsyncExpression r prec async_ : M Lexer _) (fun _ => onward Going).
Proof. intros Hr. unfold parseAsyncExpression. stop. Qed.
#[local] Hint Resolve Going_parseAsyncExpression : stop.
Lemma Halted_parseAsyncExpression (r : Rec Lexer) prec async_ (lx : Lexer) d e : StopsRec r -> Stops (Halted lx d e) (parseAsyncExpression r prec async_ : M Lexer _) (fun _ md' => md' = Halted lx d e).
Proof. intros Hr. unfold parseAsyncExpression. stop. Qed.
#[local] Hint Resolve Halted_parseAsyncExpression : stop.

Lemma Exact_returnExpr e (md : Progress Lexer) : Stops md (returnExpr e : M Lexer _) (fun _ md' => md' = md).
Proof. unfold returnExpr. stop. Qed.
#[local] Hint Resolve Exact_returnExpr : stop.

Lemma Exact_leftExpr left precLeft (md : Progress Lexer) : Stops md (leftExpr left precLeft : M Lexer _) (fun _ md' => md' = md).
Proof. unfold leftExpr. stop. Qed.
#[local] Hint Resolve Exact_leftExpr : stop.

Lemma Going_exprUnary (r : Rec Lexer) prec limit op : StopsRec r -> Stops Going (exprUnary r prec limit op : M Lexer _) (fun _ => onward Going).
Proof. intros Hr. unfold exprUnary. stop. Qed.
#[local] Hint Resolve Going_exprUnary : stop.

Lemma Going_exprParen (r : Rec Lexer) prec : StopsRec r -> Stops Going (exprParen r prec : M Lexer _) (fun _ => onward Going).
Proof. intros Hr. unfold exprParen. stop. Qed.
#[local] Hint Resolve Going_exprParen : stop.

Lemma Going_exprAwait (r : Rec Lexer) prec t : StopsRec r -> Stops Going (exprAwait r prec t : M Lexer _) (fun _ => onward Going).
Proof. intros Hr. unfold exprAwait. stop. Qed.
#[local] Hint Resolve Going_exprAwait : stop.

Lemma Going_exprNew (r : Rec Lexer) : StopsRec r -> Stops Going (exprNew r : M Lexer _) (fun _ => onward Going).
Proof. intros Hr. unfold exprNew. stop. Qed.
#[local] Hint Resolve Going_exprNew : stop.

Lemma Going_exprImport (r : Rec Lexer) prec : StopsRec r -> Stops Going (exprImport r prec : M Lexer _) (fun _ => onward Going).
Proof. intros Hr. unfold exprImport. stop. Qed.
#[local] Hint Resolve Going_exprImport : stop.

Lemma Going_exprSuper (r : Rec Lexer) prec : StopsRec r -> Stops Going (exprSuper r prec : M Lexer _) (fun _ => onward Going).
Proof. intros Hr. unfold exprSuper. stop. Qed.
#[local] Hint Resolve Going_exprSuper : stop.

Lemma Going_exprYield (r : Rec Lexer) prec : StopsRec r -> Stops Going (exprYield r prec : M Lexer _) (fun _ => onward Going).
Proof. intros Hr. unfold exprYield. stop. Qed.
#[local] Hint Resolve Going_exprYield : stop.

Lemma Going_exprLiteral (r : Rec Lexer) : StopsRec r -> Stops Going (exprLiteral r : M Lexer _) (fun _ => onward Going).
Proof. intros Hr. unfold exprLiteral. stop. Qed.
#[local] Hint Resolve Going_exprLiteral : stop.

Lemma Going_exprAsync (r : Rec Lexer) prec : StopsRec r -> Stops Going (exprAsync r prec : M Lexer _) (fun _ => onward Going).
Proof. intros Hr. unfold exprAsync. stop. Qed.
#[local] Hint Resolve Going_exprAsync : stop.

Lemma Going_exprTemplate (r : Rec Lexer) : StopsRec r -> Stops Going (exprTemplate r : M Lexer _) (fun _ => onward Going).
Proof. intros Hr. unfold exprTemplate. stop. Qed.
#[local] Hint Resolve Going_exprTemplate : stop.

Lemma Going_exprSwitchCases (r : Rec Lexer) prec t : StopsRec r -> Stops Going (exprSwitchCases r prec t : M Lexer _) (fun _ => onward Going).
Proof. intros Hr. unfold exprSwitchCases. stop. Qed.
#[local] Hint Resolve Going_exprSwitchCases : stop.

Lemma Going_relexRegExp : Stops Going (relexRegExp : M Lexer _) (fun _ => onward Going).
Proof. unfold relexRegExp. stop. Qed.
#[local] Hint Resolve Going_relexRegExp : stop.
Lemma Halted_relexRegExp  (lx : Lexer) d e : Stops (Halted lx d e) (relexRegExp : M Lexer _) (fun _ md' => md' = Halted lx d e).
Proof. unfold relexRegExp. stop. Qed.
#[local] Hint Resolve Halted_relexRegExp : stop.

Lemma Going_parseExpression (r : Rec Lexer) prec : StopsRec r -> Stops Going (parseExpression r prec : M Lexer _) (fun _ => onward Going).
Proof. intros Hr. unfold parseExpression. stop. Qed.
#[local] Hint Resolve Going_parseExpression : stop.
Lemma Halted_parseExpression (r : Rec Lexer) prec (lx : Lexer) d e : StopsRec r -> Stops (Halted lx d e) (parseExpression r prec : M Lexer _) (fun _ md' => md' = Halted lx d e).
Proof. intros Hr. unfold parseExpression. stop. Qed.
#[local] Hint Resolve Halted_parseExpression : stop.

Lemma Going_suffixInfix (r : Rec Lexer) t left prec precLeft level minLeft right : StopsRec r -> Stops Going (suffixInfix r t left prec precLeft level minLeft right : M Lexer _) (fun _ => onward Going).
Proof. intros Hr. unfold suffixInfix. stop. Qed.
#[local] Hint Resolve Going_suffixInfix : stop.

Lemma Going_suffixCompare (r : Rec Lexer) t left prec precLeft : StopsRec r -> Stops Going (suffixCompare r t left prec precLeft : M Lexer _) (fun _ => onward Going).
Proof. intros Hr. unfold suffixCompare. stop. Qed.
#[local] Hint Resolve Going_suffixCompare : stop.

Lemma Going_suffixNullish (r : Rec Lexer) t left prec precLeft : StopsRec r -> Stops Going (suffixNullish r t left prec precLeft : M Lexer _) (fun _ => onward Going).
Proof. intros Hr. unfold suffixNullish. stop. Qed.
#[local] Hint Resolve Going_suffixNullish : stop.

Lemma Going_suffixDot (r : Rec Lexer) left precLeft : StopsRec r -> Stops Going (suffixDot r left precLeft : M Lexer _) (fun _ => onward Going).
Proof. intros Hr. unfold suffixDot. stop. Qed.
#[local] Hint Resolve Going_suffixDot : stop.

Lemma Going_suffixIndex (r : Rec Lexer) left precLeft : StopsRec r -> Stops Going (suffixIndex r left precLeft : M Lexer _) (fun _ => onward Going).
Proof. intros Hr. unfold suffixIndex. stop. Qed.
#[local] Hint Resolve Going_suffixIndex : stop.

Lemma Going_suffixCall (r : Rec Lexer) left prec precLeft : StopsRec r -> Stops Going (suffixCall r left prec precLeft : M Lexer _) (fun _ => onward Going).
Proof. intros Hr. unfold suffixCall. stop. Qed.
#[local] Hint Resolve Going_suffixCall : stop.

Lemma Going_suffixTemplate (r : Rec Lexer) left precLeft : StopsRec r -> Stops Going (suffixTemplate r left precLeft : M Lexer _) (fun _ => onward Going).
Proof. intros Hr. unfold suffixTemplate. stop. Qed.
#[local] Hint Resolve Going_suffixTemplate : stop.

Lemma Going_suffixOptChain (r : Rec Lexer) left prec : StopsRec r -> Stops Going (suffixOptChain r left prec : M Lexer _) (fun _ => onward Going).
Proof. intros Hr. unfold suffixOptChain. stop. Qed.
#[local] Hint Resolve Going_suffixOptChain : stop.

Lemma Going_suffixUpdate (r : Rec Lexer) op left prec precLeft : StopsRec r -> Stops Going (suffixUpdate r op left prec precLeft : M Lexer _) (fun _ => onward Going).
Proof. intros Hr. unfold suffixUpdate. stop. Qed.
#[local] Hint Resolve Going_suffixUpdate : stop.

Lemma Going_suffixCond (r : Rec Lexer) left prec precLeft : StopsRec r -> Stops Going (suffixCond r left prec precLeft : M Lexer _) (fun _ => onward Going).
Proof. intros Hr. unfold suffixCond. stop. Qed.
#[local] Hint Resolve Going_suffixCond : stop.

Lemma Going_suffixComma (r : Rec Lexer) t left prec : StopsRec r -> Stops Going (suffixComma r t left prec : M Lexer _) (fun _ => onward Going).
Proof. intros Hr. unfold suffixComma. stop. Qed.
#[local] Hint Resolve Going_suffixComma : stop.

Lemma Going_suffixArrow (r : Rec Lexer) left prec precLeft : StopsRec r -> Stops Going (suffixArrow r left prec precLeft : M Lexer _) (fun _ => onward Going).
Proof. intros Hr. unfold suffixArrow. stop. Qed.
#[local] Hint Resolve Going_suffixArrow : stop.
Lemma Halted_suffixArrow (r : Rec Lexer) left prec precLeft (lx : Lexer) d e : StopsRec r -> Stops (Halted lx d e) (suffixArrow r left prec precLeft : M Lexer _) (fun _ md' => md' = Halted lx d e).
Proof. intros Hr. unfold suffixArrow. stop. Qed.
#[local] Hint Resolve Halted_suffixArrow : stop.

Lemma Going_suffixSwitchCases (r : Rec Lexer) t left prec precLeft : StopsRec r -> Stops Going (suffixSwitchCases r t left prec precLeft : M Lexer _) (fun _ => onward Going).
Proof. intros Hr. unfold suffixSwitchCases. stop. Qed.
#[local] Hint Resolve Going_suffixSwitchCases : stop.

Lemma Going_parseExpressionSuffix (r : Rec Lexer) left prec precLeft : StopsRec r -> Stops Going (parseExpressionSuffix r left prec precLeft : M Lexer _) (fun _ => onward Going).
Proof. intros Hr. unfold parseExpressionSuffix. stop. Qed.
#[local] Hint Resolve Going_parseExpressionSuffix : stop.
Lemma Halted_parseExpressionSuffix (r : Rec Lexer) left prec precLeft (lx : Lexer) d e : StopsRec r -> Stops (Halted lx d e) (parseExpressionSuffix r left prec precLeft : M Lexer _) (fun _ md' => md' = Halted lx d e).
Proof. intros Hr. unfold parseExpressionSuffix. stop. Qed.
#[local] Hint Resolve Halted_parseExpressionSuffix : stop.

Lemma Going_parseAssignmentExpression (r : Rec Lexer) : StopsRec r -> Stops Going (parseAssignmentExpression r : M Lexer _) (fun _ => onward Going).
Proof. intros Hr. unfold parseAssignmentExpression. stop. Qed.
#[local] Hint Resolve Going_parseAssignmentExpression : stop.
Lemma Halted_parseAssignmentExpression (r : Rec Lexer) (lx : Lexer) d e : StopsRec r -> Stops (Halted lx d e) (parseAssignmentExpression r : M Lexer _) (fun _ md' => md' = Halted lx d e).
Proof. intros Hr. unfold parseAssignmentExpression. stop. Qed.
#[local] Hint Resolve Halted_parseAssignmentExpression : stop.

Lemma Going_parenListLoop (r : Rec Lexer) list_ : StopsRec r -> Stops Going (parenListLoop r list_ : M Lexer _) (fun _ => onward Going).
Proof. intros Hr. unfold parenListLoop. stop. Qed.
#[local] Hint Resolve Going_parenListLoop : stop.
Lemma Halted_parenListLoop (r : Rec Lexer) list_ (lx : Lexer) d e : StopsRec r -> Stops (Halted lx d e) (parenListLoop r list_ : M Lexer _) (fun _ md' => md' = Halted lx d e).
Proof. intros Hr. unfold parenListLoop. stop. Qed.
#[local] Hint Resolve Halted_parenListLoop : stop.

Lemma Going_parenFinish (r : Rec Lexer) prec parent self parentAssumeArrowFunc list_ rest : StopsRec r -> Stops Going (parenFinish r prec parent self parentAssumeArrowFunc list_ rest : M Lexer _) (fun _ => onward Going).
Proof. intros Hr. unfold parenFinish. stop. Qed.
#[local] Hint Resolve Going_parenFinish : stop.
Lemma Halted_parenFinish (r : Rec Lexer) prec parent self parentAssumeArrowFunc list_ rest (lx : Lexer) d e : StopsRec r -> Stops (Halted lx d e) (parenFinish r prec parent self parentAssumeArrowFunc list_ rest : M Lexer _) (fun _ md' => md' = Halted lx d e).
Proof. intros Hr. unfold parenFinish. stop. Qed.
#[local] Hint Resolve Halted_parenFinish : stop.

Lemma Going_parseParenthesizedExpressionOrArrowFunc (r : Rec Lexer) prec : StopsRec r -> Stops Going (parseParenthesizedExpressionOrArrowFunc r prec : M Lexer _) (fun _ => onward Going).
Proof. intros Hr. unfold parseParenthesizedExpressionOrArrowFunc. stop. Qed.
#[local] Hint Resolve Going_parseParenthesizedExpressionOrArrowFunc : stop.


Lemma Stops_dispatch (r : Rec Lexer) : StopsRec r -> StopsRec (dispatch r).
Proof.
  intros Hr. split.
  - intros A c. destruct c; simpl; eauto with stop.
  - intros lx d e A c Hany. destruct c; simpl in *; try discriminate; eauto with stop.
Qed.

Lemma Stops_parser (fuel : nat) : StopsRec (parser fuel).
Proof.
  induction fuel as [|fuel IH].
  - split.
    + intros A c p x p' _ E. discriminate.
    + intros lx d e A c _ p x p' _ E. discriminate.
  - simpl. apply Stops_dispatch, IH.
Qed.

Lemma outcome_onward {A : Type} (c : Call A) (x : A) (md' : Progress Lexer) :
  outcome c x md' -> onward Going md'.
Proof.
  destruct c; simpl; try (intros H; exact H).
  - intros ->. left. reflexivity.
  - destruct x; simpl; [intros ->; left; reflexivity | intros H; exact H].
  - destruct x; simpl; [intros ->; left; reflexivity | intros H; exact H].
Qed.

(** A parse function that is called at any token, in a parser that has
    recorded an error and is at the error token, reads no token and leaves
    the error as it is. *)
Lemma halted_stays (fuel : nat) (A : Type) (c : Call A) (p : Parser Lexer)
    (e : error) (x : A) (p' : Parser Lexer) :
  anywhere c = true ->
  tt p = ErrorToken -> err p = Some e ->
  call (parser fuel) c p = Ret x p' ->
  l p' = l p /\ data p' = data p /\ tt p' = ErrorToken /\ err p' = Some e.
Proof.
  intros Hany Ht He E.
  destruct (proj2 (Stops_parser fuel) (l p) (data p) e A c Hany p x p') as (md' & H & ->).
  - simpl. auto.
  - exact E.
  - destruct H as (Hl & Hd & He' & Ht'). auto.
Qed.

(** A parse function that records an error leaves the parser at the error
    token. *)
Lemma error_halts (fuel : nat) (A : Type) (c : Call A) (p : Parser Lexer)
    (x : A) (p' : Parser Lexer) :
  err p = None ->
  call (parser fuel) c p = Ret x p' ->
  err p' = None \/ (tt p' = ErrorToken /\ err p' <> None).
Proof.
  intros He E.
  destruct (proj1 (Stops_parser fuel) A c p x p' He E) as (md' & H & HQ).
  apply outcome_onward in HQ. destruct HQ as [-> | [_ Hh]].
  - left. exact H.
  - destruct md' as [|lx d e]; [contradiction|].
    destruct H as (_ & _ & He' & Ht'). right. split; [exact Ht' | congruence].
Qed.

End Halting.

(** Once an error is recorded and the parser is at the error token, the
    parse functions that are called at any token read nothing more: the
    lexer, the token data and the error stay as they are.  (The functions
    that are excepted start with [p.next()] and are called only after their
    first token has been seen.)  The error token is assumed to be no
    identifier, identifier name or number. *)
Theorem halted_parser_reads_nothing :
  forall (Lexer : Type) (TS : TokenSource Lexer) (TT : TokenTable) (AO : AstOps)
         (fuel : nat) (A : Type) (c : Call A) (p : Parser Lexer) (e : error)
         (x : A) (p' : Parser Lexer),
    IsIdentifier ErrorToken = false ->
    IsIdentifierName ErrorToken = false ->
    IsNumeric ErrorToken = false ->
    anywhere c = true ->
    tt p = ErrorToken -> err p = Some e ->
    call (parser fuel) c p = Ret x p' ->
    l p' = l p /\ data p' = data p /\ tt p' = ErrorToken /\ err p' = Some e.
Proof.
  intros Lexer TS TT AO fuel A c p e x p' Hid Hname Hnum Hany Ht He E.
  eapply halted_stays; eassumption.
Qed.

(** Every parse function, called without a recorded error, returns without
    one or at the error token: after the first error the current token is
    the error token.  The error token is assumed to be no identifier,
    identifier name or number. *)
Theorem error_leaves_error_token :
  forall (Lexer : Type) (TS : TokenSource Lexer) (TT : TokenTable) (AO : AstOps)
         (fuel : nat) (A : Type) (c : Call A) (p : Parser Lexer)
         (x : A) (p' : Parser Lexer),
    IsIdentifier ErrorToken = false ->
    IsIdentifierName ErrorToken = false ->
    IsNumeric ErrorToken = false ->
    err p = None ->
    call (parser fuel) c p = Ret x p' ->
    err p' = None \/ (tt p' = ErrorToken /\ err p' <> None).
Proof.
  intros Lexer TS TT AO fuel A c p x p' Hid Hname Hnum He E.
  eapply error_halts; eassumption.
Qed.

(* ================================================================== *)
(** ** Template literals, argument lists, [let] and object patterns *)
(* ================================================================== *)

Section Literals.

Context {Lexer : Type} {TS : TokenSource Lexer} {TT : TokenTable} {AO : AstOps}.

(** [parseTemplateLiteral]: the token after the first substitution must be
    the end of the template. *)
Lemma parseTemplateLiteral_one_round (r : Rec Lexer) (p p1 p2 : Parser Lexer)
    (e : IExpr) :
  tt p = TemplateStartToken \/ tt p = TemplateMiddleToken ->
  next r p = Ret Datatypes.tt p1 ->
  call r (ParseExpression OpExpr) p1 = Ret e p2 ->
  tt p2 <> TemplateEndToken -> err p2 = None ->
  parseTemplateLiteral r p
  = Ret ([mkTemplatePart (data p) e], "")
        (withError p2 (Errorf (failMsg "template literal" [TemplateToken] p2) [])).
Proof.
  intros Ht HN HE Hend He.
  unfold parseTemplateLiteral. unfold bind at 1. unfold gets at 1.
  assert (Hc : tt_eqb (tt p) TemplateStartToken || tt_eqb (tt p) TemplateMiddleToken
               = true).
  { destruct Ht as [Ht|Ht]; rewrite Ht; reflexivity. }
  rewrite Hc. unfold bind at 1. unfold bind at 1. unfold gets at 1.
  unfold bind at 1. rewrite HN. unfold bind at 1. rewrite HE.
  unfold bind at 1. unfold gets at 1.
  rewrite (proj2 (tt_eqb_neq _ _) Hend).
  unfold bind at 1. rewrite (fail_records _ _ p2 He). reflexivity.
Qed.

(** The loop of [parseArgs]: when no comma follows an argument, the loop
    goes on with the next argument all the same. *)
Lemma argsLoop_no_comma (r : Rec Lexer) (list_ : list IExpr) (p p1 : Parser Lexer)
    (e : IExpr) :
  tt p <> EllipsisToken -> tt p <> CloseParenToken -> tt p <> ErrorToken ->
  call r (ParseExpression OpAssign) p = Ret e p1 ->
  tt p1 <> CommaToken ->
  argsLoop r list_ p = call r (ArgsLoop (append list_ e)) p1.
Proof.
  intros H1 H2 H3 HE Hc.
  unfold argsLoop. unfold bind at 1. unfold gets at 1.
  rewrite (proj2 (tt_eqb_neq _ _) H1), (proj2 (tt_eqb_neq _ _) H2),
          (proj2 (tt_eqb_neq _ _) H3).
  cbn [orb]. unfold bind at 1. rewrite HE.
  unfold bind at 1. unfold gets at 1.
  rewrite (proj2 (tt_eqb_neq _ _) Hc). reflexivity.
Qed.

(** [case LetToken]: where no declaration is allowed, or when the token
    after [let] does not start a binding, [let] is an identifier. *)
Lemma stmtLet_identifier (r : Rec Lexer) (allowDeclaration : bool) (t : TokenType)
    (p p1 : Parser Lexer) :
  next r p = Ret Datatypes.tt p1 ->
  allowDeclaration = false
  \/ (IsIdentifier (tt p1) = false /\ tt p1 <> YieldToken /\ tt p1 <> AwaitToken
      /\ tt p1 <> OpenBracketToken /\ tt p1 <> OpenBraceToken) ->
  stmtLet r allowDeclaration t p
  = bind (call r (ParseIdentifierExpression OpExpr (data p)))
         (fun e => terminated "expression" (ExprStmt e)) p1.
Proof.
  intros HN Hc. unfold stmtLet. unfold bind at 1. unfold gets at 1.
  unfold bind at 1. rewrite HN. unfold bind at 1. unfold gets at 1.
  assert (Hb : allowDeclaration
               && (IsIdentifier (tt p1) || tt_eqb (tt p1) YieldToken
                   || tt_eqb (tt p1) AwaitToken || tt_eqb (tt p1) OpenBracketToken
                   || tt_eqb (tt p1) OpenBraceToken) = false).
  { destruct Hc as [-> | (Hi & Hy & Ha & Hb & Hc)]; [reflexivity|].
    rewrite Hi, (proj2 (tt_eqb_neq _ _) Hy), (proj2 (tt_eqb_neq _ _) Ha),
            (proj2 (tt_eqb_neq _ _) Hb), (proj2 (tt_eqb_neq _ _) Hc).
    apply andb_false_r. }
  rewrite Hb. reflexivity.
Qed.

End Literals.

(** A spread property whose value is no variable reference makes the
    conversion of an object literal to a binding pattern panic (the type
    assertion [item.Value.(VarRef)] fails), when the properties before it
    convert. *)
Lemma exprToBinding_object_spread (items rest : list Property) (name : PropertyName)
    (v init : IExpr) :
  Forall (fun prop => match prop with
                      | mkProperty _ spread value _ =>
                          spread = false /\ exprToBinding value <> None
                      end) items ->
  (forall ref, v <> VarRefExpr ref) ->
  exprToBinding (ObjectExpr (items ++ mkProperty name true v init :: rest)) = None.
Proof.
  intros Hitems Hv. simpl. generalize (@nil BindingObjectItem) as list_.
  induction Hitems as [|[n spread value i] items [Hs Hconv] _ IH]; intros list_.
  - simpl. destruct v; try reflexivity. exfalso. eapply Hv. reflexivity.
  - subst spread. simpl.
    destruct (exprToBinding value) as [b|]; [apply IH | congruence].
Qed.

(* ================================================================== *)
(** ** Properties of templates, argument lists, [let] and arrow parameters *)
(* ================================================================== *)

(** A template literal takes one substitution: when the token after the
    first substituted expression is not the end of the template (a template
    middle as well), [parseTemplateLiteral] records an error and returns the
    one part with an empty tail.  [`a${x}c`] is parsed; [`a${x}b${y}c`] is
    refused at its middle. *)
Theorem template_single_substitution :
  (forall (Lexer : Type) (TS : TokenSource Lexer) (TT : TokenTable) (AO : AstOps)
          (r : Rec Lexer) (p p1 p2 : Parser Lexer) (e : IExpr),
      tt p = TemplateStartToken \/ tt p = TemplateMiddleToken ->
      next r p = Ret Datatypes.tt p1 ->
      call r (ParseExpression OpExpr) p1 = Ret e p2 ->
      tt p2 <> TemplateEndToken -> err p2 = None ->
      parseTemplateLiteral r p
      = Ret ([mkTemplatePart (data p) e], "")
            (withError p2
               (Errorf (failMsg "template literal" [TemplateToken] p2) [])))
  /\ Examples.parsed 100 Inputs.templateOne
     = Some ([ExprStmt (TemplateExpr NilExpr [mkTemplatePart "`a${" (VarRefExpr 0)]
                                     "}c`")], None)
  /\ Examples.parsed 100 Inputs.templateTwo
     = Some ([ExprStmt (TemplateExpr NilExpr [mkTemplatePart "`a${" (VarRefExpr 0)]
                                     "")],
             Some (parse_Error 5
                     "expected 'Template' instead of '}b${' in template literal")).
Proof.
  split; [| split].
  - intros. eapply parseTemplateLiteral_one_round; eassumption.
  - vm_compute. reflexivity.
  - vm_compute. reflexivity.
Qed.

(** The arguments of a call need no commas: when the token after an
    argument is not a comma, the loop of [parseArgs] goes on with the next
    argument and records no error.  [f(a b)] is the call of [f] with the
    arguments [a] and [b]. *)
Theorem arguments_without_comma :
  (forall (Lexer : Type) (TS : TokenSource Lexer) (TT : TokenTable) (AO : AstOps)
          (r : Rec Lexer) (list_ : list IExpr) (p p1 : Parser Lexer) (e : IExpr),
      tt p <> EllipsisToken -> tt p <> CloseParenToken -> tt p <> ErrorToken ->
      call r (ParseExpression OpAssign) p = Ret e p1 ->
      tt p1 <> CommaToken ->
      argsLoop r list_ p = call r (ArgsLoop (append list_ e)) p1)
  /\ Examples.parsed 100 Inputs.argsNoComma
     = Some ([ExprStmt (CallExpr (VarRefExpr 0)
                                 (mkArguments [VarRefExpr 1; VarRefExpr 2] NilExpr))],
             None).
Proof.
  split.
  - intros. eapply argsLoop_no_comma; eassumption.
  - vm_compute. reflexivity.
Qed.

(** [let] is a declaration only where a declaration is allowed and the next
    token starts a binding (an identifier, [yield], [await], an opening
    bracket or brace); otherwise [let] is parsed as an identifier at the
    head of an expression statement.  [let = 1] is an assignment to the
    variable [let]; [let x = 1] is a declaration. *)
Theorem let_as_identifier :
  (forall (Lexer : Type) (TS : TokenSource Lexer) (TT : TokenTable) (AO : AstOps)
          (r : Rec Lexer) (allowDeclaration : bool) (p p1 : Parser Lexer),
      tt p = LetToken ->
      next r p = Ret Datatypes.tt p1 ->
      allowDeclaration = false
      \/ (IsIdentifier (tt p1) = false /\ tt p1 <> YieldToken /\ tt p1 <> AwaitToken
          /\ tt p1 <> OpenBracketToken /\ tt p1 <> OpenBraceToken) ->
      stmtSwitchCases r allowDeclaration (tt p) p
      = bind (call r (ParseIdentifierExpression OpExpr (data p)))
             (fun e => terminated "expression" (ExprStmt e)) p1)
  /\ Examples.parsed 100 Inputs.letAssign
     = Some ([ExprStmt (BinaryExpr EqToken (VarRefExpr 0)
                                   (Literal (mkLiteralExpr NumericToken "1")))],
             None)
  /\ Examples.parsed 100 Inputs.letDecl
     = Some ([VarDeclS (mkVarDecl LetToken
                          [mkBindingElement (VarRefBinding 0)
                             (Literal (mkLiteralExpr NumericToken "1"))])],
             None).
Proof.
  split; [| split].
  - intros Lexer TS TT AO r allow p p1 Ht HN Hc.
    rewrite Ht. exact (@stmtLet_identifier _ _ _ r allow LetToken p p1 HN Hc).
  - vm_compute. reflexivity.
  - vm_compute. reflexivity.
Qed.

(** Converting an object literal to a binding pattern panics when a spread
    property holds anything but a variable reference and the properties
    before it convert: the type assertion [item.Value.(VarRef)] is not
    checked.  [Parse] ends in this panic on [({...[a]}) => 1]. *)
Theorem object_spread_conversion_panics :
  (forall (items rest : list Property) (name : PropertyName) (v init : IExpr),
      Forall (fun prop => match prop with
                          | mkProperty _ spread value _ =>
                              spread = false /\ exprToBinding value <> None
                          end) items ->
      (forall ref, v <> VarRefExpr ref) ->
      exprToBinding (ObjectExpr (items ++ mkProperty name true v init :: rest)) = None)
  /\ Inputs.panics 100 Inputs.spreadArrayParam
     = Some "interface conversion: IExpr is not VarRef".
Proof.
  split.
  - intros. apply exprToBinding_object_spread; assumption.
  - vm_compute. reflexivity.
Qed.

(* ================================================================== *)
(** ** Assignment and nullish coalescing in [parseExpressionSuffix] *)
(* ================================================================== *)

Section Operators.

Context {Lexer : Type} {TS : TokenSource Lexer} {TT : TokenTable} {AO : AstOps}.

Lemma suffixInfix_refused (r : Rec Lexer) (t : TokenType) (left : IExpr)
    (prec precLeft level minLeft right : OpPrec) (p : Parser Lexer) :
  prec_lt level prec = false -> prec_lt precLeft minLeft = true -> err p = None ->
  suffixInfix r t left prec precLeft level minLeft right p
  = Ret (inl NilExpr) (withError p (Errorf (failMsg "expression" [] p) [])).
Proof.
  intros H1 H2 He. unfold suffixInfix. rewrite H1, H2.
  unfold bind. rewrite (fail_records _ _ p He). reflexivity.
Qed.




(** [??] after a left side that is looser than [|] and is not itself a
    [??] expression is refused. *)
Lemma suffix_nullish_refused (r : Rec Lexer) (left : IExpr) (prec precLeft : OpPrec)
    (p : Parser Lexer) :
  tt p = NullishToken ->
  prec_lt OpCoalesce prec = false ->
  prec_lt precLeft OpBitOr = true -> precLeft <> OpCoalesce -> err p = None ->
  parseExpressionSuffix r left prec precLeft p = refused p.
Proof.
  intros Ht H1 H2 H3 He. unfold parseExpressionSuffix, refused.
  unfold bind at 1. unfold gets at 1. unfold bind at 1. rewrite Ht.
  cbn [suffixSwitchCases]. unfold suffixNullish. rewrite H1, H2.
  assert (Hn : prec_eqb precLeft OpCoalesce = false)
    by (destruct precLeft; try reflexivity; congruence).
  rewrite Hn. cbn [negb andb]. unfold bind.
  rewrite (fail_records _ _ p He). reflexivity.
Qed.

(** [||] and [&&] after a [??] expression are refused. *)
Lemma suffix_logical_after_nullish (r : Rec Lexer) (left : IExpr) (prec : OpPrec)
    (p : Parser Lexer) :
  tt p = OrToken \/ tt p = AndToken ->
  prec_lt (Inputs.opLevel (tt p)) prec = false -> err p = None ->
  parseExpressionSuffix r left prec OpCoalesce p = refused p.
Proof.
  intros Ht H1 He. unfold parseExpressionSuffix, refused.
  unfold bind at 1. unfold gets at 1. unfold bind at 1.
  destruct Ht as [Ht|Ht]; rewrite Ht in *; cbn [suffixSwitchCases];
    (erewrite suffixInfix_refused; [reflexivity | exact H1 | reflexivity | exact He]).
Qed.

End Operators.


(** [??] is not mixed with [||] or [&&] without parentheses: [??] after a
    left side looser than [|] that is no [??] expression is refused, and so
    are [||] and [&&] after a [??] expression.  [a ?? b || c], [a ?? b && c],
    [a || b ?? c] and [a && b ?? c] are errors at the second operator;
    [a ?? b ?? c] is [(a ?? b) ?? c]. *)
Theorem nullish_not_mixed :
  (forall (Lexer : Type) (TS : TokenSource Lexer) (TT : TokenTable) (AO : AstOps)
          (r : Rec Lexer) (left : IExpr) (prec precLeft : OpPrec) (p : Parser Lexer),
      err p = None ->
      (tt p = NullishToken -> prec_lt OpCoalesce prec = false ->
       prec_lt precLeft OpBitOr = true -> precLeft <> OpCoalesce ->
       parseExpressionSuffix r left prec precLeft p = refused p)
      /\ (tt p = OrToken \/ tt p = AndToken ->
          prec_lt (Inputs.opLevel (tt p)) prec = false ->
          parseExpressionSuffix r left prec OpCoalesce p = refused p))
  /\ (forall t, t = OrToken \/ t = AndToken ->
         Examples.parsed 100 (Inputs.twoOperators NullishToken t)
         = Some ([ExprStmt NilExpr],
                 Some (parse_Error 7 ("unexpected '" ++ Inputs.opText t
                                        ++ "' in expression")))
         /\ Examples.parsed 100 (Inputs.twoOperators t NullishToken)
            = Some ([ExprStmt NilExpr],
                    Some (parse_Error 7 "unexpected '??' in expression")))
  /\ Examples.parsed 100 (Inputs.twoOperators NullishToken NullishToken)
     = Some ([ExprStmt (BinaryExpr NullishToken
                          (BinaryExpr NullishToken (VarRefExpr 0) (VarRefExpr 1))
                          (VarRefExpr 2))], None).
Proof.
  split; [| split].
  - intros Lexer TS TT AO r left prec precLeft p He. split.
    + intros. apply suffix_nullish_refused; assumption.
    + intros. apply suffix_logical_after_nullish; assumption.
  - intros t [Ht|Ht]; subst t; split; vm_compute; reflexivity.
  - vm_compute. reflexivity.
Qed.

(* ================================================================== *)
(** ** Termination: every call returns or panics *)
(* ================================================================== *)

Section Termination.

Context {Lexer : Type} {TS : TokenSource Lexer} {TT : TokenTable} {AO : AstOps}.

(** The error token is no identifier, identifier name or number. *)
Hypothesis Hid : IsIdentifier ErrorToken = false.
Hypothesis Hname : IsIdentifierName ErrorToken = false.
Hypothesis Hnum : IsNumeric ErrorToken = false.

(** A measure of the input that is left: every token that the lexer
    returns, other than the error token, makes it smaller, and reading a
    token again as a regular expression does not make it larger. *)
Variable size : Lexer -> nat.
Hypothesis Hnext : forall lx t d lx',
  Next lx = (t, d, lx') -> size lx' <= size lx /\ (t <> ErrorToken -> size lx' < size lx).
Hypothesis Hregexp : forall lx t d lx',
  RegExp lx = (t, d, lx') -> size lx' <= size lx.

Section Step.

(** The table of the calls, and the fuel for which it is known to be
    total. *)
Variable r : Rec Lexer.
Variable N : nat.
Hypothesis IH : TotalRec size r N.

Local Abbreviation Tot := (Total size).

Ltac fuel_side :=
  repeat match goal with
         | H : context [N] |- _ =>
             progress (cbn [rank weight] in H; cbv delta [lv_nextLoop lv_next lv_consume lv_parseModuleLoop lv_terminated lv_stmtBlock lv_stmtVar lv_stmtLet lv_stmtIf lv_stmtBranch lv_stmtReturn lv_stmtWith lv_stmtDo lv_stmtWhile lv_forInitExpr lv_forInit lv_forRest lv_stmtFor lv_switchStmtsLoop lv_switchClausesLoop lv_stmtSwitch lv_stmtFunction lv_stmtAsync lv_stmtClass lv_stmtThrow lv_stmtTry lv_stmtDefault lv_stmtSwitchCases lv_parseStmt lv_blockStmtLoop lv_parseBlockStmt lv_importListLoop lv_importClause lv_parseImportStmt lv_exportListLoop lv_exportList lv_exportDefault lv_parseExportStmt lv_varDeclLoop lv_parseVarDecl lv_funcParamsLoop lv_parseFuncParams lv_parseAnyFunc lv_classMethodsLoop lv_parseAnyClass lv_methodModifiers lv_parseMethod lv_parsePropertyName lv_parseBindingElement lv_bindingElisionLoop lv_bindingArrayLoop lv_bindingObjectItem lv_bindingObjectLoop lv_parseBinding lv_arrayLiteralLoop lv_parseArrayLiteral lv_objectProperty lv_objectLiteralLoop lv_parseObjectLiteral lv_parseTemplateLiteral lv_argsLoop lv_parseArgs lv_parseArrowFuncBody lv_parseAsyncArrowFunc lv_parseIdentifierArrowFunc lv_parseIdentifierExpression lv_parseAsyncExpression lv_exprUnary lv_exprParen lv_exprAwait lv_exprNew lv_exprImport lv_exprSuper lv_exprYield lv_exprLiteral lv_exprAsync lv_exprTemplate lv_exprSwitchCases lv_relexRegExp lv_parseExpression lv_suffixInfix lv_suffixCompare lv_suffixNullish lv_suffixDot lv_suffixIndex lv_suffixCall lv_suffixTemplate lv_suffixOptChain lv_suffixUpdate lv_suffixCond lv_suffixComma lv_suffixArrow lv_suffixSwitchCases lv_parseExpressionSuffix lv_parseAssignmentExpression lv_parenListLoop lv_parenFinish lv_parseParenthesizedExpressionOrArrowFunc fuelStep] in H)
         end;
  cbn [rank weight]; cbv delta [lv_nextLoop lv_next lv_consume lv_parseModuleLoop lv_terminated lv_stmtBlock lv_stmtVar lv_stmtLet lv_stmtIf lv_stmtBranch lv_stmtReturn lv_stmtWith lv_stmtDo lv_stmtWhile lv_forInitExpr lv_forInit lv_forRest lv_stmtFor lv_switchStmtsLoop lv_switchClausesLoop lv_stmtSwitch lv_stmtFunction lv_stmtAsync lv_stmtClass lv_stmtThrow lv_stmtTry lv_stmtDefault lv_stmtSwitchCases lv_parseStmt lv_blockStmtLoop lv_parseBlockStmt lv_importListLoop lv_importClause lv_parseImportStmt lv_exportListLoop lv_exportList lv_exportDefault lv_parseExportStmt lv_varDeclLoop lv_parseVarDecl lv_funcParamsLoop lv_parseFuncParams lv_parseAnyFunc lv_classMethodsLoop lv_parseAnyClass lv_methodModifiers lv_parseMethod lv_parsePropertyName lv_parseBindingElement lv_bindingElisionLoop lv_bindingArrayLoop lv_bindingObjectItem lv_bindingObjectLoop lv_parseBinding lv_arrayLiteralLoop lv_parseArrayLiteral lv_objectProperty lv_objectLiteralLoop lv_parseObjectLiteral lv_parseTemplateLiteral lv_argsLoop lv_parseArgs lv_parseArrowFuncBody lv_parseAsyncArrowFunc lv_parseIdentifierArrowFunc lv_parseIdentifierExpression lv_parseAsyncExpression lv_exprUnary lv_exprParen lv_exprAwait lv_exprNew lv_exprImport lv_exprSuper lv_exprYield lv_exprLiteral lv_exprAsync lv_exprTemplate lv_exprSwitchCases lv_relexRegExp lv_parseExpression lv_suffixInfix lv_suffixCompare lv_suffixNullish lv_suffixDot lv_suffixIndex lv_suffixCall lv_suffixTemplate lv_suffixOptChain lv_suffixUpdate lv_suffixCond lv_suffixComma lv_suffixArrow lv_suffixSwitchCases lv_parseExpressionSuffix lv_parseAssignmentExpression lv_parenListLoop lv_parenFinish lv_parseParenthesizedExpressionOrArrowFunc fuelStep];
  lia.


Lemma Tot_ret {A : Type} ph (x : A) (Q : A -> Phase -> Prop) :
  Q x ph -> Tot ph (ret x : M Lexer A) Q.
Proof. intros HQ p H. right. exists x, p, ph. auto. Qed.

Lemma Tot_panic {A : Type} ph msg (Q : A -> Phase -> Prop) :
  Tot ph (@panic Lexer A msg) Q.
Proof. intros p H. left. exists msg. reflexivity. Qed.

Lemma Tot_bind {A B : Type} ph (m : M Lexer A) (k : A -> M Lexer B)
    (Q : A -> Phase -> Prop) (R : B -> Phase -> Prop) :
  Tot ph m Q ->
  (forall x ph1, Q x ph1 -> Tot ph1 (k x) R) ->
  Tot ph (bind m k) R.
Proof.
  intros Hm Hk p H. unfold bind.
  destruct (Hm p H) as [(msg & E) | (x & p1 & ph1 & E & H1 & HQ)]; rewrite E.
  - left. exists msg. reflexivity.
  - exact (Hk _ _ HQ _ H1).
Qed.

Lemma Tot_weaken {A : Type} ph (m : M Lexer A) (Q R : A -> Phase -> Prop) :
  Tot ph m Q -> (forall x ph1, Q x ph1 -> R x ph1) -> Tot ph m R.
Proof.
  intros Hm HQR p H.
  destruct (Hm p H) as [(msg & E) | (x & p1 & ph1 & E & H1 & HQ)].
  - left. exists msg. exact E.
  - right. exists x, p1, ph1. auto.
Qed.

Lemma Tot_bind_gets {A B : Type} ph (f : Parser Lexer -> A) (k : A -> M Lexer B)
    (R : B -> Phase -> Prop) :
  (forall v, Tot ph (k v) R) -> Tot ph (bind (gets f) k) R.
Proof. intros Hk p H. exact (Hk _ _ H). Qed.

(** At the error token the tests on the token are decided. *)
Lemma Tot_bind_tt {B : Type} (k : TokenType -> M Lexer B) (R : B -> Phase -> Prop) :
  Tot Stuck (k ErrorToken) R -> Tot Stuck (bind (gets tt) k) R.
Proof.
  intros Hk p H. unfold bind, gets. simpl in H. rewrite H. apply Hk. exact H.
Qed.

Lemma Tot_bind_noTerminator {B : Type} (k : bool -> M Lexer B)
    (R : B -> Phase -> Prop) :
  Tot Stuck (k false) R -> Tot Stuck (bind (gets noTerminator) k) R.
Proof.
  intros Hk p H. unfold bind, gets.
  assert (Hn : noTerminator p = false).
  { unfold noTerminator. simpl in H. rewrite H.
    cbn [tt_eqb TokenCode.code Nat.eqb negb]. apply andb_false_r. }
  rewrite Hn. apply Hk. exact H.
Qed.

Lemma Tot_bind_ret {A B : Type} ph (v : A) (k : A -> M Lexer B)
    (R : B -> Phase -> Prop) :
  Tot ph (k v) R -> Tot ph (bind (ret v) k) R.
Proof. intros Hk p H. exact (Hk _ H). Qed.

Lemma Tot_bind_panic {A B : Type} ph msg (k : A -> M Lexer B)
    (R : B -> Phase -> Prop) :
  Tot ph (bind (panic msg) k) R.
Proof. intros p H. left. exists msg. reflexivity. Qed.

Lemma Tot_assoc {A B C : Type} ph (m : M Lexer A) (k1 : A -> M Lexer B)
    (k2 : B -> M Lexer C) (R : C -> Phase -> Prop) :
  Tot ph (bind m (fun x => bind (k1 x) k2)) R ->
  Tot ph (bind (bind m k1) k2) R.
Proof.
  intros Hb p H. specialize (Hb p H).
  unfold bind in *. destruct (m p) as [x p1| |]; exact Hb.
Qed.

Lemma bind_gets_run {A B : Type} (f : Parser Lexer -> A) (k : A -> M Lexer B)
    (p : Parser Lexer) :
  bind (gets f) k p = k (f p) p.
Proof. reflexivity. Qed.

Lemma Tot_gets {A : Type} ph (f : Parser Lexer -> A) :
  Tot ph (gets f) (fun _ ph' => ph' = ph).
Proof. intros p H. right. exists (f p), p, ph. auto. Qed.

(** An assignment to a field other than the lexer, the token and the
    error. *)
Ltac tot_assign :=
  intros p H; right; eexists; eexists; eexists;
  split; [reflexivity | split; [ | reflexivity ] ];
  lazymatch goal with |- in_phase _ ?ph _ => destruct ph; exact H end.

Lemma Tot_setPrevLT ph b :
  Tot ph (setPrevLT b : M Lexer unit) (fun _ ph' => ph' = ph).
Proof. tot_assign. Qed.
Lemma Tot_setInFor ph b :
  Tot ph (setInFor b : M Lexer unit) (fun _ ph' => ph' = ph).
Proof. tot_assign. Qed.
Lemma Tot_setFlags ph a g :
  Tot ph (setFlags a g : M Lexer unit) (fun _ ph' => ph' = ph).
Proof. tot_assign. Qed.
Lemma Tot_setAssumeArrowFunc ph b :
  Tot ph (setAssumeArrowFunc b : M Lexer unit) (fun _ ph' => ph' = ph).
Proof. tot_assign. Qed.
Lemma Tot_setAst ph a :
  Tot ph (setAst a : M Lexer unit) (fun _ ph' => ph' = ph).
Proof. tot_assign. Qed.
Lemma Tot_setScope ph s :
  Tot ph (setScope s : M Lexer unit) (fun _ ph' => ph' = ph).
Proof. tot_assign. Qed.
Lemma Tot_skip ph : Tot ph (@skip Lexer) (fun _ ph' => ph' = ph).
Proof. apply Tot_ret. reflexivity. Qed.

(** A token read from the lexer leaves less input, unless it is the error
    token. *)
Lemma Tot_lexNext n :
  Tot (Live n) (lexNext : M Lexer unit) (fun _ => spent true (Live n)).
Proof.
  intros p [He Hs]. right. unfold lexNext, bind, gets.
  destruct (Next (l p)) as [[t d] l'] eqn:E.
  destruct (Hnext _ E) as [Hle Hlt].
  destruct (tt_eqb t ErrorToken) eqn:Ht.
  - apply tt_eqb_eq in Ht. subst t.
    eexists; eexists; exists Stuck.
    split; [reflexivity | split; [reflexivity | exact I] ].
  - apply tt_eqb_neq in Ht. specialize (Hlt Ht).
    eexists; eexists; exists (Live (size l')).
    split; [reflexivity | split; [split; [exact He | apply le_n] | simpl; lia ] ].
Qed.

Lemma Tot_lexRegExp n :
  Tot (Live n) (lexRegExp : M Lexer unit) (fun _ ph' => ph' = Live n).
Proof.
  intros p [He Hs]. right. unfold lexRegExp, bind, gets.
  destruct (RegExp (l p)) as [[t d] l'] eqn:E.
  pose proof (Hregexp _ E) as Hle.
  eexists; eexists; exists (Live n).
  split; [reflexivity | split; [split; [exact He | simpl; lia] | reflexivity ] ].
Qed.

(** [p.fail] and [p.failMessage] leave the parser at the error token. *)
Lemma Tot_fail ph in_ expected :
  Tot ph (fail in_ expected : M Lexer unit) (fun _ ph' => ph' = Stuck).
Proof.
  intros p H. right. unfold fail, bind, gets.
  destruct (err p) as [e|] eqn:He.
  - destruct ph as [n|]; [destruct H; congruence|].
    eexists; eexists; exists Stuck. split; [reflexivity | split; [exact H | reflexivity] ].
  - eexists; eexists; exists Stuck.
    split; [reflexivity | split; [reflexivity | reflexivity] ].
Qed.

Lemma Tot_failMessage ph msg args :
  Tot ph (failMessage msg args : M Lexer unit) (fun _ ph' => ph' = Stuck).
Proof.
  intros p H. right. unfold failMessage, bind, gets.
  destruct (err p) as [e|] eqn:He.
  - destruct ph as [n|]; [destruct H; congruence|].
    eexists; eexists; exists Stuck. split; [reflexivity | split; [exact H | reflexivity] ].
  - eexists; eexists; exists Stuck.
    split; [reflexivity | split; [reflexivity | reflexivity] ].
Qed.

Create HintDb tot discriminated.

#[local] Hint Resolve Tot_gets Tot_setPrevLT Tot_setInFor Tot_setFlags
  Tot_setAssumeArrowFunc Tot_setAst Tot_setScope Tot_skip Tot_lexNext Tot_lexRegExp
  Tot_fail Tot_failMessage : tot.

Ltac tot_post H :=
  cbv beta in H; cbn [result_of strictCall] in H;
  lazymatch type of H with
  | spent _ Stuck _ => cbn [spent] in H; subst
  | spent _ (Live _) ?ph => destruct ph; cbn [spent strictCall] in H; [ | clear H ]
  | consumed ?b _ _ =>
      destruct b; cbn [consumed] in H;
      [ let Ha := fresh "Ha" in destruct H as [Ha H]; cbn [alive] in Ha;
        first [ contradiction | clear Ha; tot_post H ]
      | subst ]
  | checked ?b _ _ =>
      destruct b; cbn [checked] in H; [ tot_post H | subst ]
  | gained ?x _ _ => destruct x; cbn [gained] in H; tot_post H
  | advanced ?x _ _ =>
      destruct x as [? | [? ?] ]; cbn [advanced] in H;
      [ tot_post H
      | let Ha := fresh "Ha" in destruct H as [Ha H]; cbn [alive] in Ha;
        first [ contradiction | clear Ha; tot_post H ] ]
  | spent _ _ ?ph /\ holdsSome ?x ?ph =>
      let Hs := fresh "Hs" in
      destruct H as [H Hs]; destruct x; cbn [holdsSome] in Hs;
      [ destruct ph; cbn [alive] in Hs;
        [ clear Hs; cbn [spent strictCall] in H; try discriminate H | contradiction ]
      | clear Hs; tot_post H ]
  | _ = _ => subst
  | False => contradiction
  | True => clear H
  end.

Ltac tot_side :=
  cbv beta;
  cbn [result_of strictCall spent consumed checked gained advanced alive holdsSome];
  solve [ reflexivity | exact I | lia
        | split; [ first [ exact I | reflexivity | lia ]
                 | first [ exact I | reflexivity | lia ] ] ].

Ltac tot_atom :=
  lazymatch goal with
  | |- Total _ ?ph (call r ?c) _ =>
      apply (@IH _ c ph); [ fuel_side | first [ discriminate | reflexivity ] ]
  | |- _ => solve [ eauto 2 with tot ]
  end.

Ltac tot_norm :=
  lazymatch goal with
  | |- Total _ Stuck _ _ =>
      progress (cbv beta iota delta [isBindingIdentifierToken];
                rewrite ?Hid, ?Hname, ?Hnum;
                cbn [tt_eqb TokenCode.code Nat.eqb negb andb orb fst snd];
                rewrite ?andb_false_r, ?orb_false_r, ?orb_true_r, ?andb_true_r;
                cbn [negb andb orb])
  | |- _ =>
      first [ progress cbv beta iota | progress cbn [negb andb orb fst snd] ]
  end.

Ltac stuck_unfold :=
  lazymatch goal with
  | |- Total _ Stuck (bind (nextLoop _) _) _ => unfold nextLoop at 1
  | |- Total _ Stuck (nextLoop _) _ => unfold nextLoop
  | |- Total _ Stuck (bind (next _) _) _ => unfold next at 1
  | |- Total _ Stuck (next _) _ => unfold next
  | |- Total _ Stuck (bind (consume _ _ _) _) _ => unfold consume at 1
  | |- Total _ Stuck (consume _ _ _) _ => unfold consume
  | |- Total _ Stuck (bind (parseModuleLoop _ _) _) _ => unfold parseModuleLoop at 1
  | |- Total _ Stuck (parseModuleLoop _ _) _ => unfold parseModuleLoop
  | |- Total _ Stuck (bind (terminated _ _) _) _ => unfold terminated at 1
  | |- Total _ Stuck (terminated _ _) _ => unfold terminated
  | |- Total _ Stuck (bind (stmtBlock _) _) _ => unfold stmtBlock at 1
  | |- Total _ Stuck (stmtBlock _) _ => unfold stmtBlock
  | |- Total _ Stuck (bind (stmtVar _ _ _) _) _ => unfold stmtVar at 1
  | |- Total _ Stuck (stmtVar _ _ _) _ => unfold stmtVar
  | |- Total _ Stuck (bind (stmtLet _ _ _) _) _ => unfold stmtLet at 1
  | |- Total _ Stuck (stmtLet _ _ _) _ => unfold stmtLet
  | |- Total _ Stuck (bind (stmtIf _) _) _ => unfold stmtIf at 1
  | |- Total _ Stuck (stmtIf _) _ => unfold stmtIf
  | |- Total _ Stuck (bind (stmtBranch _) _) _ => unfold stmtBranch at 1
  | |- Total _ Stuck (stmtBranch _) _ => unfold stmtBranch
  | |- Total _ Stuck (bind (stmtReturn _) _) _ => unfold stmtReturn at 1
  | |- Total _ Stuck (stmtReturn _) _ => unfold stmtReturn
  | |- Total _ Stuck (bind (stmtWith _) _) _ => unfold stmtWith at 1
  | |- Total _ Stuck (stmtWith _) _ => unfold stmtWith
  | |- Total _ Stuck (bind (stmtDo _) _) _ => unfold stmtDo at 1
  | |- Total _ Stuck (stmtDo _) _ => unfold stmtDo
  | |- Total _ Stuck (bind (stmtWhile _) _) _ => unfold stmtWhile at 1
  | |- Total _ Stuck (stmtWhile _) _ => unfold stmtWhile
  | |- Total _ Stuck (bind (forInitExpr _) _) _ => unfold forInitExpr at 1
  | |- Total _ Stuck (forInitExpr _) _ => unfold forInitExpr
  | |- Total _ Stuck (bind (forInit _) _) _ => unfold forInit at 1
  | |- Total _ Stuck (forInit _) _ => unfold forInit
  | |- Total _ Stuck (bind (forRest _ _ _) _) _ => unfold forRest at 1
  | |- Total _ Stuck (forRest _ _ _) _ => unfold forRest
  | |- Total _ Stuck (bind (stmtFor _) _) _ => unfold stmtFor at 1
  | |- Total _ Stuck (stmtFor _) _ => unfold stmtFor
  | |- Total _ Stuck (bind (switchStmtsLoop _ _) _) _ => unfold switchStmtsLoop at 1
  | |- Total _ Stuck (switchStmtsLoop _ _) _ => unfold switchStmtsLoop
  | |- Total _ Stuck (bind (switchClausesLoop _ _) _) _ => unfold switchClausesLoop at 1
  | |- Total _ Stuck (switchClausesLoop _ _) _ => unfold switchClausesLoop
  | |- Total _ Stuck (bind (stmtSwitch _) _) _ => unfold stmtSwitch at 1
  | |- Total _ Stuck (stmtSwitch _) _ => unfold stmtSwitch
  | |- Total _ Stuck (bind (stmtFunction _ _) _) _ => unfold stmtFunction at 1
  | |- Total _ Stuck (stmtFunction _ _) _ => unfold stmtFunction
  | |- Total _ Stuck (bind (stmtAsync _ _) _) _ => unfold stmtAsync at 1
  | |- Total _ Stuck (stmtAsync _ _) _ => unfold stmtAsync
  | |- Total _ Stuck (bind (stmtClass _ _) _) _ => unfold stmtClass at 1
  | |- Total _ Stuck (stmtClass _ _) _ => unfold stmtClass
  | |- Total _ Stuck (bind (stmtThrow _) _) _ => unfold stmtThrow at 1
  | |- Total _ Stuck (stmtThrow _) _ => unfold stmtThrow
  | |- Total _ Stuck (bind (stmtTry _) _) _ => unfold stmtTry at 1
  | |- Total _ Stuck (stmtTry _) _ => unfold stmtTry
  | |- Total _ Stuck (bind (stmtDefault _) _) _ => unfold stmtDefault at 1
  | |- Total _ Stuck (stmtDefault _) _ => unfold stmtDefault
  | |- Total _ Stuck (bind (stmtSwitchCases _ _ _) _) _ => unfold stmtSwitchCases at 1
  | |- Total _ Stuck (stmtSwitchCases _ _ _) _ => unfold stmtSwitchCases
  | |- Total _ Stuck (bind (parseStmt _ _) _) _ => unfold parseStmt at 1
  | |- Total _ Stuck (parseStmt _ _) _ => unfold parseStmt
  | |- Total _ Stuck (bind (blockStmtLoop _ _) _) _ => unfold blockStmtLoop at 1
  | |- Total _ Stuck (blockStmtLoop _ _) _ => unfold blockStmtLoop
  | |- Total _ Stuck (bind (parseBlockStmt _ _ _) _) _ => unfold parseBlockStmt at 1
  | |- Total _ Stuck (parseBlockStmt _ _ _) _ => unfold parseBlockStmt
  | |- Total _ Stuck (bind (importListLoop _ _) _) _ => unfold importListLoop at 1
  | |- Total _ Stuck (importListLoop _ _) _ => unfold importListLoop
  | |- Total _ Stuck (bind (importClause _) _) _ => unfold importClause at 1
  | |- Total _ Stuck (importClause _) _ => unfold importClause
  | |- Total _ Stuck (bind (parseImportStmt _) _) _ => unfold parseImportStmt at 1
  | |- Total _ Stuck (parseImportStmt _) _ => unfold parseImportStmt
  | |- Total _ Stuck (bind (exportListLoop _ _) _) _ => unfold exportListLoop at 1
  | |- Total _ Stuck (exportListLoop _ _) _ => unfold exportListLoop
  | |- Total _ Stuck (bind (exportList _) _) _ => unfold exportList at 1
  | |- Total _ Stuck (exportList _) _ => unfold exportList
  | |- Total _ Stuck (bind (exportDefault _) _) _ => unfold exportDefault at 1
  | |- Total _ Stuck (exportDefault _) _ => unfold exportDefault
  | |- Total _ Stuck (bind (parseExportStmt _) _) _ => unfold parseExportStmt at 1
  | |- Total _ Stuck (parseExportStmt _) _ => unfold parseExportStmt
  | |- Total _ Stuck (bind (varDeclLoop _ _ _) _) _ => unfold varDeclLoop at 1
  | |- Total _ Stuck (varDeclLoop _ _ _) _ => unfold varDeclLoop
  | |- Total _ Stuck (bind (parseVarDecl _ _) _) _ => unfold parseVarDecl at 1
  | |- Total _ Stuck (parseVarDecl _ _) _ => unfold parseVarDecl
  | |- Total _ Stuck (bind (funcParamsLoop _ _ _) _) _ => unfold funcParamsLoop at 1
  | |- Total _ Stuck (funcParamsLoop _ _ _) _ => unfold funcParamsLoop
  | |- Total _ Stuck (bind (parseFuncParams _ _) _) _ => unfold parseFuncParams at 1
  | |- Total _ Stuck (parseFuncParams _ _) _ => unfold parseFuncParams
  | |- Total _ Stuck (bind (parseAnyFunc _ _ _) _) _ => unfold parseAnyFunc at 1
  | |- Total _ Stuck (parseAnyFunc _ _ _) _ => unfold parseAnyFunc
  | |- Total _ Stuck (bind (classMethodsLoop _ _) _) _ => unfold classMethodsLoop at 1
  | |- Total _ Stuck (classMethodsLoop _ _) _ => unfold classMethodsLoop
  | |- Total _ Stuck (bind (parseAnyClass _ _) _) _ => unfold parseAnyClass at 1
  | |- Total _ Stuck (parseAnyClass _ _) _ => unfold parseAnyClass
  | |- Total _ Stuck (bind (methodModifiers _) _) _ => unfold methodModifiers at 1
  | |- Total _ Stuck (methodModifiers _) _ => unfold methodModifiers
  | |- Total _ Stuck (bind (parseMethod _) _) _ => unfold parseMethod at 1
  | |- Total _ Stuck (parseMethod _) _ => unfold parseMethod
  | |- Total _ Stuck (bind (parsePropertyName _ _) _) _ => unfold parsePropertyName at 1
  | |- Total _ Stuck (parsePropertyName _ _) _ => unfold parsePropertyName
  | |- Total _ Stuck (bind (parseBindingElement _ _) _) _ => unfold parseBindingElement at 1
  | |- Total _ Stuck (parseBindingElement _ _) _ => unfold parseBindingElement
  | |- Total _ Stuck (bind (bindingElisionLoop _ _) _) _ => unfold bindingElisionLoop at 1
  | |- Total _ Stuck (bindingElisionLoop _ _) _ => unfold bindingElisionLoop
  | |- Total _ Stuck (bind (bindingArrayLoop _ _ _) _) _ => unfold bindingArrayLoop at 1
  | |- Total _ Stuck (bindingArrayLoop _ _ _) _ => unfold bindingArrayLoop
  | |- Total _ Stuck (bind (bindingObjectItem _ _) _) _ => unfold bindingObjectItem at 1
  | |- Total _ Stuck (bindingObjectItem _ _) _ => unfold bindingObjectItem
  | |- Total _ Stuck (bind (bindingObjectLoop _ _ _) _) _ => unfold bindingObjectLoop at 1
  | |- Total _ Stuck (bindingObjectLoop _ _ _) _ => unfold bindingObjectLoop
  | |- Total _ Stuck (bind (parseBinding _ _) _) _ => unfold parseBinding at 1
  | |- Total _ Stuck (parseBinding _ _) _ => unfold parseBinding
  | |- Total _ Stuck (bind (arrayLiteralLoop _ _ _) _) _ => unfold arrayLiteralLoop at 1
  | |- Total _ Stuck (arrayLiteralLoop _ _ _) _ => unfold arrayLiteralLoop
  | |- Total _ Stuck (bind (parseArrayLiteral _) _) _ => unfold parseArrayLiteral at 1
  | |- Total _ Stuck (parseArrayLiteral _) _ => unfold parseArrayLiteral
  | |- Total _ Stuck (bind (objectProperty _) _) _ => unfold objectProperty at 1
  | |- Total _ Stuck (objectProperty _) _ => unfold objectProperty
  | |- Total _ Stuck (bind (objectLiteralLoop _ _) _) _ => unfold objectLiteralLoop at 1
  | |- Total _ Stuck (objectLiteralLoop _ _) _ => unfold objectLiteralLoop
  | |- Total _ Stuck (bind (parseObjectLiteral _) _) _ => unfold parseObjectLiteral at 1
  | |- Total _ Stuck (parseObjectLiteral _) _ => unfold parseObjectLiteral
  | |- Total _ Stuck (bind (parseTemplateLiteral _) _) _ => unfold parseTemplateLiteral at 1
  | |- Total _ Stuck (parseTemplateLiteral _) _ => unfold parseTemplateLiteral
  | |- Total _ Stuck (bind (argsLoop _ _) _) _ => unfold argsLoop at 1
  | |- Total _ Stuck (argsLoop _ _) _ => unfold argsLoop
  | |- Total _ Stuck (bind (parseArgs _) _) _ => unfold parseArgs at 1
  | |- Total _ Stuck (parseArgs _) _ => unfold parseArgs
  | |- Total _ Stuck (bind (parseArrowFuncBody _) _) _ => unfold parseArrowFuncBody at 1
  | |- Total _ Stuck (parseArrowFuncBody _) _ => unfold parseArrowFuncBody
  | |- Total _ Stuck (bind (parseAsyncArrowFunc _) _) _ => unfold parseAsyncArrowFunc at 1
  | |- Total _ Stuck (parseAsyncArrowFunc _) _ => unfold parseAsyncArrowFunc
  | |- Total _ Stuck (bind (parseIdentifierArrowFunc _ _) _) _ => unfold parseIdentifierArrowFunc at 1
  | |- Total _ Stuck (parseIdentifierArrowFunc _ _) _ => unfold parseIdentifierArrowFunc
  | |- Total _ Stuck (bind (parseIdentifierExpression _ _ _) _) _ => unfold parseIdentifierExpression at 1
  | |- Total _ Stuck (parseIdentifierExpression _ _ _) _ => unfold parseIdentifierExpression
  | |- Total _ Stuck (bind (parseAsyncExpression _ _ _) _) _ => unfold parseAsyncExpression at 1
  | |- Total _ Stuck (parseAsyncExpression _ _ _) _ => unfold parseAsyncExpression
  | |- Total _ Stuck (bind (exprUnary _ _ _ _) _) _ => unfold exprUnary at 1
  | |- Total _ Stuck (exprUnary _ _ _ _) _ => unfold exprUnary
  | |- Total _ Stuck (bind (exprParen _ _) _) _ => unfold exprParen at 1
  | |- Total _ Stuck (exprParen _ _) _ => unfold exprParen
  | |- Total _ Stuck (bind (exprAwait _ _ _) _) _ => unfold exprAwait at 1
  | |- Total _ Stuck (exprAwait _ _ _) _ => unfold exprAwait
  | |- Total _ Stuck (bind (exprNew _) _) _ => unfold exprNew at 1
  | |- Total _ Stuck (exprNew _) _ => unfold exprNew
  | |- Total _ Stuck (bind (exprImport _ _) _) _ => unfold exprImport at 1
  | |- Total _ Stuck (exprImport _ _) _ => unfold exprImport
  | |- Total _ Stuck (bind (exprSuper _ _) _) _ => unfold exprSuper at 1
  | |- Total _ Stuck (exprSuper _ _) _ => unfold exprSuper
  | |- Total _ Stuck (bind (exprYield _ _) _) _ => unfold exprYield at 1
  | |- Total _ Stuck (exprYield _ _) _ => unfold exprYield
  | |- Total _ Stuck (bind (exprLiteral _) _) _ => unfold exprLiteral at 1
  | |- Total _ Stuck (exprLiteral _) _ => unfold exprLiteral
  | |- Total _ Stuck (bind (exprAsync _ _) _) _ => unfold exprAsync at 1
  | |- Total _ Stuck (exprAsync _ _) _ => unfold exprAsync
  | |- Total _ Stuck (bind (exprTemplate _) _) _ => unfold exprTemplate at 1
  | |- Total _ Stuck (exprTemplate _) _ => unfold exprTemplate
  | |- Total _ Stuck (bind (exprSwitchCases _ _ _) _) _ => unfold exprSwitchCases at 1
  | |- Total _ Stuck (exprSwitchCases _ _ _) _ => unfold exprSwitchCases
  | |- Total _ Stuck (bind relexRegExp _) _ => unfold relexRegExp at 1
  | |- Total _ Stuck relexRegExp _ => unfold relexRegExp
  | |- Total _ Stuck (bind (parseExpression _ _) _) _ => unfold parseExpression at 1
  | |- Total _ Stuck (parseExpression _ _) _ => unfold parseExpression
  | |- Total _ Stuck (bind (suffixInfix _ _ _ _ _ _ _ _) _) _ => unfold suffixInfix at 1
  | |- Total _ Stuck (suffixInfix _ _ _ _ _ _ _ _) _ => unfold suffixInfix
  | |- Total _ Stuck (bind (suffixCompare _ _ _ _ _) _) _ => unfold suffixCompare at 1
  | |- Total _ Stuck (suffixCompare _ _ _ _ _) _ => unfold suffixCompare
  | |- Total _ Stuck (bind (suffixNullish _ _ _ _ _) _) _ => unfold suffixNullish at 1
  | |- Total _ Stuck (suffixNullish _ _ _ _ _) _ => unfold suffixNullish
  | |- Total _ Stuck (bind (suffixDot _ _ _) _) _ => unfold suffixDot at 1
  | |- Total _ Stuck (suffixDot _ _ _) _ => unfold suffixDot
  | |- Total _ Stuck (bind (suffixIndex _ _ _) _) _ => unfold suffixIndex at 1
  | |- Total _ Stuck (suffixIndex _ _ _) _ => unfold suffixIndex
  | |- Total _ Stuck (bind (suffixCall _ _ _ _) _) _ => unfold suffixCall at 1
  | |- Total _ Stuck (suffixCall _ _ _ _) _ => unfold suffixCall
  | |- Total _ Stuck (bind (suffixTemplate _ _ _) _) _ => unfold suffixTemplate at 1
  | |- Total _ Stuck (suffixTemplate _ _ _) _ => unfold suffixTemplate
  | |- Total _ Stuck (bind (suffixOptChain _ _ _) _) _ => unfold suffixOptChain at 1
  | |- Total _ Stuck (suffixOptChain _ _ _) _ => unfold suffixOptChain
  | |- Total _ Stuck (bind (suffixUpdate _ _ _ _ _) _) _ => unfold suffixUpdate at 1
  | |- Total _ Stuck (suffixUpdate _ _ _ _ _) _ => unfold suffixUpdate
  | |- Total _ Stuck (bind (suffixCond _ _ _ _) _) _ => unfold suffixCond at 1
  | |- Total _ Stuck (suffixCond _ _ _ _) _ => unfold suffixCond
  | |- Total _ Stuck (bind (suffixComma _ _ _ _) _) _ => unfold suffixComma at 1
  | |- Total _ Stuck (suffixComma _ _ _ _) _ => unfold suffixComma
  | |- Total _ Stuck (bind (suffixArrow _ _ _ _) _) _ => unfold suffixArrow at 1
  | |- Total _ Stuck (suffixArrow _ _ _ _) _ => unfold suffixArrow
  | |- Total _ Stuck (bind (suffixSwitchCases _ _ _ _ _) _) _ => unfold suffixSwitchCases at 1
  | |- Total _ Stuck (suffixSwitchCases _ _ _ _ _) _ => unfold suffixSwitchCases
  | |- Total _ Stuck (bind (parseExpressionSuffix _ _ _ _) _) _ => unfold parseExpressionSuffix at 1
  | |- Total _ Stuck (parseExpressionSuffix _ _ _ _) _ => unfold parseExpressionSuffix
  | |- Total _ Stuck (bind (parseAssignmentExpression _) _) _ => unfold parseAssignmentExpression at 1
  | |- Total _ Stuck (parseAssignmentExpression _) _ => unfold parseAssignmentExpression
  | |- Total _ Stuck (bind (parenListLoop _ _) _) _ => unfold parenListLoop at 1
  | |- Total _ Stuck (parenListLoop _ _) _ => unfold parenListLoop
  | |- Total _ Stuck (bind (parenFinish _ _ _ _ _ _ _) _) _ => unfold parenFinish at 1
  | |- Total _ Stuck (parenFinish _ _ _ _ _ _ _) _ => unfold parenFinish
  | |- Total _ Stuck (bind (parseParenthesizedExpressionOrArrowFunc _ _) _) _ => unfold parseParenthesizedExpressionOrArrowFunc at 1
  | |- Total _ Stuck (parseParenthesizedExpressionOrArrowFunc _ _) _ => unfold parseParenthesizedExpressionOrArrowFunc
  end.

Ltac tot_step :=
  lazymatch goal with
  | |- Total _ Stuck (bind (gets tt) _) _ => apply Tot_bind_tt; cbv beta
  | |- Total _ Stuck (bind (gets noTerminator) _) _ =>
      apply Tot_bind_noTerminator; cbv beta
  | |- Total _ _ (bind (gets _) _) _ => apply Tot_bind_gets; intro; cbv beta
  | |- Total _ _ (bind (ret _) _) _ => apply Tot_bind_ret; cbv beta
  | |- Total _ _ (bind (panic _) _) _ => apply Tot_bind_panic
  | |- Total _ _ (bind (isIdentifierReference _) _) _ =>
      unfold isIdentifierReference at 1
  | |- Total _ _ (bind (objectPropertyName _) _) _ =>
      unfold objectPropertyName at 1
  | |- Total _ _ (bind (stmtSwitchCases _ _ ErrorToken) _) _ =>
      unfold stmtSwitchCases at 1
  | |- Total _ _ (bind (exprSwitchCases _ _ ErrorToken) _) _ =>
      unfold exprSwitchCases at 1
  | |- Total _ _ (bind (suffixSwitchCases _ ErrorToken _ _ _) _) _ =>
      unfold suffixSwitchCases at 1
  | |- Total _ _ (bind (returnExpr _) _) _ => unfold returnExpr at 1
  | |- Total _ _ (bind (leftExpr _ _) _) _ => unfold leftExpr at 1
  | |- Total _ _ (returnExpr _) _ => unfold returnExpr
  | |- Total _ _ (leftExpr _ _) _ => unfold leftExpr
  | |- Total _ _ (bind (bind _ _) _) _ => apply Tot_assoc
  | |- Total _ Stuck (bind (call _ _) _) _ =>
      eapply Tot_bind;
      [ tot_atom | let H := fresh "HQ" in intros ? ? H; tot_post H; cbv beta ]
  | |- Total _ Stuck (call _ _) _ =>
      eapply Tot_weaken;
      [ tot_atom | let H := fresh "HQ" in intros ? ? H; tot_post H; tot_side ]
  | |- Total _ Stuck (bind (match ?x with _ => _ end) _) _ =>
      first [ tot_norm | destruct x ]
  | |- Total _ Stuck (match ?x with _ => _ end) _ => first [ tot_norm | destruct x ]
  | |- Total _ Stuck (ret _) _ => apply Tot_ret; tot_side
  | |- Total _ Stuck (panic _) _ => apply Tot_panic
  | |- Total _ Stuck _ _ =>
      first [ stuck_unfold
            | eapply Tot_bind;
              [ tot_atom | let H := fresh "HQ" in intros ? ? H; tot_post H; cbv beta ]
            | eapply Tot_weaken;
              [ tot_atom | let H := fresh "HQ" in intros ? ? H; tot_post H; tot_side ] ]
  | |- Total _ _ (bind (match ?x with _ => _ end) _) _ =>
      first [ tot_norm | destruct x ]
  | |- Total _ _ (bind _ _) _ =>
      eapply Tot_bind;
      [ tot_atom | let H := fresh "HQ" in intros ? ? H; tot_post H; cbv beta ]
  | |- Total _ _ (ret _) _ => apply Tot_ret; tot_side
  | |- Total _ _ (panic _) _ => apply Tot_panic
  | |- Total _ _ (match ?x with _ => _ end) _ => first [ tot_norm | destruct x ]
  | |- Total _ _ _ _ =>
      eapply Tot_weaken;
      [ tot_atom | let H := fresh "HQ" in intros ? ? H; tot_post H; tot_side ]
  end.

Ltac tot := repeat tot_step.

(** The parse functions, in the order of the source: from a state without
    error ([Live]) and, for those called at any token, from the error token
    ([Stuck]). *)

Lemma Live_nextLoop n : lv_nextLoop + fuelStep * S n <= N -> Tot (Live n) (nextLoop r : M Lexer _) (fun _ => spent false (Live n)).
Proof. intros Hf; unfold nextLoop; tot. Qed.
#[local] Hint Extern 1 (Total _ (Live _) (nextLoop _) _) => apply Live_nextLoop; fuel_side : tot.
Lemma Stuck_nextLoop : lv_nextLoop + fuelStep * 0 <= N -> Tot Stuck (nextLoop r : M Lexer _) (fun _ => spent false Stuck).
Proof. intros Hf; unfold nextLoop; tot. Qed.

Lemma Live_next n : lv_next + fuelStep * S n <= N -> Tot (Live n) (next r : M Lexer _) (fun _ => spent true (Live n)).
Proof. intros Hf; unfold next; tot. Qed.
#[local] Hint Extern 1 (Total _ (Live _) (next _) _) => apply Live_next; fuel_side : tot.

Lemma Live_consume in_ t n : lv_consume + fuelStep * S n <= N -> Tot (Live n) (consume r in_ t : M Lexer _) (fun ok => consumed ok (Live n)).
Proof. intros Hf; unfold consume; tot. Qed.
#[local] Hint Extern 1 (Total _ (Live _) (consume _ _ _) _) => apply Live_consume; fuel_side : tot.

Lemma Same_curScope (ph : Phase) : Tot ph (curScope : M Lexer _) (fun _ ph' => ph' = ph).
Proof. unfold curScope. tot. Qed.
#[local] Hint Resolve Same_curScope : tot.

Lemma Same_getScope i (ph : Phase) : Tot ph (getScope i : M Lexer _) (fun _ ph' => ph' = ph).
Proof. unfold getScope. tot. Qed.
#[local] Hint Resolve Same_getScope : tot.

Lemma Same_enterScope isFunc (ph : Phase) : Tot ph (enterScope isFunc : M Lexer _) (fun _ ph' => ph' = ph).
Proof. unfold enterScope. tot. Qed.
#[local] Hint Resolve Same_enterScope : tot.

Lemma Same_exitScope parent (ph : Phase) : Tot ph (exitScope parent : M Lexer _) (fun _ ph' => ph' = ph).
Proof. unfold exitScope. tot. Qed.
#[local] Hint Resolve Same_exitScope : tot.

Lemma Same_scopeDeclare decl name (ph : Phase) : Tot ph (scopeDeclare decl name : M Lexer _) (fun _ ph' => ph' = ph).
Proof. unfold scopeDeclare. tot. Qed.
#[local] Hint Resolve Same_scopeDeclare : tot.

Lemma Same_scopeUse name (ph : Phase) : Tot ph (scopeUse name : M Lexer _) (fun _ ph' => ph' = ph).
Proof. unfold scopeUse. tot. Qed.
#[local] Hint Resolve Same_scopeUse : tot.

Lemma Same_scopeMarkArguments (ph : Phase) : Tot ph (scopeMarkArguments : M Lexer _) (fun _ ph' => ph' = ph).
Proof. unfold scopeMarkArguments. tot. Qed.
#[local] Hint Resolve Same_scopeMarkArguments : tot.

Lemma Same_astAddVar decl name (ph : Phase) : Tot ph (astAddVar decl name : M Lexer _) (fun _ ph' => ph' = ph).
Proof. unfold astAddVar. tot. Qed.
#[local] Hint Resolve Same_astAddVar : tot.

Lemma Live_parseModuleLoop list_ n : lv_parseModuleLoop + fuelStep * S n <= N -> Tot (Live n) (parseModuleLoop r list_ : M Lexer _) (fun _ => spent false (Live n)).
Proof. intros Hf; unfold parseModuleLoop; tot. Qed.
#[local] Hint Extern 1 (Total _ (Live _) (parseModuleLoop _ _) _) => apply Live_parseModuleLoop; fuel_side : tot.
Lemma Stuck_parseModuleLoop list_ : lv_parseModuleLoop + fuelStep * 0 <= N -> Tot Stuck (parseModuleLoop r list_ : M Lexer _) (fun _ => spent false Stuck).
Proof. intros Hf; unfold parseModuleLoop; tot. Qed.

Lemma Same_returned stmt (ph : Phase) : Tot ph (returned stmt : M Lexer _) (fun _ ph' => ph' = ph).
Proof. unfold returned. tot. Qed.
#[local] Hint Resolve Same_returned : tot.

Lemma Same_falls stmt (ph : Phase) : Tot ph (falls stmt : M Lexer _) (fun _ ph' => ph' = ph).
Proof. unfold falls. tot. Qed.
#[local] Hint Resolve Same_falls : tot.

Lemma Live_terminated in_ stmt n : lv_terminated + fuelStep * S n <= N -> Tot (Live n) (terminated in_ stmt : M Lexer _) (fun _ => spent false (Live n)).
Proof. intros Hf; unfold terminated; tot. Qed.
#[local] Hint Extern 1 (Total _ (Live _) (terminated _ _) _) => apply Live_terminated; fuel_side : tot.

Lemma Live_stmtBlock n : lv_stmtBlock + fuelStep * S n <= N -> Tot (Live n) (stmtBlock r : M Lexer _) (fun _ => spent true (Live n)).
Proof. intros Hf; unfold stmtBlock; tot. Qed.
#[local] Hint Extern 1 (Total _ (Live _) (stmtBlock _) _) => apply Live_stmtBlock; fuel_side : tot.

Lemma Live_stmtVar allowDeclaration t n : lv_stmtVar + fuelStep * S n <= N -> Tot (Live n) (stmtVar r allowDeclaration t : M Lexer _) (fun _ => spent true (Live n)).
Proof. intros Hf; unfold stmtVar; tot. Qed.
#[local] Hint Extern 1 (Total _ (Live _) (stmtVar _ _ _) _) => apply Live_stmtVar; fuel_side : tot.

Lemma Live_stmtLet allowDeclaration t n : lv_stmtLet + fuelStep * S n <= N -> Tot (Live n) (stmtLet r allowDeclaration t : M Lexer _) (fun _ => spent true (Live n)).
Proof. intros Hf; unfold stmtLet; tot. Qed.
#[local] Hint Extern 1 (Total _ (Live _) (stmtLet _ _ _) _) => apply Live_stmtLet; fuel_side : tot.

Lemma Live_stmtIf n : lv_stmtIf + fuelStep * S n <= N -> Tot (Live n) (stmtIf r : M Lexer _) (fun _ => spent true (Live n)).
Proof. intros Hf; unfold stmtIf; tot. Qed.
#[local] Hint Extern 1 (Total _ (Live _) (stmtIf _) _) => apply Live_stmtIf; fuel_side : tot.

Lemma Live_stmtBranch n : lv_stmtBranch + fuelStep * S n <= N -> Tot (Live n) (stmtBranch r : M Lexer _) (fun _ => spent true (Live n)).
Proof. intros Hf; unfold stmtBranch; tot. Qed.
#[local] Hint Extern 1 (Total _ (Live _) (stmtBranch _) _) => apply Live_stmtBranch; fuel_side : tot.

Lemma Live_stmtReturn n : lv_stmtReturn + fuelStep * S n <= N -> Tot (Live n) (stmtReturn r : M Lexer _) (fun _ => spent true (Live n)).
Proof. intros Hf; unfold stmtReturn; tot. Qed.
#[local] Hint Extern 1 (Total _ (Live _) (stmtReturn _) _) => apply Live_stmtReturn; fuel_side : tot.

Lemma Live_stmtWith n : lv_stmtWith + fuelStep * S n <= N -> Tot (Live n) (stmtWith r : M Lexer _) (fun _ => spent true (Live n)).
Proof. intros Hf; unfold stmtWith; tot. Qed.
#[local] Hint Extern 1 (Total _ (Live _) (stmtWith _) _) => apply Live_stmtWith; fuel_side : tot.

Lemma Live_stmtDo n : lv_stmtDo + fuelStep * S n <= N -> Tot (Live n) (stmtDo r : M Lexer _) (fun _ => spent true (Live n)).
Proof. intros Hf; unfold stmtDo; tot. Qed.
#[local] Hint Extern 1 (Total _ (Live _) (stmtDo _) _) => apply Live_stmtDo; fuel_side : tot.

Lemma Live_stmtWhile n : lv_stmtWhile + fuelStep * S n <= N -> Tot (Live n) (stmtWhile r : M Lexer _) (fun _ => spent true (Live n)).
Proof. intros Hf; unfold stmtWhile; tot. Qed.
#[local] Hint Extern 1 (Total _ (Live _) (stmtWhile _) _) => apply Live_stmtWhile; fuel_side : tot.

Lemma Live_forInitExpr n : lv_forInitExpr + fuelStep * S n <= N -> Tot (Live n) (forInitExpr r : M Lexer _) (fun _ => spent false (Live n)).
Proof. intros Hf; unfold forInitExpr; tot. Qed.
#[local] Hint Extern 1 (Total _ (Live _) (forInitExpr _) _) => apply Live_forInitExpr; fuel_side : tot.

Lemma Live_forInit n : lv_forInit + fuelStep * S n <= N -> Tot (Live n) (forInit r : M Lexer _) (fun _ => spent false (Live n)).
Proof. intros Hf; unfold forInit; tot. Qed.
#[local] Hint Extern 1 (Total _ (Live _) (forInit _) _) => apply Live_forInit; fuel_side : tot.

Lemma Live_forRest await init n : lv_forRest + fuelStep * S n <= N -> Tot (Live n) (forRest r await init : M Lexer _) (fun _ => spent true (Live n)).
Proof. intros Hf; unfold forRest; tot. Qed.
#[local] Hint Extern 1 (Total _ (Live _) (forRest _ _ _) _) => apply Live_forRest; fuel_side : tot.

Lemma Live_stmtFor n : lv_stmtFor + fuelStep * S n <= N -> Tot (Live n) (stmtFor r : M Lexer _) (fun _ => spent true (Live n)).
Proof. intros Hf; unfold stmtFor; tot. Qed.
#[local] Hint Extern 1 (Total _ (Live _) (stmtFor _) _) => apply Live_stmtFor; fuel_side : tot.

Lemma Live_switchStmtsLoop stmts n : lv_switchStmtsLoop + fuelStep * S n <= N -> Tot (Live n) (switchStmtsLoop r stmts : M Lexer _) (fun _ => spent false (Live n)).
Proof. intros Hf; unfold switchStmtsLoop; tot. Qed.
#[local] Hint Extern 1 (Total _ (Live _) (switchStmtsLoop _ _) _) => apply Live_switchStmtsLoop; fuel_side : tot.
Lemma Stuck_switchStmtsLoop stmts : lv_switchStmtsLoop + fuelStep * 0 <= N -> Tot Stuck (switchStmtsLoop r stmts : M Lexer _) (fun _ => spent false Stuck).
Proof. intros Hf; unfold switchStmtsLoop; tot. Qed.

Lemma Live_switchClausesLoop clauses n : lv_switchClausesLoop + fuelStep * S n <= N -> Tot (Live n) (switchClausesLoop r clauses : M Lexer _) (fun _ => spent true (Live n)).
Proof. intros Hf; unfold switchClausesLoop; tot. Qed.
#[local] Hint Extern 1 (Total _ (Live _) (switchClausesLoop _ _) _) => apply Live_switchClausesLoop; fuel_side : tot.
Lemma Stuck_switchClausesLoop clauses : lv_switchClausesLoop + fuelStep * 0 <= N -> Tot Stuck (switchClausesLoop r clauses : M Lexer _) (fun _ => spent true Stuck).
Proof. intros Hf; unfold switchClausesLoop; tot. Qed.

Lemma Live_stmtSwitch n : lv_stmtSwitch + fuelStep * S n <= N -> Tot (Live n) (stmtSwitch r : M Lexer _) (fun _ => spent true (Live n)).
Proof. intros Hf; unfold stmtSwitch; tot. Qed.
#[local] Hint Extern 1 (Total _ (Live _) (stmtSwitch _) _) => apply Live_stmtSwitch; fuel_side : tot.

Lemma Live_stmtFunction allowDeclaration n : lv_stmtFunction + fuelStep * S n <= N -> Tot (Live n) (stmtFunction r allowDeclaration : M Lexer _) (fun _ => spent true (Live n)).
Proof. intros Hf; unfold stmtFunction; tot. Qed.
#[local] Hint Extern 1 (Total _ (Live _) (stmtFunction _ _) _) => apply Live_stmtFunction; fuel_side : tot.

Lemma Live_stmtAsync allowDeclaration n : lv_stmtAsync + fuelStep * S n <= N -> Tot (Live n) (stmtAsync r allowDeclaration : M Lexer _) (fun _ => spent true (Live n)).
Proof. intros Hf; unfold stmtAsync; tot. Qed.
#[local] Hint Extern 1 (Total _ (Live _) (stmtAsync _ _) _) => apply Live_stmtAsync; fuel_side : tot.

Lemma Live_stmtClass allowDeclaration n : lv_stmtClass + fuelStep * S n <= N -> Tot (Live n) (stmtClass r allowDeclaration : M Lexer _) (fun _ => spent true (Live n)).
Proof. intros Hf; unfold stmtClass; tot. Qed.
#[local] Hint Extern 1 (Total _ (Live _) (stmtClass _ _) _) => apply Live_stmtClass; fuel_side : tot.

Lemma Live_stmtThrow n : lv_stmtThrow + fuelStep * S n <= N -> Tot (Live n) (stmtThrow r : M Lexer _) (fun _ => spent true (Live n)).
Proof. intros Hf; unfold stmtThrow; tot. Qed.
#[local] Hint Extern 1 (Total _ (Live _) (stmtThrow _) _) => apply Live_stmtThrow; fuel_side : tot.

Lemma Live_stmtTry n : lv_stmtTry + fuelStep * S n <= N -> Tot (Live n) (stmtTry r : M Lexer _) (fun _ => spent true (Live n)).
Proof. intros Hf; unfold stmtTry; tot. Qed.
#[local] Hint Extern 1 (Total _ (Live _) (stmtTry _) _) => apply Live_stmtTry; fuel_side : tot.

Lemma Live_stmtDefault n : lv_stmtDefault + fuelStep * S n <= N -> Tot (Live n) (stmtDefault r : M Lexer _) (fun _ => spent true (Live n)).
Proof. intros Hf; unfold stmtDefault; tot. Qed.
#[local] Hint Extern 1 (Total _ (Live _) (stmtDefault _) _) => apply Live_stmtDefault; fuel_side : tot.

Lemma Live_stmtSwitchCases allowDeclaration t n : lv_stmtSwitchCases + fuelStep * S n <= N -> t <> SemicolonToken -> t <> ErrorToken -> Tot (Live n) (stmtSwitchCases r allowDeclaration t : M Lexer _) (fun _ => spent true (Live n)).
Proof. intros Hf Ht He. unfold stmtSwitchCases. destruct t; try congruence; tot. Qed.
#[local] Hint Extern 1 (Total _ (Live _) (stmtSwitchCases _ _ _) _) => apply Live_stmtSwitchCases; [ fuel_side | assumption | assumption ] : tot.

Lemma Live_parseStmt allowDeclaration n : lv_parseStmt + fuelStep * S n <= N -> Tot (Live n) (parseStmt r allowDeclaration : M Lexer _) (fun _ => spent true (Live n)).
Proof.
  intros Hf p Hp. destruct (tt_eqb (tt p) SemicolonToken) eqn:E.
  - assert (Hs : Tot (Live n) (bind (next r) (fun _ => ret EmptyStmt))
                     (fun _ => spent true (Live n))) by tot.
    specialize (Hs p Hp). apply tt_eqb_eq in E.
    assert (Eq : parseStmt r allowDeclaration p
                 = bind (next r) (fun _ => ret EmptyStmt) p).
    { unfold parseStmt, bind, gets. rewrite E. cbn [stmtSwitchCases].
      unfold falls, ret. rewrite E. cbn [tt_eqb TokenCode.code Nat.eqb]. reflexivity. }
    rewrite Eq. exact Hs.
  - destruct (tt_eqb (tt p) ErrorToken) eqn:E'.
    + apply tt_eqb_eq in E'. right. exists EmptyStmt, p, Stuck.
      split; [ | split; [exact E' | exact I] ].
      unfold parseStmt, bind, gets. rewrite E'.
      cbn [stmtSwitchCases]. unfold falls, ret, skip. rewrite E'. reflexivity.
    + apply tt_eqb_neq in E. apply tt_eqb_neq in E'.
      unfold parseStmt. rewrite bind_gets_run.
      revert Hp. generalize (tt p) E E'. clear E E'. intros t Ht Ht'. revert p.
      lazymatch goal with
      | |- forall p, in_phase _ _ p -> (exists msg, ?m p = _) \/ _ =>
          change (Tot (Live n) m (fun _ => spent true (Live n)))
      end.
      tot.
Qed.
#[local] Hint Extern 1 (Total _ (Live _) (parseStmt _ _) _) => apply Live_parseStmt; fuel_side : tot.
Lemma Stuck_parseStmt allowDeclaration : lv_parseStmt + fuelStep * 0 <= N -> Tot Stuck (parseStmt r allowDeclaration : M Lexer _) (fun _ => spent true Stuck).
Proof. intros Hf; unfold parseStmt; tot. Qed.

Lemma Live_blockStmtLoop list_ n : lv_blockStmtLoop + fuelStep * S n <= N -> Tot (Live n) (blockStmtLoop r list_ : M Lexer _) (fun _ => spent true (Live n)).
Proof. intros Hf; unfold blockStmtLoop; tot. Qed.
#[local] Hint Extern 1 (Total _ (Live _) (blockStmtLoop _ _) _) => apply Live_blockStmtLoop; fuel_side : tot.
Lemma Stuck_blockStmtLoop list_ : lv_blockStmtLoop + fuelStep * 0 <= N -> Tot Stuck (blockStmtLoop r list_ : M Lexer _) (fun _ => spent true Stuck).
Proof. intros Hf; unfold blockStmtLoop; tot. Qed.

Lemma Live_parseBlockStmt in_ enterContext n : lv_parseBlockStmt + fuelStep * S n <= N -> Tot (Live n) (parseBlockStmt r in_ enterContext : M Lexer _) (fun _ => spent true (Live n)).
Proof. intros Hf; unfold parseBlockStmt; tot. Qed.
#[local] Hint Extern 1 (Total _ (Live _) (parseBlockStmt _ _ _) _) => apply Live_parseBlockStmt; fuel_side : tot.
Lemma Stuck_parseBlockStmt in_ enterContext : lv_parseBlockStmt + fuelStep * 0 <= N -> Tot Stuck (parseBlockStmt r in_ enterContext : M Lexer _) (fun _ => spent true Stuck).
Proof. intros Hf; unfold parseBlockStmt; tot. Qed.

Lemma Live_importListLoop list_ n : lv_importListLoop + fuelStep * S n <= N -> Tot (Live n) (importListLoop r list_ : M Lexer _) (fun _ => spent false (Live n)).
Proof. intros Hf; unfold importListLoop; tot. Qed.
#[local] Hint Extern 1 (Total _ (Live _) (importListLoop _ _) _) => apply Live_importListLoop; fuel_side : tot.
Lemma Stuck_importListLoop list_ : lv_importListLoop + fuelStep * 0 <= N -> Tot Stuck (importListLoop r list_ : M Lexer _) (fun _ => spent false Stuck).
Proof. intros Hf; unfold importListLoop; tot. Qed.

Lemma Live_importClause n : lv_importClause + fuelStep * S n <= N -> Tot (Live n) (importClause r : M Lexer _) (fun _ => spent true (Live n)).
Proof. intros Hf; unfold importClause; tot. Qed.
#[local] Hint Extern 1 (Total _ (Live _) (importClause _) _) => apply Live_importClause; fuel_side : tot.

Lemma Live_parseImportStmt n : lv_parseImportStmt + fuelStep * S n <= N -> Tot (Live n) (parseImportStmt r : M Lexer _) (fun _ => spent true (Live n)).
Proof. intros Hf; unfold parseImportStmt; tot. Qed.
#[local] Hint Extern 1 (Total _ (Live _) (parseImportStmt _) _) => apply Live_parseImportStmt; fuel_side : tot.

Lemma Live_exportListLoop list_ n : lv_exportListLoop + fuelStep * S n <= N -> Tot (Live n) (exportListLoop r list_ : M Lexer _) (fun _ => spent false (Live n)).
Proof. intros Hf; unfold exportListLoop; tot. Qed.
#[local] Hint Extern 1 (Total _ (Live _) (exportListLoop _ _) _) => apply Live_exportListLoop; fuel_side : tot.
Lemma Stuck_exportListLoop list_ : lv_exportListLoop + fuelStep * 0 <= N -> Tot Stuck (exportListLoop r list_ : M Lexer _) (fun _ => spent false Stuck).
Proof. intros Hf; unfold exportListLoop; tot. Qed.

Lemma Live_exportList n : lv_exportList + fuelStep * S n <= N -> Tot (Live n) (exportList r : M Lexer _) (fun _ => spent true (Live n)).
Proof. intros Hf; unfold exportList; tot. Qed.
#[local] Hint Extern 1 (Total _ (Live _) (exportList _) _) => apply Live_exportList; fuel_side : tot.

Lemma Live_exportDefault n : lv_exportDefault + fuelStep * S n <= N -> Tot (Live n) (exportDefault r : M Lexer _) (fun _ => spent true (Live n)).
Proof. intros Hf; unfold exportDefault; tot. Qed.
#[local] Hint Extern 1 (Total _ (Live _) (exportDefault _) _) => apply Live_exportDefault; fuel_side : tot.

Lemma Live_parseExportStmt n : lv_parseExportStmt + fuelStep * S n <= N -> Tot (Live n) (parseExportStmt r : M Lexer _) (fun _ => spent true (Live n)).
Proof. intros Hf; unfold parseExportStmt; tot. Qed.
#[local] Hint Extern 1 (Total _ (Live _) (parseExportStmt _) _) => apply Live_parseExportStmt; fuel_side : tot.

Lemma Live_varDeclLoop declType list_ n : lv_varDeclLoop + fuelStep * S n <= N -> Tot (Live n) (varDeclLoop r declType list_ : M Lexer _) (fun _ => spent true (Live n)).
Proof. intros Hf; unfold varDeclLoop; tot. Qed.
#[local] Hint Extern 1 (Total _ (Live _) (varDeclLoop _ _ _) _) => apply Live_varDeclLoop; fuel_side : tot.
Lemma Stuck_varDeclLoop declType list_ : lv_varDeclLoop + fuelStep * 0 <= N -> Tot Stuck (varDeclLoop r declType list_ : M Lexer _) (fun _ => spent true Stuck).
Proof. intros Hf; unfold varDeclLoop; tot. Qed.

Lemma Live_parseVarDecl t n : lv_parseVarDecl + fuelStep * S n <= N -> Tot (Live n) (parseVarDecl r t : M Lexer _) (fun _ => spent true (Live n)).
Proof. intros Hf; unfold parseVarDecl; tot. Qed.
#[local] Hint Extern 1 (Total _ (Live _) (parseVarDecl _ _) _) => apply Live_parseVarDecl; fuel_side : tot.
Lemma Stuck_parseVarDecl t : lv_parseVarDecl + fuelStep * 0 <= N -> Tot Stuck (parseVarDecl r t : M Lexer _) (fun _ => spent true Stuck).
Proof. intros Hf; unfold parseVarDecl; tot. Qed.

Lemma Live_funcParamsLoop in_ list_ n : lv_funcParamsLoop + fuelStep * S n <= N -> Tot (Live n) (funcParamsLoop r in_ list_ : M Lexer _) (fun _ => spent false (Live n)).
Proof. intros Hf; unfold funcParamsLoop; tot. Qed.
#[local] Hint Extern 1 (Total _ (Live _) (funcParamsLoop _ _ _) _) => apply Live_funcParamsLoop; fuel_side : tot.
Lemma Stuck_funcParamsLoop in_ list_ : lv_funcParamsLoop + fuelStep * 0 <= N -> Tot Stuck (funcParamsLoop r in_ list_ : M Lexer _) (fun _ => spent false Stuck).
Proof. intros Hf; unfold funcParamsLoop; tot. Qed.

Lemma Live_parseFuncParams in_ n : lv_parseFuncParams + fuelStep * S n <= N -> Tot (Live n) (parseFuncParams r in_ : M Lexer _) (fun _ => spent true (Live n)).
Proof. intros Hf; unfold parseFuncParams; tot. Qed.
#[local] Hint Extern 1 (Total _ (Live _) (parseFuncParams _ _) _) => apply Live_parseFuncParams; fuel_side : tot.
Lemma Stuck_parseFuncParams in_ : lv_parseFuncParams + fuelStep * 0 <= N -> Tot Stuck (parseFuncParams r in_ : M Lexer _) (fun _ => spent true Stuck).
Proof. intros Hf; unfold parseFuncParams; tot. Qed.

Lemma Live_parseAnyFunc async_ inExpr n : lv_parseAnyFunc + fuelStep * S n <= N -> Tot (Live n) (parseAnyFunc r async_ inExpr : M Lexer _) (fun _ => spent true (Live n)).
Proof. intros Hf; unfold parseAnyFunc; tot. Qed.
#[local] Hint Extern 1 (Total _ (Live _) (parseAnyFunc _ _ _) _) => apply Live_parseAnyFunc; fuel_side : tot.

Lemma Live_classMethodsLoop methods n : lv_classMethodsLoop + fuelStep * S n <= N -> Tot (Live n) (classMethodsLoop r methods : M Lexer _) (fun _ => spent true (Live n)).
Proof. intros Hf; unfold classMethodsLoop; tot. Qed.
#[local] Hint Extern 1 (Total _ (Live _) (classMethodsLoop _ _) _) => apply Live_classMethodsLoop; fuel_side : tot.
Lemma Stuck_classMethodsLoop methods : lv_classMethodsLoop + fuelStep * 0 <= N -> Tot Stuck (classMethodsLoop r methods : M Lexer _) (fun _ => spent true Stuck).
Proof. intros Hf; unfold classMethodsLoop; tot. Qed.

Lemma Live_parseAnyClass inExpr n : lv_parseAnyClass + fuelStep * S n <= N -> Tot (Live n) (parseAnyClass r inExpr : M Lexer _) (fun _ => spent true (Live n)).
Proof. intros Hf; unfold parseAnyClass; tot. Qed.
#[local] Hint Extern 1 (Total _ (Live _) (parseAnyClass _ _) _) => apply Live_parseAnyClass; fuel_side : tot.

Lemma Live_methodModifiers n : lv_methodModifiers + fuelStep * S n <= N -> Tot (Live n) (methodModifiers r : M Lexer _) (fun _ => spent false (Live n)).
Proof. intros Hf; unfold methodModifiers; tot. Qed.
#[local] Hint Extern 1 (Total _ (Live _) (methodModifiers _) _) => apply Live_methodModifiers; fuel_side : tot.

Lemma Live_parseMethod n : lv_parseMethod + fuelStep * S n <= N -> Tot (Live n) (parseMethod r : M Lexer _) (fun _ => spent true (Live n)).
Proof. intros Hf; unfold parseMethod; tot. Qed.
#[local] Hint Extern 1 (Total _ (Live _) (parseMethod _) _) => apply Live_parseMethod; fuel_side : tot.
Lemma Stuck_parseMethod : lv_parseMethod + fuelStep * 0 <= N -> Tot Stuck (parseMethod r : M Lexer _) (fun _ => spent true Stuck).
Proof. intros Hf; unfold parseMethod; tot. Qed.

Lemma Live_parsePropertyName in_ n : lv_parsePropertyName + fuelStep * S n <= N -> Tot (Live n) (parsePropertyName r in_ : M Lexer _) (fun _ => spent true (Live n)).
Proof. intros Hf; unfold parsePropertyName; tot. Qed.
#[local] Hint Extern 1 (Total _ (Live _) (parsePropertyName _ _) _) => apply Live_parsePropertyName; fuel_side : tot.
Lemma Stuck_parsePropertyName in_ : lv_parsePropertyName + fuelStep * 0 <= N -> Tot Stuck (parsePropertyName r in_ : M Lexer _) (fun _ => spent true Stuck).
Proof. intros Hf; unfold parsePropertyName; tot. Qed.

Lemma Live_parseBindingElement decl n : lv_parseBindingElement + fuelStep * S n <= N -> Tot (Live n) (parseBindingElement r decl : M Lexer _) (fun _ => spent true (Live n)).
Proof. intros Hf; unfold parseBindingElement; tot. Qed.
#[local] Hint Extern 1 (Total _ (Live _) (parseBindingElement _ _) _) => apply Live_parseBindingElement; fuel_side : tot.
Lemma Stuck_parseBindingElement decl : lv_parseBindingElement + fuelStep * 0 <= N -> Tot Stuck (parseBindingElement r decl : M Lexer _) (fun _ => spent true Stuck).
Proof. intros Hf; unfold parseBindingElement; tot. Qed.

Lemma Live_bindingElisionLoop list_ n : lv_bindingElisionLoop + fuelStep * S n <= N -> Tot (Live n) (bindingElisionLoop r list_ : M Lexer _) (fun _ => spent false (Live n)).
Proof. intros Hf; unfold bindingElisionLoop; tot. Qed.
#[local] Hint Extern 1 (Total _ (Live _) (bindingElisionLoop _ _) _) => apply Live_bindingElisionLoop; fuel_side : tot.
Lemma Stuck_bindingElisionLoop list_ : lv_bindingElisionLoop + fuelStep * 0 <= N -> Tot Stuck (bindingElisionLoop r list_ : M Lexer _) (fun _ => spent false Stuck).
Proof. intros Hf; unfold bindingElisionLoop; tot. Qed.

Lemma Live_bindingArrayLoop decl list_ n : lv_bindingArrayLoop + fuelStep * S n <= N -> Tot (Live n) (bindingArrayLoop r decl list_ : M Lexer _) (fun x ph' => spent false (Live n) ph' /\ holdsSome x ph').
Proof. intros Hf; unfold bindingArrayLoop; tot. Qed.
#[local] Hint Extern 1 (Total _ (Live _) (bindingArrayLoop _ _ _) _) => apply Live_bindingArrayLoop; fuel_side : tot.
Lemma Stuck_bindingArrayLoop decl list_ : lv_bindingArrayLoop + fuelStep * 0 <= N -> Tot Stuck (bindingArrayLoop r decl list_ : M Lexer _) (fun x ph' => spent false Stuck ph' /\ holdsSome x ph').
Proof. intros Hf; unfold bindingArrayLoop; tot. Qed.

Lemma Live_bindingObjectItem decl n : lv_bindingObjectItem + fuelStep * S n <= N -> Tot (Live n) (bindingObjectItem r decl : M Lexer _) (fun _ => spent true (Live n)).
Proof. intros Hf; unfold bindingObjectItem; tot. Qed.
#[local] Hint Extern 1 (Total _ (Live _) (bindingObjectItem _ _) _) => apply Live_bindingObjectItem; fuel_side : tot.

Lemma Live_bindingObjectLoop decl list_ n : lv_bindingObjectLoop + fuelStep * S n <= N -> Tot (Live n) (bindingObjectLoop r decl list_ : M Lexer _) (fun x ph' => spent false (Live n) ph' /\ holdsSome x ph').
Proof. intros Hf; unfold bindingObjectLoop; tot. Qed.
#[local] Hint Extern 1 (Total _ (Live _) (bindingObjectLoop _ _ _) _) => apply Live_bindingObjectLoop; fuel_side : tot.
Lemma Stuck_bindingObjectLoop decl list_ : lv_bindingObjectLoop + fuelStep * 0 <= N -> Tot Stuck (bindingObjectLoop r decl list_ : M Lexer _) (fun x ph' => spent false Stuck ph' /\ holdsSome x ph').
Proof. intros Hf; unfold bindingObjectLoop; tot. Qed.

Lemma Live_parseBinding decl n : lv_parseBinding + fuelStep * S n <= N -> Tot (Live n) (parseBinding r decl : M Lexer _) (fun _ => spent true (Live n)).
Proof. intros Hf; unfold parseBinding; tot. Qed.
#[local] Hint Extern 1 (Total _ (Live _) (parseBinding _ _) _) => apply Live_parseBinding; fuel_side : tot.
Lemma Stuck_parseBinding decl : lv_parseBinding + fuelStep * 0 <= N -> Tot Stuck (parseBinding r decl : M Lexer _) (fun _ => spent true Stuck).
Proof. intros Hf; unfold parseBinding; tot. Qed.

Lemma Live_arrayLiteralLoop prevComma list_ n : lv_arrayLiteralLoop + fuelStep * S n <= N -> Tot (Live n) (arrayLiteralLoop r prevComma list_ : M Lexer _) (fun _ => spent true (Live n)).
Proof. intros Hf; unfold arrayLiteralLoop; tot. Qed.
#[local] Hint Extern 1 (Total _ (Live _) (arrayLiteralLoop _ _ _) _) => apply Live_arrayLiteralLoop; fuel_side : tot.
Lemma Stuck_arrayLiteralLoop prevComma list_ : lv_arrayLiteralLoop + fuelStep * 0 <= N -> Tot Stuck (arrayLiteralLoop r prevComma list_ : M Lexer _) (fun _ => spent true Stuck).
Proof. intros Hf; unfold arrayLiteralLoop; tot. Qed.

Lemma Live_parseArrayLiteral n : lv_parseArrayLiteral + fuelStep * S n <= N -> Tot (Live n) (parseArrayLiteral r : M Lexer _) (fun _ => spent true (Live n)).
Proof. intros Hf; unfold parseArrayLiteral; tot. Qed.
#[local] Hint Extern 1 (Total _ (Live _) (parseArrayLiteral _) _) => apply Live_parseArrayLiteral; fuel_side : tot.

Ltac prop_norm :=
  progress (cbn [mData mGenerator litTokenType propertyNameLiteral zeroPropertyName
                 zeroLiteral];
            rewrite ?Hid;
            change (tt_eqb ErrorToken YieldToken) with false;
            change (tt_eqb ErrorToken AwaitToken) with false;
            cbn [negb andb orb]; rewrite ?orb_true_r; cbn [negb andb orb]).
Lemma Live_objectProperty n : lv_objectProperty + fuelStep * S n <= N -> Tot (Live n) (objectProperty r : M Lexer _) (fun x => gained x (Live n)).
Proof. intros Hf. unfold objectProperty. repeat (first [ prop_norm | tot_step ]). Qed.
#[local] Hint Extern 1 (Total _ (Live _) (objectProperty _) _) => apply Live_objectProperty; fuel_side : tot.

Lemma Live_objectLiteralLoop list_ n : lv_objectLiteralLoop + fuelStep * S n <= N -> Tot (Live n) (objectLiteralLoop r list_ : M Lexer _) (fun _ => spent false (Live n)).
Proof. intros Hf; unfold objectLiteralLoop; tot. Qed.
#[local] Hint Extern 1 (Total _ (Live _) (objectLiteralLoop _ _) _) => apply Live_objectLiteralLoop; fuel_side : tot.
Lemma Stuck_objectLiteralLoop list_ : lv_objectLiteralLoop + fuelStep * 0 <= N -> Tot Stuck (objectLiteralLoop r list_ : M Lexer _) (fun _ => spent false Stuck).
Proof. intros Hf; unfold objectLiteralLoop; tot. Qed.

Lemma Live_parseObjectLiteral n : lv_parseObjectLiteral + fuelStep * S n <= N -> Tot (Live n) (parseObjectLiteral r : M Lexer _) (fun _ => spent true (Live n)).
Proof. intros Hf; unfold parseObjectLiteral; tot. Qed.
#[local] Hint Extern 1 (Total _ (Live _) (parseObjectLiteral _) _) => apply Live_parseObjectLiteral; fuel_side : tot.

Lemma Live_parseTemplateLiteral n : lv_parseTemplateLiteral + fuelStep * S n <= N -> Tot (Live n) (parseTemplateLiteral r : M Lexer _) (fun _ => spent true (Live n)).
Proof. intros Hf; unfold parseTemplateLiteral; tot. Qed.
#[local] Hint Extern 1 (Total _ (Live _) (parseTemplateLiteral _) _) => apply Live_parseTemplateLiteral; fuel_side : tot.

Lemma Live_argsLoop list_ n : lv_argsLoop + fuelStep * S n <= N -> Tot (Live n) (argsLoop r list_ : M Lexer _) (fun _ => spent false (Live n)).
Proof. intros Hf; unfold argsLoop; tot. Qed.
#[local] Hint Extern 1 (Total _ (Live _) (argsLoop _ _) _) => apply Live_argsLoop; fuel_side : tot.
Lemma Stuck_argsLoop list_ : lv_argsLoop + fuelStep * 0 <= N -> Tot Stuck (argsLoop r list_ : M Lexer _) (fun _ => spent false Stuck).
Proof. intros Hf; unfold argsLoop; tot. Qed.

Lemma Live_parseArgs n : lv_parseArgs + fuelStep * S n <= N -> Tot (Live n) (parseArgs r : M Lexer _) (fun _ => spent true (Live n)).
Proof. intros Hf; unfold parseArgs; tot. Qed.
#[local] Hint Extern 1 (Total _ (Live _) (parseArgs _) _) => apply Live_parseArgs; fuel_side : tot.

Lemma Live_parseArrowFuncBody n : lv_parseArrowFuncBody + fuelStep * S n <= N -> Tot (Live n) (parseArrowFuncBody r : M Lexer _) (fun _ => spent true (Live n)).
Proof. intros Hf; unfold parseArrowFuncBody; tot. Qed.
#[local] Hint Extern 1 (Total _ (Live _) (parseArrowFuncBody _) _) => apply Live_parseArrowFuncBody; fuel_side : tot.
Lemma Stuck_parseArrowFuncBody : lv_parseArrowFuncBody + fuelStep * 0 <= N -> Tot Stuck (parseArrowFuncBody r : M Lexer _) (fun _ => spent true Stuck).
Proof. intros Hf; unfold parseArrowFuncBody; tot. Qed.

Lemma Live_parseAsyncArrowFunc n : lv_parseAsyncArrowFunc + fuelStep * S n <= N -> Tot (Live n) (parseAsyncArrowFunc r : M Lexer _) (fun _ => spent true (Live n)).
Proof. intros Hf; unfold parseAsyncArrowFunc; tot. Qed.
#[local] Hint Extern 1 (Total _ (Live _) (parseAsyncArrowFunc _) _) => apply Live_parseAsyncArrowFunc; fuel_side : tot.
Lemma Stuck_parseAsyncArrowFunc : lv_parseAsyncArrowFunc + fuelStep * 0 <= N -> Tot Stuck (parseAsyncArrowFunc r : M Lexer _) (fun _ => spent true Stuck).
Proof. intros Hf; unfold parseAsyncArrowFunc; tot. Qed.

Lemma Same_detachIdentifier ref (ph : Phase) : Tot ph (detachIdentifier ref : M Lexer _) (fun _ ph' => ph' = ph).
Proof. unfold detachIdentifier. tot. Qed.
#[local] Hint Resolve Same_detachIdentifier : tot.

Lemma Live_parseIdentifierArrowFunc ref n : lv_parseIdentifierArrowFunc + fuelStep * S n <= N -> Tot (Live n) (parseIdentifierArrowFunc r ref : M Lexer _) (fun _ => spent true (Live n)).
Proof. intros Hf; unfold parseIdentifierArrowFunc; tot. Qed.
#[local] Hint Extern 1 (Total _ (Live _) (parseIdentifierArrowFunc _ _) _) => apply Live_parseIdentifierArrowFunc; fuel_side : tot.
Lemma Stuck_parseIdentifierArrowFunc ref : lv_parseIdentifierArrowFunc + fuelStep * 0 <= N -> Tot Stuck (parseIdentifierArrowFunc r ref : M Lexer _) (fun _ => spent true Stuck).
Proof. intros Hf; unfold parseIdentifierArrowFunc; tot. Qed.

Lemma Live_parseIdentifierExpression prec ident n : lv_parseIdentifierExpression + fuelStep * S n <= N -> Tot (Live n) (parseIdentifierExpression r prec ident : M Lexer _) (fun _ => spent false (Live n)).
Proof. intros Hf; unfold parseIdentifierExpression; tot. Qed.
#[local] Hint Extern 1 (Total _ (Live _) (parseIdentifierExpression _ _ _) _) => apply Live_parseIdentifierExpression; fuel_side : tot.
Lemma Stuck_parseIdentifierExpression prec ident : lv_parseIdentifierExpression + fuelStep * 0 <= N -> Tot Stuck (parseIdentifierExpression r prec ident : M Lexer _) (fun _ => spent false Stuck).
Proof. intros Hf; unfold parseIdentifierExpression; tot. Qed.

Lemma Live_parseAsyncExpression prec async_ n : lv_parseAsyncExpression + fuelStep * S n <= N -> Tot (Live n) (parseAsyncExpression r prec async_ : M Lexer _) (fun _ => spent false (Live n)).
Proof. intros Hf; unfold parseAsyncExpression; tot. Qed.
#[local] Hint Extern 1 (Total _ (Live _) (parseAsyncExpression _ _ _) _) => apply Live_parseAsyncExpression; fuel_side : tot.
Lemma Stuck_parseAsyncExpression prec async_ : lv_parseAsyncExpression + fuelStep * 0 <= N -> Tot Stuck (parseAsyncExpression r prec async_ : M Lexer _) (fun _ => spent false Stuck).
Proof. intros Hf; unfold parseAsyncExpression; tot. Qed.

Lemma Live_exprUnary prec limit op n : lv_exprUnary + fuelStep * S n <= N -> Tot (Live n) (exprUnary r prec limit op : M Lexer _) (fun _ => spent true (Live n)).
Proof. intros Hf; unfold exprUnary; tot. Qed.
#[local] Hint Extern 1 (Total _ (Live _) (exprUnary _ _ _ _) _) => apply Live_exprUnary; fuel_side : tot.

Lemma Live_exprParen prec n : lv_exprParen + fuelStep * S n <= N -> Tot (Live n) (exprParen r prec : M Lexer _) (fun _ => spent true (Live n)).
Proof. intros Hf; unfold exprParen; tot. Qed.
#[local] Hint Extern 1 (Total _ (Live _) (exprParen _ _) _) => apply Live_exprParen; fuel_side : tot.

Lemma Live_exprAwait prec t n : lv_exprAwait + fuelStep * S n <= N -> Tot (Live n) (exprAwait r prec t : M Lexer _) (fun _ => spent true (Live n)).
Proof. intros Hf; unfold exprAwait; tot. Qed.
#[local] Hint Extern 1 (Total _ (Live _) (exprAwait _ _ _) _) => apply Live_exprAwait; fuel_side : tot.

Lemma Live_exprNew n : lv_exprNew + fuelStep * S n <= N -> Tot (Live n) (exprNew r : M Lexer _) (fun _ => spent true (Live n)).
Proof. intros Hf; unfold exprNew; tot. Qed.
#[local] Hint Extern 1 (Total _ (Live _) (exprNew _) _) => apply Live_exprNew; fuel_side : tot.

Lemma Live_exprImport prec n : lv_exprImport + fuelStep * S n <= N -> Tot (Live n) (exprImport r prec : M Lexer _) (fun _ => spent true (Live n)).
Proof. intros Hf; unfold exprImport; tot. Qed.
#[local] Hint Extern 1 (Total _ (Live _) (exprImport _ _) _) => apply Live_exprImport; fuel_side : tot.

Lemma Live_exprSuper prec n : lv_exprSuper + fuelStep * S n <= N -> Tot (Live n) (exprSuper r prec : M Lexer _) (fun _ => spent true (Live n)).
Proof. intros Hf; unfold exprSuper; tot. Qed.
#[local] Hint Extern 1 (Total _ (Live _) (exprSuper _ _) _) => apply Live_exprSuper; fuel_side : tot.

Lemma Live_exprYield prec n : lv_exprYield + fuelStep * S n <= N -> Tot (Live n) (exprYield r prec : M Lexer _) (fun _ => spent true (Live n)).
Proof. intros Hf; unfold exprYield; tot. Qed.
#[local] Hint Extern 1 (Total _ (Live _) (exprYield _ _) _) => apply Live_exprYield; fuel_side : tot.

Lemma Live_exprLiteral n : lv_exprLiteral + fuelStep * S n <= N -> Tot (Live n) (exprLiteral r : M Lexer _) (fun _ => spent true (Live n)).
Proof. intros Hf; unfold exprLiteral; tot. Qed.
#[local] Hint Extern 1 (Total _ (Live _) (exprLiteral _) _) => apply Live_exprLiteral; fuel_side : tot.

Lemma Live_exprAsync prec n : lv_exprAsync + fuelStep * S n <= N -> Tot (Live n) (exprAsync r prec : M Lexer _) (fun _ => spent true (Live n)).
Proof. intros Hf; unfold exprAsync; tot. Qed.
#[local] Hint Extern 1 (Total _ (Live _) (exprAsync _ _) _) => apply Live_exprAsync; fuel_side : tot.

Lemma Live_exprTemplate n : lv_exprTemplate + fuelStep * S n <= N -> Tot (Live n) (exprTemplate r : M Lexer _) (fun _ => spent true (Live n)).
Proof. intros Hf; unfold exprTemplate; tot. Qed.
#[local] Hint Extern 1 (Total _ (Live _) (exprTemplate _) _) => apply Live_exprTemplate; fuel_side : tot.

Lemma Live_exprSwitchCases prec t n : lv_exprSwitchCases + fuelStep * S n <= N -> Tot (Live n) (exprSwitchCases r prec t : M Lexer _) (fun _ => spent true (Live n)).
Proof. intros Hf; unfold exprSwitchCases; tot. Qed.
#[local] Hint Extern 1 (Total _ (Live _) (exprSwitchCases _ _ _) _) => apply Live_exprSwitchCases; fuel_side : tot.

Lemma Live_relexRegExp n : lv_relexRegExp + fuelStep * S n <= N -> Tot (Live n) (relexRegExp : M Lexer _) (fun ok => checked ok (Live n)).
Proof. intros Hf; unfold relexRegExp; tot. Qed.
#[local] Hint Extern 1 (Total _ (Live _) relexRegExp _) => apply Live_relexRegExp; fuel_side : tot.

Lemma Live_parseExpression prec n : lv_parseExpression + fuelStep * S n <= N -> Tot (Live n) (parseExpression r prec : M Lexer _) (fun _ => spent true (Live n)).
Proof. intros Hf; unfold parseExpression; tot. Qed.
#[local] Hint Extern 1 (Total _ (Live _) (parseExpression _ _) _) => apply Live_parseExpression; fuel_side : tot.
Lemma Stuck_parseExpression prec : lv_parseExpression + fuelStep * 0 <= N -> Tot Stuck (parseExpression r prec : M Lexer _) (fun _ => spent true Stuck).
Proof. intros Hf; unfold parseExpression; tot. Qed.

Lemma Live_suffixInfix t left prec precLeft level minLeft right n : lv_suffixInfix + fuelStep * S n <= N -> Tot (Live n) (suffixInfix r t left prec precLeft level minLeft right : M Lexer _) (fun x => advanced x (Live n)).
Proof. intros Hf; unfold suffixInfix; tot. Qed.
#[local] Hint Extern 1 (Total _ (Live _) (suffixInfix _ _ _ _ _ _ _ _) _) => apply Live_suffixInfix; fuel_side : tot.

Lemma Live_suffixCompare t left prec precLeft n : lv_suffixCompare + fuelStep * S n <= N -> Tot (Live n) (suffixCompare r t left prec precLeft : M Lexer _) (fun x => advanced x (Live n)).
Proof. intros Hf; unfold suffixCompare; tot. Qed.
#[local] Hint Extern 1 (Total _ (Live _) (suffixCompare _ _ _ _ _) _) => apply Live_suffixCompare; fuel_side : tot.

Lemma Live_suffixNullish t left prec precLeft n : lv_suffixNullish + fuelStep * S n <= N -> Tot (Live n) (suffixNullish r t left prec precLeft : M Lexer _) (fun x => advanced x (Live n)).
Proof. intros Hf; unfold suffixNullish; tot. Qed.
#[local] Hint Extern 1 (Total _ (Live _) (suffixNullish _ _ _ _ _) _) => apply Live_suffixNullish; fuel_side : tot.

Lemma Live_suffixDot left precLeft n : lv_suffixDot + fuelStep * S n <= N -> Tot (Live n) (suffixDot r left precLeft : M Lexer _) (fun x => advanced x (Live n)).
Proof. intros Hf; unfold suffixDot; tot. Qed.
#[local] Hint Extern 1 (Total _ (Live _) (suffixDot _ _ _) _) => apply Live_suffixDot; fuel_side : tot.

Lemma Live_suffixIndex left precLeft n : lv_suffixIndex + fuelStep * S n <= N -> Tot (Live n) (suffixIndex r left precLeft : M Lexer _) (fun x => advanced x (Live n)).
Proof. intros Hf; unfold suffixIndex; tot. Qed.
#[local] Hint Extern 1 (Total _ (Live _) (suffixIndex _ _ _) _) => apply Live_suffixIndex; fuel_side : tot.

Lemma Live_suffixCall left prec precLeft n : lv_suffixCall + fuelStep * S n <= N -> Tot (Live n) (suffixCall r left prec precLeft : M Lexer _) (fun x => advanced x (Live n)).
Proof. intros Hf; unfold suffixCall; tot. Qed.
#[local] Hint Extern 1 (Total _ (Live _) (suffixCall _ _ _ _) _) => apply Live_suffixCall; fuel_side : tot.

Lemma Live_suffixTemplate left precLeft n : lv_suffixTemplate + fuelStep * S n <= N -> Tot (Live n) (suffixTemplate r left precLeft : M Lexer _) (fun x => advanced x (Live n)).
Proof. intros Hf; unfold suffixTemplate; tot. Qed.
#[local] Hint Extern 1 (Total _ (Live _) (suffixTemplate _ _ _) _) => apply Live_suffixTemplate; fuel_side : tot.

Lemma Live_suffixOptChain left prec n : lv_suffixOptChain + fuelStep * S n <= N -> Tot (Live n) (suffixOptChain r left prec : M Lexer _) (fun x => advanced x (Live n)).
Proof. intros Hf; unfold suffixOptChain; tot. Qed.
#[local] Hint Extern 1 (Total _ (Live _) (suffixOptChain _ _ _) _) => apply Live_suffixOptChain; fuel_side : tot.

Lemma Live_suffixUpdate op left prec precLeft n : lv_suffixUpdate + fuelStep * S n <= N -> Tot (Live n) (suffixUpdate r op left prec precLeft : M Lexer _) (fun x => advanced x (Live n)).
Proof. intros Hf; unfold suffixUpdate; tot. Qed.
#[local] Hint Extern 1 (Total _ (Live _) (suffixUpdate _ _ _ _ _) _) => apply Live_suffixUpdate; fuel_side : tot.

Lemma Live_suffixCond left prec precLeft n : lv_suffixCond + fuelStep * S n <= N -> Tot (Live n) (suffixCond r left prec precLeft : M Lexer _) (fun x => advanced x (Live n)).
Proof. intros Hf; unfold suffixCond; tot. Qed.
#[local] Hint Extern 1 (Total _ (Live _) (suffixCond _ _ _ _) _) => apply Live_suffixCond; fuel_side : tot.

Lemma Live_suffixComma t left prec n : lv_suffixComma + fuelStep * S n <= N -> Tot (Live n) (suffixComma r t left prec : M Lexer _) (fun x => advanced x (Live n)).
Proof. intros Hf; unfold suffixComma; tot. Qed.
#[local] Hint Extern 1 (Total _ (Live _) (suffixComma _ _ _ _) _) => apply Live_suffixComma; fuel_side : tot.

Lemma Live_suffixArrow left prec precLeft n : lv_suffixArrow + fuelStep * S n <= N -> Tot (Live n) (suffixArrow r left prec precLeft : M Lexer _) (fun x => advanced x (Live n)).
Proof. intros Hf; unfold suffixArrow; tot. Qed.
#[local] Hint Extern 1 (Total _ (Live _) (suffixArrow _ _ _ _) _) => apply Live_suffixArrow; fuel_side : tot.

Lemma Live_suffixSwitchCases t left prec precLeft n : lv_suffixSwitchCases + fuelStep * S n <= N -> Tot (Live n) (suffixSwitchCases r t left prec precLeft : M Lexer _) (fun x => advanced x (Live n)).
Proof. intros Hf; unfold suffixSwitchCases; tot. Qed.
#[local] Hint Extern 1 (Total _ (Live _) (suffixSwitchCases _ _ _ _ _) _) => apply Live_suffixSwitchCases; fuel_side : tot.

Lemma Live_parseExpressionSuffix left prec precLeft n : lv_parseExpressionSuffix + fuelStep * S n <= N -> Tot (Live n) (parseExpressionSuffix r left prec precLeft : M Lexer _) (fun _ => spent false (Live n)).
Proof. intros Hf; unfold parseExpressionSuffix; tot. Qed.
#[local] Hint Extern 1 (Total _ (Live _) (parseExpressionSuffix _ _ _ _) _) => apply Live_parseExpressionSuffix; fuel_side : tot.
Lemma Stuck_parseExpressionSuffix left prec precLeft : lv_parseExpressionSuffix + fuelStep * 0 <= N -> Tot Stuck (parseExpressionSuffix r left prec precLeft : M Lexer _) (fun _ => spent false Stuck).
Proof. intros Hf; unfold parseExpressionSuffix; tot. Qed.

Lemma Live_parseAssignmentExpression n : lv_parseAssignmentExpression + fuelStep * S n <= N -> Tot (Live n) (parseAssignmentExpression r : M Lexer _) (fun _ => spent true (Live n)).
Proof. intros Hf; unfold parseAssignmentExpression; tot. Qed.
#[local] Hint Extern 1 (Total _ (Live _) (parseAssignmentExpression _) _) => apply Live_parseAssignmentExpression; fuel_side : tot.
Lemma Stuck_parseAssignmentExpression : lv_parseAssignmentExpression + fuelStep * 0 <= N -> Tot Stuck (parseAssignmentExpression r : M Lexer _) (fun _ => spent true Stuck).
Proof. intros Hf; unfold parseAssignmentExpression; tot. Qed.

Lemma Live_parenListLoop list_ n : lv_parenListLoop + fuelStep * S n <= N -> Tot (Live n) (parenListLoop r list_ : M Lexer _) (fun _ => spent false (Live n)).
Proof. intros Hf; unfold parenListLoop; tot. Qed.
#[local] Hint Extern 1 (Total _ (Live _) (parenListLoop _ _) _) => apply Live_parenListLoop; fuel_side : tot.
Lemma Stuck_parenListLoop list_ : lv_parenListLoop + fuelStep * 0 <= N -> Tot Stuck (parenListLoop r list_ : M Lexer _) (fun _ => spent false Stuck).
Proof. intros Hf; unfold parenListLoop; tot. Qed.

Lemma Live_parenFinish prec parent self parentAssumeArrowFunc list_ rest n : lv_parenFinish + fuelStep * S n <= N -> Tot (Live n) (parenFinish r prec parent self parentAssumeArrowFunc list_ rest : M Lexer _) (fun _ => spent false (Live n)).
Proof. intros Hf; unfold parenFinish; tot. Qed.
#[local] Hint Extern 1 (Total _ (Live _) (parenFinish _ _ _ _ _ _ _) _) => apply Live_parenFinish; fuel_side : tot.

Lemma Live_parseParenthesizedExpressionOrArrowFunc prec n : lv_parseParenthesizedExpressionOrArrowFunc + fuelStep * S n <= N -> Tot (Live n) (parseParenthesizedExpressionOrArrowFunc r prec : M Lexer _) (fun _ => spent true (Live n)).
Proof. intros Hf; unfold parseParenthesizedExpressionOrArrowFunc; tot. Qed.
#[local] Hint Extern 1 (Total _ (Live _) (parseParenthesizedExpressionOrArrowFunc _ _) _) => apply Live_parseParenthesizedExpressionOrArrowFunc; fuel_side : tot.

(** Every call of [dispatch r] is total with one more level of fuel. *)
Lemma Total_dispatch : TotalRec size (dispatch r) (S N).
Proof.
  intros A c ph Hf Hs. destruct c; cbn [dispatch result_of strictCall];
    (destruct ph as [n|];
     [ | first [ discriminate (Hs eq_refl) | idtac ] ]).
  - apply Live_nextLoop; fuel_side.
  - apply Stuck_nextLoop; fuel_side.
  - apply Live_parseModuleLoop; fuel_side.
  - apply Stuck_parseModuleLoop; fuel_side.
  - apply Live_parseStmt; fuel_side.
  - apply Stuck_parseStmt; fuel_side.
  - apply Live_switchClausesLoop; fuel_side.
  - apply Stuck_switchClausesLoop; fuel_side.
  - apply Live_switchStmtsLoop; fuel_side.
  - apply Stuck_switchStmtsLoop; fuel_side.
  - apply Live_parseBlockStmt; fuel_side.
  - apply Stuck_parseBlockStmt; fuel_side.
  - apply Live_blockStmtLoop; fuel_side.
  - apply Stuck_blockStmtLoop; fuel_side.
  - apply Live_parseImportStmt; fuel_side.
  - apply Live_importListLoop; fuel_side.
  - apply Stuck_importListLoop; fuel_side.
  - apply Live_parseExportStmt; fuel_side.
  - apply Live_exportListLoop; fuel_side.
  - apply Stuck_exportListLoop; fuel_side.
  - apply Live_parseVarDecl; fuel_side.
  - apply Stuck_parseVarDecl; fuel_side.
  - apply Live_varDeclLoop; fuel_side.
  - apply Stuck_varDeclLoop; fuel_side.
  - apply Live_parseFuncParams; fuel_side.
  - apply Stuck_parseFuncParams; fuel_side.
  - apply Live_funcParamsLoop; fuel_side.
  - apply Stuck_funcParamsLoop; fuel_side.
  - apply Live_parseAnyFunc; fuel_side.
  - apply Live_parseAnyClass; fuel_side.
  - apply Live_classMethodsLoop; fuel_side.
  - apply Stuck_classMethodsLoop; fuel_side.
  - apply Live_parseMethod; fuel_side.
  - apply Stuck_parseMethod; fuel_side.
  - apply Live_parsePropertyName; fuel_side.
  - apply Stuck_parsePropertyName; fuel_side.
  - apply Live_parseBindingElement; fuel_side.
  - apply Stuck_parseBindingElement; fuel_side.
  - apply Live_parseBinding; fuel_side.
  - apply Stuck_parseBinding; fuel_side.
  - apply Live_bindingArrayLoop; fuel_side.
  - apply Stuck_bindingArrayLoop; fuel_side.
  - apply Live_bindingElisionLoop; fuel_side.
  - apply Stuck_bindingElisionLoop; fuel_side.
  - apply Live_bindingObjectLoop; fuel_side.
  - apply Stuck_bindingObjectLoop; fuel_side.
  - apply Live_parseArrayLiteral; fuel_side.
  - apply Live_arrayLiteralLoop; fuel_side.
  - apply Stuck_arrayLiteralLoop; fuel_side.
  - apply Live_parseObjectLiteral; fuel_side.
  - apply Live_objectLiteralLoop; fuel_side.
  - apply Stuck_objectLiteralLoop; fuel_side.
  - apply Live_parseTemplateLiteral; fuel_side.
  - apply Live_parseArgs; fuel_side.
  - apply Live_argsLoop; fuel_side.
  - apply Stuck_argsLoop; fuel_side.
  - apply Live_parseAsyncArrowFunc; fuel_side.
  - apply Stuck_parseAsyncArrowFunc; fuel_side.
  - apply Live_parseIdentifierArrowFunc; fuel_side.
  - apply Stuck_parseIdentifierArrowFunc; fuel_side.
  - apply Live_parseArrowFuncBody; fuel_side.
  - apply Stuck_parseArrowFuncBody; fuel_side.
  - apply Live_parseIdentifierExpression; fuel_side.
  - apply Stuck_parseIdentifierExpression; fuel_side.
  - apply Live_parseAsyncExpression; fuel_side.
  - apply Stuck_parseAsyncExpression; fuel_side.
  - apply Live_parseExpression; fuel_side.
  - apply Stuck_parseExpression; fuel_side.
  - apply Live_parseExpressionSuffix; fuel_side.
  - apply Stuck_parseExpressionSuffix; fuel_side.
  - apply Live_parseAssignmentExpression; fuel_side.
  - apply Stuck_parseAssignmentExpression; fuel_side.
  - apply Live_parseParenthesizedExpressionOrArrowFunc; fuel_side.
  - apply Live_parenListLoop; fuel_side.
  - apply Stuck_parenListLoop; fuel_side.
Qed.

(** The first token and the module. *)
Lemma Live_program n :
  lv_parseModuleLoop + fuelStep * S n <= N ->
  Tot (Live n) (bind (firstToken r) (fun _ => parseModule r)) (fun _ _ => True).
Proof. intros Hf. unfold firstToken, parseModule. tot. Qed.

End Step.

(** With [fuel] levels of nested calls, the calls that need fewer are
    total. *)
Lemma parser_total (fuel : nat) : TotalRec size (parser fuel) fuel.
Proof.
  induction fuel as [|fuel IHf].
  - intros A c ph Hf. inversion Hf.
  - cbn [parser]. apply Total_dispatch. exact IHf.
Qed.

(** [Parse] returns or panics when the fuel pays for the input. *)
Lemma Parse_total (lx : Lexer) (fuel : nat) :
  fuelStep * (size lx + 2) <= fuel ->
  (exists msg, Parse fuel lx = Panic msg)
  \/ (exists a e p', Parse fuel lx = Ret (a, e) p').
Proof.
  intros Hf.
  assert (Hl : lv_parseModuleLoop + fuelStep * S (size lx) <= fuel).
  { revert Hf. cbv delta [lv_parseModuleLoop fuelStep]. lia. }
  pose proof (@Live_program (parser fuel) fuel (@parser_total fuel) (size lx) Hl
                            (newParser lx) (conj eq_refl (le_n _))) as H.
  destruct H as [(msg & E) | (x & p1 & ph1 & E & _)].
  - left. exists msg. unfold Parse, parseProgram.
    unfold bind in E |- *.
    destruct (firstToken (parser fuel) (newParser lx)) as [u p0|m0|];
      [ rewrite E; reflexivity | inversion E; reflexivity | discriminate E ].
  - right. unfold Parse, parseProgram.
    unfold bind in E |- *.
    destruct (firstToken (parser fuel) (newParser lx)) as [u p0|m0|];
      [ | discriminate E | discriminate E ].
    rewrite E. unfold finishParse, bind, gets, setAst, setErr, ret.
    eexists; eexists; eexists. reflexivity.
Qed.

(** With more fuel the result is the same. *)
Lemma Parse_stable (lx : Lexer) (fuel : nat) :
  fuelStep * (size lx + 2) <= fuel ->
  Parse fuel lx = Parse (fuelStep * (size lx + 2)) lx.
Proof.
  intros Hf.
  destruct (Parse_total lx (le_n _)) as [(msg & E) | (a & e & p' & E)];
    destruct (Extends_parseProgram (Extends_parser Hf) (newParser lx)) as [E'|E'];
    unfold Parse in *; congruence.
Qed.

(** A call that returns from a state without error has read input, or the
    parser is at the error token. *)
Lemma call_spent (fuel : nat) {A : Type} (c : Call A) (p : Parser Lexer) (x : A)
    (p' : Parser Lexer) :
  err p = None -> parser fuel c p = Ret x p' ->
  tt p' = ErrorToken
  \/ (err p' = None
      /\ if strictCall c then size (l p') < size (l p)
         else size (l p') <= size (l p)).
Proof.
  intros He E.
  pose (F := Nat.max fuel (S (rank c + fuelStep * S (size (l p))))).
  assert (HF : fuel <= F) by (unfold F; lia).
  assert (HR : rank c + fuelStep * weight (Live (size (l p))) < F)
    by (unfold F; cbn [weight]; lia).
  destruct (Extends_parser HF c p) as [E'|E']; [congruence|]. rewrite E in E'.
  assert (HS : Live (size (l p)) = Stuck -> anywhere c = true) by discriminate.
  destruct (@parser_total F A c (Live (size (l p))) HR HS p (conj He (le_n _)))
    as [(msg & E2)|(x2 & p2 & ph2 & E2 & Hin & HQ)].
  - congruence.
  - rewrite <- E' in E2. inversion E2; subst p2.
    destruct ph2 as [k|]; [right | left; exact Hin].
    destruct Hin as [He' Hs]. split; [exact He'|]. clear E E' E2 HS HR.
    destruct c; cbn [result_of strictCall spent] in HQ |- *;
      first [ lia | destruct HQ as [HQ _]; cbn [spent] in HQ; lia ].
Qed.

End Termination.


(* ================================================================== *)
(** ** Termination of [Parse] *)
(* ================================================================== *)

(** The scripted lexer gives fewer tokens after every token it returns. *)
Lemma Script_next_size (lx : Script.Lexer) t d lx' :
  Script.Next lx = (t, d, lx') ->
  Inputs.lexerSize lx' <= Inputs.lexerSize lx
  /\ (t <> ErrorToken -> Inputs.lexerSize lx' < Inputs.lexerSize lx).
Proof.
  unfold Script.Next, Inputs.lexerSize. destruct lx as [pending again lerr pos].
  cbn [Script.pending Script.again Script.lerr Script.pos].
  destruct pending as [e|t0 d0 rest|t0 d0 rest re reRest]; intros E;
    inversion E; subst; cbn [Script.pending Script.again Inputs.streamSize].
  - split; [lia | congruence].
  - split; intros; lia.
  - split; intros; lia.
Qed.

Lemma Script_regexp_size (lx : Script.Lexer) t d lx' :
  Script.RegExp lx = (t, d, lx') -> Inputs.lexerSize lx' <= Inputs.lexerSize lx.
Proof.
  unfold Script.RegExp, Inputs.lexerSize. destruct lx as [pending again lerr pos].
  cbn [Script.pending Script.again Script.lerr Script.pos].
  destruct again as [[[n [re|]] rest]|]; intros E; inversion E; subst;
    cbn [Script.pending Script.again Inputs.streamSize]; lia.
Qed.

(** [Parse] terminates.  For a lexer whose tokens consume its input ([size]
    decreases with every token other than the error token, and does not
    increase when a token is read again as a regular expression), [Parse]
    returns the tree and the error, or panics, as soon as the depth of
    nested calls may reach [fuelStep * (size lx + 2)]; more depth does not
    change the result.  No loop of the parser runs forever. *)
Theorem Parse_terminates :
  forall (Lexer : Type) (TS : TokenSource Lexer) (TT : TokenTable) (AO : AstOps)
         (size : Lexer -> nat),
    IsIdentifier ErrorToken = false ->
    IsIdentifierName ErrorToken = false ->
    IsNumeric ErrorToken = false ->
    (forall lx t d lx',
        Next lx = (t, d, lx') ->
        size lx' <= size lx /\ (t <> ErrorToken -> size lx' < size lx)) ->
    (forall lx t d lx', RegExp lx = (t, d, lx') -> size lx' <= size lx) ->
    forall (lx : Lexer) (fuel : nat),
      fuelStep * (size lx + 2) <= fuel ->
      Parse fuel lx = Parse (fuelStep * (size lx + 2)) lx
      /\ ((exists msg, Parse fuel lx = Panic msg)
          \/ (exists a e p', Parse fuel lx = Ret (a, e) p')).
Proof.
  intros Lexer TS TT AO size Hid Hname Hnum Hnext Hregexp lx fuel Hf. split.
  - eapply Parse_stable; eassumption.
  - eapply Parse_total; eassumption.
Qed.

(** Every parse function reads input or fails.  A call that is started
    without a recorded error and returns leaves the parser at the error
    token, or leaves it without error and with no more input than before;
    with less input for every call but the loops that may run zero times
    and the functions that continue an expression ([strictCall]): so
    [parseStmt], [parseExpression], [parseBinding] and the others always
    read a token unless they fail, and never give input back. *)
Theorem calls_read_input :
  forall (Lexer : Type) (TS : TokenSource Lexer) (TT : TokenTable) (AO : AstOps)
         (size : Lexer -> nat),
    IsIdentifier ErrorToken = false ->
    IsIdentifierName ErrorToken = false ->
    IsNumeric ErrorToken = false ->
    (forall lx t d lx',
        Next lx = (t, d, lx') ->
        size lx' <= size lx /\ (t <> ErrorToken -> size lx' < size lx)) ->
    (forall lx t d lx', RegExp lx = (t, d, lx') -> size lx' <= size lx) ->
    forall (fuel : nat) (A : Type) (c : Call A) (p : Parser Lexer) (x : A)
           (p' : Parser Lexer),
      err p = None ->
      call (parser fuel) c p = Ret x p' ->
      tt p' = ErrorToken
      \/ (err p' = None
          /\ if strictCall c then size (l p') < size (l p)
             else size (l p') <= size (l p)).
Proof.
  intros Lexer TS TT AO size Hid Hname Hnum Hnext Hregexp fuel A c p x p' He E.
  eapply call_spent; eassumption.
Qed.

(* ================================================================== *)
(** ** A statement at the end of the input *)
(* ================================================================== *)

(** [case SemicolonToken, ErrorToken] of [parseStmt]: at the error token the
    statement is empty and the parser is left as it is. *)
Lemma parseStmt_at_error {Lexer : Type} {TS : TokenSource Lexer} {TT : TokenTable}
    {AO : AstOps} (r : Rec Lexer) (allowDeclaration : bool) (p : Parser Lexer) :
  tt p = ErrorToken -> parseStmt r allowDeclaration p = Ret EmptyStmt p.
Proof.
  intros Ht. unfold parseStmt, bind, gets. rewrite Ht. cbn [stmtSwitchCases].
  unfold falls, ret, skip. rewrite Ht. reflexivity.
Qed.

(** Where a statement is expected and the input has ended (or an error has
    been recorded), [parseStmt] returns the empty statement and records
    nothing: a statement whose body is missing at the end of the input is
    accepted.  [if(a)], [while(a)] and [a:] with nothing after them parse
    without error, with the empty statement as body. *)
Theorem missing_statement_at_end :
  (forall (Lexer : Type) (TS : TokenSource Lexer) (TT : TokenTable) (AO : AstOps)
          (r : Rec Lexer) (allowDeclaration : bool) (p : Parser Lexer),
      tt p = ErrorToken -> parseStmt r allowDeclaration p = Ret EmptyStmt p)
  /\ Examples.parsed 100 Inputs.ifNoBody
     = Some ([IfStmt (VarRefExpr 0) EmptyStmt NilStmt], None)
  /\ Examples.parsed 100 Inputs.whileNoBody
     = Some ([WhileStmt (VarRefExpr 0) EmptyStmt], None)
  /\ Examples.parsed 100 Inputs.labelNoBody
     = Some ([LabelledStmt "a" EmptyStmt], None).
Proof.
  split; [| split; [| split]].
  - intros. apply parseStmt_at_error. assumption.
  - vm_compute. reflexivity.
  - vm_compute. reflexivity.
  - vm_compute. reflexivity.
Qed.

(** C2: the arrow function of a single bare identifier.  (1) When the
    identifier's Variable has exactly one use, the last entry of the parent
    scope's undeclared list is removed, the Variable becomes an argument,
    and it is appended to the declared list of the new function scope.
    (2) When it has more than one use, the count is decremented and a
    parameter is declared in the new scope instead, the original entry
    staying as it is otherwise; (3) the parameter of the arrow function is
    the reference so obtained, in a scope entered for the function;
    (4) with the resolver of the specification, declaring in that fresh
    scope creates a new Variable.  (5) In [let f = x => x + y; let g = x;]
    the [x] of the arrow function is Variable 1, an argument declared in the
    arrow's scope, and the [x] outside is Variable 4, an undeclared use of
    the module scope; in [x, x => 1] the first [x] keeps its entry and the
    parameter is a new one. *)
Theorem identifier_arrow_detach :
  (forall (Lexer : Type) (TS : TokenSource Lexer) (TT : TokenTable) (AO : AstOps)
          (p : Parser Lexer) ref v s sc ps psc,
      nth_error (Vars (ast p)) ref = Some v -> Uses v = 1%Z ->
      scope p = Some s ->
      nth_error (Scopes (ast p)) s = Some sc ->
      Parent sc = Some ps -> ps <> s ->
      nth_error (Scopes (ast p)) ps = Some psc ->
      Undeclared psc <> [] ->
      exists a',
        detachIdentifier ref p = Ret ref (withAst p a')
        /\ nth_error (Vars a') ref = Some (setDecl v ArgumentDecl)
        /\ nth_error (Scopes a') ps
           = Some (setUndeclared psc (removelast (Undeclared psc)))
        /\ nth_error (Scopes a') s
           = Some (setDeclared sc (append (Declared sc) ref)))
  /\ (forall (Lexer : Type) (TS : TokenSource Lexer) (TT : TokenTable) (AO : AstOps)
             (p : Parser Lexer) ref v,
         nth_error (Vars (ast p)) ref = Some v -> (1 < Uses v)%Z ->
         detachIdentifier ref p =
           bind (scopeDeclare ArgumentDecl (Name v)) (fun res => ret (fst res))
                (withAst p (setVarAt (ast p) ref (setUses v (Uses v - 1)%Z))))
  /\ (forall (Lexer : Type) (TS : TokenSource Lexer) (TT : TokenTable) (AO : AstOps)
             (r : Rec Lexer) ref (p : Parser Lexer),
         parseIdentifierArrowFunc r ref p =
           bind (enterScope true) (fun parent =>
           bind (gets scope) (fun self =>
           bind (setFlags false false) (fun _ =>
           bind (detachIdentifier ref) (fun ref' =>
           bind (call r ParseArrowFuncBody) (fun body =>
           bind (setFlags (async p) (generator p)) (fun _ =>
           bind (exitScope parent) (fun _ =>
           ret (mkArrowFunc false
                  (mkParams [mkBindingElement (VarRefBinding ref') NilExpr] NilBinding)
                  body self)))))))) p)
  /\ (forall (a : AST) (s : nat) (sc : Scope) (name : string),
         nth_error (Scopes a) s = Some sc -> Declared sc = [] ->
         Resolver.Declare_ a s ArgumentDecl name
         = (setScopeAt (setVars a (append (Vars a) (mkVar ArgumentDecl name 1 None)))
                       s (setDeclared sc [length (Vars a)]),
            (length (Vars a), true)))
  /\ Examples.parsed 100 Examples.letArrow
     = Some ([VarDeclS
                (mkVarDecl LetToken
                   [mkBindingElement (VarRefBinding 0)
                      (ArrowFuncExpr
                         (mkArrowFunc false
                            (mkParams [mkBindingElement (VarRefBinding 1) NilExpr]
                                      NilBinding)
                            (mkBlockStmt
                               [ReturnStmt
                                  (BinaryExpr AddToken (VarRefExpr 1) (VarRefExpr 2))]
                               None)
                            (Some 1)))]);
              VarDeclS
                (mkVarDecl LetToken [mkBindingElement (VarRefBinding 3) (VarRefExpr 4)])],
             None)
  /\ Examples.resolved 100 Examples.letArrow
     = Some ([mkVar LexicalDecl "f" 1 None; mkVar ArgumentDecl "x" 2 None;
              mkVar NoDecl "y" 1 None; mkVar LexicalDecl "g" 1 None;
              mkVar NoDecl "x" 1 None],
             [mkScope None (Some 0) [0; 3] [2; 4] 0;
              mkScope (Some 0) (Some 1) [1] [2] 0])
  /\ Examples.resolved 100 Examples.secondUseArrow
     = Some ([mkVar NoDecl "x" 1 None; mkVar ArgumentDecl "x" 1 None],
             [mkScope None (Some 0) [] [0] 0;
              mkScope (Some 0) (Some 1) [1] [] 0]).
Proof.
  split; [| split; [| split; [| split; [| split; [| split]]]]].
  - intros Lexer TS TT AO p ref v s sc ps psc Hv Hu.
    apply detachIdentifier_single; [exact Hv | lia].
  - intros. apply detachIdentifier_shared; assumption.
  - intros. apply parseIdentifierArrowFunc_run.
  - intros. apply Resolver_Declare_fresh; assumption.
  - vm_compute. reflexivity.
  - vm_compute. reflexivity.
  - vm_compute. reflexivity.
Qed.

(* ================================================================== *)
(** ** What [Parse] returns *)
(* ================================================================== *)

Section ParseResult.

Context {Lexer : Type} {TS : TokenSource Lexer} {TT : TokenTable} {AO : AstOps}.


End ParseResult.



(* ================================================================== *)
(** ** Decimal literals *)
(* ================================================================== *)

(** The digit loop, given the fuel [len(b) - i], stops where the Go loop
    stops: at the end of the input or at a byte that is not a digit. *)
Lemma digitsLoop_stops (b : string) (fuel i : nat) :
  String.length b - i <= fuel ->
  let j := Util.digitsLoop fuel b i in
  i <= j /\
  (j < String.length b ->
   match Util.byteAt b j with Some c => Util.isDigit c = false | None => True end).
Proof.
  revert i. induction fuel as [|fuel IH]; intros i Hf; simpl.
  - split; [lia|]. intros Hj. lia.
  - destruct (i <? String.length b) eqn:Hi.
    + destruct (Util.byteAt b i) as [c|] eqn:Hc.
      * destruct (Util.isDigit c) eqn:Hd.
        -- destruct (IH (S i)) as [H1 H2]; [lia|]. split; [lia | exact H2].
        -- split; [lia|]. intros _. rewrite Hc. exact Hd.
      * split; [lia|]. intros _. rewrite Hc. exact I.
    + apply Nat.ltb_ge in Hi. split; [lia|]. intros Hj. lia.
Qed.

(** C10: [AsDecimalLiteral] accepts the input that is a lone [.], although
    it holds no digit, and rejects the empty input. *)
Theorem AsDecimalLiteral_lone_dot :
  Util.AsDecimalLiteral "." = true /\ Util.AsDecimalLiteral "" = false.
Proof. split; reflexivity. Qed.

(* ================================================================== *)
(** ** The theorems at concrete states *)
(* ================================================================== *)

Import Script Resolver.


Lemma identifier_arrow_detach_witness :
  detachIdentifier 0 States.twoUses =
    bind (scopeDeclare ArgumentDecl "x") (fun res => ret (fst res))
         (withAst States.twoUses
                  (setVarAt (ast States.twoUses) 0 (mkVar NoDecl "x" 1 None))).
Proof.
  apply (proj1 (proj2 identifier_arrow_detach) _ _ _ _ States.twoUses 0
               (mkVar NoDecl "x" 2 None)).
  - reflexivity.
  - reflexivity.
Defined.

Lemma first_error_wins_witness :
  err States.failed = Some (fmt_Error "unexpected ')' in expression")
  /\ fail "statement" [] States.failed = Ret Datatypes.tt States.failed
  /\ (forall fuel A (c : Call A) x p',
         call (parser fuel) c States.failed = Ret x p' ->
         err p' = Some (fmt_Error "unexpected ')' in expression")).
Proof.
  assert (H : err States.failed = Some (fmt_Error "unexpected ')' in expression"))
    by reflexivity.
  destruct (@first_error_wins _ _ _ _ States.failed _ H) as (H1 & H2 & H3 & H4).
  split; [exact H | split; [apply H1 | exact H3]].
Defined.

Lemma regexp_or_division_witness :
  parseExpression (parser 10) OpExpr States.atBadSlash =
    bind (fail "regular expression" []) (fun _ => ret NilExpr)
         (withToken States.atBadSlash ErrorToken
                    (snd (fst (RegExp (l States.atBadSlash))))
                    (snd (RegExp (l States.atBadSlash)))).
Proof.
  apply (proj1 regexp_or_division).
  - left. reflexivity.
  - reflexivity.
Defined.

Lemma return_asi_restriction_witness :
  stmtSwitchCases (parser 10) true ReturnToken States.atReturn
  = Ret (ReturnStmt NilExpr, true) States.afterReturn.
Proof.
  pose proof (proj1 return_asi_restriction) as H.
  specialize (H _ _ _ _ (parser 10) true States.atReturn States.afterReturn).
  rewrite H; [reflexivity | vm_compute; reflexivity].
Defined.


Lemma for_head_in_suppression_witness :
  parseExpressionSuffix (parser 10) (VarRefExpr 0) OpExpr OpPrimary States.atInInFor
  = Ret (VarRefExpr 0) States.atInInFor.
Proof.
  apply (proj1 (proj2 (proj2 for_head_in_suppression)) _ _ _ Resolver.ops).
  - reflexivity.
  - reflexivity.
Defined.

Lemma function_boundary_flags_witness :
  value (parseAnyFunc (parser 50) false false States.atGenerator)
  = Some (mkFuncDecl false true (Some 0) (mkParams [] NilBinding)
            (mkBlockStmt
               [ExprStmt (YieldExpr false (Literal (mkLiteralExpr NumericToken "1")))]
               None)
            (Some 1))
  /\ sameFlags States.atGenerator
               (parseAnyFunc (parser 50) false false States.atGenerator).
Proof.
  split.
  - vm_compute. reflexivity.
  - apply (proj1 (@function_boundary_flags _ _ _ _ 50 States.atGenerator)).
Defined.


(* ================================================================== *)
(** ** The literal predicates of [js/util.go] *)
(* ================================================================== *)

Lemma string_length_app (s1 s2 : string) :
  String.length (s1 ++ s2) = String.length s1 + String.length s2.
Proof. induction s1 as [|c s1 IH]; simpl; [reflexivity | rewrite IH; reflexivity]. Qed.

Lemma string_get_app (pre s : string) (i : nat) :
  String.get (String.length pre + i) (pre ++ s) = String.get i s.
Proof. induction pre as [|c pre IH]; simpl; [reflexivity | exact IH]. Qed.

Lemma string_app_assoc (s1 s2 s3 : string) : (s1 ++ s2) ++ s3 = s1 ++ (s2 ++ s3).
Proof. induction s1 as [|c s1 IH]; simpl; [reflexivity | rewrite IH; reflexivity]. Qed.

Lemma string_app_nil (s : string) : s ++ "" = s.
Proof. induction s as [|c s IH]; simpl; [reflexivity | rewrite IH; reflexivity]. Qed.

Lemma allDigits_app (s1 s2 : string) :
  Util.allDigits (s1 ++ s2) = Util.allDigits s1 && Util.allDigits s2.
Proof.
  unfold Util.allDigits. induction s1 as [|c s1 IH]; simpl; [reflexivity|].
  rewrite IH. rewrite andb_assoc. reflexivity.
Qed.

Lemma digit_not_dot (c : ascii) : Util.isDigit c = true -> Util.isDot c = false.
Proof.
  destruct c as [[] [] [] [] [] [] [] []]; vm_compute; congruence.
Qed.

(** Indices into [pre ++ s] beyond [pre] behave as indices into [s]. *)
Lemma digitsLoop_shift (fuel : nat) (pre s : string) (i : nat) :
  Util.digitsLoop fuel (pre ++ s) (String.length pre + i)
  = String.length pre + Util.digitsLoop fuel s i.
Proof.
  revert i. induction fuel as [|fuel IH]; intros i; simpl; [reflexivity|].
  rewrite string_length_app.
  replace (String.length pre + i <? String.length pre + String.length s)
    with (i <? String.length s)
    by (destruct (Nat.ltb_spec i (String.length s));
        destruct (Nat.ltb_spec (String.length pre + i)
                               (String.length pre + String.length s));
        try reflexivity; lia).
  destruct (i <? String.length s); [|reflexivity].
  unfold Util.byteAt. rewrite string_get_app.
  destruct (String.get i s) as [c|]; [|reflexivity].
  destruct (Util.isDigit c); [|reflexivity].
  rewrite <- IH. f_equal. lia.
Qed.

(** The digit loop over a run of digits stops at its end. *)
Lemma digitsLoop_run (ds rest : string) (fuel : nat) :
  Util.allDigits ds = true ->
  match rest with
  | EmptyString => True
  | String c _ => Util.isDigit c = false
  end ->
  String.length (ds ++ rest) <= fuel ->
  Util.digitsLoop fuel (ds ++ rest) 0 = String.length ds.
Proof.
  revert fuel. induction ds as [|c ds IH]; intros fuel Hd Hr Hf.
  - simpl. destruct fuel as [|fuel]; [reflexivity|]. simpl.
    destruct rest as [|c r]; simpl; [reflexivity|].
    unfold Util.byteAt. simpl. rewrite Hr. reflexivity.
  - unfold Util.allDigits in Hd. simpl in Hd. apply andb_prop in Hd.
    destruct Hd as [Hc Hd].
    destruct fuel as [|fuel]; [simpl in Hf; lia|].
    simpl. unfold Util.byteAt. simpl. rewrite Hc.
    change (String c (ds ++ rest)) with (String c "" ++ (ds ++ rest)).
    change 1 with (String.length (String c "") + 0).
    rewrite digitsLoop_shift. simpl. f_equal.
    apply IH; [exact Hd | exact Hr | simpl in Hf; lia].
Qed.

(** Every input splits into its leading run of digits and a rest that does
    not start with a digit; the loop stops between the two. *)
Lemma digitsLoop_split (s : string) :
  exists ds rest,
    s = ds ++ rest /\ Util.allDigits ds = true
    /\ match rest with
       | EmptyString => True
       | String c _ => Util.isDigit c = false
       end
    /\ forall fuel, String.length s <= fuel ->
         Util.digitsLoop fuel s 0 = String.length ds.
Proof.
  induction s as [|c s IH].
  - exists "", "". split; [reflexivity|]. split; [reflexivity|].
    split; [exact I|]. intros fuel _. destruct fuel; reflexivity.
  - destruct (Util.isDigit c) eqn:Hc.
    + destruct IH as (ds & rest & Hs & Hd & Hr & _).
      exists (String c ds), rest.
      assert (Hd' : Util.allDigits (String c ds) = true).
      { unfold Util.allDigits in *. simpl. rewrite Hc, Hd. reflexivity. }
      split; [simpl; rewrite Hs; reflexivity|].
      split; [exact Hd'|]. split; [exact Hr|].
      intros fuel Hf. subst s.
      change (String c (ds ++ rest)) with (String c ds ++ rest).
      apply digitsLoop_run; assumption.
    + exists "", (String c s). split; [reflexivity|]. split; [reflexivity|].
      split; [exact Hc|].
      intros fuel Hf. destruct fuel as [|fuel]; [reflexivity|].
      simpl. unfold Util.byteAt. simpl. rewrite Hc. reflexivity.
Qed.

(** The digit loop started behind a prefix, at a run of digits. *)
Lemma digitsLoop_at (fuel : nat) (b : string) (i : nat) (pre ds rest : string) :
  b = pre ++ ds ++ rest -> i = String.length pre ->
  Util.allDigits ds = true ->
  match rest with
  | EmptyString => True
  | String c _ => Util.isDigit c = false
  end ->
  String.length ds + String.length rest <= fuel ->
  Util.digitsLoop fuel b i = i + String.length ds.
Proof.
  intros Hb Hi Hd Hr Hf. subst b i.
  replace (String.length pre) with (String.length pre + 0) at 1 by lia.
  rewrite digitsLoop_shift. f_equal.
  apply digitsLoop_run; [exact Hd | exact Hr |].
  rewrite string_length_app. exact Hf.
Qed.

Lemma string_get_at (pre : string) (c : ascii) (rest : string) :
  Util.byteAt (pre ++ String c rest) (String.length pre) = Some c.
Proof.
  unfold Util.byteAt.
  replace (String.length pre) with (String.length pre + 0) by lia.
  rewrite string_get_app. reflexivity.
Qed.

Lemma isDot_eq (c : ascii) : Util.isDot c = true -> c = "."%char.
Proof. apply Ascii.eqb_eq. Qed.

Lemma allDigits_cons (c : ascii) (s : string) :
  Util.allDigits (String c s) = Util.isDigit c && Util.allDigits s.
Proof. reflexivity. Qed.

(** What [AsDecimalLiteral] computes on an input that starts with a digit
    run [ds] (not empty) and goes on with [rest], which does not start with
    a digit. *)
Lemma AsDecimalLiteral_digits (ds rest : string) :
  ds <> "" -> Util.allDigits ds = true ->
  match rest with
  | EmptyString => True
  | String c _ => Util.isDigit c = false
  end ->
  Util.AsDecimalLiteral (ds ++ rest) =
    match rest with
    | EmptyString => true
    | String c r =>
        Util.isDot c &&
        (Util.digitsLoop (String.length r) r 0 =? String.length r)
    end.
Proof.
  intros Hne Hd Hr. destruct ds as [|b0 ds]; [congruence|].
  rewrite allDigits_cons in Hd. apply andb_prop in Hd. destruct Hd as [Hb0 Hd].
  unfold Util.AsDecimalLiteral.
  change (Util.byteAt (String b0 ds ++ rest) 0) with (Some b0). cbv beta iota.
  rewrite Hb0, (digit_not_dot _ Hb0). cbn [negb andb].
  rewrite (@digitsLoop_at _ _ _ (String b0 "") ds rest);
    [ | reflexivity | reflexivity | exact Hd | exact Hr
      | simpl; rewrite string_length_app; lia ].
  destruct rest as [|c r].
  - rewrite string_app_nil.
    replace (1 + String.length ds <? String.length (String b0 ds)) with false
      by (symmetry; apply Nat.ltb_ge; simpl; lia).
    cbn [andb]. apply Nat.eqb_eq. reflexivity.
  - replace (1 + String.length ds <? String.length (String b0 (ds ++ String c r)))
      with true
      by (symmetry; apply Nat.ltb_lt; simpl; rewrite string_length_app; simpl; lia).
    cbn [andb].
    change (String b0 (ds ++ String c r)) with (String b0 ds ++ String c r).
    change (1 + String.length ds) with (String.length (String b0 ds)).
    rewrite string_get_at.
    destruct (Util.isDot c) eqn:Hc; cbn [andb].
    + replace (String.length (String b0 ds ++ String c r)
               - S (String.length (String b0 ds)))
        with (String.length r)
        by (rewrite string_length_app; simpl; lia).
      change (String b0 ds ++ String c r)
        with (String b0 ds ++ String c "" ++ r).
      rewrite <- string_app_assoc.
      replace (S (String.length (String b0 ds)))
        with (String.length (String b0 ds ++ String c "") + 0)
        by (rewrite string_length_app; simpl; lia).
      rewrite digitsLoop_shift.
      rewrite !string_length_app. cbn [String.length].
      replace (S (String.length ds) <? S (String.length ds) + 1 + String.length r)
        with true by (symmetry; apply Nat.ltb_lt; lia).
      cbn [andb].
      destruct (Nat.eqb_spec (Util.digitsLoop (String.length r) r 0) (String.length r))
        as [E | E].
      * rewrite E. apply Nat.eqb_eq. lia.
      * apply Nat.eqb_neq. lia.
    + rewrite andb_false_r. apply Nat.eqb_neq. simpl. rewrite string_length_app.
      simpl. lia.
Qed.

(** What [AsDecimalLiteral] computes on an input that starts with a dot. *)
Lemma AsDecimalLiteral_dot (s : string) :
  Util.AsDecimalLiteral (String "." s) =
    match s with
    | EmptyString => true
    | String c r =>
        Util.isDot c &&
        (Util.digitsLoop (String.length r) r 0 =? String.length r)
    end.
Proof.
  unfold Util.AsDecimalLiteral. cbn [Util.byteAt String.get].
  replace (Util.isDot ".") with true by reflexivity.
  replace (Util.isDigit ".") with false by reflexivity.
  cbn [negb andb].
  destruct s as [|c r]; [reflexivity|].
  cbn [String.length Nat.ltb Nat.leb andb String.get].
  destruct (Util.isDot c) eqn:Hc; [|reflexivity].
  cbn [Nat.sub].
  change (String "." (String c r)) with (String "." (String c "") ++ r).
  change 2 with (String.length (String "." (String c "")) + 0).
  rewrite digitsLoop_shift. cbn [String.length andb]. rewrite Nat.sub_0_r.
  destruct (Nat.eqb_spec (Util.digitsLoop (String.length r) r 0) (String.length r))
    as [E | E].
  - rewrite E. apply Nat.eqb_eq. lia.
  - apply Nat.eqb_neq. lia.
Qed.

(** The digit loop reaches the end of the input exactly on a run of
    digits. *)
Lemma digitsLoop_all (r : string) :
  (Util.digitsLoop (String.length r) r 0 =? String.length r) = Util.allDigits r.
Proof.
  destruct (digitsLoop_split r) as (ds & rest & Hs & Hd & Hr & Hrun).
  rewrite (Hrun _ (le_n _)). subst r.
  rewrite allDigits_app, Hd. cbn [andb]. rewrite string_length_app.
  destruct rest as [|c rest].
  - simpl. apply Nat.eqb_eq. lia.
  - rewrite allDigits_cons, Hr. cbn [andb]. apply Nat.eqb_neq. simpl. lia.
Qed.

(** [AsDecimalLiteral] accepts exactly: a non-empty run of digits; such a
    run followed by a dot and a (possibly empty) run of digits; a lone dot;
    and two dots followed by a (possibly empty) run of digits. *)
Theorem AsDecimalLiteral_accepts (b : string) :
  Util.AsDecimalLiteral b = true <->
  exists ds fs,
    Util.allDigits ds = true /\ Util.allDigits fs = true
    /\ ((ds <> "" /\ (b = ds \/ b = ds ++ "." ++ fs))
        \/ b = "." \/ b = ".." ++ fs).
Proof.
  split.
  - destruct b as [|b0 s]; [discriminate|].
    destruct (Util.isDot b0) eqn:Hdot.
    + apply isDot_eq in Hdot. subst b0. rewrite AsDecimalLiteral_dot.
      destruct s as [|c r].
      * intros _. exists "", "". split; [reflexivity|]. split; [reflexivity|].
        right. left. reflexivity.
      * rewrite digitsLoop_all. intros H. apply andb_prop in H.
        destruct H as [Hc Hr]. apply isDot_eq in Hc. subst c.
        exists "", r. split; [reflexivity|]. split; [exact Hr|].
        right. right. reflexivity.
    + destruct (Util.isDigit b0) eqn:Hdig.
      * destruct (digitsLoop_split s) as (ds & rest & Hs & Hd & Hr & _). subst s.
        assert (Hd0 : Util.allDigits (String b0 ds) = true)
          by (rewrite allDigits_cons, Hdig, Hd; reflexivity).
        change (String b0 (ds ++ rest)) with (String b0 ds ++ rest).
        rewrite AsDecimalLiteral_digits; [ | discriminate | exact Hd0 | exact Hr].
        destruct rest as [|c r].
        -- intros _. rewrite string_app_nil.
           exists (String b0 ds), "". split; [exact Hd0|]. split; [reflexivity|].
           left. split; [discriminate | left; reflexivity].
        -- rewrite digitsLoop_all. intros H. apply andb_prop in H.
           destruct H as [Hc Hf]. apply isDot_eq in Hc. subst c.
           exists (String b0 ds), r. split; [exact Hd0|]. split; [exact Hf|].
           left. split; [discriminate | right; reflexivity].
      * unfold Util.AsDecimalLiteral. cbn [Util.byteAt String.get].
        rewrite Hdig, Hdot. discriminate.
  - intros (ds & fs & Hd & Hf & [[Hne [Hb | Hb]] | [Hb | Hb]]); subst b.
    + rewrite <- (string_app_nil ds).
      rewrite AsDecimalLiteral_digits; [reflexivity | exact Hne | exact Hd | exact I].
    + change ("." ++ fs) with (String "." fs).
      rewrite AsDecimalLiteral_digits; [ | exact Hne | exact Hd | reflexivity].
      rewrite digitsLoop_all, Hf. reflexivity.
    + reflexivity.
    + change (".." ++ fs) with (String "." (String "." fs)).
      rewrite AsDecimalLiteral_dot, digitsLoop_all, Hf. reflexivity.
Qed.

(** A fraction without an integer part, as [.5], is rejected, although the
    same digits behind two dots, as [..5], are accepted. *)
Theorem AsDecimalLiteral_leading_dot (fs : string) :
  fs <> "" -> Util.allDigits fs = true ->
  Util.AsDecimalLiteral ("." ++ fs) = false
  /\ Util.AsDecimalLiteral (".." ++ fs) = true.
Proof.
  intros Hne Hf.
  change ("." ++ fs) with (String "." fs).
  change (".." ++ fs) with (String "." (String "." fs)).
  rewrite !AsDecimalLiteral_dot.
  destruct fs as [|c r]; [congruence|].
  rewrite allDigits_cons in Hf. apply andb_prop in Hf. destruct Hf as [Hc Hr].
  split.
  - rewrite (digit_not_dot _ Hc). reflexivity.
  - rewrite digitsLoop_all. rewrite allDigits_cons, Hc, Hr. reflexivity.
Qed.

Lemma AsDecimalLiteral_leading_dot_witness :
  Util.AsDecimalLiteral ".5" = false /\ Util.AsDecimalLiteral "..5" = true.
Proof.
  apply (@AsDecimalLiteral_leading_dot "5"); [discriminate | reflexivity].
Defined.

Lemma identifierLoop_shift (table : ascii -> bool) (fuel : nat) (pre s : string)
    (i : nat) :
  Util.identifierLoop table fuel (pre ++ s) (String.length pre + i)
  = Util.identifierLoop table fuel s i.
Proof.
  revert i. induction fuel as [|fuel IH]; intros i; simpl; [reflexivity|].
  rewrite string_length_app.
  replace (String.length pre + i <? String.length pre + String.length s)
    with (i <? String.length s)
    by (destruct (Nat.ltb_spec i (String.length s));
        destruct (Nat.ltb_spec (String.length pre + i)
                               (String.length pre + String.length s));
        try reflexivity; lia).
  destruct (i <? String.length s); [|reflexivity].
  unfold Util.byteAt. rewrite string_get_app.
  destruct (String.get i s) as [c|]; [|reflexivity].
  destruct (table c); [|reflexivity].
  rewrite <- IH. f_equal. lia.
Qed.

Lemma identifierLoop_forallb (table : ascii -> bool) (s : string) (fuel : nat) :
  String.length s <= fuel ->
  Util.identifierLoop table fuel s 0 = forallb table (list_ascii_of_string s).
Proof.
  revert fuel. induction s as [|c s IH]; intros fuel Hf.
  - destruct fuel; reflexivity.
  - destruct fuel as [|fuel]; [simpl in Hf; lia|].
    simpl. unfold Util.byteAt. simpl.
    destruct (table c); [|reflexivity]. cbn [andb].
    change (String c s) with (String c "" ++ s).
    change 1 with (String.length (String c "") + 0).
    rewrite identifierLoop_shift. apply IH. simpl in Hf. lia.
Qed.

(** [AsIdentifierName] accepts exactly the non-empty inputs whose first byte
    is in the table of identifier starts and whose other bytes are all in
    the table of identifier parts; bytes are looked up one by one, also
    inside a multi-byte character. *)
Theorem AsIdentifierName_accepts (identifierStartTable identifierTable : ascii -> bool)
    (b : string) :
  Util.AsIdentifierName identifierStartTable identifierTable b =
    match b with
    | EmptyString => false
    | String b0 rest =>
        identifierStartTable b0 && forallb identifierTable (list_ascii_of_string rest)
    end.
Proof.
  destruct b as [|b0 rest]; [reflexivity|].
  unfold Util.AsIdentifierName. cbn [Util.byteAt String.get].
  destruct (identifierStartTable b0); [|reflexivity]. cbn [negb andb].
  change (String b0 rest) with (String b0 "" ++ rest) at 2.
  change 1 with (String.length (String b0 "") + 0).
  rewrite identifierLoop_shift. apply identifierLoop_forallb.
  simpl. lia.
Qed.

(* ================================================================== *)
(** ** Scopes are left as they were found *)
(* ================================================================== *)

Section Balance.

Context {Lexer : Type} {TS : TokenSource Lexer} {TT : TokenTable} {AO : AstOps}.

Lemma worse_Failed (md : Mode) : worse Failed md -> md = Failed.
Proof. intros [H|H]; exact H. Qed.

Lemma flagged_Failed (b : bool) (md : Mode) : flagged b Failed md -> md = Failed.
Proof. intros [[_ H]|H]; exact H. Qed.

Lemma Bal_ret {A : Type} md (x : A) (Q : A -> Mode -> Prop) :
  Q x md -> Balanced md (ret x : M Lexer A) Q.
Proof. intros HQ p y p' H E. inversion E; subst. exists md. auto. Qed.

Lemma Bal_panic {A : Type} md msg (Q : A -> Mode -> Prop) :
  Balanced md (@panic Lexer A msg) Q.
Proof. intros p y p' H E. discriminate. Qed.

Lemma Bal_bind {A B : Type} md (m : M Lexer A) (k : A -> M Lexer B)
    (Q : A -> Mode -> Prop) (R : B -> Mode -> Prop) :
  Balanced md m Q ->
  (forall x md1, Q x md1 -> Balanced md1 (k x) R) ->
  Balanced md (bind m k) R.
Proof.
  intros Hm Hk p y p' H E. unfold bind in E.
  destruct (m p) as [x p1| |] eqn:Em; try discriminate.
  destruct (Hm _ _ _ H Em) as (md1 & H1 & HQ).
  exact (Hk _ _ HQ _ _ _ H1 E).
Qed.

Lemma Bal_weaken {A : Type} md (m : M Lexer A) (Q R : A -> Mode -> Prop) :
  Balanced md m Q -> (forall x md1, Q x md1 -> R x md1) -> Balanced md m R.
Proof.
  intros Hm HQR p x p' H E. destruct (Hm _ _ _ H E) as (md1 & H1 & HQ).
  exists md1. auto.
Qed.

Lemma Bal_bind_gets {A B : Type} md (f : Parser Lexer -> A) (k : A -> M Lexer B)
    (R : B -> Mode -> Prop) :
  (forall v, Balanced md (k v) R) -> Balanced md (bind (gets f) k) R.
Proof. intros Hk p y p' H E. exact (Hk _ _ _ _ H E). Qed.

Lemma Bal_bind_ret {A B : Type} md (v : A) (k : A -> M Lexer B)
    (R : B -> Mode -> Prop) :
  Balanced md (k v) R -> Balanced md (bind (ret v) k) R.
Proof. intros Hk p y p' H E. exact (Hk _ _ _ H E). Qed.

Lemma Bal_bind_panic {A B : Type} md msg (k : A -> M Lexer B) (R : B -> Mode -> Prop) :
  Balanced md (bind (panic msg) k) R.
Proof. intros p y p' H E. discriminate. Qed.

Lemma Bal_assoc {A B C : Type} md (m : M Lexer A) (k1 : A -> M Lexer B)
    (k2 : B -> M Lexer C) (R : C -> Mode -> Prop) :
  Balanced md (bind m (fun x => bind (k1 x) k2)) R ->
  Balanced md (bind (bind m k1) k2) R.
Proof.
  intros Hb p y p' H E. apply (Hb _ _ _ H).
  unfold bind in *. destruct (m p) as [x p1| |]; exact E.
Qed.

Lemma Bal_gets {A : Type} md (f : Parser Lexer -> A) :
  Balanced md (gets f) (fun _ md' => md' = md).
Proof. intros p y p' H E. inversion E; subst. exists md. auto. Qed.

(** An assignment to a field other than [scope] and [err]. *)
Ltac bal_assign :=
  intros p u p' H E; inversion E; subst;
  eexists; split; [ | reflexivity ];
  lazymatch goal with |- holds ?md _ => destruct md; exact H end.

Lemma Bal_setToken md t d l' :
  Balanced md (setToken t d l' : M Lexer unit) (fun _ md' => md' = md).
Proof. bal_assign. Qed.
Lemma Bal_setPrevLT md b :
  Balanced md (setPrevLT b : M Lexer unit) (fun _ md' => md' = md).
Proof. bal_assign. Qed.
Lemma Bal_setInFor md b :
  Balanced md (setInFor b : M Lexer unit) (fun _ md' => md' = md).
Proof. bal_assign. Qed.
Lemma Bal_setFlags md a g :
  Balanced md (setFlags a g : M Lexer unit) (fun _ md' => md' = md).
Proof. bal_assign. Qed.
Lemma Bal_setAssumeArrowFunc md b :
  Balanced md (setAssumeArrowFunc b : M Lexer unit) (fun _ md' => md' = md).
Proof. bal_assign. Qed.
Lemma Bal_setAst md a :
  Balanced md (setAst a : M Lexer unit) (fun _ md' => md' = md).
Proof. bal_assign. Qed.
Lemma Bal_skip md : Balanced md (@skip Lexer) (fun _ md' => md' = md).
Proof. apply Bal_ret. reflexivity. Qed.

(** After [p.fail] and [p.failMessage] an error is recorded. *)
Lemma Bal_fail md in_ expected :
  Balanced md (fail in_ expected : M Lexer unit) (fun _ md' => md' = Failed).
Proof.
  intros p u p' _ E. exists Failed. split; [|reflexivity].
  unfold fail, bind, gets in E. destruct (err p) eqn:Ee.
  - inversion E; subst. simpl. congruence.
  - inversion E; subst. simpl. discriminate.
Qed.

Lemma Bal_failMessage md msg args :
  Balanced md (failMessage msg args : M Lexer unit) (fun _ md' => md' = Failed).
Proof.
  intros p u p' _ E. exists Failed. split; [|reflexivity].
  unfold failMessage, bind, gets in E. destruct (err p) eqn:Ee.
  - inversion E; subst. simpl. congruence.
  - inversion E; subst. simpl. discriminate.
Qed.

(** [enterScope] returns the scope it was called in and leaves the parser
    in another one; [exitScope] leaves it in the scope it is given. *)
Lemma Bal_enterScope_Clean s isFunc :
  Balanced (Clean s) (enterScope isFunc : M Lexer _)
           (fun parent md' => parent = s /\ exists s', md' = Clean s').
Proof.
  intros p x p' H E. unfold enterScope, bind, gets, setAst, setScope, ret in E.
  simpl in H. inversion E; subst.
  eexists (Clean _). split; [reflexivity|]. split; [congruence|]. eexists. reflexivity.
Qed.

Lemma Bal_enterScope_Failed isFunc :
  Balanced Failed (enterScope isFunc : M Lexer _) (fun _ md' => md' = Failed).
Proof.
  intros p x p' H E. unfold enterScope, bind, gets, setAst, setScope, ret in E.
  inversion E; subst. exists Failed. split; [exact H | reflexivity].
Qed.

Lemma Bal_exitScope_Clean s parent :
  Balanced (Clean s) (exitScope parent : M Lexer _) (fun _ md' => md' = Clean parent).
Proof.
  intros p x p' H E.
  unfold exitScope, curScope, bind, gets, setAst, setScope, ret, panic in E.
  destruct (scope p); [|discriminate]. inversion E; subst.
  exists (Clean parent). split; reflexivity.
Qed.

Lemma Bal_exitScope_Failed parent :
  Balanced Failed (exitScope parent : M Lexer _) (fun _ md' => md' = Failed).
Proof.
  intros p x p' H E.
  unfold exitScope, curScope, bind, gets, setAst, setScope, ret, panic in E.
  destruct (scope p); [|discriminate]. inversion E; subst.
  exists Failed. split; [exact H | reflexivity].
Qed.

Create HintDb bal discriminated.

#[local] Hint Resolve Bal_gets Bal_setToken Bal_setPrevLT Bal_setInFor Bal_setFlags
  Bal_setAssumeArrowFunc Bal_setAst Bal_skip Bal_fail Bal_failMessage
  Bal_enterScope_Clean Bal_enterScope_Failed Bal_exitScope_Clean
  Bal_exitScope_Failed : bal.

(** What is known of the state after an operation, brought into the form
    of a mode: a recorded error stays; a clean scope stays or an error is
    recorded. *)
Ltac bal_post H :=
  cbv beta in H; simpl in H;
  lazymatch type of H with
  | worse Failed _ => apply worse_Failed in H; subst
  | flagged _ Failed _ => apply flagged_Failed in H; subst
  | worse (Clean _) _ => destruct H as [H|H]; subst
  | flagged (snd ?x) (Clean _) _ =>
      destruct x; cbn [snd] in H; destruct H as [[? H]|H]; subst
  | flagged _ (Clean _) _ => destruct H as [[? H]|H]; subst
  | _ /\ (exists _, _) => let E := fresh in destruct H as [? [? E]]; subst
  | _ = _ => subst
  | False => contradiction
  end.

(** The side condition of a return. *)
Ltac bal_side :=
  cbv beta; simpl; unfold worse, flagged;
  solve [ reflexivity | left; auto | right; reflexivity | auto ].

Ltac bal_atom :=
  lazymatch goal with
  | H : BalancedRec ?r |- Balanced ?md (call ?r ?c) _ => apply (H md _ c)
  | |- _ => solve [ eauto with bal ]
  end.

Ltac bal_step :=
  lazymatch goal with
  | |- Balanced _ (bind (gets _) _) _ => apply Bal_bind_gets; intro; cbv beta
  | |- Balanced _ (bind (ret _) _) _ => apply Bal_bind_ret; cbv beta
  | |- Balanced _ (bind (panic _) _) _ => apply Bal_bind_panic
  | |- Balanced ?md (bind (bind ?m ?k1) ?k2) _ =>
      first [ eapply (@Bal_bind _ _ _ _ _ _ _ _ md (bind m k1) k2 (fun _ => worse md));
              [ solve [ repeat bal_step ]
              | let H := fresh "HQ" in intros ? ? H; bal_post H; cbv beta ]
            | apply Bal_assoc ]
  | |- Balanced ?md (bind (match ?x with _ => _ end) ?k) _ =>
      first [ progress cbv beta iota
            | progress cbn [negb andb orb fst snd]
            | eapply (@Bal_bind _ _ _ _ _ _ _ _ md _ k (fun _ => worse md));
              [ solve [ repeat bal_step ]
              | let H := fresh "HQ" in intros ? ? H; bal_post H; cbv beta ]
            | destruct x ]
  | |- Balanced _ (bind _ _) _ =>
      eapply Bal_bind;
      [ bal_atom | let H := fresh "HQ" in intros ? ? H; bal_post H; cbv beta ]
  | |- Balanced _ (ret _) _ => apply Bal_ret; bal_side
  | |- Balanced _ (panic _) _ => apply Bal_panic
  | |- Balanced _ (match ?x with _ => _ end) _ =>
      first [ progress cbv beta iota
            | progress cbn [negb andb orb fst snd]
            | destruct x ]
  | |- Balanced _ _ _ =>
      eapply Bal_weaken;
      [ bal_atom | let H := fresh "HQ" in intros ? ? H; bal_post H; bal_side ]
  end.

Ltac bal := repeat bal_step.

Lemma Bal_lexNext : forall md, Balanced md (lexNext : M Lexer _) (fun _ => worse md).
Proof. intros md. unfold lexNext. destruct md; bal. Qed.
#[local] Hint Resolve Bal_lexNext : bal.

Lemma Bal_lexRegExp : forall md, Balanced md (lexRegExp : M Lexer _) (fun _ => worse md).
Proof. intros md. unfold lexRegExp. destruct md; bal. Qed.
#[local] Hint Resolve Bal_lexRegExp : bal.

Lemma Bal_nextLoop (r : Rec Lexer) : BalancedRec r -> forall md, Balanced md (nextLoop r : M Lexer _) (fun _ => worse md).
Proof. intros Hr md. unfold nextLoop. destruct md; bal. Qed.
#[local] Hint Resolve Bal_nextLoop : bal.

Lemma Bal_next (r : Rec Lexer) : BalancedRec r -> forall md, Balanced md (next r : M Lexer _) (fun _ => worse md).
Proof. intros Hr md. unfold next. destruct md; bal. Qed.
#[local] Hint Resolve Bal_next : bal.

Lemma Bal_consume (r : Rec Lexer) in_ t : BalancedRec r -> forall md, Balanced md (consume r in_ t : M Lexer _) (fun ok => flagged ok md).
Proof. intros Hr md. unfold consume. destruct md; bal. Qed.
#[local] Hint Resolve Bal_consume : bal.

Lemma Bal_curScope : forall md, Balanced md (curScope : M Lexer _) (fun _ => worse md).
Proof. intros md. unfold curScope. destruct md; bal. Qed.
#[local] Hint Resolve Bal_curScope : bal.

Lemma Bal_getScope i : forall md, Balanced md (getScope i : M Lexer _) (fun _ => worse md).
Proof. intros md. unfold getScope. destruct md; bal. Qed.
#[local] Hint Resolve Bal_getScope : bal.

Lemma Bal_scopeDeclare decl name : forall md, Balanced md (scopeDeclare decl name : M Lexer _) (fun _ => worse md).
Proof. intros md. unfold scopeDeclare. destruct md; bal. Qed.
#[local] Hint Resolve Bal_scopeDeclare : bal.

Lemma Bal_scopeUse name : forall md, Balanced md (scopeUse name : M Lexer _) (fun _ => worse md).
Proof. intros md. unfold scopeUse. destruct md; bal. Qed.
#[local] Hint Resolve Bal_scopeUse : bal.

Lemma Bal_scopeMarkArguments : forall md, Balanced md (scopeMarkArguments : M Lexer _) (fun _ => worse md).
Proof. intros md. unfold scopeMarkArguments. destruct md; bal. Qed.
#[local] Hint Resolve Bal_scopeMarkArguments : bal.

Lemma Bal_astAddVar decl name : forall md, Balanced md (astAddVar decl name : M Lexer _) (fun _ => worse md).
Proof. intros md. unfold astAddVar. destruct md; bal. Qed.
#[local] Hint Resolve Bal_astAddVar : bal.

Lemma Bal_isIdentifierReference t : forall md, Balanced md (isIdentifierReference t : M Lexer _) (fun _ => worse md).
Proof. intros md. unfold isIdentifierReference. destruct md; bal. Qed.
#[local] Hint Resolve Bal_isIdentifierReference : bal.

Lemma Bal_parseModuleLoop (r : Rec Lexer) list_ : BalancedRec r -> forall md, Balanced md (parseModuleLoop r list_ : M Lexer _) (fun _ => worse md).
Proof. intros Hr md. unfold parseModuleLoop. destruct md; bal. Qed.
#[local] Hint Resolve Bal_parseModuleLoop : bal.

Lemma Bal_returned stmt : forall md, Balanced md (returned stmt : M Lexer _) (fun _ => worse md).
Proof. intros md. unfold returned. destruct md; bal. Qed.
#[local] Hint Resolve Bal_returned : bal.

Lemma Bal_falls stmt : forall md, Balanced md (falls stmt : M Lexer _) (fun _ => worse md).
Proof. intros md. unfold falls. destruct md; bal. Qed.
#[local] Hint Resolve Bal_falls : bal.

Lemma Bal_terminated in_ stmt : forall md, Balanced md (terminated in_ stmt : M Lexer _) (fun _ => worse md).
Proof. intros md. unfold terminated. destruct md; bal. Qed.
#[local] Hint Resolve Bal_terminated : bal.

Lemma Bal_stmtBlock (r : Rec Lexer) : BalancedRec r -> forall md, Balanced md (stmtBlock r : M Lexer _) (fun _ => worse md).
Proof. intros Hr md. unfold stmtBlock. destruct md; bal. Qed.
#[local] Hint Resolve Bal_stmtBlock : bal.

Lemma Bal_stmtVar (r : Rec Lexer) allowDeclaration t : BalancedRec r -> forall md, Balanced md (stmtVar r allowDeclaration t : M Lexer _) (fun _ => worse md).
Proof. intros Hr md. unfold stmtVar. destruct md; bal. Qed.
#[local] Hint Resolve Bal_stmtVar : bal.

Lemma Bal_stmtLet (r : Rec Lexer) allowDeclaration t : BalancedRec r -> forall md, Balanced md (stmtLet r allowDeclaration t : M Lexer _) (fun _ => worse md).
Proof. intros Hr md. unfold stmtLet. destruct md; bal. Qed.
#[local] Hint Resolve Bal_stmtLet : bal.

Lemma Bal_stmtIf (r : Rec Lexer) : BalancedRec r -> forall md, Balanced md (stmtIf r : M Lexer _) (fun _ => worse md).
Proof. intros Hr md. unfold stmtIf. destruct md; bal. Qed.
#[local] Hint Resolve Bal_stmtIf : bal.

Lemma Bal_stmtBranch (r : Rec Lexer) : BalancedRec r -> forall md, Balanced md (stmtBranch r : M Lexer _) (fun _ => worse md).
Proof. intros Hr md. unfold stmtBranch. destruct md; bal. Qed.
#[local] Hint Resolve Bal_stmtBranch : bal.

Lemma Bal_stmtReturn (r : Rec Lexer) : BalancedRec r -> forall md, Balanced md (stmtReturn r : M Lexer _) (fun _ => worse md).
Proof. intros Hr md. unfold stmtReturn. destruct md; bal. Qed.
#[local] Hint Resolve Bal_stmtReturn : bal.

Lemma Bal_stmtWith (r : Rec Lexer) : BalancedRec r -> forall md, Balanced md (stmtWith r : M Lexer _) (fun _ => worse md).
Proof. intros Hr md. unfold stmtWith. destruct md; bal. Qed.
#[local] Hint Resolve Bal_stmtWith : bal.

Lemma Bal_stmtDo (r : Rec Lexer) : BalancedRec r -> forall md, Balanced md (stmtDo r : M Lexer _) (fun _ => worse md).
Proof. intros Hr md. unfold stmtDo. destruct md; bal. Qed.
#[local] Hint Resolve Bal_stmtDo : bal.

Lemma Bal_stmtWhile (r : Rec Lexer) : BalancedRec r -> forall md, Balanced md (stmtWhile r : M Lexer _) (fun _ => worse md).
Proof. intros Hr md. unfold stmtWhile. destruct md; bal. Qed.
#[local] Hint Resolve Bal_stmtWhile : bal.

Lemma Bal_forInitExpr (r : Rec Lexer) : BalancedRec r -> forall md, Balanced md (forInitExpr r : M Lexer _) (fun _ => worse md).
Proof. intros Hr md. unfold forInitExpr. destruct md; bal. Qed.
#[local] Hint Resolve Bal_forInitExpr : bal.

Lemma Bal_forInit (r : Rec Lexer) : BalancedRec r -> forall md, Balanced md (forInit r : M Lexer _) (fun _ => worse md).
Proof. intros Hr md. unfold forInit. destruct md; bal. Qed.
#[local] Hint Resolve Bal_forInit : bal.

Lemma Bal_forRest (r : Rec Lexer) await init : BalancedRec r -> forall md, Balanced md (forRest r await init : M Lexer _) (fun _ => worse md).
Proof. intros Hr md. unfold forRest. destruct md; bal. Qed.
#[local] Hint Resolve Bal_forRest : bal.

Lemma Bal_stmtFor (r : Rec Lexer) : BalancedRec r -> forall md, Balanced md (stmtFor r : M Lexer _) (fun _ => worse md).
Proof. intros Hr md. unfold stmtFor. destruct md; bal. Qed.
#[local] Hint Resolve Bal_stmtFor : bal.

Lemma Bal_switchStmtsLoop (r : Rec Lexer) stmts : BalancedRec r -> forall md, Balanced md (switchStmtsLoop r stmts : M Lexer _) (fun _ => worse md).
Proof. intros Hr md. unfold switchStmtsLoop. destruct md; bal. Qed.
#[local] Hint Resolve Bal_switchStmtsLoop : bal.

Lemma Bal_switchClausesLoop (r : Rec Lexer) clauses : BalancedRec r -> forall md, Balanced md (switchClausesLoop r clauses : M Lexer _) (fun _ => worse md).
Proof. intros Hr md. unfold switchClausesLoop. destruct md; bal. Qed.
#[local] Hint Resolve Bal_switchClausesLoop : bal.

Lemma Bal_stmtSwitch (r : Rec Lexer) : BalancedRec r -> forall md, Balanced md (stmtSwitch r : M Lexer _) (fun _ => worse md).
Proof. intros Hr md. unfold stmtSwitch. destruct md; bal. Qed.
#[local] Hint Resolve Bal_stmtSwitch : bal.

Lemma Bal_stmtFunction (r : Rec Lexer) allowDeclaration : BalancedRec r -> forall md, Balanced md (stmtFunction r allowDeclaration : M Lexer _) (fun _ => worse md).
Proof. intros Hr md. unfold stmtFunction. destruct md; bal. Qed.
#[local] Hint Resolve Bal_stmtFunction : bal.

Lemma Bal_stmtAsync (r : Rec Lexer) allowDeclaration : BalancedRec r -> forall md, Balanced md (stmtAsync r allowDeclaration : M Lexer _) (fun _ => worse md).
Proof. intros Hr md. unfold stmtAsync. destruct md; bal. Qed.
#[local] Hint Resolve Bal_stmtAsync : bal.

Lemma Bal_stmtClass (r : Rec Lexer) allowDeclaration : BalancedRec r -> forall md, Balanced md (stmtClass r allowDeclaration : M Lexer _) (fun _ => worse md).
Proof. intros Hr md. unfold stmtClass. destruct md; bal. Qed.
#[local] Hint Resolve Bal_stmtClass : bal.

Lemma Bal_stmtThrow (r : Rec Lexer) : BalancedRec r -> forall md, Balanced md (stmtThrow r : M Lexer _) (fun _ => worse md).
Proof. intros Hr md. unfold stmtThrow. destruct md; bal. Qed.
#[local] Hint Resolve Bal_stmtThrow : bal.

Lemma Bal_stmtTry (r : Rec Lexer) : BalancedRec r -> forall md, Balanced md (stmtTry r : M Lexer _) (fun _ => worse md).
Proof. intros Hr md. unfold stmtTry. destruct md; bal. Qed.
#[local] Hint Resolve Bal_stmtTry : bal.

Lemma Bal_stmtDefault (r : Rec Lexer) : BalancedRec r -> forall md, Balanced md (stmtDefault r : M Lexer _) (fun _ => worse md).
Proof. intros Hr md. unfold stmtDefault. destruct md; bal. Qed.
#[local] Hint Resolve Bal_stmtDefault : bal.

Lemma Bal_stmtSwitchCases (r : Rec Lexer) allowDeclaration t : BalancedRec r -> forall md, Balanced md (stmtSwitchCases r allowDeclaration t : M Lexer _) (fun _ => worse md).
Proof. intros Hr md. unfold stmtSwitchCases. destruct md; bal. Qed.
#[local] Hint Resolve Bal_stmtSwitchCases : bal.

Lemma Bal_parseStmt (r : Rec Lexer) allowDeclaration : BalancedRec r -> forall md, Balanced md (parseStmt r allowDeclaration : M Lexer _) (fun _ => worse md).
Proof. intros Hr md. unfold parseStmt. destruct md; bal. Qed.
#[local] Hint Resolve Bal_parseStmt : bal.

Lemma Bal_blockStmtLoop (r : Rec Lexer) list_ : BalancedRec r -> forall md, Balanced md (blockStmtLoop r list_ : M Lexer _) (fun x => flagged (snd x) md).
Proof. intros Hr md. unfold blockStmtLoop. destruct md; bal. Qed.
#[local] Hint Resolve Bal_blockStmtLoop : bal.

Lemma Bal_parseBlockStmt (r : Rec Lexer) in_ enterContext : BalancedRec r -> forall md, Balanced md (parseBlockStmt r in_ enterContext : M Lexer _) (fun _ => worse md).
Proof. intros Hr md. unfold parseBlockStmt. destruct enterContext; destruct md; bal. Qed.
#[local] Hint Resolve Bal_parseBlockStmt : bal.

Lemma Bal_importListLoop (r : Rec Lexer) list_ : BalancedRec r -> forall md, Balanced md (importListLoop r list_ : M Lexer _) (fun _ => worse md).
Proof. intros Hr md. unfold importListLoop. destruct md; bal. Qed.
#[local] Hint Resolve Bal_importListLoop : bal.

Lemma Bal_importClause (r : Rec Lexer) : BalancedRec r -> forall md, Balanced md (importClause r : M Lexer _) (fun _ => worse md).
Proof. intros Hr md. unfold importClause. destruct md; bal. Qed.
#[local] Hint Resolve Bal_importClause : bal.

Lemma Bal_parseImportStmt (r : Rec Lexer) : BalancedRec r -> forall md, Balanced md (parseImportStmt r : M Lexer _) (fun _ => worse md).
Proof. intros Hr md. unfold parseImportStmt. destruct md; bal. Qed.
#[local] Hint Resolve Bal_parseImportStmt : bal.

Lemma Bal_exportListLoop (r : Rec Lexer) list_ : BalancedRec r -> forall md, Balanced md (exportListLoop r list_ : M Lexer _) (fun _ => worse md).
Proof. intros Hr md. unfold exportListLoop. destruct md; bal. Qed.
#[local] Hint Resolve Bal_exportListLoop : bal.

Lemma Bal_exportList (r : Rec Lexer) : BalancedRec r -> forall md, Balanced md (exportList r : M Lexer _) (fun _ => worse md).
Proof. intros Hr md. unfold exportList. destruct md; bal. Qed.
#[local] Hint Resolve Bal_exportList : bal.

Lemma Bal_exportDefault (r : Rec Lexer) : BalancedRec r -> forall md, Balanced md (exportDefault r : M Lexer _) (fun _ => worse md).
Proof. intros Hr md. unfold exportDefault. destruct md; bal. Qed.
#[local] Hint Resolve Bal_exportDefault : bal.

Lemma Bal_parseExportStmt (r : Rec Lexer) : BalancedRec r -> forall md, Balanced md (parseExportStmt r : M Lexer _) (fun _ => worse md).
Proof. intros Hr md. unfold parseExportStmt. destruct md; bal. Qed.
#[local] Hint Resolve Bal_parseExportStmt : bal.

Lemma Bal_varDeclLoop (r : Rec Lexer) declType list_ : BalancedRec r -> forall md, Balanced md (varDeclLoop r declType list_ : M Lexer _) (fun _ => worse md).
Proof. intros Hr md. unfold varDeclLoop. destruct md; bal. Qed.
#[local] Hint Resolve Bal_varDeclLoop : bal.

Lemma Bal_parseVarDecl (r : Rec Lexer) t : BalancedRec r -> forall md, Balanced md (parseVarDecl r t : M Lexer _) (fun _ => worse md).
Proof. intros Hr md. unfold parseVarDecl. destruct md; bal. Qed.
#[local] Hint Resolve Bal_parseVarDecl : bal.

Lemma Bal_funcParamsLoop (r : Rec Lexer) in_ list_ : BalancedRec r -> forall md, Balanced md (funcParamsLoop r in_ list_ : M Lexer _) (fun _ => worse md).
Proof. intros Hr md. unfold funcParamsLoop. destruct md; bal. Qed.
#[local] Hint Resolve Bal_funcParamsLoop : bal.

Lemma Bal_parseFuncParams (r : Rec Lexer) in_ : BalancedRec r -> forall md, Balanced md (parseFuncParams r in_ : M Lexer _) (fun _ => worse md).
Proof. intros Hr md. unfold parseFuncParams. destruct md; bal. Qed.
#[local] Hint Resolve Bal_parseFuncParams : bal.

Lemma Bal_parseAnyFunc (r : Rec Lexer) async_ inExpr : BalancedRec r -> forall md, Balanced md (parseAnyFunc r async_ inExpr : M Lexer _) (fun _ => worse md).
Proof. intros Hr md. unfold parseAnyFunc. destruct md; bal. Qed.
#[local] Hint Resolve Bal_parseAnyFunc : bal.

Lemma Bal_classMethodsLoop (r : Rec Lexer) methods : BalancedRec r -> forall md, Balanced md (classMethodsLoop r methods : M Lexer _) (fun _ => worse md).
Proof. intros Hr md. unfold classMethodsLoop. destruct md; bal. Qed.
#[local] Hint Resolve Bal_classMethodsLoop : bal.

Lemma Bal_parseAnyClass (r : Rec Lexer) inExpr : BalancedRec r -> forall md, Balanced md (parseAnyClass r inExpr : M Lexer _) (fun _ => worse md).
Proof. intros Hr md. unfold parseAnyClass. destruct md; bal. Qed.
#[local] Hint Resolve Bal_parseAnyClass : bal.

Lemma Bal_methodModifiers (r : Rec Lexer) : BalancedRec r -> forall md, Balanced md (methodModifiers r : M Lexer _) (fun _ => worse md).
Proof. intros Hr md. unfold methodModifiers. destruct md; bal. Qed.
#[local] Hint Resolve Bal_methodModifiers : bal.

Lemma Bal_parseMethod (r : Rec Lexer) : BalancedRec r -> forall md, Balanced md (parseMethod r : M Lexer _) (fun _ => worse md).
Proof. intros Hr md. unfold parseMethod. destruct md; bal. Qed.
#[local] Hint Resolve Bal_parseMethod : bal.

Lemma Bal_parsePropertyName (r : Rec Lexer) in_ : BalancedRec r -> forall md, Balanced md (parsePropertyName r in_ : M Lexer _) (fun _ => worse md).
Proof. intros Hr md. unfold parsePropertyName. destruct md; bal. Qed.
#[local] Hint Resolve Bal_parsePropertyName : bal.

Lemma Bal_parseBindingElement (r : Rec Lexer) decl : BalancedRec r -> forall md, Balanced md (parseBindingElement r decl : M Lexer _) (fun _ => worse md).
Proof. intros Hr md. unfold parseBindingElement. destruct md; bal. Qed.
#[local] Hint Resolve Bal_parseBindingElement : bal.

Lemma Bal_bindingElisionLoop (r : Rec Lexer) list_ : BalancedRec r -> forall md, Balanced md (bindingElisionLoop r list_ : M Lexer _) (fun _ => worse md).
Proof. intros Hr md. unfold bindingElisionLoop. destruct md; bal. Qed.
#[local] Hint Resolve Bal_bindingElisionLoop : bal.

Lemma Bal_bindingArrayLoop (r : Rec Lexer) decl list_ : BalancedRec r -> forall md, Balanced md (bindingArrayLoop r decl list_ : M Lexer _) (fun _ => worse md).
Proof. intros Hr md. unfold bindingArrayLoop. destruct md; bal. Qed.
#[local] Hint Resolve Bal_bindingArrayLoop : bal.

Lemma Bal_bindingObjectItem (r : Rec Lexer) decl : BalancedRec r -> forall md, Balanced md (bindingObjectItem r decl : M Lexer _) (fun _ => worse md).
Proof. intros Hr md. unfold bindingObjectItem. destruct md; bal. Qed.
#[local] Hint Resolve Bal_bindingObjectItem : bal.

Lemma Bal_bindingObjectLoop (r : Rec Lexer) decl list_ : BalancedRec r -> forall md, Balanced md (bindingObjectLoop r decl list_ : M Lexer _) (fun _ => worse md).
Proof. intros Hr md. unfold bindingObjectLoop. destruct md; bal. Qed.
#[local] Hint Resolve Bal_bindingObjectLoop : bal.

Lemma Bal_parseBinding (r : Rec Lexer) decl : BalancedRec r -> forall md, Balanced md (parseBinding r decl : M Lexer _) (fun _ => worse md).
Proof. intros Hr md. unfold parseBinding. destruct md; bal. Qed.
#[local] Hint Resolve Bal_parseBinding : bal.

Lemma Bal_arrayLiteralLoop (r : Rec Lexer) prevComma list_ : BalancedRec r -> forall md, Balanced md (arrayLiteralLoop r prevComma list_ : M Lexer _) (fun _ => worse md).
Proof. intros Hr md. unfold arrayLiteralLoop. destruct md; bal. Qed.
#[local] Hint Resolve Bal_arrayLiteralLoop : bal.

Lemma Bal_parseArrayLiteral (r : Rec Lexer) : BalancedRec r -> forall md, Balanced md (parseArrayLiteral r : M Lexer _) (fun _ => worse md).
Proof. intros Hr md. unfold parseArrayLiteral. destruct md; bal. Qed.
#[local] Hint Resolve Bal_parseArrayLiteral : bal.

Lemma Bal_objectPropertyName (r : Rec Lexer) : BalancedRec r -> forall md, Balanced md (objectPropertyName r : M Lexer _) (fun _ => worse md).
Proof. intros Hr md. unfold objectPropertyName. destruct md; bal. Qed.
#[local] Hint Resolve Bal_objectPropertyName : bal.

Lemma Bal_objectProperty (r : Rec Lexer) : BalancedRec r -> forall md, Balanced md (objectProperty r : M Lexer _) (fun _ => worse md).
Proof. intros Hr md. unfold objectProperty. destruct md; bal. Qed.
#[local] Hint Resolve Bal_objectProperty : bal.

Lemma Bal_objectLiteralLoop (r : Rec Lexer) list_ : BalancedRec r -> forall md, Balanced md (objectLiteralLoop r list_ : M Lexer _) (fun _ => worse md).
Proof. intros Hr md. unfold objectLiteralLoop. destruct md; bal. Qed.
#[local] Hint Resolve Bal_objectLiteralLoop : bal.

Lemma Bal_parseObjectLiteral (r : Rec Lexer) : BalancedRec r -> forall md, Balanced md (parseObjectLiteral r : M Lexer _) (fun _ => worse md).
Proof. intros Hr md. unfold parseObjectLiteral. destruct md; bal. Qed.
#[local] Hint Resolve Bal_parseObjectLiteral : bal.

Lemma Bal_parseTemplateLiteral (r : Rec Lexer) : BalancedRec r -> forall md, Balanced md (parseTemplateLiteral r : M Lexer _) (fun _ => worse md).
Proof. intros Hr md. unfold parseTemplateLiteral. destruct md; bal. Qed.
#[local] Hint Resolve Bal_parseTemplateLiteral : bal.

Lemma Bal_argsLoop (r : Rec Lexer) list_ : BalancedRec r -> forall md, Balanced md (argsLoop r list_ : M Lexer _) (fun _ => worse md).
Proof. intros Hr md. unfold argsLoop. destruct md; bal. Qed.
#[local] Hint Resolve Bal_argsLoop : bal.

Lemma Bal_parseArgs (r : Rec Lexer) : BalancedRec r -> forall md, Balanced md (parseArgs r : M Lexer _) (fun _ => worse md).
Proof. intros Hr md. unfold parseArgs. destruct md; bal. Qed.
#[local] Hint Resolve Bal_parseArgs : bal.

Lemma Bal_parseArrowFuncBody (r : Rec Lexer) : BalancedRec r -> forall md, Balanced md (parseArrowFuncBody r : M Lexer _) (fun _ => worse md).
Proof. intros Hr md. unfold parseArrowFuncBody. destruct md; bal. Qed.
#[local] Hint Resolve Bal_parseArrowFuncBody : bal.

Lemma Bal_parseAsyncArrowFunc (r : Rec Lexer) : BalancedRec r -> forall md, Balanced md (parseAsyncArrowFunc r : M Lexer _) (fun _ => worse md).
Proof. intros Hr md. unfold parseAsyncArrowFunc. destruct md; bal. Qed.
#[local] Hint Resolve Bal_parseAsyncArrowFunc : bal.

Lemma Bal_detachIdentifier ref : forall md, Balanced md (detachIdentifier ref : M Lexer _) (fun _ => worse md).
Proof. intros md. unfold detachIdentifier. destruct md; bal. Qed.
#[local] Hint Resolve Bal_detachIdentifier : bal.

Lemma Bal_parseIdentifierArrowFunc (r : Rec Lexer) ref : BalancedRec r -> forall md, Balanced md (parseIdentifierArrowFunc r ref : M Lexer _) (fun _ => worse md).
Proof. intros Hr md. unfold parseIdentifierArrowFunc. destruct md; bal. Qed.
#[local] Hint Resolve Bal_parseIdentifierArrowFunc : bal.

Lemma Bal_parseIdentifierExpression (r : Rec Lexer) prec ident : BalancedRec r -> forall md, Balanced md (parseIdentifierExpression r prec ident : M Lexer _) (fun _ => worse md).
Proof. intros Hr md. unfold parseIdentifierExpression. destruct md; bal. Qed.
#[local] Hint Resolve Bal_parseIdentifierExpression : bal.

Lemma Bal_parseAsyncExpression (r : Rec Lexer) prec async_ : BalancedRec r -> forall md, Balanced md (parseAsyncExpression r prec async_ : M Lexer _) (fun _ => worse md).
Proof. intros Hr md. unfold parseAsyncExpression. destruct md; bal. Qed.
#[local] Hint Resolve Bal_parseAsyncExpression : bal.

Lemma Bal_returnExpr e : forall md, Balanced md (returnExpr e : M Lexer _) (fun _ => worse md).
Proof. intros md. unfold returnExpr. destruct md; bal. Qed.
#[local] Hint Resolve Bal_returnExpr : bal.

Lemma Bal_leftExpr left precLeft : forall md, Balanced md (leftExpr left precLeft : M Lexer _) (fun _ => worse md).
Proof. intros md. unfold leftExpr. destruct md; bal. Qed.
#[local] Hint Resolve Bal_leftExpr : bal.

Lemma Bal_exprUnary (r : Rec Lexer) prec limit op : BalancedRec r -> forall md, Balanced md (exprUnary r prec limit op : M Lexer _) (fun _ => worse md).
Proof. intros Hr md. unfold exprUnary. destruct md; bal. Qed.
#[local] Hint Resolve Bal_exprUnary : bal.

Lemma Bal_exprParen (r : Rec Lexer) prec : BalancedRec r -> forall md, Balanced md (exprParen r prec : M Lexer _) (fun _ => worse md).
Proof. intros Hr md. unfold exprParen. destruct md; bal. Qed.
#[local] Hint Resolve Bal_exprParen : bal.

Lemma Bal_exprAwait (r : Rec Lexer) prec t : BalancedRec r -> forall md, Balanced md (exprAwait r prec t : M Lexer _) (fun _ => worse md).
Proof. intros Hr md. unfold exprAwait. destruct md; bal. Qed.
#[local] Hint Resolve Bal_exprAwait : bal.

Lemma Bal_exprNew (r : Rec Lexer) : BalancedRec r -> forall md, Balanced md (exprNew r : M Lexer _) (fun _ => worse md).
Proof. intros Hr md. unfold exprNew. destruct md; bal. Qed.
#[local] Hint Resolve Bal_exprNew : bal.

Lemma Bal_exprImport (r : Rec Lexer) prec : BalancedRec r -> forall md, Balanced md (exprImport r prec : M Lexer _) (fun _ => worse md).
Proof. intros Hr md. unfold exprImport. destruct md; bal. Qed.
#[local] Hint Resolve Bal_exprImport : bal.

Lemma Bal_exprSuper (r : Rec Lexer) prec : BalancedRec r -> forall md, Balanced md (exprSuper r prec : M Lexer _) (fun _ => worse md).
Proof. intros Hr md. unfold exprSuper. destruct md; bal. Qed.
#[local] Hint Resolve Bal_exprSuper : bal.

Lemma Bal_exprYield (r : Rec Lexer) prec : BalancedRec r -> forall md, Balanced md (exprYield r prec : M Lexer _) (fun _ => worse md).
Proof. intros Hr md. unfold exprYield. destruct md; bal. Qed.
#[local] Hint Resolve Bal_exprYield : bal.

Lemma Bal_exprLiteral (r : Rec Lexer) : BalancedRec r -> forall md, Balanced md (exprLiteral r : M Lexer _) (fun _ => worse md).
Proof. intros Hr md. unfold exprLiteral. destruct md; bal. Qed.
#[local] Hint Resolve Bal_exprLiteral : bal.

Lemma Bal_exprAsync (r : Rec Lexer) prec : BalancedRec r -> forall md, Balanced md (exprAsync r prec : M Lexer _) (fun _ => worse md).
Proof. intros Hr md. unfold exprAsync. destruct md; bal. Qed.
#[local] Hint Resolve Bal_exprAsync : bal.

Lemma Bal_exprTemplate (r : Rec Lexer) : BalancedRec r -> forall md, Balanced md (exprTemplate r : M Lexer _) (fun _ => worse md).
Proof. intros Hr md. unfold exprTemplate. destruct md; bal. Qed.
#[local] Hint Resolve Bal_exprTemplate : bal.

Lemma Bal_exprSwitchCases (r : Rec Lexer) prec t : BalancedRec r -> forall md, Balanced md (exprSwitchCases r prec t : M Lexer _) (fun _ => worse md).
Proof. intros Hr md. unfold exprSwitchCases. destruct md; bal. Qed.
#[local] Hint Resolve Bal_exprSwitchCases : bal.

Lemma Bal_relexRegExp : forall md, Balanced md (relexRegExp : M Lexer _) (fun _ => worse md).
Proof. intros md. unfold relexRegExp. destruct md; bal. Qed.
#[local] Hint Resolve Bal_relexRegExp : bal.

Lemma Bal_parseExpression (r : Rec Lexer) prec : BalancedRec r -> forall md, Balanced md (parseExpression r prec : M Lexer _) (fun _ => worse md).
Proof. intros Hr md. unfold parseExpression. destruct md; bal. Qed.
#[local] Hint Resolve Bal_parseExpression : bal.

Lemma Bal_suffixInfix (r : Rec Lexer) t left prec precLeft level minLeft right : BalancedRec r -> forall md, Balanced md (suffixInfix r t left prec precLeft level minLeft right : M Lexer _) (fun _ => worse md).
Proof. intros Hr md. unfold suffixInfix. destruct md; bal. Qed.
#[local] Hint Resolve Bal_suffixInfix : bal.

Lemma Bal_suffixCompare (r : Rec Lexer) t left prec precLeft : BalancedRec r -> forall md, Balanced md (suffixCompare r t left prec precLeft : M Lexer _) (fun _ => worse md).
Proof. intros Hr md. unfold suffixCompare. destruct md; bal. Qed.
#[local] Hint Resolve Bal_suffixCompare : bal.

Lemma Bal_suffixNullish (r : Rec Lexer) t left prec precLeft : BalancedRec r -> forall md, Balanced md (suffixNullish r t left prec precLeft : M Lexer _) (fun _ => worse md).
Proof. intros Hr md. unfold suffixNullish. destruct md; bal. Qed.
#[local] Hint Resolve Bal_suffixNullish : bal.

Lemma Bal_suffixDot (r : Rec Lexer) left precLeft : BalancedRec r -> forall md, Balanced md (suffixDot r left precLeft : M Lexer _) (fun _ => worse md).
Proof. intros Hr md. unfold suffixDot. destruct md; bal. Qed.
#[local] Hint Resolve Bal_suffixDot : bal.

Lemma Bal_suffixIndex (r : Rec Lexer) left precLeft : BalancedRec r -> forall md, Balanced md (suffixIndex r left precLeft : M Lexer _) (fun _ => worse md).
Proof. intros Hr md. unfold suffixIndex. destruct md; bal. Qed.
#[local] Hint Resolve Bal_suffixIndex : bal.

Lemma Bal_suffixCall (r : Rec Lexer) left prec precLeft : BalancedRec r -> forall md, Balanced md (suffixCall r left prec precLeft : M Lexer _) (fun _ => worse md).
Proof. intros Hr md. unfold suffixCall. destruct md; bal. Qed.
#[local] Hint Resolve Bal_suffixCall : bal.

Lemma Bal_suffixTemplate (r : Rec Lexer) left precLeft : BalancedRec r -> forall md, Balanced md (suffixTemplate r left precLeft : M Lexer _) (fun _ => worse md).
Proof. intros Hr md. unfold suffixTemplate. destruct md; bal. Qed.
#[local] Hint Resolve Bal_suffixTemplate : bal.

Lemma Bal_suffixOptChain (r : Rec Lexer) left prec : BalancedRec r -> forall md, Balanced md (suffixOptChain r left prec : M Lexer _) (fun _ => worse md).
Proof. intros Hr md. unfold suffixOptChain. destruct md; bal. Qed.
#[local] Hint Resolve Bal_suffixOptChain : bal.

Lemma Bal_suffixUpdate (r : Rec Lexer) op left prec precLeft : BalancedRec r -> forall md, Balanced md (suffixUpdate r op left prec precLeft : M Lexer _) (fun _ => worse md).
Proof. intros Hr md. unfold suffixUpdate. destruct md; bal. Qed.
#[local] Hint Resolve Bal_suffixUpdate : bal.

Lemma Bal_suffixCond (r : Rec Lexer) left prec precLeft : BalancedRec r -> forall md, Balanced md (suffixCond r left prec precLeft : M Lexer _) (fun _ => worse md).
Proof. intros Hr md. unfold suffixCond. destruct md; bal. Qed.
#[local] Hint Resolve Bal_suffixCond : bal.

Lemma Bal_suffixComma (r : Rec Lexer) t left prec : BalancedRec r -> forall md, Balanced md (suffixComma r t left prec : M Lexer _) (fun _ => worse md).
Proof. intros Hr md. unfold suffixComma. destruct md; bal. Qed.
#[local] Hint Resolve Bal_suffixComma : bal.

Lemma Bal_suffixArrow (r : Rec Lexer) left prec precLeft : BalancedRec r -> forall md, Balanced md (suffixArrow r left prec precLeft : M Lexer _) (fun _ => worse md).
Proof. intros Hr md. unfold suffixArrow. destruct md; bal. Qed.
#[local] Hint Resolve Bal_suffixArrow : bal.

Lemma Bal_suffixSwitchCases (r : Rec Lexer) t left prec precLeft : BalancedRec r -> forall md, Balanced md (suffixSwitchCases r t left prec precLeft : M Lexer _) (fun _ => worse md).
Proof. intros Hr md. unfold suffixSwitchCases. destruct md; bal. Qed.
#[local] Hint Resolve Bal_suffixSwitchCases : bal.

Lemma Bal_parseExpressionSuffix (r : Rec Lexer) left prec precLeft : BalancedRec r -> forall md, Balanced md (parseExpressionSuffix r left prec precLeft : M Lexer _) (fun _ => worse md).
Proof. intros Hr md. unfold parseExpressionSuffix. destruct md; bal. Qed.
#[local] Hint Resolve Bal_parseExpressionSuffix : bal.

Lemma Bal_parseAssignmentExpression (r : Rec Lexer) : BalancedRec r -> forall md, Balanced md (parseAssignmentExpression r : M Lexer _) (fun _ => worse md).
Proof. intros Hr md. unfold parseAssignmentExpression. destruct md; bal. Qed.
#[local] Hint Resolve Bal_parseAssignmentExpression : bal.

Lemma Bal_parenListLoop (r : Rec Lexer) list_ : BalancedRec r -> forall md, Balanced md (parenListLoop r list_ : M Lexer _) (fun _ => worse md).
Proof. intros Hr md. unfold parenListLoop. destruct md; bal. Qed.
#[local] Hint Resolve Bal_parenListLoop : bal.

Lemma Bal_parenFinish_Clean (r : Rec Lexer) prec parent self parentAssumeArrowFunc list_ rest : BalancedRec r -> forall s, Balanced (Clean s) (parenFinish r prec parent self parentAssumeArrowFunc list_ rest : M Lexer _) (fun _ => worse (Clean parent)).
Proof. intros Hr s. unfold parenFinish. bal. Qed.
Lemma Bal_parenFinish_Failed (r : Rec Lexer) prec parent self parentAssumeArrowFunc list_ rest : BalancedRec r -> Balanced Failed (parenFinish r prec parent self parentAssumeArrowFunc list_ rest : M Lexer _) (fun _ => worse Failed).
Proof. intros Hr . unfold parenFinish. bal. Qed.
#[local] Hint Resolve Bal_parenFinish_Clean Bal_parenFinish_Failed : bal.

Lemma Bal_parseParenthesizedExpressionOrArrowFunc (r : Rec Lexer) prec : BalancedRec r -> forall md, Balanced md (parseParenthesizedExpressionOrArrowFunc r prec : M Lexer _) (fun _ => worse md).
Proof. intros Hr md. unfold parseParenthesizedExpressionOrArrowFunc. destruct md; bal. Qed.
#[local] Hint Resolve Bal_parseParenthesizedExpressionOrArrowFunc : bal.


Lemma Bal_dispatch (r : Rec Lexer) : BalancedRec r -> BalancedRec (dispatch r).
Proof.
  intros Hr md A c. destruct c; simpl; eauto with bal.
Qed.

Lemma Bal_parser (fuel : nat) : BalancedRec (parser fuel).
Proof.
  induction fuel as [|fuel IH].
  - intros md A c p x p' _ E. discriminate.
  - simpl. apply Bal_dispatch, IH.
Qed.

Lemma promise_worse {A : Type} (c : Call A) (md md' : Mode) (x : A) :
  promise c md x md' -> worse md md'.
Proof.
  destruct c; simpl; try (intros H; exact H).
  intros [[_ H]|H]; [left | right]; exact H.
Qed.

(** A balanced operation that returns without a recorded error returns in
    the scope it was started in. *)
Lemma Balanced_scope {A : Type} (m : M Lexer A) (p : Parser Lexer) x p' :
  Balanced (Clean (scope p)) m (fun _ => worse (Clean (scope p))) ->
  m p = Ret x p' -> err p' = None -> scope p' = scope p.
Proof.
  intros Hm E He. destruct (Hm p x p' eq_refl E) as (md' & Hh & [Hw|Hw]); subst md'.
  - exact Hh.
  - simpl in Hh. congruence.
Qed.

End Balance.

(** Scope discipline: every parse function that returns without a recorded
    error leaves [p.scope] as it found it: each scope it entered has been
    exited.  (On an error path a function may return inside a scope it
    entered.) *)
Theorem scope_balanced :
  forall (Lexer : Type) (TS : TokenSource Lexer) (TT : TokenTable) (AO : AstOps)
         (fuel : nat) (A : Type) (c : Call A) (p : Parser Lexer) (x : A)
         (p' : Parser Lexer),
    call (parser fuel) c p = Ret x p' ->
    err p' = None ->
    scope p' = scope p.
Proof.
  intros Lexer TS TT AO fuel A c p x p' E He.
  eapply (Balanced_scope (m := call (parser fuel) c)); [ | exact E | exact He].
  eapply Bal_weaken; [apply Bal_parser|].
  intros y md1 H. eapply promise_worse. exact H.
Qed.

(* ================================================================== *)
(** ** Further theorems at concrete states *)
(* ================================================================== *)

Lemma scope_balanced_witness :
  scope Inputs.afterGenerator = scope States.atGenerator.
Proof.
  eapply (@scope_balanced _ _ _ _ 50 _ (ParseAnyFunc false false) States.atGenerator
            (mkFuncDecl false true (Some 0) (mkParams [] NilBinding)
               (mkBlockStmt
                  [ExprStmt (YieldExpr false (Literal (mkLiteralExpr NumericToken "1")))]
                  None)
               (Some 1))
            Inputs.afterGenerator).
  - vm_compute. reflexivity.
  - reflexivity.
Defined.

Lemma next_stops_at_token_witness :
  isSkipped (tt States.afterReturn) = false.
Proof.
  assert (H : next (parser 10) States.atReturn = Ret Datatypes.tt States.afterReturn)
    by (vm_compute; reflexivity).
  exact (proj1 (@next_stops_at_token _ _ _ _ _ _ _ _ H)).
Defined.

Lemma consume_answers_witness :
  l Inputs.afterFail = l States.atEnd.
Proof.
  assert (H : consume (parser 10) "statement" SemicolonToken States.atEnd
              = Ret false Inputs.afterFail)
    by (vm_compute; reflexivity).
  exact (proj1 (proj2 (proj2 (@consume_answers _ _ _ _ _ _ _ _ _ _ H)) eq_refl)).
Defined.

Lemma fail_reports_lexer_error_witness :
  fail "regular expression" [] Inputs.afterBadRegExp
  = Ret Datatypes.tt
        (withError Inputs.afterBadRegExp
                   (Errorf "unexpected EOF or newline in regular expression" [])).
Proof.
  apply (@fail_reports_lexer_error _ _ _ _ "regular expression" []
           Inputs.afterBadRegExp 1 "unexpected EOF or newline").
  - reflexivity.
  - reflexivity.
  - reflexivity.
Defined.

Lemma Parse_empty_input_witness :
  value (Parse 0 (start eof))
  = Some (setModule (setScopes newAST [mkScope None (Some 0) [] [] 0])
                    (mkModule [] (Some 0)),
          None).
Proof.
  eapply Parse_empty_input.
  - reflexivity.
  - reflexivity.
Defined.

Lemma throw_line_terminator_witness :
  stmtSwitchCases (parser 10) true ThrowToken Inputs.atThrow
  = Ret (ThrowStmt NilExpr, true) Inputs.afterThrow.
Proof.
  pose proof (proj1 throw_line_terminator) as H.
  specialize (H _ _ _ _ (parser 10) true Inputs.atThrow Inputs.afterThrow).
  rewrite H; [reflexivity | vm_compute; reflexivity].
Defined.

Lemma branch_label_line_terminator_witness :
  stmtSwitchCases (parser 10) true BreakToken Inputs.atBreak
  = Ret (BranchStmt BreakToken None, true) Inputs.afterBreak.
Proof.
  pose proof (proj1 branch_label_line_terminator) as H.
  specialize (H _ _ _ _ (parser 10) true Inputs.atBreak Inputs.afterBreak).
  change BreakToken with (tt Inputs.atBreak) at 1.
  rewrite H; [reflexivity | left; reflexivity | vm_compute; reflexivity].
Defined.

Lemma postfix_update_line_terminator_witness :
  parseExpressionSuffix (parser 10) (VarRefExpr 0) OpExpr OpPrimary Inputs.atIncr
  = Ret (VarRefExpr 0) Inputs.atIncr.
Proof.
  apply (proj1 postfix_update_line_terminator _ _ _ Resolver.ops).
  - left. reflexivity.
  - reflexivity.
Defined.

Lemma var_statement_needs_terminator_witness :
  parseStmt (parser 30) true Inputs.atVar
  = Ret (VarDeclS (mkVarDecl VarToken [mkBindingElement (VarRefBinding 0) NilExpr]))
        (withError Inputs.afterVarDecl
                   (Errorf (failMsg "var statement" [] Inputs.afterVarDecl) [])).
Proof.
  apply (proj1 var_statement_needs_terminator _ _ _ _ (parser 30) true
               Inputs.atVar Inputs.afterVar Inputs.afterVarDecl).
  - reflexivity.
  - vm_compute. reflexivity.
  - vm_compute. reflexivity.
  - reflexivity.
  - reflexivity.
Defined.

Lemma declaration_refused_as_body_witness :
  parseStmt (parser 10) false Inputs.atConst
  = Ret NilStmt
        (withError Inputs.atConst (Errorf (failMsg "statement" [] Inputs.atConst) [])).
Proof.
  apply (proj1 declaration_refused_as_body).
  - left. reflexivity.
  - reflexivity.
Defined.

Lemma exprToBinding_drops_after_spread_witness :
  exprToBinding (ArrayExpr [mkElement (VarRefExpr 0) false; mkElement (VarRefExpr 1) true;
                            mkElement (VarRefExpr 2) false])
  = exprToBinding (ArrayExpr [mkElement (VarRefExpr 0) false;
                              mkElement (VarRefExpr 1) true]).
Proof.
  apply (@exprToBinding_drops_after_spread
           [mkElement (VarRefExpr 0) false] [mkElement (VarRefExpr 2) false]
           (VarRefExpr 1)).
  constructor; [reflexivity | constructor].
Defined.

Lemma binary_operators_group_witness :
  Examples.parsed 100 (Inputs.twoOperators AddToken MulToken)
  = Some ([ExprStmt (BinaryExpr AddToken (VarRefExpr 0)
                       (BinaryExpr MulToken (VarRefExpr 1) (VarRefExpr 2)))],
          None).
Proof.
  apply (@binary_operators_group AddToken MulToken).
  - unfold Inputs.leftOperators. simpl. tauto.
  - unfold Inputs.leftOperators. simpl. tauto.
Defined.

Lemma exponent_operator_witness :
  exists offset,
    Examples.parsed 100 (Inputs.prefixThenExp SubToken)
    = Some ([ExprStmt NilExpr],
            Some (parse_Error offset "unexpected '**' in expression")).
Proof.
  apply (proj2 exponent_operator SubToken).
  unfold Inputs.prefixOperators. simpl. tauto.
Defined.

Lemma halted_parser_reads_nothing_witness :
  l Inputs.afterHalted = l States.failed
  /\ data Inputs.afterHalted = data States.failed
  /\ tt Inputs.afterHalted = ErrorToken
  /\ err Inputs.afterHalted = Some (fmt_Error "unexpected ')' in expression").
Proof.
  apply (@halted_parser_reads_nothing _ _ _ _ 10 _ (ParseExpression OpExpr)
           States.failed (fmt_Error "unexpected ')' in expression") NilExpr
           Inputs.afterHalted).
  - reflexivity.
  - reflexivity.
  - reflexivity.
  - reflexivity.
  - reflexivity.
  - reflexivity.
  - vm_compute. reflexivity.
Defined.

Lemma error_leaves_error_token_witness :
  err Inputs.afterConst = None
  \/ (tt Inputs.afterConst = ErrorToken /\ err Inputs.afterConst <> None).
Proof.
  apply (@error_leaves_error_token _ _ _ _ 10 _ (ParseStmt false)
           Inputs.atConst NilStmt Inputs.afterConst).
  - reflexivity.
  - reflexivity.
  - reflexivity.
  - reflexivity.
  - vm_compute. reflexivity.
Defined.

Lemma template_single_substitution_witness :
  parseTemplateLiteral (parser 30) Inputs.atTemplate
  = Ret ([mkTemplatePart "`a${" (VarRefExpr 0)], "")
        (withError Inputs.afterTemplateExpr
           (Errorf (failMsg "template literal" [TemplateToken] Inputs.afterTemplateExpr)
                   [])).
Proof.
  apply (proj1 template_single_substitution _ _ _ _ (parser 30)
               Inputs.atTemplate Inputs.afterTemplateStart Inputs.afterTemplateExpr).
  - left. reflexivity.
  - vm_compute. reflexivity.
  - vm_compute. reflexivity.
  - discriminate.
  - reflexivity.
Defined.

Lemma arguments_without_comma_witness :
  argsLoop (parser 30) [] Inputs.atFirstArg
  = call (parser 30) (ArgsLoop (append [] (VarRefExpr 0))) Inputs.afterFirstArg.
Proof.
  apply (proj1 arguments_without_comma _ _ _ _ (parser 30) []
               Inputs.atFirstArg Inputs.afterFirstArg).
  - discriminate.
  - discriminate.
  - discriminate.
  - vm_compute. reflexivity.
  - discriminate.
Defined.

Lemma let_as_identifier_witness :
  stmtSwitchCases (parser 30) true (tt Inputs.atLet) Inputs.atLet
  = bind (call (parser 30) (ParseIdentifierExpression OpExpr (data Inputs.atLet)))
         (fun e => terminated "expression" (ExprStmt e)) Inputs.afterLet.
Proof.
  apply (proj1 let_as_identifier _ _ _ _ (parser 30) true Inputs.atLet Inputs.afterLet).
  - reflexivity.
  - vm_compute. reflexivity.
  - right. repeat split; discriminate.
Defined.

Lemma object_spread_conversion_panics_witness :
  exprToBinding
    (ObjectExpr ([] ++ [mkProperty zeroPropertyName true
                          (Literal (mkLiteralExpr NumericToken "1")) NilExpr]))
  = None.
Proof.
  apply (proj1 object_spread_conversion_panics).
  - constructor.
  - discriminate.
Defined.


Lemma nullish_not_mixed_witness :
  parseExpressionSuffix (parser 30) (VarRefExpr 0) OpExpr OpOr Inputs.atNullish
  = refused Inputs.atNullish.
Proof.
  refine (proj1 (proj1 nullish_not_mixed _ _ _ _ (parser 30) (VarRefExpr 0)
                       OpExpr OpOr Inputs.atNullish _) _ _ _ _).
  - reflexivity.
  - reflexivity.
  - reflexivity.
  - reflexivity.
  - discriminate.
Defined.

Lemma Parse_terminates_witness :
  Parse 100 (start Examples.generatorDecl)
  = Parse (fuelStep * (Inputs.lexerSize (start Examples.generatorDecl) + 2))
          (start Examples.generatorDecl)
  /\ ((exists msg, Parse 100 (start Examples.generatorDecl) = Panic msg)
      \/ (exists a e p', Parse 100 (start Examples.generatorDecl) = Ret (a, e) p')).
Proof.
  apply (@Parse_terminates _ _ _ Resolver.ops Inputs.lexerSize).
  - reflexivity.
  - reflexivity.
  - reflexivity.
  - exact Script_next_size.
  - exact Script_regexp_size.
  - apply Nat.leb_le. vm_compute. reflexivity.
Defined.

Lemma calls_read_input_witness :
  tt Inputs.afterVarDecl = ErrorToken
  \/ (err Inputs.afterVarDecl = None
      /\ if strictCall (ParseVarDecl VarToken)
         then Inputs.lexerSize (l Inputs.afterVarDecl) < Inputs.lexerSize (l Inputs.afterVar)
         else Inputs.lexerSize (l Inputs.afterVarDecl) <= Inputs.lexerSize (l Inputs.afterVar)).
Proof.
  refine (@calls_read_input _ Script.source Script.tables Resolver.ops Inputs.lexerSize
            _ _ _ Script_next_size Script_regexp_size
            20 _ (ParseVarDecl VarToken) Inputs.afterVar
            (mkVarDecl VarToken [mkBindingElement (VarRefBinding 0) NilExpr])
            Inputs.afterVarDecl _ _).
  - reflexivity.
  - reflexivity.
  - reflexivity.
  - reflexivity.
  - vm_compute. reflexivity.
Defined.

Lemma missing_statement_at_end_witness :
  parseStmt (parser 10) false States.atEnd = Ret EmptyStmt States.atEnd.
Proof.
  apply (proj1 missing_statement_at_end).
  reflexivity.
Defined.
